(* ===== verification/_CoqProject ===== *)
-Q . S2P
Prelude.v
JsNum.v
Geodesy.v
Haversine.v
Fleet.v
Requests.v
Optimizer.v
Sequencer.v
Locator.v
Composer.v
Metrics.v
Wind.v
Routing.v
View.v
MapView.v
Workflow.v
Pages.v
FormView.v
