(* ===== verification/Prelude.v ===== *)
(** * Verification of the hybrid truck/drone delivery planner

    The repository is a React front end.  Its algorithmic core lives in two
    pages:

    - [src/Frontend/src/pages/NewTrip.jsx]: the trip form, the great-circle
      distance [getDistance] (miles), the assignment optimizer
      [optimizeTrip] (one delivery by drone, the rest by truck, scored by
      hybrid carbon), the [submit] handler that stores the winning trip in
      browser storage, and the edit prefill that turns a stored trip back
      into a delivery list.
    - [src/Frontend/src/pages/PathPlanning.jsx]: the great-circle distance
      [haversineDistance] (kilometres), the nearest-neighbour truck route
      [nearestNeighborRoute], the launch/landing locator
      [closestPointOnPolyline], the split of the truck path at the launch
      point ([truckDistanceToLaunch], [truckDistanceAfterLaunch]), the
      traversal list with its step letters, the per-segment time
      [getSegmentTime], the page's time and carbon figures, the effects
      that load the stored trip and the stored prediction, that fetch the
      road route and the wind, the page itself (sidebar, map frame,
      markers, polylines, annotations), and the "Execute Delivery" /
      "Edit Delivery" handlers.

    ** How the program is modelled

    Numbers.  A JavaScript number is modelled as an exact rational [Q] with
    its setoid equality [==]; every finite double is a rational, and the
    model abstracts from rounding of the arithmetic.  The values JavaScript
    adds to the rationals are modelled where the code depends on them:
    [Infinity] as the initial running minimum is [None : option Q]
    ([lt_inf]); [NaN]/[null]/[undefined] results are [None]; a thrown
    [TypeError] is [None] in the option monad.  [toFixed], [Math.round] and
    [Math.max] are in [JsNum].

    Distance.  [getDistance] and [haversineDistance] call [Math.sin],
    [Math.cos], [Math.atan2] and [Math.sqrt].  File [Haversine] defines the
    formula over the real numbers, line by line, and proves what the
    algorithms rely on (symmetry, zero on equal points, non-negativity, the
    half-circumference bound, the miles/kilometres ratio).  The algorithms
    themselves are written against the interface [Geodesy.Geodesy]: a
    distance function on rational coordinates with exactly those laws, so
    every theorem holds for any implementation of the formula that keeps
    them.  [Geodesy.taxicab] is an executable instance used to evaluate the
    definitions on concrete inputs.

    Loops.  The three "running minimum" loops of the source (nearest
    unvisited delivery, closest sample on the polyline, closest segment
    midpoint) share the shape [if (d < minDist) { minDist = d; best = i }]
    starting from [Infinity].  They are modelled by one definition,
    [scan_from]/[scan_min] below, whose invariant [scan_inv] is proved once
    and used by each component.  The [while] loop of the route sequencer is
    defined by well-founded recursion on the number of unvisited deliveries
    (Equations), so it is total; the same loop is also the transition
    system of its iterations, with a run bounded by fuel, and the two are
    proved to agree.

    Effects.  The two [async] functions of the plan page are split at
    their [await]: the part before it and the part after it are the two
    operations of the interface [Requests.Fetch], the answer of the service
    being a parameter of the second.  The machine of [Requests] pairs the
    state of an effect with the number of its requests that are out;
    [Workflow.step] runs both effects on the page among the other events.
    An effect runs after the first render of a page and after a render in
    which one of its dependencies is not what it was at its last run; the
    state keeps those dependencies ([Workflow.Deps]), as the arrays and
    points whose text the code compares.  The token, which is a dependency
    too, does not change.  The handler of "Execute Delivery" is split at
    its [await] too: a click keeps what its render showed
    ([Workflow.Post]), and the rest of the handler runs when the request
    ends, on the store and the page as they are then; navigation does not
    end a handler that waits.

    ** Files

    - [Prelude] (this file): scope and notations, boolean comparisons on [Q]
      with their reflection lemmas and [Decision] instances, the tactics
      [qbool] and [inv_some], the hint database [geo], loops over an array
      with their invariant rule ([for_each_inv]), the running-minimum scan,
      sums of rationals, the index filter of JavaScript's
      [Array.filter((_, idx) => ...)], termination by a measure
      ([sn_measure]).
    - [JsNum]: [toFixed], [Math.round], [Math.max], division that can
      produce a non-finite value, truthiness of numbers and of strings,
      whole numbers, and [Array.from] on a length with its [RangeError]
      from 2{^32} on.
    - [Geodesy]: coordinates, the [Geodesy] interface, linear
      interpolation, midpoints, length of a path, the [taxicab] instance.
    - [Haversine]: the real-number formula of [getDistance] and
      [haversineDistance] and its laws.
    - [Fleet]: deliveries, drones, the eligibility filter of
      [optimizeTrip].
    - [Requests]: the interface [Fetch] of an effect that asks a service,
      its laws [FetchLaws], the machine [flight_step] of the requests that
      are out with its invariant, and the theorem that every request ends
      ([flights_settle]).
    - [Optimizer]: [optimizeTrip] with every field of the trip record it
      builds, including the values rounded by [toFixed] that the loop
      compares later candidates against.
    - [Sequencer]: [nearestNeighborRoute], as a function ([nn_loop]) and
      as the iterations of its [while] loop ([while_pass], [iteration],
      [run]).
    - [Locator]: [closestPointOnPolyline], [truckDistanceToLaunch],
      [truckDistanceAfterLaunch].
    - [Composer]: what a render of [PathPlanning] derives from the stored
      trip ([pageOf]), the launch point on the path ([launchOf]), the
      insertion index, the traversal list with its step letters, and
      [getTypeDisplayMessage].
    - [Metrics]: the load effect of the stored prediction
      ([loadXgbResult]), [getSegmentTime], the render from its guard to its
      figures ([figuresOf], [computeFigures]): trip time, carbon figures,
      truck-only time, time saved; and [formatTimeMinutes].
    - [Wind]: the wind effect of [PathPlanning] as an instance of
      [Requests.Fetch] ([fetchWind_start], [fetchWind_end]), the runs of
      overlapping requests ([wind_step]) and the wind line of the sidebar
      ([windLine]).
    - [Routing]: the route effect of [PathPlanning]: its guard
      ([routeGuard]), [fetchRoute] with the check of the token, the
      waypoints of the request ([coordsStr]), the decoding of the answer
      ([geometryOf], [polylineOf]), the [catch], as an instance of
      [Requests.Fetch] ([fetchRoute_start], [fetchRoute_end]); the token of
      the build is the field of the class [Env].
    - [View]: the elements of the page the render returns ([viewOf]): the
      headline figures, the prediction panel ([mlPanelOf]), the list of
      stops with the time under each arrow ([stepRows], [timeCell]), the
      table of locations, the markers of the map ([markersOf], one for
      each distinct position, [sameCoordIndices]), the two polylines and
      the time annotations ([annotationsOf]).
    - [MapView]: the frame of the map ([mapFrameOf]: zoom, centre, base
      layers, controls), the helper [FitBounds] with the bounds of Leaflet
      ([latLngBounds]), [letterIcon], the five icons declared with it and
      the icon of a marker.
    - [Workflow]: browser storage and the React state of the two pages as
      a record ([App]), the handlers and effects ([mountNewTrip], [setNum],
      [setField], [submit], [mountPathPlanning], [routeStart],
      [routeResult], [windStart], [windResult], [executeClick],
      [executeResult], [edit]) as
      functions on it, the transition relation [step] with the states
      [reachable] from the start, and the invariant [wf] of the runs.  A
      run starts on the form with a fleet and with any text, or none, in
      the item [xgbResult] of the store ([init]): the two pages read that
      item and never write it.  [step] says which handler or effect can
      run in which state; it is the model of React's dispatch, not of lines
      of the source.  The state holds, for each of the two fetch effects, the number of
      requests that are out; mounting a page starts anew, since the
      answers to a page that was left are dropped, and the mount of the
      plan page sends the request of its first render, which has the
      placeholder order ([mountRoutes]).  A plan page whose render has
      thrown takes no event ([drawn]).  [routeStart] and [windStart] are
      the runs of the two effects after a render, enabled when
      [routeChanged] or [windChanged] says that a dependency changed.  The
      class [Units] holds the two distances of the two pages.
    - [Pages]: the theorems on the runs of [Workflow.step] and the runs
      that witness them.
    - [FormView]: the form [NewTrip] draws as the list of its inputs
      ([formInputs]) with their attributes, values and [onChange] events,
      and the validation of the browser ([form_valid]) read off [type],
      [required] and [min]: a number input that has no [step] takes whole
      steps from its [min].

    ** What the theorems show

    - Optimizer: the result splits the deliveries into one drone delivery
      and the others in their order (partition); the chosen drone is the
      first eligible one; no plan is returned exactly when no delivery has
      an eligible drone; the stored hybrid carbon is minimal up to the
      rounding of [toFixed(2)] and within 0.01 of the minimum; the plan is
      the one candidate that is strictly below the rounded carbon of every
      earlier candidate and whose rounded carbon is not above any later
      one ([beats]), so for every distance an earlier candidate is kept against a later one that is
      better by less than the rounding, because the loop compares a raw
      value with a rounded one; a plan is well typed
      ([trip_wf]): which fields are set, the sign and the decimals of its
      numbers.
    - Sequencer: the route is the depot followed by a greedy walk
      ([Greedy], the specification as a relation, which has at most one
      route); it is a permutation of the deliveries and has no return leg;
      the [while] loop terminates: its iterations are strongly
      normalising and deterministic, never throw, and reach the result of
      the function after one iteration for each delivery.
    - Locator: the two nested loops compute the first minimum over the
      list of all samples ([closest_spec]); a returned point lies on the
      returned segment at the returned fraction, which is between 0 and 1,
      and no sample is nearer; no point is returned exactly for a path of
      fewer than two points or with no samples; the two truck distances
      throw exactly when they read past the path, and their sum is the path
      length when the launch point is a vertex of the path, for every
      distance, and at least the path length under the triangle
      inequality.  It is the path length at every fraction only for a
      distance that is additive along a segment, which [Haversine] shows
      the formula of the code is not.
    - Composer: [insertIdx] is one past the first segment with the nearest
      midpoint; the stops are HQ, truck stops, Launch, DroneDelivery,
      Landing, truck stops, the truck stops being the route in order; the
      labels are the code units from 65 on; without a launch point the
      depot is typed Truck.
    - Metrics: a render ends in the placeholder, in a thrown [TypeError]
      or in the figures ([Render]); the render throws exactly when the path
      is the depot alone; the total time takes the longer of the drone trip
      and the truck's remaining route; the carbon reduction is guarded
      against a zero baseline; the carbon saved is at most what flying the
      drone leg instead of driving it saves, and it is negative as soon as
      the hybrid truck distance exceeds the truck-only distance; the time
      saved is never
      positive on the heuristic route; the segment times on every branch;
      [formatTimeMinutes]; a stored prediction that cannot be read is no
      prediction.
    - Requests: while the flag of an effect is set a request is out and no
      error is shown; once the effect asks no more, the answers left are
      finitely many and after the last the flag is clear.  The theorems
      are proved from [FetchLaws], which [Wind] and [Routing] discharge.
    - Wind: in every state the effect can reach, with any interleaving
      of requests, the wind line shows at most one of its three texts, and
      never a speed of zero; the line stops showing "Loading...".
    - Routing: the waypoints sent and the positions received are read in
      the same order; the check of the token inside [fetchRoute] is never
      reached from the effect; the message that straight lines are shown
      is true of requests that do not overlap, and a run of two
      overlapping requests shows that it is not true in general.
    - View: the page is drawn exactly when its figures are computed (the
      markers never throw); every stop is on exactly one marker; the
      landing site always shares the marker of the launch site; the list
      of stops has a time under every stop but the last; the two time
      annotations coincide and show half of the prediction.
    - MapView: the map of a drawn page of a plan with a truck delivery
      is centred on the depot and fitted to the least rectangle that holds
      the stops; the five declared icons are never drawn.
    - Workflow: an invariant of all reachable states of the application
      (every stored plan is a plan of the optimizer for its own deliveries,
      the plan page has the latest trip loaded, the form has as many rows
      as its number field says, a request for the wind is out only for
      a plan with a truck delivery, the states of the two fetch effects
      with their requests that are out are states of the machines of
      [Routing] and [Wind]).
    - Pages: the outcome of a [Submit] the browser accepts, which reads
      whole weights and as many rows as the number of deliveries says
      unless that number is 2{^32} or more; on the plan
      page the render throws exactly when the form had one delivery, and
      what the page draws otherwise; the effects of the end of a request
      of "Execute Delivery", on whatever page it ends;
      editing a plan and submitting it again, when the browser accepts the
      prefilled form, does not raise the stored carbon; every step runs
      the two fetch effects as their machines; a page has at most two
      requests for the route out, and three for the route and the wind
      together; on a page that is there the
      route and the wind stop loading when the answers of the requests
      that are out have arrived, and the wind is asked for exactly on the
      pages that are drawn.
    - FormView: the guard of the [Submit] step is the validation of the
      inputs the form draws; a weight with a fraction is refused.

    Each theorem that has a hypothesis is applied to a concrete input by a
    lemma named after it with the suffix [_witness]; those inputs are
    evaluated with the [taxicab] distance.

    ** Bounds and what is not modelled

    Step letters are UTF-16 code units [65 + idx]; they are letters only for
    the first 26 stops.  [samplesPerSegment] is a natural number; the call
    site passes 50, and 0 yields no launch point (every sample is [NaN]).
    The functions use no fuel: the loops over arrays are structural and
    the [while] loop is well-founded.  The one definition with fuel is
    [Sequencer.run], the bounded run of the iterations of that loop; one
    unit for each unvisited delivery is enough ([run_enough]), and with
    less the run gives no route.  The two pages measure in different units
    ([getDistance] in miles, [haversineDistance] in kilometres); [Workflow]
    therefore takes two distances, the class [Units].  Requests that are
    out are counted by a natural number; nothing bounds it.

    Not modelled: floating-point rounding; the CSS of the elements other
    than the colour of a stop and the size of an icon; the HTTP requests
    to Mapbox and OpenWeather and the POST to [/api/trips/createTrip]
    themselves; what [JSON.parse] makes of a stored text; text in a
    latitude or longitude of the form that is not a number; an exception
    in the handler of "Execute Delivery" other than a failed POST.  The
    answer of the routing service, the response of the weather service,
    the stored prediction, the outcome of the POST, the token of the build
    and the clock are inputs of the model.  The page [TripResults], the
    server, the predictor and the context [useDrones] that gives the form
    its fleet are not in the sources: the fleet is a parameter of a run
    and stays as it is, also after "Execute Delivery" has marked a drone
    in [dronesList].  Leaflet's [L.latLngBounds] and the validation the
    browser runs on the attributes of an input are written from their
    documentation.  The state [mapSize] and the import [Resizable] are
    declared and never used. *)

From Stdlib Require Export QArith Qround Qminmax Qabs Lqa Lia.
From stdpp Require Export base list option.
From stdpp Require Import relations.

Global Open Scope Q_scope.

(** ** Boolean comparisons on rationals, as JavaScript's [<] and [>=] *)

Definition Qltb (x y : Q) : bool := negb (Qle_bool y x).

Declare Scope js_scope.
Delimit Scope js_scope with js.
Notation "x <? y" := (Qltb x y) (at level 70, no associativity) : js_scope.
Notation "x >=? y" := (Qle_bool y x) (at level 70, no associativity) : js_scope.


Lemma Qltb_lt (x y : Q) : Qltb x y = true <-> x < y.
Proof.
  unfold Qltb. rewrite negb_true_iff, <- not_true_iff_false, Qle_bool_iff. lra.
Qed.

Lemma Qltb_ge (x y : Q) : Qltb x y = false <-> y <= x.
Proof. unfold Qltb. rewrite negb_false_iff, Qle_bool_iff. tauto. Qed.

Lemma Qle_bool_gt (x y : Q) : Qle_bool x y = false <-> y < x.
Proof. rewrite <- not_true_iff_false, Qle_bool_iff. lra. Qed.

#[export] Instance Qltb_proper : Proper (Qeq ==> Qeq ==> eq) Qltb.
Proof. intros x x' Hx y y' Hy. unfold Qltb. now rewrite Hx, Hy. Qed.

#[export] Instance Qle_decision (x y : Q) : Decision (x <= y).
Proof. destruct (Qlt_le_dec y x); [right; lra | left; assumption]. Defined.

#[export] Instance Qlt_decision (x y : Q) : Decision (x < y).
Proof. destruct (Qlt_le_dec x y); [left; assumption | right; lra]. Defined.

#[export] Instance Qeq_decision (x y : Q) : Decision (x == y) := Qeq_dec x y.

(** ** Tactics and hints *)

(** [qbool] turns every boolean comparison among the hypotheses and in the
    goal into the order it decides. *)
Ltac qbool :=
  repeat match goal with
  | H : Qltb _ _ = true |- _ => apply Qltb_lt in H
  | H : Qltb _ _ = false |- _ => apply Qltb_ge in H
  | H : Qle_bool _ _ = true |- _ => apply Qle_bool_iff in H
  | H : Qle_bool _ _ = false |- _ => apply Qle_bool_gt in H
  | |- Qltb _ _ = true => apply Qltb_lt
  | |- Qltb _ _ = false => apply Qltb_ge
  | |- Qle_bool _ _ = true => apply Qle_bool_iff
  | |- Qle_bool _ _ = false => apply Qle_bool_gt
  end.

(** [qcase b as E] splits on a boolean comparison and reflects both cases. *)
Tactic Notation "qcase" constr(b) "as" ident(E) := destruct b eqn:E; qbool.

(** [inv_some] uses every hypothesis [Some x = Some y] and closes the goal on
    [Some _ = None]. *)
Ltac inv_some :=
  repeat match goal with
  | H : Some _ = Some _ |- _ => injection H as H; try subst
  | H : Some _ = None |- _ => discriminate H
  | H : None = Some _ |- _ => discriminate H
  | H : (_, _) = (_, _) |- _ => injection H as ? ?; try subst
  end.

Create HintDb geo discriminated.
Create Rewrite HintDb qsimp.
#[export] Hint Resolve Qle_refl Qle_trans Qlt_le_weak : geo.
#[export] Hint Extern 2 (_ <= _)%Q => lra : geo.
#[export] Hint Extern 2 (_ < _)%Q => lra : geo.
#[export] Hint Extern 2 (_ == _)%Q => lra : geo.
#[export] Hint Extern 2 (_ < _)%nat => lia : geo.
#[export] Hint Extern 2 (_ <= _)%nat => lia : geo.

(** ** The running minimum that starts at [Infinity] *)

(** [d < minDist] where [minDist] is [Infinity] ([None]) or a number. *)
Definition lt_inf (d : Q) (m : option Q) : bool :=
  match m with
  | None => true
  | Some m => Qltb d m
  end.

(** ** Loops over an array with its index *)

Section ForEach.
Context {A St : Type} (body : St -> nat -> A -> St).

(** [for (i = i0; i < l.length; i++) st = body(st, i, l[i])], over the
    elements from [i0] on. *)
Fixpoint for_each_from (i : nat) (l : list A) (st : St) : St :=
  match l with
  | [] => st
  | a :: l' => for_each_from (S i) l' (body st i a)
  end.

Definition for_each (l : list A) (st : St) : St := for_each_from 0 l st.

Lemma for_each_from_app i l1 l2 st :
  for_each_from i (l1 ++ l2) st =
  for_each_from (i + length l1) l2 (for_each_from i l1 st).
Proof.
  revert i st. induction l1 as [|a l1 IH]; intros i st; simpl.
  - now rewrite Nat.add_0_r.
  - rewrite IH. f_equal. lia.
Qed.

Lemma for_each_snoc l a st :
  for_each (l ++ [a]) st = body (for_each l st) (length l) a.
Proof. unfold for_each. now rewrite for_each_from_app. Qed.

(** The invariant rule: an invariant of the elements seen so far that
    holds before the loop and is kept by the body holds after it. *)
Lemma for_each_inv (Inv : list A -> St -> Prop) l st0 :
  Inv [] st0 ->
  (forall pre a st, l !! length pre = Some a -> pre `prefix_of` l ->
     Inv pre st -> Inv (pre ++ [a]) (body st (length pre) a)) ->
  Inv l (for_each l st0).
Proof.
  intros H0 Hstep. induction l as [|a l IH] using rev_ind; [exact H0|].
  rewrite for_each_snoc. apply Hstep.
  - apply list_lookup_middle; reflexivity.
  - now exists [a].
  - apply IH. intros pre b st Hb [suf ->] Hpre. apply Hstep; [| |exact Hpre].
    + now apply lookup_app_l_Some.
    + exists (suf ++ [a]). now rewrite app_assoc.
Qed.

End ForEach.

Section Scan.
Context {A : Type} (key : A -> Q).

(** The loop state: [minDist] and the record kept for the best element so
    far (its index and the element). *)
Definition scan_state : Type := option Q * option (nat * A).

(** One iteration: [if (d < minDist) { minDist = d; best = (i, a) }]. *)
Definition scan_step (st : scan_state) (i : nat) (a : A) : scan_state :=
  if lt_inf (key a) st.1 then (Some (key a), Some (i, a)) else st.

Definition scan_from (i : nat) (l : list A) (st : scan_state) : scan_state :=
  for_each_from scan_step i l st.

Definition scan_min (l : list A) : option (nat * A) :=
  (scan_from 0 l (None, None)).2.

(** The invariant of the loop after the elements [pre]: nothing recorded and
    nothing seen, or the recorded element is the first minimum of [pre]. *)
Definition scan_inv (pre : list A) (st : scan_state) : Prop :=
  match st with
  | (None, None) => pre = []
  | (Some m, Some (i, a)) =>
      m = key a /\ pre !! i = Some a /\
      (forall j b, pre !! j = Some b -> key a <= key b) /\
      (forall j b, pre !! j = Some b -> (j < i)%nat -> key a < key b)
  | _ => False
  end.

Lemma scan_step_inv pre st a :
  scan_inv pre st -> scan_inv (pre ++ [a]) (scan_step st (length pre) a).
Proof.
  destruct st as [[m|] [[i b]|]]; simpl; try tauto.
  - intros (-> & Hi & Hmin & Hfst). unfold scan_step; simpl.
    qcase (Qltb (key a) (key b)) as E; simpl; repeat split.
    + apply list_lookup_middle; reflexivity.
    + intros j c [[_ Hj]|[_ <-]]%lookup_snoc_Some; [|lra].
      specialize (Hmin _ _ Hj). lra.
    + intros j c [[_ Hj]|[-> <-]]%lookup_snoc_Some Hlt; [|lia].
      specialize (Hmin _ _ Hj). lra.
    + apply lookup_app_l_Some; assumption.
    + intros j c [[_ Hj]|[_ <-]]%lookup_snoc_Some; eauto.
    + intros j c [[_ Hj]|[-> <-]]%lookup_snoc_Some Hlt; eauto.
      apply lookup_lt_Some in Hi. lia.
  - intros ->. unfold scan_step; simpl. repeat split; auto.
    + intros [|j] c Hj; simpl in Hj; [injection Hj as <-; lra | discriminate].
    + intros; lia.
Qed.

Lemma scan_min_inv l : scan_inv l (scan_from 0 l (None, None)).
Proof.
  apply (for_each_inv scan_step scan_inv); [reflexivity|].
  intros pre a st _ _. apply scan_step_inv.
Qed.

(** The loop records nothing exactly on the empty list. *)
Lemma scan_min_None l : scan_min l = None <-> l = [].
Proof.
  unfold scan_min. pose proof (scan_min_inv l) as H.
  destruct (scan_from 0 l (None, None)) as [[m|] [[i a]|]]; simpl in *;
    try tauto; split; try discriminate.
  destruct H as (_ & Hi & _). intros ->. discriminate.
Qed.

(** What the loop records is the first minimum of the list. *)
Lemma scan_min_Some l i a :
  scan_min l = Some (i, a) ->
  l !! i = Some a /\
  (forall j b, l !! j = Some b -> key a <= key b) /\
  (forall j b, l !! j = Some b -> (j < i)%nat -> key a < key b).
Proof.
  unfold scan_min. pose proof (scan_min_inv l) as H.
  destruct (scan_from 0 l (None, None)) as [[m|] [[i' a']|]]; simpl in *;
    try tauto; try discriminate.
  intros [= -> ->]. tauto.
Qed.

Lemma scan_min_is_Some l : l <> [] -> is_Some (scan_min l).
Proof.
  intros Hl. destruct (scan_min l) eqn:E; [eauto|].
  apply scan_min_None in E. contradiction.
Qed.

Lemma scan_min_lt_length l i a : scan_min l = Some (i, a) -> (i < length l)%nat.
Proof. intros (Hi & _)%scan_min_Some. eapply lookup_lt_Some, Hi. Qed.

Lemma scan_from_app l1 l2 k st :
  scan_from k (l1 ++ l2) st = scan_from (k + length l1) l2 (scan_from k l1 st).
Proof. apply for_each_from_app. Qed.

End Scan.

(** [Infinity] and numbers up to [==]. *)
Definition inf_eq (m m' : option Q) : Prop :=
  match m, m' with
  | None, None => True
  | Some x, Some y => x == y
  | _, _ => False
  end.

#[export] Instance lt_inf_proper : Proper (Qeq ==> inf_eq ==> eq) lt_inf.
Proof.
  intros d d' Hd [m|] [m'|] Hm; simpl in *; try tauto. now rewrite Hd, Hm.
Qed.

(** The first minimum does not depend on which of two pointwise equal keys
    is used. *)
Lemma scan_from_ext {A} (f g : A -> Q) (l : list A) :
  (forall a, f a == g a) ->
  forall i st st', inf_eq st.1 st'.1 -> st.2 = st'.2 ->
    (scan_from f i l st).2 = (scan_from g i l st').2.
Proof.
  intros Hfg. unfold scan_from.
  induction l as [|a l IH]; intros i st st' H1 H2; simpl; [assumption|].
  unfold scan_step. rewrite (lt_inf_proper _ _ (Hfg a) _ _ H1).
  destruct (lt_inf (g a) st'.1); apply IH; simpl; auto.
Qed.

Lemma scan_min_ext {A} (f g : A -> Q) (l : list A) :
  (forall a, f a == g a) -> scan_min f l = scan_min g l.
Proof. intros Hfg. apply scan_from_ext; simpl; auto. Qed.

(** ** Arrays *)

(** [l.filter((_, idx) => keep(idx))], the index counted from [idx]. *)
Fixpoint filter_index_from {A} (keep : nat -> bool) (idx : nat) (l : list A) : list A :=
  match l with
  | [] => []
  | a :: l' =>
      if keep idx then a :: filter_index_from keep (S idx) l'
      else filter_index_from keep (S idx) l'
  end.

Definition filter_index {A} (keep : nat -> bool) (l : list A) : list A :=
  filter_index_from keep 0 l.

Lemma filter_index_from_all {A} (keep : nat -> bool) (l : list A) : forall k,
  (forall idx, (k <= idx)%nat -> keep idx = true) -> filter_index_from keep k l = l.
Proof.
  induction l as [|a l IH]; intros k H; simpl; [reflexivity|].
  rewrite H by lia. f_equal. apply IH. intros; apply H; lia.
Qed.

(** Keeping every index but [i] deletes the element at [i]. *)
Lemma filter_index_from_ne {A} (l : list A) : forall k i,
  filter_index_from (fun idx => negb (idx =? k + i)%nat) k l = delete i l.
Proof.
  induction l as [|a l IH]; intros k i; simpl; [reflexivity|].
  destruct i as [|i]; simpl.
  - rewrite Nat.add_0_r, Nat.eqb_refl; simpl.
    apply filter_index_from_all. intros idx Hidx.
    apply negb_true_iff, Nat.eqb_neq. lia.
  - replace (k =? k + S i)%nat with false by (symmetry; apply Nat.eqb_neq; lia).
    simpl. f_equal. rewrite <- (IH (S k) i).
    f_equal. replace (S k + i)%nat with (k + S i)%nat by lia. reflexivity.
Qed.

Lemma filter_index_ne {A} (l : list A) i :
  filter_index (fun idx => negb (idx =? i)%nat) l = delete i l.
Proof. apply (filter_index_from_ne l 0 i). Qed.

(** Filters that keep everything, or nothing. *)
Lemma filter_fmap_all {A B} (P : B -> Prop) `{forall x, Decision (P x)}
    (f : A -> B) (l : list A) :
  (forall a, P (f a)) -> filter P (f <$> l) = f <$> l.
Proof.
  intros HP. induction l as [|a l IH]; [reflexivity|].
  cbn [fmap list_fmap]. rewrite filter_cons_True by apply HP. f_equal. exact IH.
Qed.

Lemma filter_none {A} (P : A -> Prop) `{forall x, Decision (P x)} (l : list A) :
  Forall (fun x => ~ P x) l -> filter P l = [].
Proof. induction 1; [reflexivity|]. now rewrite filter_cons_False. Qed.

(** The last element of a non-empty array does not depend on the default. *)
Lemma last_cons_default {A} (l : list A) : forall a d,
  List.last (a :: l) d = List.last l a.
Proof.
  induction l as [|b l IH]; intros a d; [reflexivity|].
  change (List.last (a :: b :: l) d) with (List.last (b :: l) d).
  now rewrite !IH.
Qed.

Lemma last_snoc_default {A} (l : list A) a d : List.last (l ++ [a]) d = a.
Proof. apply last_last. Qed.

(** ** Sums of rationals *)

Definition sumQ (l : list Q) : Q := foldr Qplus 0 l.

Lemma sumQ_app l1 l2 : sumQ (l1 ++ l2) == sumQ l1 + sumQ l2.
Proof. induction l1 as [|x l1 IH]; simpl; [|rewrite IH]; ring. Qed.

Lemma sumQ_nonneg l : Forall (fun x => 0 <= x) l -> 0 <= sumQ l.
Proof. induction 1; simpl; lra. Qed.

(** ** Termination by a measure *)

(** A relation whose steps decrease a natural number has no infinite
    run. *)
Lemma sn_measure {A} (R : relation A) (f : A -> nat) :
  (forall x y, R x y -> (f y < f x)%nat) -> forall x, sn R x.
Proof.
  intros Hdec x. apply (Acc_impl (ltof A f)); [apply well_founded_ltof|].
  intros y z Hyz. apply Hdec, Hyz.
Qed.
