(* ===== verification/JsNum.v ===== *)
(** * JsNum: the JavaScript number operations the pages call

    [Math.round], [Number.prototype.toFixed] (as the number its string
    denotes), [Math.max], a division whose result may be non-finite, the
    truthiness of a number and of a string, and [Array.from] on a length,
    with its [RangeError] from 2{^32} on, over exact rationals.  The lemmas
    are the ones the optimizer, the metrics and the form need: the
    rounding error of [toFixed], its monotonicity and idempotence, whole
    numbers and the lengths they denote. *)

From stdpp Require Import strings.
From S2P Require Import Prelude.

(** ** Rounding *)

(** [Math.round(x)]: the nearest integer, a tie going up. *)
Definition Math_round (x : Q) : Z := Qfloor (x + (1#2)).
(** [10^d] as a number. *)
Definition pow10 (d : nat) : Q := inject_Z (10 ^ Z.of_nat d).
(** The multiple of [10^-d] nearest to a non-negative [y], a tie going up:
    the [n / 10^d] of the definition of [toFixed]. *)
Definition round_at (d : nat) (y : Q) : Q := inject_Z (Math_round (y * pow10 d)) / pow10 d.
(** The number that [x.toFixed(d)] prints, read back as a number: the sign
    is split off first, so a tie goes away from zero. *)
Definition toFixed (d : nat) (x : Q) : Q :=
  if Qltb x 0 then - round_at d (- x) else round_at d x.

Lemma pow10_pos d : 0 < pow10 d.
Proof.
  unfold pow10. replace 0 with (inject_Z 0) by reflexivity. rewrite <- Zlt_Qlt.
  apply Z.pow_pos_nonneg; lia.
Qed.

#[export] Instance Math_round_proper : Proper (Qeq ==> eq) Math_round.
Proof. intros x y H. unfold Math_round. now rewrite H. Qed.
#[export] Instance round_at_proper d : Proper (Qeq ==> Qeq) (round_at d).
Proof. intros x y H. unfold round_at. now rewrite H. Qed.
#[export] Instance toFixed_proper d : Proper (Qeq ==> Qeq) (toFixed d).
Proof. intros x y H. unfold toFixed. rewrite H. destruct (Qltb y 0); now rewrite H. Qed.

Lemma Math_round_bounds x : inject_Z (Math_round x) - (1#2) <= x /\ x < inject_Z (Math_round x) + (1#2).
Proof.
  unfold Math_round. pose proof (Qfloor_le (x + (1#2))). pose proof (Qlt_floor (x + (1#2))).
  rewrite inject_Z_plus in H0. change (inject_Z 1) with 1 in H0. lra.
Qed.

Lemma Math_round_mono x y : x <= y -> (Math_round x <= Math_round y)%Z.
Proof. intros. apply Qfloor_resp_le. lra. Qed.

Lemma Math_round_Z z : Math_round (inject_Z z) = z.
Proof.
  unfold Math_round. apply Z.le_antisymm.
  - pose proof (Qfloor_le (inject_Z z + (1#2))).
    assert (inject_Z (Qfloor (inject_Z z + (1 # 2))) < inject_Z (z + 1)).
    { rewrite inject_Z_plus. change (inject_Z 1) with 1. lra. }
    rewrite <- Zlt_Qlt in H0. lia.
  - rewrite <- (Qfloor_Z z) at 1. apply Qfloor_resp_le. lra.
Qed.

Lemma round_at_bounds d y :
  round_at d y - (1#2) / pow10 d <= y /\ y < round_at d y + (1#2) / pow10 d.
Proof.
  unfold round_at. pose proof (pow10_pos d) as Hp.
  destruct (Math_round_bounds (y * pow10 d)) as [H1 H2].
  set (k := inject_Z (Math_round (y * pow10 d))) in *.
  set (p := pow10 d) in *.
  assert (E1 : k / p - (1#2) / p == (k - (1#2)) / p) by (field; lra).
  assert (E2 : k / p + (1#2) / p == (k + (1#2)) / p) by (field; lra).
  rewrite E1, E2. split.
  - apply Qle_shift_div_r; assumption.
  - apply Qlt_shift_div_l; assumption.
Qed.

Lemma round_at_nonneg d y : 0 <= y -> 0 <= round_at d y.
Proof.
  intros Hy. unfold round_at. pose proof (pow10_pos d) as Hp.
  apply Qle_shift_div_l; [assumption|]. rewrite Qmult_0_l.
  change 0 with (inject_Z 0). rewrite <- Zle_Qle.
  rewrite <- (Math_round_Z 0) at 1. apply Math_round_mono.
  change (inject_Z 0) with 0. nra.
Qed.

Lemma round_at_mono d x y : x <= y -> round_at d x <= round_at d y.
Proof.
  intros H. unfold round_at. pose proof (pow10_pos d) as Hp.
  apply Qmult_le_compat_r; [|apply Qlt_le_weak, Qinv_lt_0_compat, Hp].
  rewrite <- Zle_Qle. apply Math_round_mono. nra.
Qed.

Lemma round_at_idem d y : round_at d (round_at d y) == round_at d y.
Proof.
  unfold round_at at 1. pose proof (pow10_pos d) as Hp.
  assert (E : round_at d y * pow10 d == inject_Z (Math_round (y * pow10 d))).
  { unfold round_at. field. lra. }
  rewrite E, Math_round_Z. reflexivity.
Qed.

Lemma round_at_0 d : round_at d 0 == 0.
Proof.
  unfold round_at. pose proof (pow10_pos d).
  assert (E : 0 * pow10 d == inject_Z 0) by ring.
  rewrite E, Math_round_Z. field. lra.
Qed.

Lemma toFixed_neg d x : x < 0 -> toFixed d x = - round_at d (- x).
Proof. intros H. unfold toFixed. apply Qltb_lt in H. now rewrite H. Qed.

Lemma toFixed_pos d x : 0 <= x -> toFixed d x = round_at d x.
Proof. intros H. unfold toFixed. apply Qltb_ge in H. now rewrite H. Qed.

Ltac toFixed_cases x :=
  let E := fresh "E" in
  destruct (Qlt_le_dec x 0) as [E|E];
  [rewrite (toFixed_neg _ x E) in * | rewrite (toFixed_pos _ x E) in *].

Lemma toFixed_error d x :
  Qabs (toFixed d x - x) <= (1#2) / pow10 d.
Proof.
  apply Qabs_Qle_condition. toFixed_cases x.
  - destruct (round_at_bounds d (- x)). lra.
  - destruct (round_at_bounds d x). lra.
Qed.

Lemma toFixed_mono d x y : x <= y -> toFixed d x <= toFixed d y.
Proof.
  intros H. toFixed_cases x; toFixed_cases y; try lra.
  - assert (round_at d (- y) <= round_at d (- x)) by (apply round_at_mono; lra). lra.
  - assert (0 <= round_at d (- x)) by (apply round_at_nonneg; lra).
    assert (0 <= round_at d y) by (apply round_at_nonneg; lra). lra.
  - apply round_at_mono, H.
Qed.

Lemma toFixed_nonneg d x : 0 <= x -> 0 <= toFixed d x.
Proof. intros H. rewrite toFixed_pos by assumption. now apply round_at_nonneg. Qed.

Lemma toFixed_idem d x : toFixed d (toFixed d x) == toFixed d x.
Proof.
  toFixed_cases x.
  - assert (H0 : 0 <= round_at d (- x)) by (apply round_at_nonneg; lra).
    destruct (Qlt_le_dec (- round_at d (- x)) 0) as [E'|E'].
    + rewrite toFixed_neg by assumption.
      rewrite Qopp_involutive, round_at_idem. reflexivity.
    + assert (Hz : - round_at d (- x) == 0) by lra.
      rewrite Hz. rewrite toFixed_pos by lra.
      apply round_at_0.
  - assert (H0 : 0 <= round_at d x) by (apply round_at_nonneg; lra).
    rewrite toFixed_pos by assumption. apply round_at_idem.
Qed.

(** Whole numbers are printed as they are. *)
Lemma round_at_Z d z : round_at d (inject_Z z) == inject_Z z.
Proof.
  unfold round_at. pose proof (pow10_pos d) as Hp. unfold pow10 in *.
  rewrite <- inject_Z_mult, Math_round_Z, inject_Z_mult. field. lra.
Qed.

Lemma toFixed_Z d z : toFixed d (inject_Z z) == inject_Z z.
Proof.
  toFixed_cases (inject_Z z); [|apply round_at_Z].
  rewrite <- inject_Z_opp, round_at_Z, inject_Z_opp. ring.
Qed.

Lemma toFixed_le_Z d x z : x <= inject_Z z -> toFixed d x <= inject_Z z.
Proof. intros H%(toFixed_mono d). now rewrite toFixed_Z in H. Qed.

(** ** [Math.max], division and truthiness *)

Definition Math_max (x y : Q) : Q := Qmax x y.

(** [a / b] when the result is finite; [None] stands for [NaN], [Infinity]
    and [-Infinity], which a zero divisor gives. *)
Definition jsdiv (a b : Q) : option Q :=
  if Qeq_bool b 0 then None else Some (a / b).

(** A number in a condition: [0] is falsy, every other rational truthy. *)
Definition truthy (x : Q) : bool := negb (Qeq_bool x 0).

(** A value that may be missing in a condition: [null], [undefined] and
    [0] are falsy. *)
Definition truthy_opt (x : option Q) : bool :=
  match x with
  | Some q => truthy q
  | None => false
  end.

(** A string in a condition: the empty string is falsy. *)
Definition nonempty (s : option string) : option string :=
  match s with
  | Some s => if decide (s = String.EmptyString) then None else Some s
  | None => None
  end.

(** ** Whole numbers and lengths *)

(** The number [x] has no fraction. *)
Definition whole (x : Q) : bool := Qeq_bool x (inject_Z (Qfloor x)).

(** A length as a number. *)
Definition ofNat (n : nat) : Q := inject_Z (Z.of_nat n).

(** [ToLength(x)]: the whole part of [x], and 0 for a negative [x]. *)
Definition toLength (x : Q) : nat := Z.to_nat (Qfloor x).

(** The lengths of an array are below 2{^32}. *)
Definition MAX_ARRAY_LENGTH : Q := 4294967296.

(** [Array.from({ length: x }, (_, i) => f i)]: the [f i] for the [i]
    below the length [x] denotes; a [RangeError], here [None], when that
    length is not the length of an array. *)
Definition Array_from {A} (x : Q) (f : nat -> A) : option (list A) :=
  if Qle_bool MAX_ARRAY_LENGTH x then None else Some (f <$> seq 0 (toLength x)).

#[export] Instance Math_max_proper : Proper (Qeq ==> Qeq ==> Qeq) Math_max.
Proof. apply Q.max_compat. Qed.

Lemma Math_max_l x y : x <= Math_max x y.
Proof. apply Q.le_max_l. Qed.

Lemma Math_max_r x y : y <= Math_max x y.
Proof. apply Q.le_max_r. Qed.

Lemma Math_max_cases x y :
  (x <= y /\ Math_max x y == y) \/ (y <= x /\ Math_max x y == x).
Proof. apply Q.max_spec_le. Qed.

Lemma jsdiv_Some a b q : jsdiv a b = Some q <-> ~ b == 0 /\ q = a / b.
Proof.
  unfold jsdiv. destruct (Qeq_bool b 0) eqn:E.
  - apply Qeq_bool_iff in E. split; [discriminate | tauto].
  - apply Qeq_bool_neq in E. split; [intros [= <-]; tauto | intros [_ ->]; reflexivity].
Qed.

Lemma jsdiv_None a b : jsdiv a b = None <-> b == 0.
Proof.
  unfold jsdiv. destruct (Qeq_bool b 0) eqn:E.
  - apply Qeq_bool_iff in E. tauto.
  - apply Qeq_bool_neq in E. split; [discriminate | tauto].
Qed.

Lemma truthy_true x : truthy x = true <-> ~ x == 0.
Proof.
  unfold truthy. rewrite negb_true_iff, <- not_true_iff_false, Qeq_bool_iff. tauto.
Qed.

Lemma whole_spec x : whole x = true <-> exists z, x == inject_Z z.
Proof.
  unfold whole. rewrite Qeq_bool_iff. split; [eauto|].
  intros [z Hz]. now rewrite Hz, Qfloor_Z.
Qed.

#[export] Instance whole_proper : Proper (Qeq ==> eq) whole.
Proof.
  intros x y E. apply eq_true_iff_eq. rewrite !whole_spec.
  split; intros [z Hz]; exists z; [rewrite <- E | rewrite E]; exact Hz.
Qed.

Lemma whole_ofNat n : whole (ofNat n) = true.
Proof. apply whole_spec. now exists (Z.of_nat n). Qed.

Lemma toLength_ofNat n : toLength (ofNat n) = n.
Proof. unfold toLength, ofNat. rewrite Qfloor_Z. apply Nat2Z.id. Qed.

(** A whole number that is not negative is the length it denotes. *)
Lemma ofNat_toLength x : 0 <= x -> whole x = true -> x == ofNat (toLength x).
Proof.
  intros H0 [z Hz]%whole_spec. unfold toLength, ofNat. rewrite Hz, Qfloor_Z.
  rewrite Z2Nat.id; [reflexivity|]. rewrite Hz in H0.
  change 0 with (inject_Z 0) in H0. now rewrite <- Zle_Qle in H0.
Qed.

Lemma toLength_pos x : 1 <= x -> (1 <= toLength x)%nat.
Proof.
  intros H. unfold toLength. change 1%nat with (Z.to_nat 1). apply Z2Nat.inj_le; [lia| |].
  - apply (Qfloor_resp_le 0 x). lra.
  - apply (Qfloor_resp_le 1 x H).
Qed.

Lemma Array_from_None {A} x (f : nat -> A) :
  Array_from x f = None <-> MAX_ARRAY_LENGTH <= x.
Proof.
  unfold Array_from. destruct (Qle_bool _ x) eqn:E.
  - apply Qle_bool_iff in E. tauto.
  - apply Qle_bool_gt in E. split; [discriminate | lra].
Qed.

Lemma Array_from_Some {A} x (f : nat -> A) l :
  Array_from x f = Some l <-> x < MAX_ARRAY_LENGTH /\ l = f <$> seq 0 (toLength x).
Proof.
  unfold Array_from. destruct (Qle_bool _ x) eqn:E.
  - apply Qle_bool_iff in E. split; [discriminate | intros []; lra].
  - apply Qle_bool_gt in E. split; [intros [= <-]; now split | intros [_ ->]; reflexivity].
Qed.

Lemma length_Array_from {A} x (f : nat -> A) l :
  Array_from x f = Some l -> length l = toLength x.
Proof. intros [_ ->]%Array_from_Some. now rewrite length_fmap, length_seq. Qed.

#[export] Hint Resolve toFixed_nonneg toFixed_mono round_at_nonneg pow10_pos
  Math_max_l Math_max_r : geo.
#[export] Hint Rewrite toFixed_idem round_at_idem round_at_0 : qsimp.
