(* ===== verification/Geodesy.v ===== *)
(** * Geodesy: coordinates and the distance interface

    The pages pass coordinates as [{lat, lng}] objects and as [[lat, lng]]
    arrays; both are the record [LatLng].  The great-circle distance is the
    interface [Geodesy]: a function of four numbers, as [getDistance] and
    [haversineDistance] are, that respects equality of rationals.  Its
    metric laws are the separate class [MetricLaws]; file [Haversine] proves
    them of the real-number formula.  [taxicab] implements both classes and
    computes. *)

From S2P Require Import Prelude.

(** ** Coordinates *)

Record LatLng : Type := mkLatLng { lat : Q; lng : Q }.

#[export] Instance LatLng_equiv : Equiv LatLng :=
  fun p q => lat p == lat q /\ lng p == lng q.

#[export] Instance LatLng_equivalence : Equivalence (≡@{LatLng}).
Proof.
  split.
  - intros p; split; reflexivity.
  - intros p q [H1 H2]; split; symmetry; assumption.
  - intros p q r [H1 H2] [H3 H4]; split; etransitivity; eassumption.
Qed.

#[export] Instance mkLatLng_proper : Proper (Qeq ==> Qeq ==> (≡)) mkLatLng.
Proof. intros a a' Ha b b' Hb. split; assumption. Qed.

#[export] Instance lat_proper : Proper ((≡) ==> Qeq) lat.
Proof. intros p q [H _]. exact H. Qed.

#[export] Instance lng_proper : Proper ((≡) ==> Qeq) lng.
Proof. intros p q [_ H]. exact H. Qed.

(** Two points that print as the same text. *)
Definition same_point (p q : LatLng) : bool :=
  Qeq_bool (lat p) (lat q) && Qeq_bool (lng p) (lng q).

(** Two arrays of points that [JSON.stringify] prints as the same text. *)
Fixpoint same_points (l l' : list LatLng) : bool :=
  match l, l' with
  | [], [] => true
  | p :: l, q :: l' => same_point p q && same_points l l'
  | _, _ => false
  end.

Lemma same_point_equiv p q : same_point p q = true <-> p ≡ q.
Proof. unfold same_point. rewrite andb_true_iff, !Qeq_bool_iff. reflexivity. Qed.

Lemma same_point_refl p : same_point p p = true.
Proof. now apply same_point_equiv. Qed.

Lemma same_points_refl l : same_points l l = true.
Proof. induction l as [|p l IH]; [reflexivity|]. simpl. now rewrite same_point_refl. Qed.

Lemma same_points_length l l' : same_points l l' = true -> length l = length l'.
Proof.
  revert l'. induction l as [|p l IH]; intros [|q l']; simpl; try discriminate; [reflexivity|].
  intros [_ H]%andb_true_iff. f_equal. now apply IH.
Qed.

(** ** The distance interface *)

(** [dist4 lat1 lon1 lat2 lon2] is the call
    [haversineDistance(lat1, lon1, lat2, lon2)]. *)
Class Geodesy : Type := {
  dist4 : Q -> Q -> Q -> Q -> Q;
  dist4_proper :: Proper (Qeq ==> Qeq ==> Qeq ==> Qeq ==> Qeq) dist4
}.

(** What the formula guarantees of its result, for any type of numbers:
    [Haversine] proves these laws of the formula over the reals, the
    algorithms assume them over the rationals. *)
Class DistanceLaws {N : Type} (Neq Nle : N -> N -> Prop) (zero : N)
    (d : N -> N -> N -> N -> N) : Prop := {
  distance_nonneg : forall a b c e, Nle zero (d a b c e);
  distance_sym : forall a b c e, Neq (d a b c e) (d c e a b);
  distance_refl : forall a b, Neq (d a b a b) zero
}.

Class MetricLaws (G : Geodesy) : Prop :=
  metric_laws : DistanceLaws Qeq Qle 0 (@dist4 G).

Lemma dist4_nonneg {G : Geodesy} {L : MetricLaws G} a b c d : 0 <= dist4 a b c d.
Proof. apply (distance_nonneg (DistanceLaws := L)). Qed.

Lemma dist4_sym {G : Geodesy} {L : MetricLaws G} a b c d : dist4 a b c d == dist4 c d a b.
Proof. apply (distance_sym (DistanceLaws := L)). Qed.

Lemma dist4_refl {G : Geodesy} {L : MetricLaws G} a b : dist4 a b a b == 0.
Proof. apply (distance_refl (DistanceLaws := L)). Qed.

(** The distance between two points given as records. *)
Definition dist `{Geodesy} (p q : LatLng) : Q :=
  dist4 (lat p) (lng p) (lat q) (lng q).

(** ** Points on a segment *)

(** [a + (b - a) * frac], the interpolation of [closestPointOnPolyline]. *)
Definition lerp (a b frac : Q) : Q := a + (b - a) * frac.

Definition interpolate (p q : LatLng) (frac : Q) : LatLng :=
  mkLatLng (lerp (lat p) (lat q) frac) (lerp (lng p) (lng q) frac).

(** [(lat1 + lat2) / 2, (lng1 + lng2) / 2]. *)
Definition midpoint (p q : LatLng) : LatLng :=
  mkLatLng ((lat p + lat q) / 2) ((lng p + lng q) / 2).

(** ** The length of a path: the sum of its consecutive distances *)

Fixpoint pathLength `{Geodesy} (l : list LatLng) : Q :=
  match l with
  | p :: (q :: _) as l' => dist p q + pathLength l'
  | _ => 0
  end.

(** A distance is additive along segments when a point of the straight
    segment splits the distance of its end points exactly. *)
Class SegmentAdditive (G : Geodesy) : Prop :=
  dist_split : forall p q frac, 0 <= frac <= 1 ->
    dist p (interpolate p q frac) + dist (interpolate p q frac) q == dist p q.

(** The triangle inequality. *)
Class Triangle (G : Geodesy) : Prop :=
  dist_triangle : forall p q r, dist p r <= dist p q + dist q r.

(** ** Lemmas for every distance *)

#[export] Instance lerp_proper : Proper (Qeq ==> Qeq ==> Qeq ==> Qeq) lerp.
Proof. intros a a' Ha b b' Hb f f' Hf. unfold lerp. now rewrite Ha, Hb, Hf. Qed.

#[export] Instance interpolate_proper : Proper ((≡) ==> (≡) ==> Qeq ==> (≡)) interpolate.
Proof.
  intros p p' [Hp1 Hp2] q q' [Hq1 Hq2] f f' Hf. unfold interpolate.
  split; simpl; apply lerp_proper; assumption.
Qed.

#[export] Instance midpoint_proper : Proper ((≡) ==> (≡) ==> (≡)) midpoint.
Proof.
  intros p p' [Hp1 Hp2] q q' [Hq1 Hq2]. unfold midpoint.
  split; simpl; [rewrite Hp1, Hq1 | rewrite Hp2, Hq2]; reflexivity.
Qed.

Lemma lerp_0 a b : lerp a b 0 == a.
Proof. unfold lerp. ring. Qed.

Lemma lerp_1 a b : lerp a b 1 == b.
Proof. unfold lerp. ring. Qed.

Lemma interpolate_0 p q : interpolate p q 0 ≡ p.
Proof. split; apply lerp_0. Qed.

Lemma interpolate_1 p q : interpolate p q 1 ≡ q.
Proof. split; apply lerp_1. Qed.

Lemma lerp_between a b f : 0 <= f <= 1 -> a <= b -> a <= lerp a b f <= b.
Proof. intros. unfold lerp. nra. Qed.

Section Laws.
Context `{G : Geodesy}.

#[export] Instance dist_proper : Proper ((≡) ==> (≡) ==> Qeq) dist.
Proof.
  intros p p' [Hp1 Hp2] q q' [Hq1 Hq2]. unfold dist.
  apply dist4_proper; assumption.
Qed.

Context {L : MetricLaws G}.

Lemma dist_nonneg p q : 0 <= dist p q.
Proof. apply dist4_nonneg. Qed.

Lemma dist_sym p q : dist p q == dist q p.
Proof. apply dist4_sym. Qed.

Lemma dist_refl p : dist p p == 0.
Proof. apply dist4_refl. Qed.

Lemma dist_equiv_0 p q : p ≡ q -> dist p q == 0.
Proof. intros H. rewrite H. apply dist_refl. Qed.

Lemma pathLength_nonneg l : 0 <= pathLength l.
Proof.
  induction l as [|p [|q l] IH]; simpl in *; try lra.
  pose proof (dist_nonneg p q). lra.
Qed.

End Laws.

Lemma pathLength_cons `{Geodesy} p q l :
  pathLength (p :: q :: l) = dist p q + pathLength (q :: l).
Proof. reflexivity. Qed.

Lemma pathLength_app `{Geodesy} l1 p l2 :
  pathLength (l1 ++ p :: l2) == pathLength (l1 ++ [p]) + pathLength (p :: l2).
Proof.
  induction l1 as [|a [|b l1] IH]; simpl in *.
  - destruct l2; lra.
  - destruct l2; lra.
  - rewrite IH. lra.
Qed.

Lemma pathLength_snoc `{Geodesy} p l q :
  pathLength ((p :: l) ++ [q]) == pathLength (p :: l) + dist (List.last l p) q.
Proof.
  revert p. induction l as [|a l IH]; intros p; [simpl; lra|].
  rewrite last_cons_default. change ((p :: a :: l) ++ [q]) with (p :: (a :: l) ++ [q]).
  rewrite !pathLength_cons. change (p :: (a :: l) ++ [q]) with (p :: a :: l ++ [q]).
  rewrite pathLength_cons. change (a :: l ++ [q]) with ((a :: l) ++ [q]). rewrite IH. lra.
Qed.

#[export] Hint Resolve dist_nonneg pathLength_nonneg : geo.
#[export] Hint Rewrite @lerp_0 @lerp_1 : qsimp.

(** ** An executable instance: the taxicab distance in degrees *)

Definition taxicab4 (a b c d : Q) : Q := Qabs (c - a) + Qabs (d - b).

#[export] Instance taxicab4_proper :
  Proper (Qeq ==> Qeq ==> Qeq ==> Qeq ==> Qeq) taxicab4.
Proof.
  intros a a' Ha b b' Hb c c' Hc d d' Hd. unfold taxicab4.
  now rewrite Ha, Hb, Hc, Hd.
Qed.

Definition taxicab : Geodesy := {| dist4 := taxicab4 |}.

(** [Qabs] as the two linear cases [lra] and [nra] understand. *)
Lemma Qabs_cases x : (0 <= x /\ Qabs x == x) \/ (x <= 0 /\ Qabs x == - x).
Proof.
  destruct (Qlt_le_dec x 0).
  - right. split; [lra | apply Qabs_neg; lra].
  - left. split; [lra | apply Qabs_pos; lra].
Qed.

Ltac qabs :=
  repeat match goal with
  | |- context [Qabs ?x] =>
      let H := fresh in
      destruct (Qabs_cases x) as [[? H]|[? H]]; rewrite !H in *; clear H
  | _ : context [Qabs ?x] |- _ =>
      let H := fresh in
      destruct (Qabs_cases x) as [[? H]|[? H]]; rewrite !H in *; clear H
  end.

#[export] Instance taxicab_laws : MetricLaws taxicab.
Proof.
  split; simpl; unfold taxicab4; intros.
  - pose proof (Qabs_nonneg (c - a)). pose proof (Qabs_nonneg (e - b)). lra.
  - qabs; lra.
  - qabs; lra.
Qed.

#[export] Instance taxicab_triangle : Triangle taxicab.
Proof.
  intros [a b] [c d] [e f]. unfold dist; simpl. unfold taxicab4. qabs; lra.
Qed.

#[export] Instance taxicab_additive : SegmentAdditive taxicab.
Proof.
  intros [a b] [c d] f Hf. unfold dist, interpolate, lerp; simpl. unfold taxicab4.
  qabs; nra.
Qed.

(** A distance scaled by a positive factor, as a change of unit is. *)
Definition scaled (k : Q) (G : Geodesy) : Geodesy.
Proof.
  refine {| dist4 := fun a b c d => k * @dist4 G a b c d |}.
  intros a a' Ha b b' Hb c c' Hc d d' Hd. now rewrite Ha, Hb, Hc, Hd.
Defined.

Lemma scaled_laws k G : 0 <= k -> MetricLaws G -> MetricLaws (scaled k G).
Proof.
  intros Hk L. split; simpl; intros.
  - pose proof (dist4_nonneg a b c e). nra.
  - now rewrite dist4_sym.
  - rewrite dist4_refl. ring.
Qed.
