(* ===== verification/Haversine.v ===== *)
(** * Haversine: the great-circle formula over the real numbers

    [getDistance] of [NewTrip.jsx] and [haversineDistance] of
    [PathPlanning.jsx] are the same formula with two radii (miles and
    kilometres).  It is defined here with the real [sin], [cos], [sqrt] and
    [atan], statement by statement, and shown to satisfy the interface
    [Geodesy.DistanceLaws] the algorithms are verified against.  The
    argument of the square roots is shown to stay in [[0, 1]], so the
    formula never leaves the domain of [Math.sqrt]. *)

From S2P Require Import Prelude Geodesy.
From Stdlib Require Import Reals Lra Psatz.

Local Open Scope R_scope.

(** [toRad]: degrees to radians. *)
Definition toRad (v : R) : R := v * PI / 180.

(** The value [a] of both functions. *)
Definition hav (lat1 lon1 lat2 lon2 : R) : R :=
  let dLat := toRad (lat2 - lat1) in
  let dLon := toRad (lon2 - lon1) in
  sin (dLat / 2) * sin (dLat / 2) +
  cos (toRad lat1) * cos (toRad lat2) * sin (dLon / 2) * sin (dLon / 2).

(** [Math.atan2(y, x)]: the angle of the point [(x, y)], in [(-PI, PI]]. *)
Definition atan2 (y x : R) : R :=
  if Rlt_dec 0 x then atan (y / x)
  else if Rlt_dec x 0 then
    (if Rle_dec 0 y then atan (y / x) + PI else atan (y / x) - PI)
  else if Rlt_dec 0 y then PI / 2
  else if Rlt_dec y 0 then - PI / 2
  else 0.

(** [c = 2 * Math.atan2(Math.sqrt(a), Math.sqrt(1 - a))]. *)
Definition central_angle (a : R) : R := 2 * atan2 (sqrt a) (sqrt (1 - a)).

(** [return R * c]. *)
Definition great_circle (radius lat1 lon1 lat2 lon2 : R) : R :=
  radius * central_angle (hav lat1 lon1 lat2 lon2).

(** [NewTrip.jsx]: radius 3958.8 miles. *)
Definition getDistance : R -> R -> R -> R -> R := great_circle 3958.8.
(** [PathPlanning.jsx]: radius 6371 kilometres. *)
Definition haversineDistance : R -> R -> R -> R -> R := great_circle 6371.
(** [miles(km)] of [PathPlanning.jsx]. *)
Definition miles (km : R) : R := km * 0.621371.

Lemma toRad_minus a b : toRad (a - b) = toRad a - toRad b.
Proof. unfold toRad. lra. Qed.

Lemma toRad_opp a : toRad (- a) = - toRad a.
Proof. unfold toRad. lra. Qed.

Lemma sin_half_sq x : sin (x / 2) * sin (x / 2) = (1 - cos x) / 2.
Proof.
  pose proof (cos_2a_sin (x / 2)) as H.
  replace (2 * (x / 2)) with x in H by lra. lra.
Qed.

Lemma hav_cos lat1 lon1 lat2 lon2 :
  hav lat1 lon1 lat2 lon2 =
  (1 - (sin (toRad lat1) * sin (toRad lat2) +
        cos (toRad lat1) * cos (toRad lat2) * cos (toRad (lon2 - lon1)))) / 2.
Proof.
  unfold hav. cbv zeta.
  rewrite Rmult_assoc, !sin_half_sq, toRad_minus, cos_minus. lra.
Qed.

Lemma unit_dot_bound s1 c1 s2 c2 c :
  s1 * s1 + c1 * c1 = 1 -> s2 * s2 + c2 * c2 = 1 -> -1 <= c <= 1 ->
  -1 <= s1 * s2 + c1 * c2 * c <= 1.
Proof.
  intros H1 H2 Hc.
  pose proof (Rle_0_sqr (s1 - s2)). pose proof (Rle_0_sqr (c1 - c2)).
  pose proof (Rle_0_sqr (s1 + s2)). pose proof (Rle_0_sqr (c1 + c2)).
  unfold Rsqr in *.
  destruct (Rle_dec 0 (c1 * c2)); split; nra.
Qed.

Lemma sin_cos_unit x : sin x * sin x + cos x * cos x = 1.
Proof. pose proof (sin2_cos2 x) as H. unfold Rsqr in H. exact H. Qed.

(** The cosine of the central angle, as the spherical law of cosines
    gives it, is a cosine. *)
Lemma dot_bound lat1 lat2 dlon :
  -1 <= sin (toRad lat1) * sin (toRad lat2)
        + cos (toRad lat1) * cos (toRad lat2) * cos (toRad dlon) <= 1.
Proof.
  apply unit_dot_bound; [apply sin_cos_unit | apply sin_cos_unit | apply COS_bound].
Qed.

(** The argument [a] of [Math.sqrt(a)] and [Math.sqrt(1 - a)] lies in
    [[0, 1]] for all coordinates, also outside the valid range of
    latitudes: both square roots are taken of non-negative numbers. *)
Theorem hav_range lat1 lon1 lat2 lon2 : 0 <= hav lat1 lon1 lat2 lon2 <= 1.
Proof. rewrite hav_cos. pose proof (dot_bound lat1 lat2 (lon2 - lon1)). lra. Qed.

Lemma hav_sym lat1 lon1 lat2 lon2 :
  hav lat1 lon1 lat2 lon2 = hav lat2 lon2 lat1 lon1.
Proof.
  rewrite !hav_cos.
  replace (lon1 - lon2) with (- (lon2 - lon1)) by lra.
  rewrite toRad_opp, cos_neg. lra.
Qed.

Lemma hav_refl lat1 lon1 : hav lat1 lon1 lat1 lon1 = 0.
Proof.
  rewrite hav_cos. replace (lon1 - lon1) with 0 by lra.
  unfold toRad at 5. replace (0 * PI / 180) with 0 by lra. rewrite cos_0.
  pose proof (sin_cos_unit (toRad lat1)). lra.
Qed.

Lemma atan_nonneg x : 0 <= x -> 0 <= atan x.
Proof.
  intros [H| <-]; [|rewrite atan_0; lra].
  apply atan_increasing in H. rewrite atan_0 in H. lra.
Qed.

Lemma atan2_quadrant1 y x : 0 <= y -> 0 <= x -> 0 <= atan2 y x <= PI / 2.
Proof.
  intros Hy Hx. unfold atan2. pose proof PI_RGT_0.
  destruct (Rlt_dec 0 x) as [Hx'|Hx'].
  - pose proof (atan_bound (y / x)). split; [|lra].
    apply atan_nonneg. pose proof (Rinv_0_lt_compat _ Hx'). unfold Rdiv. nra.
  - destruct (Rlt_dec x 0); [lra|].
    destruct (Rlt_dec 0 y); [lra|]. destruct (Rlt_dec y 0); lra.
Qed.

Lemma atan2_0_l x : 0 < x -> atan2 0 x = 0.
Proof.
  intros Hx. unfold atan2. destruct (Rlt_dec 0 x); [|lra].
  unfold Rdiv. rewrite Rmult_0_l. apply atan_0.
Qed.

Lemma atan2_eq_0 y x : 0 <= y -> 0 <= x -> atan2 y x = 0 -> y = 0.
Proof.
  intros Hy Hx. unfold atan2. pose proof PI_RGT_0.
  destruct (Rlt_dec 0 x) as [Hx'|Hx'].
  - intros E%atan_eq0. unfold Rdiv in E.
    apply Rmult_integral in E as [E|E]; [exact E|].
    pose proof (Rinv_0_lt_compat _ Hx'). lra.
  - destruct (Rlt_dec x 0); [lra|].
    destruct (Rlt_dec 0 y); [lra|]. destruct (Rlt_dec y 0); lra.
Qed.

Lemma central_angle_range a : 0 <= central_angle a <= PI.
Proof.
  unfold central_angle.
  pose proof (atan2_quadrant1 (sqrt a) (sqrt (1 - a)) (sqrt_pos _) (sqrt_pos _)).
  lra.
Qed.

Lemma central_angle_0 : central_angle 0 = 0.
Proof.
  unfold central_angle. rewrite sqrt_0, Rminus_0_r, sqrt_1, atan2_0_l; lra.
Qed.

Lemma central_angle_eq_0 a : 0 <= a -> central_angle a = 0 -> a = 0.
Proof.
  intros Ha E. unfold central_angle in E.
  assert (E' : atan2 (sqrt a) (sqrt (1 - a)) = 0) by lra.
  apply atan2_eq_0 in E'; try apply sqrt_pos. now apply sqrt_eq_0.
Qed.

Section GreatCircle.
Variable radius : R.
Hypothesis radius_pos : 0 < radius.

Lemma great_circle_nonneg a b c d : 0 <= great_circle radius a b c d.
Proof.
  unfold great_circle. pose proof (central_angle_range (hav a b c d)). nra.
Qed.

Lemma great_circle_bound a b c d : great_circle radius a b c d <= radius * PI.
Proof.
  unfold great_circle. pose proof (central_angle_range (hav a b c d)). nra.
Qed.

Lemma great_circle_sym a b c d :
  great_circle radius a b c d = great_circle radius c d a b.
Proof. unfold great_circle. now rewrite hav_sym. Qed.

Lemma great_circle_refl a b : great_circle radius a b a b = 0.
Proof. unfold great_circle. rewrite hav_refl, central_angle_0. lra. Qed.

Lemma great_circle_eq_0 a b c d :
  great_circle radius a b c d = 0 <-> hav a b c d = 0.
Proof.
  unfold great_circle. split.
  - intros E. apply central_angle_eq_0; [|nra].
    rewrite hav_cos. pose proof (dot_bound a c (d - b)). lra.
  - intros ->. rewrite central_angle_0. lra.
Qed.
End GreatCircle.

Lemma great_circle_laws radius :
  0 < radius -> DistanceLaws eq Rle 0 (great_circle radius).
Proof.
  intros Hr. split; intros.
  - now apply great_circle_nonneg.
  - apply great_circle_sym.
  - apply great_circle_refl.
Qed.

(** C38: [haversineDistance] is non-negative, symmetric and zero between a
    point and itself: it implements the distance interface the route
    sequencer, the locator and the metrics are verified against. *)
Theorem haversineDistance_laws : DistanceLaws eq Rle 0 haversineDistance.
Proof. apply great_circle_laws. lra. Qed.

(** [getDistance] satisfies the same laws, for the optimizer. *)
Theorem getDistance_laws : DistanceLaws eq Rle 0 getDistance.
Proof. apply great_circle_laws. lra. Qed.

(** No distance exceeds half the circumference of the sphere. *)
Theorem haversineDistance_bound a b c d :
  0 <= haversineDistance a b c d <= 6371 * PI.
Proof.
  split; [apply great_circle_nonneg | apply great_circle_bound]; lra.
Qed.

(** The two pages compute the same distance in two units: the value in
    miles is the value in kilometres times the ratio of the radii. *)
Theorem getDistance_haversineDistance a b c d :
  getDistance a b c d = 3958.8 / 6371 * haversineDistance a b c d.
Proof. unfold getDistance, haversineDistance, great_circle. field. Qed.

(** The conversion factor of [miles] is not the ratio of the two radii:
    converting the kilometre distance agrees with [getDistance] only when
    the distance is zero. *)
Theorem miles_agrees_only_at_0 a b c d :
  miles (haversineDistance a b c d) = getDistance a b c d <->
  haversineDistance a b c d = 0.
Proof. unfold miles, getDistance, haversineDistance, great_circle. lra. Qed.

(** The distance is zero between any two points at the north pole,
    whatever their longitudes: "zero only between equal coordinates" does
    not hold of the formula. *)
Theorem pole_distance_0 a b : haversineDistance 90 a 90 b = 0.
Proof.
  apply great_circle_eq_0; [lra|]. rewrite hav_cos.
  replace (toRad 90) with (PI / 2) by (unfold toRad; lra).
  rewrite cos_PI2, sin_PI2. lra.
Qed.

(** ** The formula is not additive along an interpolated segment *)

Lemma central_angle_1 : central_angle 1 = PI.
Proof.
  unfold central_angle, atan2. rewrite sqrt_1, Rminus_diag, sqrt_0.
  destruct (Rlt_dec 0 0) as [H|_]; [lra|]. destruct (Rlt_dec 0 1) as [_|H]; lra.
Qed.

(** C39: the distance is not additive along the segments that
    [closestPointOnPolyline] interpolates: from longitude -180 to longitude
    180 on the equator the end points are the same place, at distance 0, but
    the interpolated midpoint is half the circumference away from both. *)
Theorem haversineDistance_not_additive :
  let lat := 0 + (0 - 0) * (1 / 2) in
  let lng := -180 + (180 - -180) * (1 / 2) in
  haversineDistance 0 (-180) 0 180 = 0 /\
  haversineDistance 0 (-180) lat lng + haversineDistance lat lng 0 180 = 2 * (6371 * PI).
Proof.
  cbv zeta. replace (0 + (0 - 0) * (1 / 2)) with 0 by lra.
  replace (-180 + (180 - -180) * (1 / 2)) with 0 by lra.
  unfold haversineDistance, great_circle. rewrite !hav_cos.
  replace (toRad 0) with 0 by (unfold toRad; lra).
  replace (toRad (180 - -180)) with (2 * PI) by (unfold toRad; lra).
  replace (toRad (0 - -180)) with PI by (unfold toRad; lra).
  replace (toRad (180 - 0)) with PI by (unfold toRad; lra).
  rewrite sin_0, cos_0, cos_PI, cos_2PI.
  replace ((1 - (0 * 0 + 1 * 1 * 1)) / 2) with 0 by lra.
  replace ((1 - (0 * 0 + 1 * 1 * -1)) / 2) with 1 by lra.
  rewrite central_angle_0, central_angle_1. lra.
Qed.
