(* ===== verification/Fleet.v ===== *)
(** * Fleet: deliveries, drones, trips and the eligibility filter

    The records of the two pages: a delivery of the form, a drone of the
    fleet, and the trip object that [optimizeTrip] builds, [submit] stores
    and [PathPlanning] reads back.  A property that a page tests before it
    reads it ([trip.drone], [trip.droneDelivery], [trip.truckDeliveries],
    [trip.hqLat], [trip.mlPredictedDelivery]) is an [option]: [None] is
    [undefined].  The eligibility filter is the [drones.filter(...)] of
    [optimizeTrip]. *)

From stdpp Require Import strings.
From S2P Require Import Prelude Geodesy.

(** ** Records *)

(** A row of the form after [submit] made its weight a number. *)
Record Delivery : Type := mkDelivery {
  weight : Q;
  latitude : Q;
  longitude : Q
}.

(** [[Number(del.latitude), Number(del.longitude)]]. *)
Definition coords (d : Delivery) : LatLng := mkLatLng (latitude d) (longitude d).

Record Drone : Type := mkDrone {
  droneId : string;
  payload : Q;
  currentBattery : Q;
  available : bool
}.

(** The figures "Execute Delivery" adds to the trip before it is saved. *)
Record TripStats : Type := mkTripStats {
  stat_carbonReduction : Q;
  stat_carbonEmission : Q;
  stat_totalTripTime : Q;
  stat_truckOnlyTotalTime : Q;
  stat_timeSaved : Q;
  stat_mlDroneId : option string
}.

(** The trip object.  The numbers [optimizeTrip] stores are the ones its
    [toFixed] strings denote; [carbonReduction] is [None] when the string
    is ["NaN"] or ["-Infinity"]. *)
Record Trip : Type := mkTrip {
  drone : option Drone;
  droneDelivery : option Delivery;
  truckDeliveries : option (list Delivery);
  droneDist : Q;
  truckDist : Q;
  carbonReduction : option Q;
  totalTime : Q;
  hybridCarbon : Q;
  truckOnlyCarbon : Q;
  truckOnlyTime : Q;
  deliveries : list Delivery;
  createdAt : string;
  hqLat : option Q;
  hqLng : option Q;
  mlPredictedDelivery : option Delivery;
  stats : option TripStats
}.

(** ** Eligibility *)

(** [d.available && Number(d.payload) >= Number(droneDelivery.weight) &&
    Number(d.currentBattery) >= 20]. *)
Definition eligible (droneDelivery : Delivery) (d : Drone) : Prop :=
  available d = true /\ weight droneDelivery <= payload d /\ 20 <= currentBattery d.

#[export] Instance eligible_dec droneDelivery d : Decision (eligible droneDelivery d).
Proof. unfold eligible. apply _. Defined.

(** [drones.filter(d => ...)]. *)
Definition availableDrones (drones : list Drone) (droneDelivery : Delivery) : list Drone :=
  filter (eligible droneDelivery) drones.

(** ** Properties of the filter *)

Lemma availableDrones_elem drones del d :
  d ∈ availableDrones drones del <-> eligible del d /\ d ∈ drones.
Proof. apply list_elem_of_filter. Qed.

Lemma availableDrones_nil drones del :
  availableDrones drones del = [] <-> Forall (fun d => ~ eligible del d) drones.
Proof.
  unfold availableDrones. induction drones as [|d drones IH]; simpl.
  - split; [constructor | reflexivity].
  - rewrite filter_cons. destruct (decide (eligible del d)) as [He|He].
    + split; [discriminate | intros H; inversion H; contradiction].
    + rewrite IH. split; [intros; constructor; assumption | intros H; inversion H; assumption].
Qed.

(** The head of the filtered list is the first eligible drone of the
    fleet, with its position. *)
Lemma availableDrones_head drones del d rest :
  availableDrones drones del = d :: rest ->
  exists i, drones !! i = Some d /\ eligible del d /\
    forall j d', drones !! j = Some d' -> (j < i)%nat -> ~ eligible del d'.
Proof.
  unfold availableDrones. revert d rest.
  induction drones as [|d0 drones IH]; intros d rest; [discriminate|].
  rewrite filter_cons. destruct (decide (eligible del d0)) as [He|He].
  - intros [= -> _]. exists 0%nat. split; [reflexivity | split; [exact He | intros; lia]].
  - intros (i & Hi & Hd & Hfst)%IH. exists (S i). split; [exact Hi | split; [exact Hd |]].
    intros [|j] d' Hj Hlt; simpl in Hj; [congruence|]. apply (Hfst j); auto with lia.
Qed.

(** Filtering keeps the order of the fleet. *)
Lemma availableDrones_sublist drones del : availableDrones drones del `sublist_of` drones.
Proof. apply sublist_filter. Qed.
