(* ===== verification/Requests.v ===== *)
(** * Requests: asynchronous requests that nothing cancels

    The two services of [PathPlanning.jsx] are asked in the same way: an
    effect calls an [async] function that sets a loading flag and clears
    the error, awaits the answer, stores the answer or an error, and
    clears the flag in the end.  The part before the [await] and the part
    after it are two steps, and since nothing cancels a request a second
    one can start before the first has ended.

    [Fetch] is the interface of such a function and [FetchLaws] what the
    theorems of this file need of it; [Wind] and [Routing] give the
    instances.  The machine pairs the state of the effect with the number
    of requests that have started and not ended. *)

From stdpp Require Import relations.
From S2P Require Import Prelude.

(** The state [St] of an effect, the answers [Ans] of its service. *)
Class Fetch (St Ans : Type) : Type := {
  fetch_start : St -> St;
  fetch_end : Ans -> St -> St;
  fetch_loading : St -> bool;
  fetch_error : St -> Prop
}.

(** What the theorems need of the two operations: the start sets the flag
    and clears the error, the end clears the flag whatever the answer. *)
Class FetchLaws `(F : Fetch St Ans) : Prop := {
  start_loading s : fetch_loading (fetch_start s) = true;
  start_no_error s : ~ fetch_error (fetch_start s);
  end_not_loading r s : fetch_loading (fetch_end r s) = false
}.

Section Requests.
Context `{F : Fetch St Ans}.

(** The state of the effect with the number of requests that are out. *)
Definition Pending : Type := St * nat.

(** A request starts when the guard of the effect holds; a request that
    is out ends with any answer. *)
Inductive flight_step (enabled : Prop) : relation Pending :=
| flight_start s n :
    enabled -> flight_step enabled (s, n) (fetch_start s, S n)
| flight_end r s n :
    flight_step enabled (s, S n) (fetch_end r s, n).

(** The states of the effect, from [init] with no request out. *)
Inductive flights (init : St) : Pending -> Prop :=
| flights_init : flights init (init, 0%nat)
| flights_step enabled s s' :
    flights init s -> flight_step enabled s s' -> flights init s'.

(** The state after the answers [rs], the oldest first. *)
Definition settle (rs : list Ans) (s : St) : St := foldl (fun s r => fetch_end r s) s rs.

(** While the flag is set no error is shown and a request is out. *)
Definition flight_inv (s : Pending) : Prop :=
  fetch_loading s.1 = true -> ~ fetch_error s.1 /\ (0 < s.2)%nat.

(** The steps that are left when the effect asks no more. *)
Definition drain : relation Pending := flight_step False.

(** A weaker guard allows the same steps. *)
Lemma flight_step_impl (P Q : Prop) s s' :
  (P -> Q) -> flight_step P s s' -> flight_step Q s s'.
Proof. intros HPQ. destruct 1; constructor; auto. Qed.

Lemma flight_step_drain (P : Prop) s s' : ~ P -> flight_step P s s' <-> drain s s'.
Proof. intros HP. split; apply flight_step_impl; tauto. Qed.

Lemma settle_snoc rs r s : settle (rs ++ [r]) s = fetch_end r (settle rs s).
Proof. unfold settle. now rewrite foldl_app. Qed.

Lemma settle_run enabled rs : forall s,
  nsteps (flight_step enabled) (length rs) (s, length rs) (settle rs s, 0%nat).
Proof.
  induction rs as [|r rs IH]; intros s; [constructor|].
  simpl. econstructor; [apply flight_end | apply IH].
Qed.

Lemma drain_pending s s' : drain s s' -> s.2 = S s'.2.
Proof. now destruct 1. Qed.

Lemma drain_sn s : sn drain s.
Proof.
  apply (sn_measure drain snd). intros x y Hxy%drain_pending. lia.
Qed.

Lemma drain_nf `{Inhabited Ans} s : nf drain s <-> s.2 = 0%nat.
Proof.
  destruct s as [s [|n]]; simpl; split; try done.
  - intros _ [s' Hs']. apply drain_pending in Hs'. discriminate.
  - intros Hnf. destruct Hnf. eexists. apply (flight_end _ inhabitant).
Qed.

Context {L : FetchLaws F}.

Lemma flight_inv_step enabled s s' : flight_step enabled s s' -> flight_inv s'.
Proof.
  destruct 1; intros Hl; simpl in *.
  - split; [apply start_no_error | lia].
  - now rewrite end_not_loading in Hl.
Qed.

Lemma flights_inv init s :
  fetch_loading init = false -> flights init s -> flight_inv s.
Proof.
  intros Hinit. destruct 1; [|eauto using flight_inv_step].
  intros Hl. simpl in Hl. congruence.
Qed.

Lemma flights_rtc init enabled s s' :
  flights init s -> rtc (flight_step enabled) s s' -> flights init s'.
Proof. induction 2; eauto using flights_step. Qed.

(** When no request is out the flag is clear. *)
Lemma flights_idle init s :
  fetch_loading init = false -> flights init s -> s.2 = 0%nat ->
  fetch_loading s.1 = false.
Proof.
  intros Hinit Hs%flights_inv Hn; [|exact Hinit].
  destruct (fetch_loading s.1) eqn:E; [|reflexivity]. destruct (Hs E). lia.
Qed.

(** Every request that is out ends: once the guard of the effect fails
    the answers left are finitely many, they can arrive, whatever they
    are, and after the last of them the flag is clear. *)
Theorem flights_settle `{Inhabited Ans} (P : Prop) init s :
  ~ P -> fetch_loading init = false -> flights init s ->
  sn (flight_step P) s /\
  (forall rs, length rs = s.2 -> rtc (flight_step P) s (settle rs s.1, 0%nat)) /\
  (forall s', rtc (flight_step P) s s' -> nf (flight_step P) s' ->
     fetch_loading s'.1 = false).
Proof.
  intros HP Hinit Hs. split_and!.
  - eapply Acc_impl; [apply drain_sn|]. intros x y. now apply flight_step_drain.
  - intros rs Hlen. destruct s as [s n]. simpl in *. subst n.
    eapply rtc_nsteps_2, settle_run.
  - intros s' Hrun Hnf. eapply flights_idle; eauto using flights_rtc.
    apply drain_nf. intros [y Hy]. apply Hnf. exists y. now apply flight_step_drain.
Qed.

End Requests.

Arguments Pending : clear implicits.
