(* ===== verification/Optimizer.v ===== *)
(** * Optimizer: [optimizeTrip] of [NewTrip.jsx]

    For every delivery of the form the loop takes it as the drone delivery,
    filters the fleet for an eligible drone, computes the drone and truck
    distances of that split, the carbon and time figures, and keeps the
    candidate when no trip is kept yet or its hybrid carbon is below
    [best.hybridCarbon].  The kept trip stores its figures as [toFixed]
    strings, so the comparison is between the raw carbon of the candidate
    and the rounded carbon of the trip kept so far; the model keeps both.

    [HQ] is the constant depot of the page.  The clock read by
    [new Date()] is the parameter [now].  [trip_wf] is the type of the
    object the function returns. *)

From stdpp Require Import strings.
From S2P Require Import Prelude JsNum Geodesy Fleet.

(** ** Constants *)

Definition HQ : LatLng := mkLatLng 12.9716 77.5946.
Definition TRUCK_EMISSION_PER_MILE : Q := 1.2.
Definition DRONE_EMISSION_PER_MILE : Q := 0.1.

Section Optimizer.
Context {G : Geodesy}.

#[local] Abbreviation getDistance := (@dist4 G).

(** ** The distances of one candidate *)

(** The body of [truckDeliveries.forEach]: add the leg from [prev] and move
    [prev] to the delivery. *)
Definition truck_leg (st : Q * LatLng) (del : Delivery) : Q * LatLng :=
  (st.1 + getDistance (lat st.2) (lng st.2) (latitude del) (longitude del),
   mkLatLng (latitude del) (longitude del)).

(** [truckDist]: the legs through the truck deliveries in their order and,
    when there is at least one, the leg back to the depot. *)
Definition truckDistOf (truckDeliveries : list Delivery) : Q :=
  let st := fold_left truck_leg truckDeliveries (0, HQ) in
  match length truckDeliveries with
  | O => st.1
  | S _ => st.1 + getDistance (lat st.2) (lng st.2) (lat HQ) (lng HQ)
  end.

(** The callback of [deliveries.reduce]: the leg into [del] from the depot
    (first index) or from [deliveries[idx - 1]].  The index is in range
    whenever the callback runs; the depot stands for a failed read. *)
Definition truckOnly_leg (deliveries : list Delivery)
    (sum : Q) (idx : nat) (del : Delivery) : Q :=
  let from :=
    if (idx =? 0)%nat then HQ
    else from_option coords HQ (deliveries !! (idx - 1)%nat) in
  sum + getDistance (lat from) (lng from) (latitude del) (longitude del).

(** [truckOnlyDist]: the reduce plus the leg from the last delivery back to
    the depot. *)
Definition truckOnlyDistOf (deliveries : list Delivery) : Q :=
  let lastPt := List.last (coords <$> deliveries) HQ in
  for_each (truckOnly_leg deliveries) deliveries 0
  + getDistance (lat lastPt) (lng lastPt) (lat HQ) (lng HQ).

(** [droneDist]: depot to the delivery and back. *)
Definition droneDistOf (droneDelivery : Delivery) : Q :=
  getDistance (lat HQ) (lng HQ) (latitude droneDelivery) (longitude droneDelivery) * 2.

(** [hybridCarbon] of the candidate that flies delivery [i], before it is
    rounded. *)
Definition rawHybridCarbon (deliveries : list Delivery) (i : nat)
    (droneDelivery : Delivery) : Q :=
  truckDistOf (filter_index (fun idx => negb (idx =? i)%nat) deliveries)
    * TRUCK_EMISSION_PER_MILE
  + droneDistOf droneDelivery * DRONE_EMISSION_PER_MILE.

(** ** One candidate *)

(** The object literal assigned to [best], for the candidate [i] served by
    [drone]. *)
Definition tripOf (now : string) (deliveries : list Delivery)
    (i : nat) (droneDelivery : Delivery) (drone : Drone) : Trip :=
  let truckDeliveries := filter_index (fun idx => negb (idx =? i)%nat) deliveries in
  let droneDist := droneDistOf droneDelivery in
  let truckDist := truckDistOf truckDeliveries in
  let truckOnlyDist := truckOnlyDistOf deliveries in
  let truckOnlyCarbon := truckOnlyDist * TRUCK_EMISSION_PER_MILE in
  let hybridCarbon :=
    truckDist * TRUCK_EMISSION_PER_MILE + droneDist * DRONE_EMISSION_PER_MILE in
  let carbonReduction :=
    (fun q => q * 100) <$> jsdiv (truckOnlyCarbon - hybridCarbon) truckOnlyCarbon in
  let truckTime := truckDist / 30 * 60 in
  let droneTime := droneDist / 40 * 60 in
  let totalTime := Math_max truckTime droneTime in
  {| drone := Some drone;
     droneDelivery := Some droneDelivery;
     truckDeliveries := Some truckDeliveries;
     droneDist := toFixed 2 droneDist;
     truckDist := toFixed 2 truckDist;
     carbonReduction := toFixed 1 <$> carbonReduction;
     totalTime := toFixed 1 totalTime;
     hybridCarbon := toFixed 2 hybridCarbon;
     truckOnlyCarbon := toFixed 2 truckOnlyCarbon;
     truckOnlyTime := toFixed 1 (truckOnlyDist / 30 * 60);
     deliveries := deliveries;
     createdAt := now;
     hqLat := None; hqLng := None; mlPredictedDelivery := None;
     stats := None |}.

(** [!best || hybridCarbon < best.hybridCarbon]: the right-hand side is the
    number the stored string denotes. *)
Definition improves (hc : Q) (best : option Trip) : bool :=
  match best with
  | None => true
  | Some b => Qltb hc (hybridCarbon b)
  end.

(** The body of the [for] loop for index [i]. *)
Definition optimize_step (drones : list Drone) (now : string)
    (deliveries : list Delivery)
    (best : option Trip) (i : nat) (droneDelivery : Delivery) : option Trip :=
  match availableDrones drones droneDelivery with
  | [] => best
  | drone :: _ =>
      if improves (rawHybridCarbon deliveries i droneDelivery) best
      then Some (tripOf now deliveries i droneDelivery drone)
      else best
  end.

(** ** [optimizeTrip] *)

Definition optimizeTrip (drones : list Drone) (now : string)
    (deliveries : list Delivery) : option Trip :=
  for_each (optimize_step drones now deliveries) deliveries None.

End Optimizer.

(** ** The distances as path lengths *)

Section OptimizerFacts.
Context {G : Geodesy}.

(** The path a truck drives through deliveries: depot first. *)
Definition route (l : list Delivery) : list LatLng := HQ :: (coords <$> l).

Lemma truck_leg_dist st del :
  truck_leg st del = (st.1 + dist st.2 (coords del), coords del).
Proof. reflexivity. Qed.

Lemma truck_fold l : forall s p,
  (fold_left truck_leg l (s, p)).1 == s + pathLength (p :: (coords <$> l)) /\
  (fold_left truck_leg l (s, p)).2 = List.last (coords <$> l) p.
Proof.
  induction l as [|a l IH]; intros s p; [simpl; split; [lra | reflexivity]|].
  change (fold_left truck_leg (a :: l) (s, p))
    with (fold_left truck_leg l (s + dist p (coords a), coords a)).
  destruct (IH (s + dist p (coords a)) (coords a)) as [E1 E2]. split.
  - rewrite E1. rewrite fmap_cons, pathLength_cons. lra.
  - rewrite E2, fmap_cons. symmetry. apply last_cons_default.
Qed.

Lemma truckDistOf_path l :
  l <> [] -> truckDistOf l == pathLength (route l ++ [HQ]).
Proof.
  intros Hl. unfold truckDistOf, route. destruct (truck_fold l 0 HQ) as [E1 E2].
  destruct l as [|a l]; [contradiction|].
  cbv zeta. change (length (a :: l)) with (S (length l)). cbv iota beta.
  rewrite pathLength_snoc, E1.
  change (dist4 (lat ?p) (lng ?p) (lat HQ) (lng HQ)) with (dist p HQ).
  rewrite E2. lra.
Qed.

Lemma truckDistOf_nil : truckDistOf [] = 0.
Proof. reflexivity. Qed.

Lemma truckOnly_for_each deliveries :
  for_each (truckOnly_leg deliveries) deliveries 0 == pathLength (route deliveries).
Proof.
  apply (for_each_inv (truckOnly_leg deliveries)
           (fun pre sum => sum == pathLength (route pre))); [reflexivity|].
  intros pre a sum Ha [suf Hpre] Hsum. unfold truckOnly_leg, route in *.
  rewrite fmap_app. change (HQ :: (coords <$> pre) ++ (coords <$> [a]))
    with ((HQ :: (coords <$> pre)) ++ [coords a]).
  rewrite pathLength_snoc, Hsum. apply Qplus_comp; [reflexivity|].
  destruct pre as [|b pre _] using rev_ind; [reflexivity|].
  rewrite length_app. simpl. replace (length pre + 1 =? 0)%nat with false
    by (symmetry; apply Nat.eqb_neq; lia).
  replace (length pre + 1 - 1)%nat with (length pre) by lia.
  rewrite Hpre, <- !app_assoc. simpl ((_ ++ _) !! _).
  rewrite (list_lookup_middle pre suf b) by reflexivity. simpl.
  rewrite fmap_app. change (coords <$> [b]) with [coords b].
  rewrite last_snoc_default. reflexivity.
Qed.

Lemma truckOnlyDistOf_path deliveries :
  truckOnlyDistOf deliveries == pathLength (route deliveries ++ [HQ]).
Proof.
  unfold truckOnlyDistOf. cbv zeta. rewrite truckOnly_for_each.
  unfold route at 2. rewrite pathLength_snoc. reflexivity.
Qed.

(** The truck-only baseline that [deliveries.reduce] computes is the
    distance the [forEach] loop computes for the same stops: the round trip
    depot, every delivery in the order of the form, depot. *)
Theorem truckOnlyDistOf_truckDistOf deliveries :
  deliveries <> [] -> truckOnlyDistOf deliveries == truckDistOf deliveries.
Proof. intros H. now rewrite truckOnlyDistOf_path, truckDistOf_path. Qed.

(** ** The invariant of the loop *)

Section Loop.
Context (drones : list Drone) (now : string) (deliveries : list Delivery).

#[local] Abbreviation raw := (rawHybridCarbon deliveries).

(** Candidate [i] beats the candidates of [pre]: it is strictly below the
    rounded carbon of every earlier one and its rounded carbon is not above
    any later one. *)
Definition beats (pre : list Delivery) (i : nat) (d : Delivery) : Prop :=
  forall j d', pre !! j = Some d' -> availableDrones drones d' <> [] ->
    ((j < i)%nat -> raw i d < toFixed 2 (raw j d')) /\
    ((i < j)%nat -> toFixed 2 (raw i d) <= raw j d').

Definition optimize_inv (pre : list Delivery) (best : option Trip) : Prop :=
  match best with
  | None => Forall (fun d => availableDrones drones d = []) pre
  | Some t => exists i d dr rest,
      pre !! i = Some d /\ availableDrones drones d = dr :: rest /\
      t = tripOf now deliveries i d dr /\ beats pre i d
  end.

Lemma hybridCarbon_tripOf i d dr :
  hybridCarbon (tripOf now deliveries i d dr) = toFixed 2 (raw i d).
Proof. reflexivity. Qed.

(** A candidate that beats the others is minimal among them after
    rounding. *)
Lemma beats_rounded pre i d j d' :
  beats pre i d -> pre !! i = Some d -> pre !! j = Some d' ->
  availableDrones drones d' <> [] ->
  toFixed 2 (raw i d) <= toFixed 2 (raw j d').
Proof.
  intros Hb Hi Hj He. destruct (Hb j d' Hj He) as [Hlt Hgt].
  destruct (lt_eq_lt_dec j i) as [[H|H]|H].
  - rewrite <- (toFixed_idem 2 (raw j d')). apply toFixed_mono. specialize (Hlt H). lra.
  - subst j. rewrite Hi in Hj. injection Hj as <-. lra.
  - rewrite <- (toFixed_idem 2 (raw i d)). apply toFixed_mono. auto.
Qed.

(** At most one eligible candidate beats the others: of two that do, the
    later one would be strictly below the rounded carbon of the earlier
    one, which is not above the later one. *)
Lemma beats_unique pre i d i' d' :
  beats pre i d -> beats pre i' d' ->
  pre !! i = Some d -> pre !! i' = Some d' ->
  availableDrones drones d <> [] -> availableDrones drones d' <> [] ->
  i = i'.
Proof.
  intros Hb Hb' Hi Hi' He He'.
  destruct (Hb i' d' Hi' He') as [Hlt Hgt], (Hb' i d Hi He) as [Hlt' Hgt'].
  destruct (lt_eq_lt_dec i i') as [[H|H]|H]; [|exact H|].
  - specialize (Hgt H). specialize (Hlt' H). lra.
  - specialize (Hlt H). specialize (Hgt' H). lra.
Qed.

Lemma optimize_step_inv pre a best :
  optimize_inv pre best ->
  optimize_inv (pre ++ [a]) (optimize_step drones now deliveries best (length pre) a).
Proof.
  intros Hinv. unfold optimize_step.
  destruct (availableDrones drones a) as [|dr rest] eqn:Ea.
  - (* no eligible drone: continue *)
    destruct best as [t|]; simpl in *.
    + destruct Hinv as (i & d & dr & rest & Hi & Hd & Ht & Hb).
      exists i, d, dr, rest. repeat split; auto using lookup_app_l_Some.
      all: apply lookup_snoc_Some in H as [[_ H]|[-> <-]]; [apply (Hb _ _ H H0)|congruence].
    + apply Forall_app; split; [assumption | repeat constructor; assumption].
  - destruct best as [t|]; simpl in *.
    + destruct Hinv as (i & d & dr0 & rest0 & Hi & Hd & -> & Hb).
      rewrite hybridCarbon_tripOf. pose proof (lookup_lt_Some _ _ _ Hi) as Hlen.
      qcase (Qltb (raw (length pre) a) (toFixed 2 (raw i d))) as E.
      * exists (length pre), a, dr, rest. split; [apply list_lookup_middle; reflexivity|].
        repeat split; auto.
        -- intros Hj. apply lookup_snoc_Some in H as [[_ H]|[-> <-]]; [|lia].
           pose proof (beats_rounded _ _ _ _ _ Hb Hi H H0). lra.
        -- intros Hj. apply lookup_lt_Some in H. rewrite length_app in H. simpl in H. lia.
      * exists i, d, dr0, rest0. repeat split; auto using lookup_app_l_Some.
        all: apply lookup_snoc_Some in H as [[_ H]|[-> <-]]; [apply (Hb _ _ H H0)| intros; auto; lia].
    + exists (length pre), a, dr, rest. split; [apply list_lookup_middle; reflexivity|].
      repeat split; auto.
      * intros Hj. apply lookup_snoc_Some in H as [[_ H]|[-> <-]]; [|lia].
        rewrite Forall_lookup in Hinv. specialize (Hinv _ _ H). contradiction.
      * intros Hj. apply lookup_lt_Some in H. rewrite length_app in H. simpl in H. lia.
Qed.

Lemma optimizeTrip_inv :
  optimize_inv deliveries (optimizeTrip drones now deliveries).
Proof.
  apply (for_each_inv _ optimize_inv); [constructor|].
  intros pre a st _ _. apply optimize_step_inv.
Qed.

End Loop.

(** ** The result of [optimizeTrip] *)

(** What the invariant says of a returned plan. *)
Lemma optimizeTrip_Some drones now deliveries t :
  optimizeTrip drones now deliveries = Some t ->
  exists i d dr rest, deliveries !! i = Some d /\
    availableDrones drones d = dr :: rest /\
    t = tripOf now deliveries i d dr /\
    beats drones deliveries deliveries i d.
Proof.
  intros E. pose proof (optimizeTrip_inv drones now deliveries) as H.
  now rewrite E in H.
Qed.

(** When a delivery of the form has an eligible drone, a plan is returned,
    and its stored carbon is at most the rounded carbon of that candidate. *)
Lemma optimizeTrip_le_candidate drones now deliveries j d' :
  deliveries !! j = Some d' -> availableDrones drones d' <> [] ->
  exists t, optimizeTrip drones now deliveries = Some t /\
    hybridCarbon t <= toFixed 2 (rawHybridCarbon deliveries j d').
Proof.
  intros Hj He. pose proof (optimizeTrip_inv drones now deliveries) as H.
  destruct (optimizeTrip drones now deliveries) as [t|]; simpl in H.
  - destruct H as (i & d & dr & rest & Hi & _ & -> & Hb). eexists. split; [reflexivity|].
    rewrite hybridCarbon_tripOf. eapply beats_rounded; eauto.
  - rewrite Forall_lookup in H. specialize (H _ _ Hj). contradiction.
Qed.

(** A plan is the object built for one delivery [i] of the form and the
    head of its list of eligible drones, with every field as the loop
    computes it. *)
Theorem optimizeTrip_is_candidate drones now deliveries t :
  optimizeTrip drones now deliveries = Some t ->
  exists i d dr, deliveries !! i = Some d /\
    head (availableDrones drones d) = Some dr /\
    t = tripOf now deliveries i d dr.
Proof.
  intros (i & d & dr & rest & Hi & Hd & Ht & _)%optimizeTrip_Some.
  exists i, d, dr. rewrite Hd. auto.
Qed.

(** C1: the partition invariant: the drone delivery is one delivery of the
    form, the truck deliveries are all the others in their order, so the
    plan serves every delivery exactly once. *)
Theorem optimizeTrip_partition drones now deliveries t :
  optimizeTrip drones now deliveries = Some t ->
  exists i d, deliveries !! i = Some d /\
    droneDelivery t = Some d /\
    truckDeliveries t = Some (delete i deliveries) /\
    d :: delete i deliveries ≡ₚ deliveries.
Proof.
  intros (i & d & dr & rest & Hi & _ & -> & _)%optimizeTrip_Some.
  exists i, d. simpl. rewrite filter_index_ne.
  repeat split; auto. symmetry. now apply delete_Permutation.
Qed.

(** C2: eligibility: the drone of a plan is available, carries the weight
    of the drone delivery, has at least 20 percent battery, and is the
    first such drone of the fleet. *)
Theorem optimizeTrip_drone_eligible drones now deliveries t :
  optimizeTrip drones now deliveries = Some t ->
  exists d dr k, droneDelivery t = Some d /\ drone t = Some dr /\
    drones !! k = Some dr /\ eligible d dr /\
    forall j dr', drones !! j = Some dr' -> (j < k)%nat -> ~ eligible d dr'.
Proof.
  intros (i & d & dr & rest & Hi & Hd & -> & _)%optimizeTrip_Some.
  apply availableDrones_head in Hd as (k & Hk & He & Hfst).
  exists d, dr, k. simpl. auto.
Qed.

(** C3: no plan is returned exactly when no delivery of the form has an
    eligible drone. *)
Theorem optimizeTrip_None_iff drones now deliveries :
  optimizeTrip drones now deliveries = None <->
  Forall (fun d => availableDrones drones d = []) deliveries.
Proof.
  pose proof (optimizeTrip_inv drones now deliveries) as H. split.
  - intros E. now rewrite E in H.
  - intros Hall. destruct (optimizeTrip drones now deliveries); [|reflexivity].
    destruct H as (i & d & dr & rest & Hi & Hd & _).
    rewrite Forall_lookup in Hall. rewrite (Hall _ _ Hi) in Hd. discriminate.
Qed.

(** The selection rule of the loop: the plan's candidate is strictly
    below the rounded carbon of every eligible candidate before it and its
    rounded carbon is not above the carbon of any eligible candidate after
    it (a later candidate must be strictly better to replace it). *)
Theorem optimizeTrip_beats drones now deliveries t :
  optimizeTrip drones now deliveries = Some t ->
  exists i d, deliveries !! i = Some d /\ droneDelivery t = Some d /\
    hybridCarbon t = toFixed 2 (rawHybridCarbon deliveries i d) /\
    beats drones deliveries deliveries i d.
Proof.
  intros (i & d & dr & rest & Hi & Hd & -> & Hb)%optimizeTrip_Some.
  exists i, d. auto.
Qed.

(** C5: the selection rule determines the plan.  When delivery [i] has
    an eligible drone, its carbon is strictly below the rounded carbon of
    every eligible candidate before it and its rounded carbon is not above
    the carbon of any eligible candidate after it, the plan returned is
    the object built for [i] and the first of its eligible drones.  So an
    earlier candidate is kept against every later one whose carbon is not
    below the two decimals stored for it, also when that carbon is below
    its own. *)
Theorem optimizeTrip_selects drones now deliveries i d dr :
  deliveries !! i = Some d -> head (availableDrones drones d) = Some dr ->
  beats drones deliveries deliveries i d ->
  optimizeTrip drones now deliveries = Some (tripOf now deliveries i d dr).
Proof.
  intros Hi Hdr Hb.
  assert (availableDrones drones d <> []) as He by (intros E; now rewrite E in Hdr).
  destruct (optimizeTrip_le_candidate drones now deliveries i d Hi He) as (t & E & _).
  pose proof E as (i' & d' & dr' & rest & Hi' & Hd' & -> & Hb')%optimizeTrip_Some.
  assert (i' = i) as ->.
  { eapply beats_unique; eauto. now rewrite Hd'. }
  rewrite Hi in Hi'. injection Hi' as <-. rewrite Hd' in Hdr. injection Hdr as <-.
  exact E.
Qed.

(** C4: the stored hybrid carbon of the plan is minimal among the rounded
    hybrid carbons of all eligible candidates. *)
Theorem optimizeTrip_rounded_minimal drones now deliveries t j d' :
  optimizeTrip drones now deliveries = Some t ->
  deliveries !! j = Some d' -> availableDrones drones d' <> [] ->
  hybridCarbon t <= toFixed 2 (rawHybridCarbon deliveries j d').
Proof.
  intros (i & d & dr & rest & Hi & _ & -> & Hb)%optimizeTrip_Some Hj He.
  rewrite hybridCarbon_tripOf. eapply beats_rounded; eauto.
Qed.

(** C35: the carbon of the plan's candidate exceeds the carbon of no
    eligible candidate by more than one hundredth: comparing with the
    rounded carbon of the plan kept so far costs at most 0.01. *)
Theorem optimizeTrip_within_cent drones now deliveries t j d' :
  optimizeTrip drones now deliveries = Some t ->
  deliveries !! j = Some d' -> availableDrones drones d' <> [] ->
  exists i d, deliveries !! i = Some d /\ droneDelivery t = Some d /\
    rawHybridCarbon deliveries i d <= rawHybridCarbon deliveries j d' + 0.01.
Proof.
  intros (i & d & dr & rest & Hi & _ & -> & Hb)%optimizeTrip_Some Hj He.
  pose proof (beats_rounded _ _ _ _ _ _ _ Hb Hi Hj He) as Hmin.
  exists i, d. repeat split; auto.
  pose proof (toFixed_error 2 (rawHybridCarbon deliveries i d)) as H1.
  pose proof (toFixed_error 2 (rawHybridCarbon deliveries j d')) as H2.
  apply Qabs_Qle_condition in H1, H2.
  change ((1 # 2) / pow10 2) with (1 # 200) in H1, H2. lra.
Qed.

(** ** The shape of a plan *)

(** [x] is a number of [d] decimals, as [toFixed(d)] prints them. *)
Definition fixed (d : nat) (x : Q) : Prop := toFixed d x == x.

(** A figure of a plan: not negative, of [d] decimals. *)
Definition figure (d : nat) (x : Q) : Prop := 0 <= x /\ fixed d x.

(** The type of the object [optimizeTrip] returns: which fields are set,
    the range and the decimals of its numbers.  [carbonReduction] is a
    number only when the truck-only tour has a length. *)
Record trip_wf (t : Trip) : Prop := mkTripWf {
  twf_drone : is_Some (drone t);
  twf_droneDelivery : is_Some (droneDelivery t);
  twf_truckDeliveries :
    exists l, truckDeliveries t = Some l /\ S (length l) = length (deliveries t);
  twf_droneDist : figure 2 (droneDist t);
  twf_truckDist : figure 2 (truckDist t);
  twf_hybridCarbon : figure 2 (hybridCarbon t);
  twf_truckOnlyCarbon : figure 2 (truckOnlyCarbon t);
  twf_totalTime : figure 1 (totalTime t);
  twf_truckOnlyTime : figure 1 (truckOnlyTime t);
  twf_carbonReduction :
    match carbonReduction t with
    | Some r => r <= 100 /\ fixed 1 r
    | None => truckOnlyCarbon t == 0
    end;
  twf_unset : hqLat t = None /\ hqLng t = None /\
              mlPredictedDelivery t = None /\ stats t = None
}.

Lemma figure_toFixed d x : 0 <= x -> figure d (toFixed d x).
Proof. split; [auto with geo | apply toFixed_idem]. Qed.

Section Shape.
Context {L : MetricLaws G}.

Lemma droneDistOf_nonneg d : 0 <= droneDistOf d.
Proof. unfold droneDistOf. pose proof (dist4_nonneg (lat HQ) (lng HQ) (latitude d) (longitude d)). lra. Qed.

Lemma truckDistOf_nonneg l : 0 <= truckDistOf l.
Proof.
  destruct l as [|a l]; [rewrite truckDistOf_nil; lra|].
  rewrite truckDistOf_path by discriminate. auto with geo.
Qed.

Lemma truckOnlyDistOf_nonneg l : 0 <= truckOnlyDistOf l.
Proof. rewrite truckOnlyDistOf_path. auto with geo. Qed.

Lemma minutes_nonneg x v : 0 <= x -> 0 < v -> 0 <= x / v * 60.
Proof. intros Hx Hv. apply Qmult_le_0_compat; [apply Qle_shift_div_l; lra | lra]. Qed.

(** The reduction is at most 100 percent, since no carbon is negative. *)
Lemma reduction_le_100 toc hc r :
  0 <= toc -> 0 <= hc -> jsdiv (toc - hc) toc = Some r -> r * 100 <= 100.
Proof.
  intros Ht Hh [Hne ->]%jsdiv_Some. assert (0 < toc) as Hpos by lra.
  assert ((toc - hc) / toc <= 1); [|lra].
  apply Qle_shift_div_r; [exact Hpos | lra].
Qed.

Lemma tripOf_wf now deliveries i d dr :
  deliveries !! i = Some d -> trip_wf (tripOf now deliveries i d dr).
Proof.
  intros Hi.
  pose proof (droneDistOf_nonneg d) as Hd.
  pose proof (truckDistOf_nonneg (filter_index (fun idx => negb (idx =? i)%nat) deliveries)) as Ht.
  pose proof (truckOnlyDistOf_nonneg deliveries) as Ho.
  unfold TRUCK_EMISSION_PER_MILE, DRONE_EMISSION_PER_MILE in *.
  split; cbn [tripOf drone droneDelivery truckDeliveries droneDist truckDist hybridCarbon
    truckOnlyCarbon totalTime truckOnlyTime carbonReduction hqLat hqLng mlPredictedDelivery
    stats Fleet.deliveries]; eauto; try (apply figure_toFixed).
  all: unfold TRUCK_EMISSION_PER_MILE, DRONE_EMISSION_PER_MILE; try lra.
  - eexists; split; [reflexivity|]. rewrite filter_index_ne, length_delete by eauto.
    apply lookup_lt_Some in Hi. lia.
  - eapply Qle_trans; [|apply Math_max_l]. apply minutes_nonneg; lra.
  - apply minutes_nonneg; lra.
  - destruct (jsdiv _ _) as [r|] eqn:E; simpl.
    + split; [|apply toFixed_idem]. apply (toFixed_le_Z 1 _ 100).
      eapply reduction_le_100; [| |exact E]; lra.
    + apply jsdiv_None in E. rewrite E. apply (toFixed_Z 2 0).
Qed.

End Shape.

(** C18: the plan [optimizeTrip] returns is well typed: its drone, its
    drone delivery and its truck deliveries are set, the truck deliveries
    are one fewer than the deliveries of the form, every distance, carbon
    and time is a number that is not negative and has the decimals of its
    [toFixed], the carbon reduction is at most 100 with one decimal or is
    not a number when the truck-only tour has no length, and the fields
    that "Execute Delivery" fills are not set. *)
Theorem optimizeTrip_wf {L : MetricLaws G} drones now deliveries t :
  optimizeTrip drones now deliveries = Some t -> trip_wf t.
Proof.
  intros (i & d & dr & rest & Hi & _ & -> & _)%optimizeTrip_Some.
  now apply tripOf_wf.
Qed.

End OptimizerFacts.

(** ** Concrete runs, with the taxicab distance *)

Definition example_drones : list Drone := [mkDrone "D1" 10 50 true].

Definition example_deliveries : list Delivery :=
  [mkDelivery 5 13.9716 77.5946; mkDelivery 3 12.9716 78.5946].

Definition example_trip : Trip :=
  tripOf (G := taxicab) "t0" example_deliveries 0
    (mkDelivery 5 13.9716 77.5946) (mkDrone "D1" 10 50 true).

(** Two deliveries whose candidates differ by 0.0022 in hybrid carbon. *)
Definition near_tie_deliveries : list Delivery :=
  [mkDelivery 5 13.9716 77.5946; mkDelivery 3 13.9726 77.5946].

Lemma example_run :
  optimizeTrip (G := taxicab) example_drones "t0" example_deliveries
  = Some example_trip.
Proof. vm_compute. reflexivity. Qed.

Lemma truckOnlyDistOf_truckDistOf_witness :
  truckOnlyDistOf (G := taxicab) example_deliveries
  == truckDistOf (G := taxicab) example_deliveries.
Proof. apply truckOnlyDistOf_truckDistOf. discriminate. Defined.

Lemma optimizeTrip_is_candidate_witness :
  exists i d dr, example_deliveries !! i = Some d /\
    head (availableDrones example_drones d) = Some dr /\
    example_trip = tripOf (G := taxicab) "t0" example_deliveries i d dr.
Proof. apply (optimizeTrip_is_candidate example_drones). vm_compute. reflexivity. Defined.

Lemma optimizeTrip_partition_witness :
  exists i d, example_deliveries !! i = Some d /\
    droneDelivery example_trip = Some d /\
    truckDeliveries example_trip = Some (delete i example_deliveries) /\
    d :: delete i example_deliveries ≡ₚ example_deliveries.
Proof.
  apply (optimizeTrip_partition (G := taxicab) example_drones "t0").
  vm_compute. reflexivity.
Defined.

Lemma optimizeTrip_drone_eligible_witness :
  exists d dr k, droneDelivery example_trip = Some d /\
    drone example_trip = Some dr /\
    example_drones !! k = Some dr /\ eligible d dr /\
    forall j dr', example_drones !! j = Some dr' -> (j < k)%nat -> ~ eligible d dr'.
Proof.
  apply (optimizeTrip_drone_eligible (G := taxicab) example_drones "t0" example_deliveries).
  vm_compute. reflexivity.
Defined.

Lemma optimizeTrip_beats_witness :
  exists i d, example_deliveries !! i = Some d /\
    droneDelivery example_trip = Some d /\
    hybridCarbon example_trip
    = toFixed 2 (rawHybridCarbon (G := taxicab) example_deliveries i d) /\
    beats (G := taxicab) example_drones example_deliveries example_deliveries i d.
Proof. apply (optimizeTrip_beats example_drones "t0"). vm_compute. reflexivity. Defined.

Lemma optimizeTrip_rounded_minimal_witness :
  hybridCarbon example_trip
  <= toFixed 2 (rawHybridCarbon (G := taxicab) example_deliveries 1
                  (mkDelivery 3 12.9716 78.5946)).
Proof.
  apply (optimizeTrip_rounded_minimal (G := taxicab) example_drones "t0").
  - vm_compute. reflexivity.
  - reflexivity.
  - vm_compute. discriminate.
Defined.

Lemma optimizeTrip_within_cent_witness :
  exists i d, example_deliveries !! i = Some d /\
    droneDelivery example_trip = Some d /\
    rawHybridCarbon (G := taxicab) example_deliveries i d
    <= rawHybridCarbon (G := taxicab) example_deliveries 1
         (mkDelivery 3 12.9716 78.5946) + 0.01.
Proof.
  apply (optimizeTrip_within_cent (G := taxicab) example_drones "t0").
  - vm_compute. reflexivity.
  - reflexivity.
  - vm_compute. discriminate.
Defined.

Lemma optimizeTrip_wf_witness : trip_wf example_trip.
Proof. apply (optimizeTrip_wf (G := taxicab) example_drones "t0" example_deliveries), example_run. Defined.

(** The first candidate beats the second of the two near the tie: its
    rounded carbon 2.60 is not above the 2.6002 of the second. *)
Lemma near_tie_beats :
  beats (G := taxicab) example_drones near_tie_deliveries near_tie_deliveries 0
    (mkDelivery 5 13.9716 77.5946).
Proof.
  intros [|[|j]] d' Hj _; simplify_eq/=; split; intros Hlt; try lia.
  vm_compute. discriminate.
Qed.

(** The plan is not always a candidate of least hybrid carbon: the first
    candidate (2.6024, stored as 2.60) is kept although the second has
    2.6002. *)
Lemma optimizeTrip_selects_witness :
  optimizeTrip (G := taxicab) example_drones "t0" near_tie_deliveries
  = Some (tripOf (G := taxicab) "t0" near_tie_deliveries 0
            (mkDelivery 5 13.9716 77.5946) (mkDrone "D1" 10 50 true)) /\
  rawHybridCarbon (G := taxicab) near_tie_deliveries 1 (mkDelivery 3 13.9726 77.5946) <
  rawHybridCarbon (G := taxicab) near_tie_deliveries 0 (mkDelivery 5 13.9716 77.5946).
Proof.
  split; [|vm_compute; reflexivity].
  apply (optimizeTrip_selects (G := taxicab) example_drones "t0" near_tie_deliveries 0);
    [reflexivity | reflexivity | exact near_tie_beats].
Defined.
