(* ===== verification/Sequencer.v ===== *)
(** * Sequencer: [nearestNeighborRoute] of [PathPlanning.jsx]

    The truck route: starting at the depot, the loop repeatedly scans the
    unvisited deliveries for the one nearest to the current position (the
    first one on ties), appends it to the route, moves there and removes it
    from the unvisited list, until none is left.  No leg back to the depot
    is appended.

    The [while] loop is defined by well-founded recursion on the number of
    unvisited deliveries, so it is a total function.  [Greedy] is the
    specification of a nearest-neighbour route as a relation; the loop is
    shown to produce a route in that relation, and the relation to have at
    most one route.

    The same loop is also given as the transition system of its
    iterations on the three variables [unvisited], [route] and [current]
    ([while_pass], [iteration]) with a run bounded by fuel ([run]): the
    iterations are strongly normalising, and from the entry of the
    function they end with the route the function returns. *)

From Equations Require Import Equations.
From Equations.Prop Require Import Logic.
From stdpp Require Import relations.
From S2P Require Import Prelude Geodesy Fleet.

(** The variables of the [while] loop. *)
Record LoopState : Type := mkLoop {
  ls_unvisited : list Delivery;
  ls_route : list LatLng;
  ls_current : LatLng
}.

(** What one evaluation of the loop does: the guard fails and the loop
    ends, the body runs to its end, or the body throws. *)
Inductive Pass : Type :=
| Exit
| Thrown
| Next (s : LoopState).

Section Sequencer.
Context {G : Geodesy}.

#[local] Abbreviation haversineDistance := (@dist4 G).

(** ** The loop *)

(** [minIdx] after the inner [for] loop: the index of the first unvisited
    delivery at least distance from [current], [0] if nothing was
    recorded. *)
Definition nearest (current : LatLng) (unvisited : list Delivery) : nat :=
  match scan_min (fun u => haversineDistance (lat current) (lng current)
                             (latitude u) (longitude u)) unvisited with
  | Some (i, _) => i
  | None => 0%nat
  end.

(** The rest of the [while] body: read [unvisited[minIdx]] and splice it
    out.  [None] is the [TypeError] of reading a property of [undefined]. *)
Definition nn_pick (current : LatLng) (unvisited : list Delivery)
  : option (Delivery * list Delivery) :=
  let minIdx := nearest current unvisited in
  match unvisited !! minIdx with
  | Some d => Some (d, delete minIdx unvisited)
  | None => None
  end.

Lemma nn_pick_length current unvisited d rest :
  nn_pick current unvisited = Some (d, rest) -> (length rest < length unvisited)%nat.
Proof.
  unfold nn_pick. destruct (unvisited !! nearest current unvisited) eqn:E; [|discriminate].
  intros [= <- <-]. rewrite length_delete by eauto.
  apply lookup_lt_Some in E. lia.
Qed.

(** [while (unvisited.length > 0) { ... }]. *)
Equations? nn_loop (current : LatLng) (unvisited : list Delivery)
    (route : list LatLng) : list LatLng by wf (length unvisited) lt :=
  nn_loop current [] route := route;
  nn_loop current (u :: us) route with inspect (nn_pick current (u :: us)) := {
    | exist _ (Some (d, rest)) E => nn_loop (coords d) rest (route ++ [coords d]);
    | exist _ None _ => route }.
Proof. apply nn_pick_length in E. exact E. Qed.

Definition nearestNeighborRoute (hq : LatLng) (deliveries : list Delivery) : list LatLng :=
  nn_loop (mkLatLng (lat hq) (lng hq)) deliveries [mkLatLng (lat hq) (lng hq)].

(** ** The specification of a nearest-neighbour route *)

(** [d], at index [i], is the first delivery of [unvisited] nearest to
    [current]. *)
Definition first_nearest (current : LatLng) (unvisited : list Delivery)
    (i : nat) (d : Delivery) : Prop :=
  unvisited !! i = Some d /\
  (forall j d', unvisited !! j = Some d' ->
     dist current (coords d) <= dist current (coords d')) /\
  (forall j d', unvisited !! j = Some d' -> (j < i)%nat ->
     dist current (coords d) < dist current (coords d')).

(** The stops of a greedy walk from [current] through [unvisited]. *)
Inductive Greedy : LatLng -> list Delivery -> list LatLng -> Prop :=
| Greedy_done current : Greedy current [] []
| Greedy_next current unvisited i d stops :
    first_nearest current unvisited i d ->
    Greedy (coords d) (delete i unvisited) stops ->
    Greedy current unvisited (coords d :: stops).

(** ** Facts about one iteration *)

Lemma nearest_spec current unvisited :
  unvisited <> [] ->
  exists d, first_nearest current unvisited (nearest current unvisited) d.
Proof.
  intros Hne. unfold nearest.
  destruct (scan_min_is_Some (fun u => haversineDistance (lat current) (lng current)
              (latitude u) (longitude u)) unvisited Hne) as [[i d] E].
  rewrite E. exists d. apply scan_min_Some in E. exact E.
Qed.

(** The read [unvisited[minIdx]] never fails: while a delivery is
    unvisited, the scan yields the index of a first nearest one, and the
    body visits it and removes exactly it. *)
Lemma nn_pick_Some current unvisited :
  unvisited <> [] ->
  exists i d, nn_pick current unvisited = Some (d, delete i unvisited) /\
    first_nearest current unvisited i d.
Proof.
  intros [d Hd]%(nearest_spec current). exists (nearest current unvisited), d.
  split; [|exact Hd]. unfold nn_pick. destruct Hd as [-> _]. reflexivity.
Qed.

Lemma first_nearest_unique current unvisited i1 d1 i2 d2 :
  first_nearest current unvisited i1 d1 -> first_nearest current unvisited i2 d2 ->
  i1 = i2 /\ d1 = d2.
Proof.
  intros (H1 & M1 & F1) (H2 & M2 & F2).
  assert (i1 = i2) as ->.
  { destruct (lt_eq_lt_dec i1 i2) as [[H|H]|H]; [|assumption|].
    - specialize (F2 _ _ H1 H). specialize (M1 _ _ H2). lra.
    - specialize (F1 _ _ H2 H). specialize (M2 _ _ H1). lra. }
  split; congruence.
Qed.

(** ** Unfolding the loop *)

Lemma nn_loop_nil current route : nn_loop current [] route = route.
Proof. now simp nn_loop. Qed.

Lemma nn_loop_step current unvisited route d rest :
  nn_pick current unvisited = Some (d, rest) ->
  nn_loop current unvisited route = nn_loop (coords d) rest (route ++ [coords d]).
Proof.
  intros E. funelim (nn_loop current unvisited route); try discriminate; congruence.
Qed.

(** The route grows at its end only. *)
Lemma nn_loop_acc unvisited : forall current route,
  nn_loop current unvisited route = route ++ nn_loop current unvisited [].
Proof.
  induction unvisited as [unvisited IH] using (induction_ltof1 _ (@length _)).
  unfold ltof in IH. intros current route.
  destruct unvisited as [|u us]; [now rewrite !nn_loop_nil, app_nil_r|].
  destruct (nn_pick_Some current (u :: us)) as (i & d & E & _); [discriminate|].
  rewrite !(nn_loop_step _ _ _ _ _ E).
  pose proof (nn_pick_length _ _ _ _ E) as Hlen.
  rewrite (IH _ Hlen _ (route ++ _)), (IH _ Hlen _ ([] ++ _)). now rewrite <- app_assoc.
Qed.

(** ** The loop implements the specification *)

Lemma nn_loop_Greedy unvisited : forall current,
  Greedy current unvisited (nn_loop current unvisited []).
Proof.
  induction unvisited as [unvisited IH] using (induction_ltof1 _ (@length _)).
  unfold ltof in IH. intros current.
  destruct unvisited as [|u us]; [rewrite nn_loop_nil; constructor|].
  destruct (nn_pick_Some current (u :: us)) as (i & d & E & Hd); [discriminate|].
  rewrite (nn_loop_step _ _ _ _ _ E), nn_loop_acc. simpl.
  econstructor; [exact Hd|]. apply IH. eapply nn_pick_length, E.
Qed.

Lemma Greedy_unique current unvisited stops1 stops2 :
  Greedy current unvisited stops1 -> Greedy current unvisited stops2 ->
  stops1 = stops2.
Proof.
  intros H1. revert stops2. induction H1 as [|c u i d s Hd _ IH]; intros stops2 H2.
  - inversion H2 as [|? ? ? ? ? [Hi _]]; subst; [reflexivity | discriminate].
  - inversion H2 as [|? ? i' d' s' Hd']; subst.
    + destruct Hd as [Hi _]. discriminate.
    + destruct (first_nearest_unique _ _ _ _ _ _ Hd Hd') as [<- <-].
      f_equal. now apply IH.
Qed.

Lemma Greedy_Permutation current unvisited stops :
  Greedy current unvisited stops -> stops ≡ₚ coords <$> unvisited.
Proof.
  induction 1 as [|c u i d s [Hi _] _ IH]; [reflexivity|].
  rewrite IH. rewrite (delete_Permutation u i d Hi) at 2. reflexivity.
Qed.

Lemma Greedy_length current unvisited stops :
  Greedy current unvisited stops -> length stops = length unvisited.
Proof. intros H%Greedy_Permutation. now rewrite H, length_fmap. Qed.

Lemma LatLng_eta (p : LatLng) : mkLatLng (lat p) (lng p) = p.
Proof. now destruct p. Qed.

(** ** The route *)

Lemma nearestNeighborRoute_cons hq deliveries :
  nearestNeighborRoute hq deliveries = hq :: nn_loop hq deliveries [].
Proof. unfold nearestNeighborRoute. now rewrite LatLng_eta, nn_loop_acc. Qed.

Lemma length_nearestNeighborRoute hq deliveries :
  length (nearestNeighborRoute hq deliveries) = S (length deliveries).
Proof.
  rewrite nearestNeighborRoute_cons. simpl. f_equal.
  eapply Greedy_length, nn_loop_Greedy.
Qed.

(** C6: the route is the depot followed by a greedy nearest-neighbour walk
    through the deliveries: every stop is the first unvisited delivery
    nearest to the stop before it. *)
Theorem nearestNeighborRoute_Greedy hq deliveries :
  exists stops, nearestNeighborRoute hq deliveries = hq :: stops /\
    Greedy hq deliveries stops.
Proof.
  exists (nn_loop hq deliveries []).
  split; [apply nearestNeighborRoute_cons | apply nn_loop_Greedy].
Qed.

(** The specification determines the route: any greedy walk through
    the deliveries is the one the loop returns. *)
Theorem nearestNeighborRoute_unique hq deliveries stops :
  Greedy hq deliveries stops ->
  nearestNeighborRoute hq deliveries = hq :: stops.
Proof.
  intros H. rewrite nearestNeighborRoute_cons. f_equal.
  eapply Greedy_unique; [apply nn_loop_Greedy | exact H].
Qed.

(** C7: the route visits the depot first and then every delivery exactly
    once; nothing is appended after the last delivery, so its length is
    the number of deliveries plus one. *)
Theorem nearestNeighborRoute_Permutation hq deliveries :
  exists stops, nearestNeighborRoute hq deliveries = hq :: stops /\
    stops ≡ₚ coords <$> deliveries /\
    length (nearestNeighborRoute hq deliveries) = S (length deliveries).
Proof.
  exists (nn_loop hq deliveries []).
  split; [apply nearestNeighborRoute_cons|].
  split; [eapply Greedy_Permutation, nn_loop_Greedy | apply length_nearestNeighborRoute].
Qed.

(** The first stop of the route is a delivery nearest to the depot. *)
Theorem nearestNeighborRoute_first_stop hq deliveries p d :
  nearestNeighborRoute hq deliveries !! 1%nat = Some p ->
  d ∈ deliveries -> dist hq p <= dist hq (coords d).
Proof.
  rewrite nearestNeighborRoute_cons. intros Hp [j Hj]%list_elem_of_lookup.
  revert Hp Hj. generalize (nn_loop_Greedy deliveries hq).
  generalize (nn_loop hq deliveries []) as stops. intros stops H.
  destruct H as [|c u i d0 s (_ & Hmin & _) _]; intros Hp Hj; [discriminate|].
  injection Hp as <-. eapply Hmin, Hj.
Qed.

(** ** The iterations of the [while] loop *)

(** The guard [unvisited.length > 0] and one pass of the body. *)
Definition while_pass (s : LoopState) : Pass :=
  match ls_unvisited s with
  | [] => Exit
  | _ :: _ =>
      match nn_pick (ls_current s) (ls_unvisited s) with
      | Some (d, rest) => Next (mkLoop rest (ls_route s ++ [coords d]) (coords d))
      | None => Thrown
      end
  end.

(** The loop goes from [s] to [s'] in one iteration. *)
Definition iteration : relation LoopState := fun s s' => while_pass s = Next s'.

(** The loop run for at most [fuel] iterations: the route when it ends
    within them, [None] when it throws or the fuel runs out. *)
Fixpoint run (fuel : nat) (s : LoopState) : option (list LatLng) :=
  match while_pass s, fuel with
  | Exit, _ => Some (ls_route s)
  | Thrown, _ => None
  | Next _, O => None
  | Next s', S fuel => run fuel s'
  end.

(** The state in which [nearestNeighborRoute] enters the loop. *)
Definition loop_entry (hq : LatLng) (deliveries : list Delivery) : LoopState :=
  mkLoop deliveries [mkLatLng (lat hq) (lng hq)] (mkLatLng (lat hq) (lng hq)).

(** What the function returns from a state of the loop. *)
Definition loop_result (s : LoopState) : list LatLng :=
  nn_loop (ls_current s) (ls_unvisited s) (ls_route s).

Lemma while_pass_Exit s : while_pass s = Exit <-> ls_unvisited s = [].
Proof.
  unfold while_pass. destruct (ls_unvisited s) as [|u us] eqn:E; [tauto|].
  split; [|discriminate]. now repeat case_match.
Qed.

(** While a delivery is unvisited the body runs to its end. *)
Lemma while_pass_Next s :
  ls_unvisited s <> [] ->
  exists i d, first_nearest (ls_current s) (ls_unvisited s) i d /\
    while_pass s
    = Next (mkLoop (delete i (ls_unvisited s)) (ls_route s ++ [coords d]) (coords d)).
Proof.
  intros Hne. destruct (nn_pick_Some (ls_current s) _ Hne) as (i & d & E & Hd).
  exists i, d. split; [exact Hd|]. unfold while_pass. rewrite E.
  now destruct (ls_unvisited s).
Qed.

Lemma while_pass_not_Thrown s : while_pass s <> Thrown.
Proof.
  destruct (ls_unvisited s) as [|u us] eqn:E.
  - now rewrite (proj2 (while_pass_Exit s) E).
  - destruct (while_pass_Next s) as (i & d & _ & ->); [now rewrite E | discriminate].
Qed.

(** An iteration visits one delivery. *)
Lemma iteration_length s s' :
  iteration s s' -> S (length (ls_unvisited s')) = length (ls_unvisited s).
Proof.
  unfold iteration. intros E. destruct (decide (ls_unvisited s = [])) as [Eu|Hne].
  - apply while_pass_Exit in Eu. congruence.
  - destruct (while_pass_Next s Hne) as (i & d & [Hi _] & E').
    rewrite E' in E. injection E as <-. simpl. rewrite length_delete by eauto.
    apply lookup_lt_Some in Hi. lia.
Qed.

(** An iteration does not change what the function returns. *)
Lemma iteration_result s s' : iteration s s' -> loop_result s' = loop_result s.
Proof.
  unfold iteration, while_pass, loop_result. destruct (ls_unvisited s) as [|u us]; [discriminate|].
  destruct (nn_pick (ls_current s) (u :: us)) as [[d rest]|] eqn:E; [|discriminate].
  intros [= <-]. simpl. now rewrite (nn_loop_step _ _ _ _ _ E).
Qed.

Lemma iteration_deterministic : deterministic iteration.
Proof. unfold iteration. intros s s1 s2 E1 E2. congruence. Qed.

Lemma iteration_sn s : sn iteration s.
Proof.
  apply (sn_measure iteration (fun s => length (ls_unvisited s))).
  intros x y Hxy%iteration_length. lia.
Qed.

(** The loop ends after exactly one iteration for each unvisited
    delivery, in a state whose route is the result of the function. *)
Lemma iteration_run s :
  exists s', nsteps iteration (length (ls_unvisited s)) s s' /\
    while_pass s' = Exit /\ ls_route s' = loop_result s.
Proof.
  remember (length (ls_unvisited s)) as n eqn:Hn. revert s Hn.
  induction n as [|n IH]; intros s Hn.
  - exists s. symmetry in Hn. apply nil_length_inv in Hn.
    split_and!; [constructor | now apply while_pass_Exit |].
    unfold loop_result. now rewrite Hn, nn_loop_nil.
  - destruct (while_pass_Next s) as (i & d & _ & E); [intros H; now rewrite H in Hn|].
    pose proof (iteration_length s _ E) as Hlen.
    edestruct IH as (s' & Hrun & Hexit & Hroute);
      [apply eq_add_S; rewrite Hn; symmetry; exact Hlen|].
    exists s'. split_and!; [econstructor; [exact E | exact Hrun] | exact Hexit |].
    now rewrite Hroute, (iteration_result s _ E).
Qed.

(** With one unit of fuel for each unvisited delivery the run ends with
    the result of the function. *)
Lemma run_enough fuel : forall s,
  (length (ls_unvisited s) <= fuel)%nat -> run fuel s = Some (loop_result s).
Proof.
  induction fuel as [|fuel IH]; intros s Hlen.
  - assert (ls_unvisited s = []) as Hnil by (apply nil_length_inv; lia).
    unfold loop_result. destruct s as [u r c]; simpl in *. subst u.
    now rewrite nn_loop_nil.
  - simpl. destruct (while_pass s) as [| |s'] eqn:E.
    + apply while_pass_Exit in E. unfold loop_result. now rewrite E, nn_loop_nil.
    + now apply while_pass_not_Thrown in E.
    + rewrite IH by (apply iteration_length in E; lia). f_equal. now apply iteration_result.
Qed.

(** C17: the [while] loop of [nearestNeighborRoute] terminates: no run of
    its iterations is infinite, an iteration never throws, every state has
    at most one successor, and from the entry of the function the loop
    ends after exactly one iteration for each delivery, with the route the
    function returns. *)
Theorem nearestNeighborRoute_terminates hq deliveries :
  let s0 := loop_entry hq deliveries in
  sn iteration s0 /\ deterministic iteration /\
  (forall s, rtc iteration s0 s -> while_pass s <> Thrown) /\
  exists s', nsteps iteration (length deliveries) s0 s' /\ nf iteration s' /\
    ls_route s' = nearestNeighborRoute hq deliveries /\
    run (length deliveries) s0 = Some (nearestNeighborRoute hq deliveries).
Proof.
  cbv zeta. split_and!; [apply iteration_sn | apply iteration_deterministic
                         | intros s _; apply while_pass_not_Thrown |].
  destruct (iteration_run (loop_entry hq deliveries)) as (s' & Hrun & Hexit & Hroute).
  exists s'. split_and!; [exact Hrun | | exact Hroute | now apply run_enough].
  intros [s'' E]. unfold iteration in E. congruence.
Qed.

End Sequencer.

(** ** A concrete run, with the taxicab distance *)

Definition example_stops : list Delivery :=
  [mkDelivery 1 3 0; mkDelivery 1 1 0; mkDelivery 1 (-2) 0; mkDelivery 1 1 1].

Lemma example_route :
  nearestNeighborRoute (G := taxicab) (mkLatLng 0 0) example_stops
  = [mkLatLng 0 0; mkLatLng 1 0; mkLatLng 1 1; mkLatLng 3 0; mkLatLng (-2) 0].
Proof. vm_compute. reflexivity. Qed.

Lemma nearestNeighborRoute_unique_witness :
  nearestNeighborRoute (G := taxicab) (mkLatLng 0 0) example_stops
  = mkLatLng 0 0 :: nn_loop (G := taxicab) (mkLatLng 0 0) example_stops [].
Proof. apply nearestNeighborRoute_unique, nn_loop_Greedy. Defined.

Lemma nearestNeighborRoute_first_stop_witness :
  dist (H := taxicab) (mkLatLng 0 0) (mkLatLng 1 0)
  <= dist (H := taxicab) (mkLatLng 0 0) (coords (mkDelivery 1 3 0)).
Proof.
  apply (nearestNeighborRoute_first_stop (G := taxicab) (mkLatLng 0 0) example_stops).
  - vm_compute. reflexivity.
  - apply list_elem_of_here.
Defined.

(** The four iterations of the run, state by state. *)
Lemma example_iterations :
  ls_unvisited <$> [loop_entry (mkLatLng 0 0) example_stops;
                    mkLoop [mkDelivery 1 3 0; mkDelivery 1 (-2) 0; mkDelivery 1 1 1]
                      [mkLatLng 0 0; mkLatLng 1 0] (mkLatLng 1 0)]
  = [example_stops; [mkDelivery 1 3 0; mkDelivery 1 (-2) 0; mkDelivery 1 1 1]] /\
  while_pass (G := taxicab) (loop_entry (mkLatLng 0 0) example_stops)
  = Next (mkLoop [mkDelivery 1 3 0; mkDelivery 1 (-2) 0; mkDelivery 1 1 1]
            [mkLatLng 0 0; mkLatLng 1 0] (mkLatLng 1 0)) /\
  run (G := taxicab) 3 (loop_entry (mkLatLng 0 0) example_stops) = None /\
  run (G := taxicab) 4 (loop_entry (mkLatLng 0 0) example_stops)
  = Some [mkLatLng 0 0; mkLatLng 1 0; mkLatLng 1 1; mkLatLng 3 0; mkLatLng (-2) 0].
Proof. split_and!; vm_compute; reflexivity. Qed.
