(* ===== verification/Locator.v ===== *)
(** * Locator: the launch point on the truck path

    [closestPointOnPolyline] samples every segment of the path at
    [samplesPerSegment + 1] equally spaced fractions and keeps the first
    sample nearest to the target.  [truckDistanceToLaunch] and
    [truckDistanceAfterLaunch] split the length of the path at that sample.

    A read of [polyline[i]] past the end of the array followed by a
    destructuring or an index ([undefined[0]]) throws a [TypeError]; the
    two distance functions are therefore in the option monad, [None] being
    the exception. *)

From S2P Require Import Prelude Geodesy.

(** ** Data *)

(** The object [{ point, idx, frac }] that [closestPointOnPolyline]
    returns; [point] is [None] for [null]. *)
Record Closest : Type := mkClosest {
  point : option LatLng;
  idx : nat;
  frac : Q
}.

(** The variables of the loops: [minDist] and the three [best] values. *)
Record ClosestState : Type := mkClosestState {
  minDist : option Q;
  best : Closest
}.

(** One sample of the path: the segment it lies on, its fraction and the
    interpolated point. *)
Record Sample : Type := mkSample {
  s_idx : nat;
  s_frac : Q;
  s_point : LatLng
}.

(** [t / samplesPerSegment]. *)
Definition sample_frac (t samplesPerSegment : nat) : Q :=
  inject_Z (Z.of_nat t) / inject_Z (Z.of_nat samplesPerSegment).

Section Locator.
Context {G : Geodesy}.

#[local] Abbreviation haversineDistance := (@dist4 G).

(** ** [closestPointOnPolyline] *)

(** The body of the inner loop for sample [t] of segment [i].  With
    [samplesPerSegment = 0] the fraction is [0 / 0], which is [NaN], and
    the comparison fails. *)
Definition sample_step (target : LatLng) (samplesPerSegment : nat)
    (i : nat) (p1 p2 : LatLng) (st : ClosestState) (t : nat) : ClosestState :=
  match samplesPerSegment with
  | O => st
  | S _ =>
      let frac := sample_frac t samplesPerSegment in
      let lat := lat p1 + (lat p2 - lat p1) * frac in
      let lng := lng p1 + (lng p2 - lng p1) * frac in
      let dist := haversineDistance lat lng (Geodesy.lat target) (Geodesy.lng target) in
      if lt_inf dist (minDist st)
      then mkClosestState (Some dist) (mkClosest (Some (mkLatLng lat lng)) i frac)
      else st
  end.

(** The body of the outer loop for segment [i]: read its two end points
    and run the inner loop for [t = 0 .. samplesPerSegment]. *)
Definition segment_step (polyline : list LatLng) (target : LatLng)
    (samplesPerSegment : nat) (st : ClosestState) (i : nat) : ClosestState :=
  match polyline !! i, polyline !! (i + 1)%nat with
  | Some p1, Some p2 =>
      fold_left (sample_step target samplesPerSegment i p1 p2)
        (seq 0 (samplesPerSegment + 1)) st
  | _, _ => st
  end.

Definition closestPointOnPolyline (polyline : list LatLng) (target : LatLng)
    (samplesPerSegment : nat) : Closest :=
  best (fold_left (segment_step polyline target samplesPerSegment)
          (seq 0 (length polyline - 1))
          (mkClosestState None (mkClosest None 0 0))).

(** ** The truck distance before and after the launch point *)

(** [haversineDistance(polyline[i - 1][0], polyline[i - 1][1],
    polyline[i][0], polyline[i][1])]. *)
Definition leg (polyline : list LatLng) (i : nat) : option Q :=
  p ← polyline !! (i - 1)%nat;
  q ← polyline !! i;
  Some (haversineDistance (lat p) (lng p) (lat q) (lng q)).

(** [for (i = from; i < from + count; i++) dist += leg(i)]. *)
Definition add_legs (polyline : list LatLng) (from count : nat) (dist : Q) : option Q :=
  fold_left (fun acc i => dist ← acc; d ← leg polyline i; Some (dist + d))
    (seq from count) (Some dist).

Definition truckDistanceToLaunch (polyline : list LatLng)
    (launchIdx : nat) (launchFrac : Q) : option Q :=
  dist ← add_legs polyline 1 launchIdx 0;
  if Qltb 0 launchFrac then
    p1 ← polyline !! launchIdx;
    p2 ← polyline !! (launchIdx + 1)%nat;
    let lat := lat p1 + (lat p2 - lat p1) * launchFrac in
    let lng := lng p1 + (lng p2 - lng p1) * launchFrac in
    Some (dist + haversineDistance (Geodesy.lat p1) (Geodesy.lng p1) lat lng)
  else Some dist.

Definition truckDistanceAfterLaunch (polyline : list LatLng)
    (launchIdx : nat) (launchFrac : Q) : option Q :=
  dist ←
    (if Qltb launchFrac 1 then
       p1 ← polyline !! launchIdx;
       p2 ← polyline !! (launchIdx + 1)%nat;
       let lat := lat p1 + (lat p2 - lat p1) * launchFrac in
       let lng := lng p1 + (lng p2 - lng p1) * launchFrac in
       Some (0 + haversineDistance lat lng (Geodesy.lat p2) (Geodesy.lng p2))
     else Some 0);
  add_legs polyline (launchIdx + 2) (length polyline - (launchIdx + 2)) dist.

(** ** The samples as a list, and the closest one as a scan *)

Definition segment_samples (samplesPerSegment i : nat) (p1 p2 : LatLng) : list Sample :=
  (fun t => mkSample i (sample_frac t samplesPerSegment)
              (interpolate p1 p2 (sample_frac t samplesPerSegment)))
  <$> seq 0 (samplesPerSegment + 1).

Definition samples_at (polyline : list LatLng) (samplesPerSegment i : nat) : list Sample :=
  match samplesPerSegment, polyline !! i, polyline !! (i + 1)%nat with
  | S _, Some p1, Some p2 => segment_samples samplesPerSegment i p1 p2
  | _, _, _ => []
  end.

(** Every sample of the path, in the order the loops visit them. *)
Definition all_samples (polyline : list LatLng) (samplesPerSegment : nat) : list Sample :=
  seq 0 (length polyline - 1) ≫= samples_at polyline samplesPerSegment.

Definition closest_of (s : option (nat * Sample)) : Closest :=
  match s with
  | Some (_, s) => mkClosest (Some (s_point s)) (s_idx s) (s_frac s)
  | None => mkClosest None 0 0
  end.

(** The loop state that corresponds to a state of the scan. *)
Definition closest_state (st : scan_state (A := Sample)) : ClosestState :=
  mkClosestState st.1 (closest_of st.2).

Definition closest_spec (polyline : list LatLng) (target : LatLng)
    (samplesPerSegment : nat) : Closest :=
  closest_of (scan_min (fun s => dist (s_point s) target)
                (all_samples polyline samplesPerSegment)).

(** *** The loops compute the scan *)

#[local] Abbreviation key target := (fun s : Sample => dist (s_point s) target).

Lemma sample_step_scan target m i p1 p2 st k t :
  sample_step target (S m) i p1 p2 (closest_state st) t
  = closest_state (scan_step (key target) st k
      (mkSample i (sample_frac t (S m)) (interpolate p1 p2 (sample_frac t (S m))))).
Proof.
  unfold sample_step, scan_step, closest_state. cbv zeta. simpl.
  change (haversineDistance ?a ?b (lat target) (lng target))
    with (dist (mkLatLng a b) target).
  unfold interpolate, lerp.
  destruct (lt_inf _ st.1); reflexivity.
Qed.

Lemma inner_loop_scan target m i p1 p2 ts : forall st k,
  fold_left (sample_step target (S m) i p1 p2) ts (closest_state st)
  = closest_state (scan_from (key target) k
      ((fun t => mkSample i (sample_frac t (S m))
                   (interpolate p1 p2 (sample_frac t (S m)))) <$> ts) st).
Proof.
  induction ts as [|t ts IH]; intros st k; [reflexivity|].
  rewrite fmap_cons. unfold scan_from. cbn [fold_left for_each_from].
  rewrite (sample_step_scan _ _ _ _ _ _ k). apply IH.
Qed.

Lemma segment_step_scan polyline target S0 st k i :
  segment_step polyline target S0 (closest_state st) i
  = closest_state (scan_from (key target) k (samples_at polyline S0 i) st).
Proof.
  unfold segment_step, samples_at.
  destruct (polyline !! i) as [p1|], (polyline !! (i + 1)%nat) as [p2|], S0 as [|m];
    try reflexivity.
  apply inner_loop_scan.
Qed.

Lemma outer_loop_scan polyline target S0 idxs : forall st k,
  fold_left (segment_step polyline target S0) idxs (closest_state st)
  = closest_state (scan_from (key target) k (idxs ≫= samples_at polyline S0) st).
Proof.
  induction idxs as [|i idxs IH]; intros st k; [reflexivity|].
  cbn [fold_left]. rewrite (segment_step_scan _ _ _ _ k).
  rewrite (IH _ (k + length (samples_at polyline S0 i))%nat).
  now rewrite bind_cons, scan_from_app.
Qed.

Lemma closest_scan polyline target S0 :
  closestPointOnPolyline polyline target S0
  = closest_of (scan_min (key target) (all_samples polyline S0)).
Proof.
  unfold closestPointOnPolyline, scan_min, all_samples.
  change (mkClosestState None (mkClosest None 0 0)) with (closest_state (None, None)).
  now rewrite (outer_loop_scan _ _ _ _ _ 0%nat).
Qed.

(** C9: the two nested loops of [closestPointOnPolyline] compute the
    first minimum, by distance to the target, of the list of all samples of
    the path taken segment by segment. *)
Theorem closestPointOnPolyline_spec polyline target samplesPerSegment :
  closestPointOnPolyline polyline target samplesPerSegment
  = closest_spec polyline target samplesPerSegment.
Proof. apply closest_scan. Qed.

(** ** The samples *)

Lemma sample_frac_range t S0 : (0 < S0)%nat -> (t <= S0)%nat -> 0 <= sample_frac t S0 <= 1.
Proof.
  intros HS Ht. unfold sample_frac.
  assert (0 < inject_Z (Z.of_nat S0)) as Hpos
    by (change 0 with (inject_Z 0); rewrite <- Zlt_Qlt; lia).
  split.
  - apply Qle_shift_div_l; [exact Hpos|]. rewrite Qmult_0_l.
    change 0 with (inject_Z 0). rewrite <- Zle_Qle. lia.
  - apply Qle_shift_div_r; [exact Hpos|]. rewrite Qmult_1_l, <- Zle_Qle. lia.
Qed.

Lemma sample_frac_first S0 : (0 < S0)%nat -> sample_frac 0 S0 == 0.
Proof.
  intros HS. unfold sample_frac. change (inject_Z (Z.of_nat 0)) with 0.
  unfold Qdiv. ring.
Qed.

Lemma sample_frac_last S0 : (0 < S0)%nat -> sample_frac S0 S0 == 1.
Proof.
  intros HS. unfold sample_frac. field.
  change 0 with (inject_Z 0). rewrite inject_Z_injective. lia.
Qed.

Lemma elem_of_all_samples polyline S0 s :
  s ∈ all_samples polyline S0 <->
  exists i t p1 p2, polyline !! i = Some p1 /\ polyline !! (i + 1)%nat = Some p2 /\
    (0 < S0)%nat /\ (t <= S0)%nat /\
    s = mkSample i (sample_frac t S0) (interpolate p1 p2 (sample_frac t S0)).
Proof.
  unfold all_samples. rewrite list_elem_of_bind. split.
  - intros (i & Hs & _). unfold samples_at in Hs.
    destruct S0 as [|m]; [now apply elem_of_nil in Hs|].
    destruct (polyline !! i) as [p1|] eqn:H1; [|now apply elem_of_nil in Hs].
    destruct (polyline !! (i + 1)%nat) as [p2|] eqn:H2; [|now apply elem_of_nil in Hs].
    apply list_elem_of_fmap in Hs as (t & -> & Ht%elem_of_seq).
    exists i, t, p1, p2. repeat split; auto; lia.
  - intros (i & t & p1 & p2 & H1 & H2 & HS & Ht & ->). exists i. split.
    + unfold samples_at. rewrite H1, H2. destruct S0 as [|m]; [lia|].
      apply list_elem_of_fmap. exists t. split; [reflexivity|].
      apply elem_of_seq. lia.
    + apply elem_of_seq. apply lookup_lt_Some in H2. lia.
Qed.

(** There is no sample exactly when the path has no segment or the
    number of samples per segment is [0]. *)
Lemma all_samples_nil polyline S0 :
  all_samples polyline S0 = [] <-> (length polyline < 2)%nat \/ S0 = 0%nat.
Proof.
  split.
  - intros Hnil. destruct (decide (length polyline < 2)%nat) as [|Hlen]; [auto|].
    destruct S0 as [|m]; [auto|]. exfalso.
    destruct (lookup_lt_is_Some_2 polyline 0) as [p1 H1]; [lia|].
    destruct (lookup_lt_is_Some_2 polyline 1) as [p2 H2]; [lia|].
    eapply (not_elem_of_nil (A := Sample)). rewrite <- Hnil.
    apply elem_of_all_samples. exists 0%nat, 0%nat, p1, p2.
    repeat split; eauto; lia.
  - intros H. apply elem_of_nil_inv. intros s Hs.
    apply elem_of_all_samples in Hs as (i & t & p1 & p2 & _ & H2%lookup_lt_Some & HS & _).
    lia.
Qed.

(** Every vertex of the path is, up to [≡], the point of a sample. *)
Lemma vertex_sample polyline S0 v :
  (0 < S0)%nat -> (2 <= length polyline)%nat -> v ∈ polyline ->
  exists s, s ∈ all_samples polyline S0 /\ s_point s ≡ v.
Proof.
  intros HS Hlen [j Hj]%list_elem_of_lookup_1.
  destruct (polyline !! (j + 1)%nat) as [q|] eqn:Hq.
  - eexists. split.
    + apply elem_of_all_samples. exists j, 0%nat, v, q. repeat split; eauto; lia.
    + simpl. rewrite sample_frac_first by exact HS. apply interpolate_0.
  - apply lookup_ge_None in Hq. pose proof (lookup_lt_Some _ _ _ Hj) as Hlt.
    destruct j as [|j]; [lia|].
    destruct (lookup_lt_is_Some_2 polyline j) as [p Hp]; [lia|].
    eexists. split.
    + apply elem_of_all_samples. exists j, S0, p, v.
      replace (j + 1)%nat with (S j) by lia. repeat split; eauto.
    + simpl. rewrite sample_frac_last by exact HS. apply interpolate_1.
Qed.

(** The samples are listed segment by segment. *)
Lemma samples_at_idx polyline S0 i s : s ∈ samples_at polyline S0 i -> s_idx s = i.
Proof.
  unfold samples_at. destruct S0, (polyline !! i), (polyline !! (i + 1)%nat);
    try (now intros ?%elem_of_nil).
  now intros (t & -> & _)%list_elem_of_fmap.
Qed.

Lemma bind_samples_idx_mono polyline S0 n : forall i0 k1 k2 s1 s2,
  (seq i0 n ≫= samples_at polyline S0) !! k1 = Some s1 ->
  (seq i0 n ≫= samples_at polyline S0) !! k2 = Some s2 ->
  (k1 <= k2)%nat -> (i0 <= s_idx s1 <= s_idx s2)%nat.
Proof.
  induction n as [|n IH]; intros i0 k1 k2 s1 s2 H1 H2 Hle; [discriminate|].
  change (seq i0 (S n)) with (i0 :: seq (S i0) n) in H1, H2.
  rewrite bind_cons in H1, H2.
  assert (forall k s, (seq (S i0) n ≫= samples_at polyline S0) !! k = Some s ->
            (S i0 <= s_idx s)%nat) as Hlater.
  { intros k s Hk. now destruct (IH _ _ _ _ _ Hk Hk (Nat.le_refl k)). }
  apply lookup_app_Some in H1 as [H1|[Hk1 H1]], H2 as [H2|[Hk2 H2]].
  - apply list_elem_of_lookup_2, samples_at_idx in H1, H2. lia.
  - apply list_elem_of_lookup_2, samples_at_idx in H1. apply Hlater in H2. lia.
  - apply lookup_lt_Some in H2. lia.
  - pose proof (Hlater _ _ H1). enough (S i0 <= s_idx s1 <= s_idx s2)%nat by lia.
    eapply IH; eauto. lia.
Qed.

Lemma all_samples_idx_mono polyline S0 k1 k2 s1 s2 :
  all_samples polyline S0 !! k1 = Some s1 -> all_samples polyline S0 !! k2 = Some s2 ->
  (k1 <= k2)%nat -> (s_idx s1 <= s_idx s2)%nat.
Proof. intros H1 H2 Hle. now destruct (bind_samples_idx_mono _ _ _ _ _ _ _ _ H1 H2 Hle). Qed.

(** What a returned point is: the recorded sample of the scan. *)
Lemma closest_Some_inv polyline target S0 p :
  point (closestPointOnPolyline polyline target S0) = Some p ->
  exists k s, scan_min (key target) (all_samples polyline S0) = Some (k, s) /\
    closestPointOnPolyline polyline target S0
    = mkClosest (Some (s_point s)) (s_idx s) (s_frac s) /\ p = s_point s.
Proof.
  rewrite closest_scan.
  destruct (scan_min _ _) as [[k s]|]; simpl; [|discriminate].
  intros [= <-]. eauto.
Qed.

(** A path of at least two points sampled at least once has a nearest
    sample. *)
Lemma closest_is_Some polyline target S0 :
  (2 <= length polyline)%nat -> (0 < S0)%nat ->
  is_Some (point (closestPointOnPolyline polyline target S0)).
Proof.
  intros Hlen HS. rewrite closest_scan.
  destruct (scan_min_is_Some (key target) (all_samples polyline S0)) as [[k s] ->].
  - rewrite all_samples_nil. lia.
  - simpl. eauto.
Qed.

Lemma closest_on_segment polyline target S0 p :
  point (closestPointOnPolyline polyline target S0) = Some p ->
  (idx (closestPointOnPolyline polyline target S0) + 1 < length polyline)%nat /\
  0 <= frac (closestPointOnPolyline polyline target S0) <= 1.
Proof.
  intros (k & s & Hmin & -> & _)%closest_Some_inv. simpl.
  apply scan_min_Some in Hmin as (Hk & _).
  apply list_elem_of_lookup_2, elem_of_all_samples in Hk
    as (i & t & p1 & p2 & _ & H2%lookup_lt_Some & HS & Ht & ->).
  simpl. split; [exact H2|now apply sample_frac_range].
Qed.

(** ** The launch point *)

(** C8: a point returned by [closestPointOnPolyline] lies on a segment of
    the path at the returned index and fraction, the fraction is between 0
    and 1, and no sample of the path is nearer to the target. *)
Theorem closestPointOnPolyline_nearest polyline target S0 p :
  point (closestPointOnPolyline polyline target S0) = Some p ->
  let c := closestPointOnPolyline polyline target S0 in
  (exists p1 p2, polyline !! idx c = Some p1 /\ polyline !! (idx c + 1)%nat = Some p2 /\
     p = interpolate p1 p2 (frac c)) /\
  0 <= frac c <= 1 /\
  forall s, s ∈ all_samples polyline S0 -> dist p target <= dist (s_point s) target.
Proof.
  intros (k & s & Hmin & -> & ->)%closest_Some_inv. simpl.
  apply scan_min_Some in Hmin as (Hk & Hmin & _).
  apply list_elem_of_lookup_2, elem_of_all_samples in Hk
    as (i & t & p1 & p2 & H1 & H2 & HS & Ht & ->).
  simpl. split; [eauto|]. split; [now apply sample_frac_range|].
  intros s' [j Hj]%list_elem_of_lookup_1. apply (Hmin j s' Hj).
Qed.

(** Among the samples at the minimal distance the loops keep the
    first one in path order: a sample that is as near to the target as the
    returned point lies on the returned segment or on a later one. *)
Theorem closestPointOnPolyline_first polyline target S0 p k s :
  point (closestPointOnPolyline polyline target S0) = Some p ->
  all_samples polyline S0 !! k = Some s ->
  dist (s_point s) target <= dist p target ->
  (idx (closestPointOnPolyline polyline target S0) <= s_idx s)%nat.
Proof.
  intros (k0 & s0 & Hmin & -> & ->)%closest_Some_inv Hk Hle. simpl.
  apply scan_min_Some in Hmin as (Hk0 & _ & Hfst).
  destruct (decide (k < k0)%nat) as [Hlt|Hge].
  { specialize (Hfst _ _ Hk Hlt). simpl in Hfst. lra. }
  eapply all_samples_idx_mono; [exact Hk0|exact Hk|lia].
Qed.

(** C10: [closestPointOnPolyline] returns no point ([null]) exactly when the
    path has fewer than two points or no sample is taken per segment. *)
Theorem closestPointOnPolyline_None_iff polyline target S0 :
  point (closestPointOnPolyline polyline target S0) = None <->
  (length polyline < 2)%nat \/ S0 = 0%nat.
Proof.
  rewrite <- all_samples_nil, <- (scan_min_None (key target)), closest_scan.
  destruct (scan_min _ _) as [[k s]|]; simpl; split; congruence.
Qed.

(** The returned point is at least as near to the target as every
    vertex of the path. *)
Theorem closestPointOnPolyline_vertex polyline target S0 p v :
  point (closestPointOnPolyline polyline target S0) = Some p ->
  v ∈ polyline -> dist p target <= dist v target.
Proof.
  intros Hp Hv. pose proof Hp as (k & s & Hmin & _ & ->)%closest_Some_inv.
  assert (all_samples polyline S0 <> []) as Hne
    by (intros E; rewrite E in Hmin; discriminate).
  rewrite all_samples_nil in Hne.
  destruct (vertex_sample polyline S0 v) as (s' & [j Hj]%list_elem_of_lookup_1 & Hs');
    [lia|lia|exact Hv|].
  apply scan_min_Some in Hmin as (_ & Hmin & _).
  rewrite <- Hs'. apply (Hmin j s' Hj).
Qed.

(** ** The truck distances *)

Lemma leg_Some polyline i p q :
  polyline !! i = Some p -> polyline !! S i = Some q ->
  leg polyline (S i) = Some (dist p q).
Proof. intros Hp Hq. unfold leg. rewrite Nat.sub_succ, Nat.sub_0_r, Hp, Hq. reflexivity. Qed.

Lemma leg_None polyline i : (length polyline <= i)%nat -> leg polyline i = None.
Proof.
  intros Hi. unfold leg. rewrite (proj2 (lookup_ge_None polyline i) Hi).
  now destruct (polyline !! (i - 1)%nat).
Qed.

Lemma add_legs_S polyline from count d :
  add_legs polyline from (S count) d
  = (e ← leg polyline from; add_legs polyline (S from) count (d + e)).
Proof.
  unfold add_legs. cbn [seq fold_left]. destruct (leg polyline from) as [e|]; simpl;
    [reflexivity|].
  generalize (seq (S from) count). intros l. now induction l.
Qed.

(** Inside the path the loop adds the length of the sub-path it walks. *)
Lemma add_legs_path polyline count : forall n d,
  (S n + count <= length polyline)%nat ->
  exists q, add_legs polyline (S n) count d = Some q /\
    q == d + pathLength (take (S count) (drop n polyline)).
Proof.
  induction count as [|count IH]; intros n d Hlen.
  - exists d. split; [reflexivity|].
    destruct (drop n polyline) as [|x l]; simpl; lra.
  - destruct (lookup_lt_is_Some_2 polyline n) as [p Hp]; [lia|].
    destruct (lookup_lt_is_Some_2 polyline (S n)) as [q Hq]; [lia|].
    destruct (IH (S n) (d + dist p q)) as (r & Hr & Er); [lia|].
    exists r. rewrite add_legs_S, (leg_Some _ _ _ _ Hp Hq). split; [exact Hr|].
    rewrite Er, (drop_S _ _ _ Hp), (drop_S _ _ _ Hq).
    cbn [take]. rewrite pathLength_cons. lra.
Qed.

(** Past the end of the path the loop throws. *)
Lemma add_legs_None polyline count : forall from d,
  (0 < count)%nat -> (length polyline < from + count)%nat ->
  add_legs polyline from count d = None.
Proof.
  induction count as [|count IH]; intros from d Hc Hlen; [lia|].
  rewrite add_legs_S. destruct (leg polyline from) as [e|] eqn:E; [simpl|reflexivity].
  destruct count as [|count]; [|apply IH; lia].
  rewrite leg_None in E by lia. discriminate.
Qed.

(** The part of the launch segment before and after the launch point. *)
Definition before_launch (p1 p2 : LatLng) (launchFrac : Q) : Q :=
  if Qltb 0 launchFrac then dist p1 (interpolate p1 p2 launchFrac) else 0.

Definition after_launch (p1 p2 : LatLng) (launchFrac : Q) : Q :=
  if Qltb launchFrac 1 then dist (interpolate p1 p2 launchFrac) p2 else 0.

Lemma truckDistanceToLaunch_path polyline i f p1 p2 :
  polyline !! i = Some p1 -> polyline !! (i + 1)%nat = Some p2 ->
  exists q, truckDistanceToLaunch polyline i f = Some q /\
    q == pathLength (take (S i) polyline) + before_launch p1 p2 f.
Proof.
  intros H1 H2. unfold truckDistanceToLaunch, before_launch.
  destruct (add_legs_path polyline i 0 0) as (q & -> & Eq).
  { apply lookup_lt_Some in H1. lia. }
  simpl. rewrite H1, H2. simpl. change (drop 0 polyline) with polyline in Eq.
  destruct (Qltb 0 f); eexists; (split; [reflexivity|]); unfold interpolate, lerp, dist;
    simpl; lra.
Qed.

Lemma truckDistanceAfterLaunch_path polyline i f p1 p2 :
  polyline !! i = Some p1 -> polyline !! (i + 1)%nat = Some p2 ->
  exists q, truckDistanceAfterLaunch polyline i f = Some q /\
    q == after_launch p1 p2 f + pathLength (drop (S i) polyline).
Proof.
  intros H1 H2. unfold truckDistanceAfterLaunch, after_launch. rewrite H1, H2.
  pose proof (lookup_lt_Some _ _ _ H2) as Hlt.
  replace (i + 2)%nat with (S (S i)) by lia.
  assert (forall d, exists q, add_legs polyline (S (S i)) (length polyline - S (S i)) d = Some q
            /\ q == d + pathLength (drop (S i) polyline)) as Hrest.
  { intros d. destruct (add_legs_path polyline (length polyline - S (S i)) (S i) d)
      as (q & Hq & Eq); [lia|].
    exists q. split; [exact Hq|]. rewrite Eq, take_ge; [reflexivity|].
    rewrite length_drop. lia. }
  destruct (Qltb f 1); simpl.
  - destruct (Hrest (0 + dist4 (lat p1 + (lat p2 - lat p1) * f)
                 (lng p1 + (lng p2 - lng p1) * f) (lat p2) (lng p2))) as (q & -> & Eq).
    exists q. split; [reflexivity|]. rewrite Eq. unfold interpolate, lerp, dist. simpl. lra.
  - destruct (Hrest 0) as (q & -> & Eq). exists q. split; [reflexivity|]. rewrite Eq. lra.
Qed.

(** The two sub-paths make the path. *)
Lemma pathLength_split polyline i p1 p2 :
  polyline !! i = Some p1 -> polyline !! (i + 1)%nat = Some p2 ->
  pathLength polyline
  == pathLength (take (S i) polyline) + dist p1 p2 + pathLength (drop (S i) polyline).
Proof.
  intros H1 H2. rewrite <- (take_drop i polyline) at 1.
  rewrite (drop_S _ _ _ H1), pathLength_app.
  replace (i + 1)%nat with (S i) in H2 by lia.
  rewrite (drop_S _ _ _ H2), pathLength_cons.
  rewrite (take_S_r _ _ _ H1), <- (drop_S _ _ _ H2). lra.
Qed.

(** *** The launch segment *)

Lemma launch_parts_vertex p1 p2 f :
  f == 0 \/ f == 1 -> before_launch p1 p2 f + after_launch p1 p2 f == dist p1 p2.
Proof.
  unfold before_launch, after_launch.
  intros [E|E]; rewrite E; change (Qltb 0 0) with false; change (Qltb 1 1) with false;
    change (Qltb 0 1) with true; cbv iota; rewrite E;
    [rewrite interpolate_0 | rewrite interpolate_1]; lra.
Qed.

Lemma launch_parts_inner p1 p2 f :
  0 < f < 1 ->
  before_launch p1 p2 f + after_launch p1 p2 f
  == dist p1 (interpolate p1 p2 f) + dist (interpolate p1 p2 f) p2.
Proof.
  intros [H0 H1]. unfold before_launch, after_launch.
  rewrite (proj2 (Qltb_lt 0 f) H0), (proj2 (Qltb_lt f 1) H1). reflexivity.
Qed.

Lemma frac_cases f : 0 <= f <= 1 -> (f == 0 \/ f == 1) \/ 0 < f < 1.
Proof.
  intros [H0 H1]. destruct (Qeq_dec f 0); [auto|]. destruct (Qeq_dec f 1); [auto|].
  right. split; apply Qle_lteq in H0, H1; intuition (auto; lra).
Qed.

Lemma launch_parts_additive `{!SegmentAdditive G} p1 p2 f :
  0 <= f <= 1 -> before_launch p1 p2 f + after_launch p1 p2 f == dist p1 p2.
Proof.
  intros Hf. destruct (frac_cases f Hf) as [E|E].
  - now apply launch_parts_vertex.
  - rewrite launch_parts_inner by exact E. now apply dist_split.
Qed.

Lemma launch_parts_triangle `{!Triangle G} p1 p2 f :
  0 <= f <= 1 -> dist p1 p2 <= before_launch p1 p2 f + after_launch p1 p2 f.
Proof.
  intros Hf. destruct (frac_cases f Hf) as [E|E].
  - rewrite launch_parts_vertex by exact E. lra.
  - rewrite launch_parts_inner by exact E. apply dist_triangle.
Qed.

(** Both distances are defined on a segment of the path, and their sum is
    the length of the path with the launch segment replaced by its two
    parts. *)
Lemma truck_split polyline i f :
  (i + 1 < length polyline)%nat ->
  exists p1 p2 a b, truckDistanceToLaunch polyline i f = Some a /\
    truckDistanceAfterLaunch polyline i f = Some b /\
    a + b - pathLength polyline
    == before_launch p1 p2 f + after_launch p1 p2 f - dist p1 p2.
Proof.
  intros Hi.
  destruct (lookup_lt_is_Some_2 polyline i) as [p1 H1]; [lia|].
  destruct (lookup_lt_is_Some_2 polyline (i + 1)) as [p2 H2]; [lia|].
  destruct (truckDistanceToLaunch_path polyline i f p1 p2 H1 H2) as (a & Ha & Ea).
  destruct (truckDistanceAfterLaunch_path polyline i f p1 p2 H1 H2) as (b & Hb & Eb).
  exists p1, p2, a, b. repeat split; [exact Ha|exact Hb|].
  rewrite Ea, Eb, (pathLength_split polyline i p1 p2 H1 H2). lra.
Qed.

(** Conclude about the sum of the two distances from a fact [parts] about
    the two parts of the launch segment. *)
Ltac split_with parts :=
  let p1 := fresh "p1" in let p2 := fresh "p2" in
  let a := fresh "a" in let b := fresh "b" in
  intros Hi Hf;
  match goal with
  | |- context [truckDistanceToLaunch ?l ?i ?f] =>
      destruct (truck_split l i f Hi) as (p1 & p2 & a & b & Ha & Hb & E);
      exists a, b; repeat split; [exact Ha|exact Hb|];
      pose proof (parts p1 p2 f Hf); lra
  end.

(** For a distance that is additive along segments, as the taxicab
    distance of the examples is and the haversine distance of the page is
    not, the distance to the launch point plus the distance after it is
    the length of the whole path, at every segment of the path and every
    fraction between 0 and 1. *)
Theorem truck_split_additive `{!SegmentAdditive G} polyline i f :
  (i + 1 < length polyline)%nat -> 0 <= f <= 1 ->
  exists a b, truckDistanceToLaunch polyline i f = Some a /\
    truckDistanceAfterLaunch polyline i f = Some b /\
    a + b == pathLength polyline.
Proof. split_with launch_parts_additive. Qed.

(** C12: for a distance with the triangle inequality the two distances add
    up to at least the length of the path. *)
Theorem truck_split_triangle `{!Triangle G} polyline i f :
  (i + 1 < length polyline)%nat -> 0 <= f <= 1 ->
  exists a b, truckDistanceToLaunch polyline i f = Some a /\
    truckDistanceAfterLaunch polyline i f = Some b /\
    pathLength polyline <= a + b.
Proof. split_with launch_parts_triangle. Qed.

(** C11: segment sum consistency at the vertices: when the launch point
    is a vertex of the path (fraction 0 or 1 of a segment) both distances
    are computed and the distance to the launch point plus the distance
    after it is the length of the whole path, for every distance
    function. *)
Theorem truck_split_vertex polyline i f :
  (i + 1 < length polyline)%nat -> f == 0 \/ f == 1 ->
  exists a b, truckDistanceToLaunch polyline i f = Some a /\
    truckDistanceAfterLaunch polyline i f = Some b /\
    a + b == pathLength polyline.
Proof. split_with launch_parts_vertex. Qed.

(** *** When the distance functions throw *)

(** [truckDistanceAfterLaunch] throws exactly when the fraction is
    below 1 and the path has no point after the launch index. *)
Theorem truckDistanceAfterLaunch_None_iff polyline i f :
  truckDistanceAfterLaunch polyline i f = None <->
  f < 1 /\ (length polyline <= i + 1)%nat.
Proof.
  split.
  - intros HN. destruct (decide (i + 1 < length polyline)%nat) as [Hi|Hi].
    { destruct (truck_split polyline i f Hi) as (? & ? & ? & ? & _ & Hb & _). congruence. }
    split; [|lia]. apply Qltb_lt. destruct (Qltb f 1) eqn:E; [reflexivity|].
    unfold truckDistanceAfterLaunch in HN. rewrite E in HN. simpl in HN.
    replace (length polyline - (i + 2))%nat with 0%nat in HN by lia. discriminate.
  - intros [Hf%Qltb_lt Hi]. unfold truckDistanceAfterLaunch. rewrite Hf.
    rewrite (proj2 (lookup_ge_None polyline (i + 1)) Hi).
    now destruct (polyline !! i).
Qed.

(** [truckDistanceToLaunch] throws exactly when the launch index is
    positive and past the end of the path, or the fraction is positive and
    the path has no point after the launch index. *)
Theorem truckDistanceToLaunch_None_iff polyline i f :
  truckDistanceToLaunch polyline i f = None <->
  ((0 < i)%nat /\ (length polyline <= i)%nat) \/ (0 < f /\ (length polyline <= i + 1)%nat).
Proof.
  split.
  - intros HN. destruct (decide (i + 1 < length polyline)%nat) as [Hi|Hi].
    { destruct (truck_split polyline i f Hi) as (? & ? & ? & ? & Ha & _). congruence. }
    destruct (decide (0 < i /\ length polyline <= i)%nat) as [|Hl]; [auto|right].
    split; [|lia]. apply Qltb_lt. destruct (Qltb 0 f) eqn:E; [reflexivity|].
    unfold truckDistanceToLaunch in HN. rewrite E in HN.
    destruct i as [|i]; [discriminate|].
    destruct (add_legs_path polyline (S i) 0 0) as (q & Hq & _); [lia|].
    rewrite Hq in HN. discriminate.
  - unfold truckDistanceToLaunch. intros [[Hi Hlen]|[Hf%Qltb_lt Hlen]].
    + rewrite add_legs_None by lia. reflexivity.
    + destruct (add_legs polyline 1 i 0); [simpl|reflexivity]. rewrite Hf.
      rewrite (proj2 (lookup_ge_None polyline (i + 1)) Hlen).
      now destruct (polyline !! i).
Qed.

(** For the launch point of the path the two distances are defined and
    differ from the length of the path by what the two parts of the launch
    segment differ from the segment. *)
Lemma launch_distances polyline target S0 p :
  point (closestPointOnPolyline polyline target S0) = Some p ->
  let c := closestPointOnPolyline polyline target S0 in
  exists p1 p2 a b, (0 <= frac c <= 1) /\
    truckDistanceToLaunch polyline (idx c) (frac c) = Some a /\
    truckDistanceAfterLaunch polyline (idx c) (frac c) = Some b /\
    a + b - pathLength polyline
    == before_launch p1 p2 (frac c) + after_launch p1 p2 (frac c) - dist p1 p2.
Proof.
  intros [Hi Hf]%closest_on_segment. cbv zeta.
  destruct (truck_split _ _ (frac (closestPointOnPolyline polyline target S0)) Hi)
    as (p1 & p2 & a & b & H). exists p1, p2, a, b. tauto.
Qed.

(** *** The launch point of the path and its two distances *)

(** For the launch point that [closestPointOnPolyline] returns, the
    two truck distances are defined and, for a distance with the triangle
    inequality, add up to at least the length of the path. *)
Theorem launch_split `{!Triangle G} polyline target S0 p :
  point (closestPointOnPolyline polyline target S0) = Some p ->
  let c := closestPointOnPolyline polyline target S0 in
  exists a b, truckDistanceToLaunch polyline (idx c) (frac c) = Some a /\
    truckDistanceAfterLaunch polyline (idx c) (frac c) = Some b /\
    pathLength polyline <= a + b.
Proof.
  intros [Hi Hf]%closest_on_segment. revert Hi Hf. cbv zeta.
  split_with launch_parts_triangle.
Qed.

(** On a path of one point (a trip whose only delivery goes by drone)
    [closestPointOnPolyline] returns no point with index and fraction 0, and
    [truckDistanceAfterLaunch] called with them throws while
    [truckDistanceToLaunch] returns 0. *)
Theorem single_point_path_throws hq target S0 :
  let c := closestPointOnPolyline [hq] target S0 in
  c = mkClosest None 0 0 /\
  truckDistanceToLaunch [hq] (idx c) (frac c) = Some 0 /\
  truckDistanceAfterLaunch [hq] (idx c) (frac c) = None.
Proof. repeat split. Qed.

End Locator.


(** ** A path evaluated *)

Definition example_path : list LatLng := [mkLatLng 0 0; mkLatLng 10 0; mkLatLng 10 10].
Definition example_target : LatLng := mkLatLng 4 3.

Definition example_closest : Closest :=
  closestPointOnPolyline (G := taxicab) example_path example_target 50.

Definition example_launch : LatLng := mkLatLng (200 # 50) (0 # 50).

Lemma example_closest_run :
  example_closest = mkClosest (Some example_launch) 0 (20 # 50).
Proof. vm_compute. reflexivity. Qed.

Lemma closestPointOnPolyline_nearest_witness :
  (exists p1 p2, example_path !! idx example_closest = Some p1 /\
     example_path !! (idx example_closest + 1)%nat = Some p2 /\
     example_launch = interpolate p1 p2 (frac example_closest)) /\
  0 <= frac example_closest <= 1 /\
  forall s, s ∈ all_samples example_path 50 ->
    dist (H := taxicab) example_launch example_target
    <= dist (H := taxicab) (s_point s) example_target.
Proof.
  apply (closestPointOnPolyline_nearest (G := taxicab) example_path example_target 50).
  vm_compute. reflexivity.
Defined.

(** The target is the corner of the path: the last sample of the first
    segment and the first of the second are both at distance 0. *)
Lemma closestPointOnPolyline_first_witness :
  (idx (closestPointOnPolyline (G := taxicab) example_path (mkLatLng 10 0) 50) <= 1)%nat.
Proof.
  eapply (closestPointOnPolyline_first (G := taxicab) example_path (mkLatLng 10 0) 50
            _ 51 (mkSample 1 _ _)).
  - vm_compute. reflexivity.
  - vm_compute. reflexivity.
  - vm_compute. discriminate.
Defined.

Lemma closestPointOnPolyline_vertex_witness :
  dist (H := taxicab) example_launch example_target
  <= dist (H := taxicab) (mkLatLng 10 10) example_target.
Proof.
  apply (closestPointOnPolyline_vertex (G := taxicab) example_path example_target 50).
  - vm_compute. reflexivity.
  - apply list_elem_of_lookup_2 with 2%nat. reflexivity.
Defined.

Lemma truck_split_additive_witness :
  exists a b, truckDistanceToLaunch (G := taxicab) example_path 0 (20 # 50) = Some a /\
    truckDistanceAfterLaunch (G := taxicab) example_path 0 (20 # 50) = Some b /\
    a + b == pathLength (H := taxicab) example_path.
Proof.
  apply (truck_split_additive (G := taxicab) example_path 0 (20 # 50)).
  - simpl. lia.
  - split; vm_compute; discriminate.
Defined.

Lemma truck_split_triangle_witness :
  exists a b, truckDistanceToLaunch (G := taxicab) example_path 1 (1 # 2) = Some a /\
    truckDistanceAfterLaunch (G := taxicab) example_path 1 (1 # 2) = Some b /\
    pathLength (H := taxicab) example_path <= a + b.
Proof.
  apply (truck_split_triangle (G := taxicab) example_path 1 (1 # 2)).
  - simpl. lia.
  - split; vm_compute; discriminate.
Defined.

Lemma truck_split_vertex_witness :
  exists a b, truckDistanceToLaunch (G := taxicab) example_path 1 0 = Some a /\
    truckDistanceAfterLaunch (G := taxicab) example_path 1 0 = Some b /\
    a + b == pathLength (H := taxicab) example_path.
Proof.
  apply (truck_split_vertex (G := taxicab) example_path 1 0).
  - simpl. lia.
  - left. reflexivity.
Defined.

Lemma launch_split_witness :
  exists a b,
    truckDistanceToLaunch (G := taxicab) example_path
      (idx example_closest) (frac example_closest) = Some a /\
    truckDistanceAfterLaunch (G := taxicab) example_path
      (idx example_closest) (frac example_closest) = Some b /\
    pathLength (H := taxicab) example_path <= a + b.
Proof.
  apply (launch_split (G := taxicab) example_path example_target 50 example_launch).
  vm_compute. reflexivity.
Defined.
