(* ===== verification/Composer.v ===== *)
(** * Composer: the plan of the page and the list of stops

    The values [PathPlanning] derives from the stored trip on every render
    (the depot, the drone delivery, the truck deliveries, the truck route),
    the launch point it asks [closestPointOnPolyline] for, the position
    [insertIdx] at which the drone leg is spliced into the route, and the
    labelled list [traversalPoints].

    A coordinate pair of a stop is an [option]: [None] is what the code
    holds when the pair is [undefined] or [[null, null]].  A label, the
    one-character string [String.fromCharCode(65 + idx)], is its UTF-16
    code unit. *)

From stdpp Require Import strings.
From S2P Require Import Prelude JsNum Geodesy Fleet Sequencer Locator.

(** ** Data *)

Definition DEFAULT_HQ : LatLng := mkLatLng 12.9716 77.5946.

(** The [type] of a stop. *)
Inductive PointType : Type := PtHQ | PtTruck | PtLaunch | PtDroneDelivery | PtLanding.

#[export] Instance PointType_eq_dec : EqDecision PointType.
Proof. solve_decision. Defined.

(** The string the code stores for a type. *)
Definition typeName (t : PointType) : string :=
  match t with
  | PtHQ => "HQ"
  | PtTruck => "Truck"
  | PtLaunch => "Launch"
  | PtDroneDelivery => "DroneDelivery"
  | PtLanding => "Landing"
  end.

(** [{ type, coords, label }]. *)
Record TraversalPoint : Type := mkPoint {
  type : PointType;
  pt_coords : option LatLng;
  label : N
}.

(** What a render derives from the trip. *)
Record Page : Type := mkPage {
  pg_HQ : LatLng;
  pg_droneDelivery : option Delivery;
  pg_truckDeliveries : list Delivery;
  pg_drone : option Drone;
  optimizedNodeOrder : list LatLng
}.

(** [String.fromCharCode(n)]: the code unit [n] modulo [2^16]. *)
Definition fromCharCode (n : N) : N := (n mod 65536)%N.

Definition getLabel (idx : nat) : N := fromCharCode (65 + N.of_nat idx).

Definition getTypeDisplayMessage (type : string) : string :=
  if decide (type = "HQ") then "Headquarters"
  else if decide (type = "Truck") then "Truck Delivery"
  else if decide (type = "Launch") then "Launch Site"
  else if decide (type = "DroneDelivery") then "Drone Delivery"
  else if decide (type = "Landing") then "Landing Site"
  else type.

(** [trip && trip.hqLat && trip.hqLng ? { lat: ..., lng: ... } : DEFAULT_HQ]. *)
Definition hqOf (trip : option Trip) : LatLng :=
  match trip with
  | Some t =>
      match hqLat t, hqLng t with
      | Some la, Some lo => if truthy la && truthy lo then mkLatLng la lo else DEFAULT_HQ
      | _, _ => DEFAULT_HQ
      end
  | None => DEFAULT_HQ
  end.

(** [truckPolyline.length > 1 ? truckPolyline : optimizedNodeOrder]. *)
Definition pathOf (truckPolyline order : list LatLng) : list LatLng :=
  if (1 <? length truckPolyline)%nat then truckPolyline else order.

(** ** Lists of indices *)

Lemma fmap_seq_const {B} (f : nat -> B) (c : B) n : forall j,
  (forall i, (j <= i)%nat -> f i = c) -> f <$> seq j n = replicate n c.
Proof.
  induction n as [|n IH]; intros j Hf; [reflexivity|].
  cbn [seq fmap list_fmap replicate]. rewrite Hf by lia. f_equal.
  apply IH. intros i Hi. apply Hf. lia.
Qed.

(** Reading an array at every index gives the array. *)
Lemma lookup_seq_all {A} (l : list A) : (fun i => l !! i) <$> seq 0 (length l) = Some <$> l.
Proof.
  induction l as [|a l IH]; [reflexivity|].
  cbn [length seq fmap list_fmap]. f_equal.
  rewrite <- fmap_S_seq, <- list_fmap_compose. exact IH.
Qed.

(** The loops over the segments of a route read inside the route. *)
Lemma Forall_seq_segments {A} (l : list A) :
  Forall (fun i => (i + 1 < length l)%nat) (seq 0 (length l - 1)).
Proof. apply Forall_lookup. intros k i [-> Hk]%lookup_seq. lia. Qed.

Section Composer.
Context {G : Geodesy}.

#[local] Abbreviation haversineDistance := (@dist4 G).

(** ** The plan of the page *)

Definition pageOf (trip : option Trip) : Page :=
  let HQ := hqOf trip in
  match trip with
  | None => mkPage HQ None [] None [mkLatLng (lat HQ) (lng HQ); mkLatLng (lat HQ) (lng HQ)]
  | Some t =>
      let droneDelivery :=
        match mlPredictedDelivery t with
        | Some d => Some (mkDelivery (weight d) (latitude d) (longitude d))
        | None =>
            match droneDelivery t with
            | Some d => Some (mkDelivery (weight d) (latitude d) (longitude d))
            | None => None
            end
        end in
      let truckDeliveries :=
        (fun del => mkDelivery (weight del) (latitude del) (longitude del))
        <$> default [] (truckDeliveries t) in
      mkPage HQ droneDelivery truckDeliveries (drone t)
        (nearestNeighborRoute HQ truckDeliveries)
  end.

(** The call of [closestPointOnPolyline] with [droneDelivery?.latitude]:
    without a drone delivery every distance is [NaN] and nothing is
    recorded. *)
Definition launchOf (truckPolyline order : list LatLng)
    (droneDelivery : option Delivery) : Closest :=
  match droneDelivery with
  | Some d => closestPointOnPolyline (pathOf truckPolyline order) (coords d) 50
  | None => mkClosest None 0 0
  end.

(** ** [insertIdx] *)

(** The body of the loop over the segments of the route; the state is
    [(minDist, insertIdx)]. *)
Definition insert_step (launchPoint : option LatLng) (order : list LatLng)
    (st : option Q * nat) (i : nat) : option Q * nat :=
  match order !! i, order !! (i + 1)%nat with
  | Some p1, Some p2 =>
      match launchPoint with
      | None => st
      | Some lp =>
          let midLat := (lat p1 + lat p2) / 2 in
          let midLng := (lng p1 + lng p2) / 2 in
          let dist := haversineDistance (lat lp) (lng lp) midLat midLng in
          if lt_inf dist st.1 then (Some dist, (i + 1)%nat) else st
      end
  | _, _ => st
  end.

Definition insertIdxOf (launchPoint : option LatLng) (order : list LatLng) : nat :=
  (fold_left (insert_step launchPoint order) (seq 0 (length order - 1)) (None, 0%nat)).2.

(** ** [traversalPoints] *)

(** [for (i = 0; i < insertIdx; i++) push({ type: i === 0 ? "HQ" : "Truck", ... })]. *)
Definition walk_before (order : list LatLng) (insertIdx : nat)
  : list (PointType * option LatLng) :=
  (fun i => (if (i =? 0)%nat then PtHQ else PtTruck, order !! i)) <$> seq 0 insertIdx.

(** The three stops of the drone leg, pushed when there is a launch point. *)
Definition drone_segment (launchPoint : option LatLng) (droneDelivery : option Delivery)
  : list (PointType * option LatLng) :=
  match launchPoint with
  | Some lp =>
      [(PtLaunch, Some lp); (PtDroneDelivery, coords <$> droneDelivery); (PtLanding, Some lp)]
  | None => []
  end.

(** [for (i = insertIdx; i < optimizedNodeOrder.length; i++) push({ type: "Truck", ... })]. *)
Definition walk_after (order : list LatLng) (insertIdx : nat)
  : list (PointType * option LatLng) :=
  (fun i => (PtTruck, order !! i)) <$> seq insertIdx (length order - insertIdx).

(** The list before the labels are assigned. *)
Definition unlabelled (launchPoint : option LatLng) (droneDelivery : option Delivery)
    (order : list LatLng) : list (PointType * option LatLng) :=
  let insertIdx := insertIdxOf launchPoint order in
  walk_before order insertIdx ++ drone_segment launchPoint droneDelivery
    ++ walk_after order insertIdx.

(** [traversalPoints.map((pt, idx) => ({ ...pt, label: String.fromCharCode(65 + idx) }))]. *)
Definition traversalPoints (launchPoint : option LatLng) (droneDelivery : option Delivery)
    (order : list LatLng) : list TraversalPoint :=
  imap (fun idx pt => mkPoint pt.1 pt.2 (fromCharCode (65 + N.of_nat idx)))
    (unlabelled launchPoint droneDelivery order).

Definition allPoints (launchPoint : option LatLng) (droneDelivery : option Delivery)
    (order : list LatLng) : list (option LatLng) :=
  pt_coords <$> traversalPoints launchPoint droneDelivery order.

(** The stops of a trip: the plan, the launch point on the path and the
    list, as the render computes them one after the other. *)
Definition stopsOf (trip : option Trip) (truckPolyline : list LatLng) : list TraversalPoint :=
  let pg := pageOf trip in
  let launch := launchOf truckPolyline (optimizedNodeOrder pg) (pg_droneDelivery pg) in
  traversalPoints (point launch) (pg_droneDelivery pg) (optimizedNodeOrder pg).

(** ** [insertIdx] as a scan of the segment midpoints *)

(** The distance from the launch point to the midpoint of segment [i]. *)
Definition seg_key (lp : LatLng) (order : list LatLng) (i : nat) : Q :=
  match order !! i, order !! (i + 1)%nat with
  | Some p1, Some p2 => dist lp (midpoint p1 p2)
  | _, _ => 0
  end.

Definition insert_state (st : scan_state (A := nat)) : option Q * nat :=
  (st.1, match st.2 with Some (_, i) => (i + 1)%nat | None => 0%nat end).

Lemma insert_step_scan lp order st k i :
  (i + 1 < length order)%nat ->
  insert_step (Some lp) order (insert_state st) i
  = insert_state (scan_step (seg_key lp order) st k i).
Proof.
  intros Hi.
  destruct (lookup_lt_is_Some_2 order i) as [p1 H1]; [lia|].
  destruct (lookup_lt_is_Some_2 order (i + 1)) as [p2 H2]; [lia|].
  unfold insert_step, scan_step, seg_key. rewrite H1, H2. cbv zeta.
  change (haversineDistance (lat lp) (lng lp) ((lat p1 + lat p2) / 2) ((lng p1 + lng p2) / 2))
    with (dist lp (midpoint p1 p2)).
  unfold insert_state at 1 2. simpl. destruct (lt_inf _ st.1); reflexivity.
Qed.

Lemma insert_loop_scan lp order idxs :
  Forall (fun i => (i + 1 < length order)%nat) idxs -> forall st k,
  fold_left (insert_step (Some lp) order) idxs (insert_state st)
  = insert_state (scan_from (seg_key lp order) k idxs st).
Proof.
  induction 1 as [|i idxs Hi _ IH]; intros st k; [reflexivity|].
  unfold scan_from. cbn [fold_left for_each_from].
  rewrite (insert_step_scan _ _ _ k) by exact Hi. apply IH.
Qed.

Lemma insertIdxOf_scan lp order :
  insertIdxOf (Some lp) order
  = match scan_min (seg_key lp order) (seq 0 (length order - 1)) with
    | Some (_, i) => (i + 1)%nat
    | None => 0%nat
    end.
Proof.
  unfold insertIdxOf, scan_min.
  change (None, 0%nat) with (insert_state (None, None)).
  rewrite (insert_loop_scan _ _ _ (Forall_seq_segments order) _ 0%nat). reflexivity.
Qed.

Lemma insertIdxOf_None order : insertIdxOf None order = 0%nat.
Proof.
  unfold insertIdxOf. generalize (seq 0 (length order - 1)). intros idxs.
  induction idxs as [|i idxs IH]; [reflexivity|]. cbn [fold_left].
  replace (insert_step None order (None, 0%nat) i) with (@None Q, 0%nat); [exact IH|].
  unfold insert_step. now destruct (order !! i), (order !! (i + 1)%nat).
Qed.

(** With a launch point and a route of at least two points, [insertIdx]
    is one past the first segment whose midpoint is nearest. *)
Lemma insertIdxOf_Some lp order :
  (2 <= length order)%nat ->
  exists i, insertIdxOf (Some lp) order = (i + 1)%nat /\ (i + 1 < length order)%nat /\
    (forall j, (j + 1 < length order)%nat -> seg_key lp order i <= seg_key lp order j) /\
    (forall j, (j < i)%nat -> seg_key lp order i < seg_key lp order j).
Proof.
  intros Hlen. rewrite insertIdxOf_scan.
  destruct (scan_min_is_Some (seg_key lp order) (seq 0 (length order - 1))) as [[k i] E].
  { destruct (length order - 1)%nat eqn:En; [lia|discriminate]. }
  rewrite E. apply scan_min_Some in E as (Hk & Hmin & Hfst).
  apply lookup_seq in Hk as [-> Hk]. simpl in *. exists k. repeat split; [lia| |].
  - intros j Hj. apply (Hmin j). apply lookup_seq. split; [reflexivity|lia].
  - intros j Hj. apply (Hfst j); [|exact Hj]. apply lookup_seq. split; [reflexivity|lia].
Qed.

Lemma insertIdxOf_le launchPoint order : (insertIdxOf launchPoint order <= length order)%nat.
Proof.
  destruct launchPoint as [lp|]; [|rewrite insertIdxOf_None; lia].
  destruct (decide (2 <= length order)%nat) as [Hlen|Hlen].
  - destruct (insertIdxOf_Some lp order Hlen) as (i & -> & Hi & _). lia.
  - rewrite insertIdxOf_scan. replace (length order - 1)%nat with 0%nat by lia.
    simpl. lia.
Qed.

(** ** The list of stops *)

Definition is_route_stop (t : PointType) : bool :=
  match t with PtHQ | PtTruck => true | _ => false end.

Lemma traversalPoints_types launchPoint d order :
  type <$> traversalPoints launchPoint d order = (unlabelled launchPoint d order).*1.
Proof. unfold traversalPoints. rewrite fmap_imap. apply imap_const. Qed.

Lemma allPoints_unlabelled launchPoint d order :
  allPoints launchPoint d order = (unlabelled launchPoint d order).*2.
Proof. unfold allPoints, traversalPoints. rewrite fmap_imap. apply imap_const. Qed.

Lemma walk_before_types order k :
  (walk_before order (S k)).*1 = PtHQ :: replicate k PtTruck.
Proof.
  unfold walk_before. rewrite <- list_fmap_compose. cbn [seq fmap list_fmap]. f_equal.
  apply fmap_seq_const. intros i Hi. simpl. destruct i; [lia|reflexivity].
Qed.

Lemma walk_after_types order k :
  (walk_after order k).*1 = replicate (length order - k) PtTruck.
Proof. unfold walk_after. rewrite <- list_fmap_compose. now apply fmap_seq_const. Qed.

Lemma walk_coords order k :
  (k <= length order)%nat ->
  (walk_before order k).*2 ++ (walk_after order k).*2 = Some <$> order.
Proof.
  intros Hk. unfold walk_before, walk_after. rewrite <- !list_fmap_compose, <- fmap_app.
  change 0%nat with (0 + 0)%nat at 1. change k with (0 + k)%nat at 2.
  rewrite <- seq_app. replace (k + (length order - k))%nat with (length order) by lia.
  apply lookup_seq_all.
Qed.

Lemma length_unlabelled launchPoint d order :
  length (unlabelled launchPoint d order)
  = (length order + match launchPoint with Some _ => 3 | None => 0 end)%nat.
Proof.
  unfold unlabelled, walk_before, walk_after, drone_segment.
  pose proof (insertIdxOf_le launchPoint order).
  rewrite !length_app, !length_fmap, !length_seq. destruct launchPoint; simpl; lia.
Qed.

(** ** The stops by position *)

Lemma length_walk_before order k : length (walk_before order k) = k.
Proof. unfold walk_before. now rewrite length_fmap, length_seq. Qed.

(** The stops around the drone leg, by position: [k] is [insertIdx]. *)
Lemma unlabelled_lookup lp d order j :
  let k := insertIdxOf (Some lp) order in
  unlabelled (Some lp) d order !! j
  = if decide (j < k)%nat then Some (if (j =? 0)%nat then PtHQ else PtTruck, order !! j)
    else if decide (j = k) then Some (PtLaunch, Some lp)
    else if decide (j = k + 1)%nat then Some (PtDroneDelivery, coords <$> d)
    else if decide (j = k + 2)%nat then Some (PtLanding, Some lp)
    else if decide (j < length order + 3)%nat then Some (PtTruck, order !! (j - 3)%nat)
    else None.
Proof.
  cbv zeta. unfold unlabelled. set (k := insertIdxOf (Some lp) order).
  pose proof (insertIdxOf_le (Some lp) order) as Hk. fold k in Hk.
  destruct (decide (j < k)%nat) as [Hj|Hj].
  - rewrite lookup_app_l by now rewrite length_walk_before.
    unfold walk_before. now rewrite list_lookup_fmap, lookup_seq_lt.
  - rewrite lookup_app_r by (rewrite length_walk_before; lia).
    rewrite length_walk_before. simpl.
    destruct (j - k)%nat as [|[|[|n]]] eqn:E; repeat case_decide; try lia; try reflexivity.
    + change (walk_after order k !! n = Some (PtTruck, order !! (j - 3)%nat)).
      unfold walk_after. rewrite list_lookup_fmap, lookup_seq_lt by lia.
      simpl. do 3 f_equal. lia.
    + change (walk_after order k !! n = None).
      unfold walk_after. rewrite list_lookup_fmap, lookup_seq_ge by lia. reflexivity.
Qed.

Lemma traversalPoints_lookup launchPoint d order j :
  traversalPoints launchPoint d order !! j
  = (fun pt => mkPoint pt.1 pt.2 (getLabel j)) <$> unlabelled launchPoint d order !! j.
Proof. unfold traversalPoints. now rewrite list_lookup_imap. Qed.

(** With a launch point and a drone delivery every stop has its
    coordinates. *)
Lemma traversalPoints_coords lp d order :
  Forall (fun pt => is_Some (pt_coords pt)) (traversalPoints (Some lp) (Some d) order).
Proof.
  apply Forall_lookup. intros j pt. rewrite traversalPoints_lookup, unlabelled_lookup.
  pose proof (insertIdxOf_le (Some lp) order).
  repeat case_decide; intros [= <-]; simpl; eauto; apply lookup_lt_is_Some_2; lia.
Qed.

(** The launch site and the landing site are two stops apart and at the
    same position; no other stop has their types. *)
Lemma traversalPoints_drone_leg lp d order :
  let k := insertIdxOf (Some lp) order in
  let pts := traversalPoints (Some lp) d order in
  pts !! k = Some (mkPoint PtLaunch (Some lp) (getLabel k)) /\
  pts !! (k + 1)%nat = Some (mkPoint PtDroneDelivery (coords <$> d) (getLabel (k + 1))) /\
  pts !! (k + 2)%nat = Some (mkPoint PtLanding (Some lp) (getLabel (k + 2))) /\
  forall j pt, pts !! j = Some pt ->
    (type pt = PtLaunch -> j = k) /\ (type pt = PtDroneDelivery -> j = (k + 1)%nat) /\
    (type pt = PtLanding -> j = (k + 2)%nat).
Proof.
  cbv zeta. set (k := insertIdxOf (Some lp) order).
  rewrite !traversalPoints_lookup, !unlabelled_lookup. fold k.
  split_and!; try (repeat case_decide; (lia || reflexivity)).
  intros j pt. rewrite traversalPoints_lookup, unlabelled_lookup. fold k.
  repeat case_decide; intros [= <-]; simpl; try destruct (j =? 0)%nat;
    split_and!; intros; (lia || discriminate).
Qed.

(** C26: with a launch point and a route of at least two points,
    [insertIdx] is one past the first segment of the route whose midpoint is
    nearest to the launch point; it is at least 1 and less than the length of
    the route. *)
Theorem insertIdxOf_nearest_midpoint lp order :
  (2 <= length order)%nat ->
  exists i p1 p2, insertIdxOf (Some lp) order = (i + 1)%nat /\
    order !! i = Some p1 /\ order !! (i + 1)%nat = Some p2 /\
    (forall j q1 q2, order !! j = Some q1 -> order !! (j + 1)%nat = Some q2 ->
       dist lp (midpoint p1 p2) <= dist lp (midpoint q1 q2) /\
       ((j < i)%nat -> dist lp (midpoint p1 p2) < dist lp (midpoint q1 q2))).
Proof.
  intros (i & Ei & Hi & Hmin & Hfst)%(insertIdxOf_Some lp).
  destruct (lookup_lt_is_Some_2 order i) as [p1 H1]; [lia|].
  destruct (lookup_lt_is_Some_2 order (i + 1)) as [p2 H2]; [lia|].
  exists i, p1, p2. split; [exact Ei|]. split; [exact H1|]. split; [exact H2|].
  intros j q1 q2 Hq1 Hq2. specialize (Hmin j (lookup_lt_Some _ _ _ Hq2)).
  specialize (Hfst j). unfold seg_key in Hmin, Hfst.
  rewrite H1, H2, Hq1, Hq2 in *. auto.
Qed.

(** [insertIdx] is 0 exactly when there is no launch point or the
    route has fewer than two points. *)
Theorem insertIdxOf_0_iff launchPoint order :
  insertIdxOf launchPoint order = 0%nat <-> launchPoint = None \/ (length order < 2)%nat.
Proof.
  split.
  - intros E. destruct launchPoint as [lp|]; [right|auto].
    destruct (decide (2 <= length order)%nat) as [Hlen|]; [|lia].
    destruct (insertIdxOf_Some lp order Hlen) as (i & Ei & _). lia.
  - intros [->|Hlen]; [apply insertIdxOf_None|].
    pose proof (insertIdxOf_le launchPoint order).
    destruct launchPoint as [lp|]; [|apply insertIdxOf_None].
    rewrite insertIdxOf_scan. now replace (length order - 1)%nat with 0%nat by lia.
Qed.

(** With a launch point and a route of at least two points the types
    of the stops are HQ, truck stops, Launch, DroneDelivery, Landing, truck
    stops; the first group may be empty, the last one has at least one
    stop. *)
Theorem traversalPoints_shape lp d order :
  (2 <= length order)%nat ->
  exists k, insertIdxOf (Some lp) order = S k /\ (S k < length order)%nat /\
    type <$> traversalPoints (Some lp) d order
    = PtHQ :: replicate k PtTruck ++ [PtLaunch; PtDroneDelivery; PtLanding]
        ++ replicate (length order - S k) PtTruck.
Proof.
  intros (i & Ei & Hi & _)%(insertIdxOf_Some lp). exists i.
  replace (i + 1)%nat with (S i) in * by lia. repeat split; [exact Ei|lia|].
  rewrite traversalPoints_types. unfold unlabelled. rewrite Ei, !fmap_app.
  now rewrite walk_before_types, walk_after_types.
Qed.

(** C27: the stops of type HQ and Truck are the points of the route, each
    once and in route order, whether or not there is a launch point. *)
Theorem traversalPoints_route launchPoint d order :
  snd <$> filter (fun pt => is_route_stop pt.1 = true) (unlabelled launchPoint d order)
  = Some <$> order.
Proof.
  unfold unlabelled. rewrite !list.filter_app, !fmap_app.
  rewrite <- (walk_coords order (insertIdxOf launchPoint order)) by apply insertIdxOf_le.
  rewrite (filter_none _ (drone_segment launchPoint d)).
  - unfold walk_before, walk_after. rewrite !filter_fmap_all; [now rewrite app_nil_l| |];
      intros i; simpl; [reflexivity|now destruct i].
  - unfold drone_segment. destruct launchPoint; repeat constructor; simpl; discriminate.
Qed.

(** Without a launch point every stop, the depot included, has type
    Truck, and the stops are the points of the route. *)
Theorem traversalPoints_no_launch d order :
  traversalPoints None d order
  = imap (fun idx p => mkPoint PtTruck (Some p) (fromCharCode (65 + N.of_nat idx))) order.
Proof.
  unfold traversalPoints, unlabelled. rewrite insertIdxOf_None. simpl.
  unfold walk_after. rewrite Nat.sub_0_r.
  change (fun i => (PtTruck, order !! i))
    with ((fun c : option LatLng => (PtTruck, c)) ∘ (fun i => order !! i)).
  rewrite list_fmap_compose, lookup_seq_all, <- list_fmap_compose, imap_fmap. reflexivity.
Qed.

(** The label of the stop at position [k] is the code unit [65 + k]:
    labels follow the traversal order, and with at most 26 stops they are
    the capital letters from A on. *)
Theorem traversalPoints_labels launchPoint d order k pt :
  traversalPoints launchPoint d order !! k = Some pt ->
  label pt = getLabel k /\
  ((k < 26)%nat -> label pt = (65 + N.of_nat k)%N /\ (65 <= label pt <= 90)%N).
Proof.
  unfold traversalPoints. rewrite list_lookup_imap.
  destruct (unlabelled launchPoint d order !! k) as [raw|]; [|discriminate].
  intros [= <-]. simpl. split; [reflexivity|]. intros Hk.
  unfold fromCharCode. rewrite N.mod_small by lia. lia.
Qed.

(** There are as many stops as route points, plus three when there
    is a launch point. *)
Theorem length_traversalPoints launchPoint d order :
  length (traversalPoints launchPoint d order)
  = (length order + match launchPoint with Some _ => 3 | None => 0 end)%nat.
Proof. unfold traversalPoints. rewrite length_imap. apply length_unlabelled. Qed.

(** ** The stops of a trip *)

Lemma length_pathOf truckPolyline order :
  (2 <= length order)%nat -> (2 <= length (pathOf truckPolyline order))%nat.
Proof.
  intros Hlen. unfold pathOf.
  destruct (1 <? length truckPolyline)%nat eqn:E; [apply Nat.ltb_lt in E|]; lia.
Qed.

Lemma launchOf_Some truckPolyline order d :
  (2 <= length order)%nat -> is_Some (point (launchOf truckPolyline order (Some d))).
Proof. intros Hlen. apply closest_is_Some; [now apply length_pathOf|lia]. Qed.

Lemma pageOf_order t :
  optimizedNodeOrder (pageOf (Some t))
  = nearestNeighborRoute (hqOf (Some t))
      ((fun del => mkDelivery (weight del) (latitude del) (longitude del))
       <$> default [] (truckDeliveries t)).
Proof. reflexivity. Qed.

Lemma length_pageOf_order t :
  length (optimizedNodeOrder (pageOf (Some t)))
  = S (length (default [] (truckDeliveries t))).
Proof. now rewrite pageOf_order, length_nearestNeighborRoute, length_fmap. Qed.

(** C25: for a trip with a drone delivery and at least one truck delivery,
    whatever road polyline was fetched, the stops of the page are the depot,
    truck stops, the launch site, the drone delivery, the landing site and at
    least one more truck stop; together the truck stops are the truck
    deliveries. *)
Theorem stopsOf_shape t d truckPolyline :
  pg_droneDelivery (pageOf (Some t)) = Some d ->
  default [] (truckDeliveries t) <> [] ->
  exists k, (k < length (default [] (truckDeliveries t)))%nat /\
    type <$> stopsOf (Some t) truckPolyline
    = PtHQ :: replicate k PtTruck ++ [PtLaunch; PtDroneDelivery; PtLanding]
        ++ replicate (length (default [] (truckDeliveries t)) - k) PtTruck.
Proof.
  intros Hd Hne. unfold stopsOf. rewrite Hd.
  pose proof (length_pageOf_order t) as Hlen.
  assert (2 <= length (optimizedNodeOrder (pageOf (Some t))))%nat as H2.
  { rewrite Hlen. destruct (default [] (truckDeliveries t)); [contradiction|simpl; lia]. }
  destruct (launchOf_Some truckPolyline _ d H2) as [lp ->].
  destruct (insertIdxOf_Some lp _ H2) as (k & Ek & Hk & _).
  replace (k + 1)%nat with (S k) in * by lia. exists k. split; [lia|].
  rewrite traversalPoints_types. unfold unlabelled. rewrite Ek, !fmap_app.
  rewrite walk_before_types, walk_after_types, Hlen. reflexivity.
Qed.

(** For a trip without truck deliveries, before any polyline is
    fetched, the page has a single stop: the depot, with type Truck and
    label A; the drone delivery is not among the stops. *)
Theorem stopsOf_drone_only t :
  default [] (truckDeliveries t) = [] ->
  stopsOf (Some t) [] = [mkPoint PtTruck (Some (hqOf (Some t))) 65].
Proof.
  intros E. unfold stopsOf. rewrite pageOf_order, E.
  cbn [fmap list_fmap]. rewrite nearestNeighborRoute_cons, nn_loop_nil.
  assert (point (launchOf [] [hqOf (Some t)] (pg_droneDelivery (pageOf (Some t)))) = None)
    as -> by (unfold launchOf; now destruct (pg_droneDelivery _)).
  apply traversalPoints_no_launch.
Qed.

End Composer.

(** ** Labels of the page and the depot *)

(** [getTypeDisplayMessage] never takes its default branch on the type
    of a stop, and gives different types different messages. *)
Theorem getTypeDisplayMessage_types (t t' : PointType) :
  getTypeDisplayMessage (typeName t) <> typeName t /\
  (getTypeDisplayMessage (typeName t) = getTypeDisplayMessage (typeName t') <-> t = t').
Proof. destruct t, t'; (split; [|split]); vm_compute; congruence. Qed.

(** Labels are capital letters only for the first 26 stops: below
    the wrap-around of the code unit, the label of position [idx] is between
    A and Z exactly when [idx] is less than 26. *)
Theorem getLabel_letter (idx : nat) :
  (N.of_nat idx + 65 < 65536)%N ->
  (65 <= getLabel idx <= 90)%N <-> (idx < 26)%nat.
Proof. intros H. unfold getLabel, fromCharCode. rewrite N.mod_small by lia. lia. Qed.

(** A stored depot on the equator or on the prime meridian is not
    used: the test [trip.hqLat && trip.hqLng] is false for the number 0 and
    the page falls back to the default depot. *)
Theorem hqOf_zero t la lo :
  hqLat t = Some la -> hqLng t = Some lo -> la == 0 \/ lo == 0 ->
  hqOf (Some t) = DEFAULT_HQ.
Proof.
  intros Hla Hlo H. unfold hqOf. rewrite Hla, Hlo.
  destruct (truthy la) eqn:Ea, (truthy lo) eqn:Eo; try reflexivity.
  apply truthy_true in Ea, Eo. tauto.
Qed.

(** ** A trip evaluated, with the taxicab distance *)

Definition example_plan : Trip :=
  mkTrip (Some (mkDrone "D1" 10 50 true)) (Some (mkDelivery 2 12 4))
    (Some [mkDelivery 1 10 10; mkDelivery 3 10 0]) 0 0 None 0 0 0 0
    [mkDelivery 2 12 4; mkDelivery 1 10 10; mkDelivery 3 10 0] "t0"
    (Some 0) (Some 5) None None.

Definition example_order : list LatLng :=
  [mkLatLng 12.9716 77.5946; mkLatLng 10 10; mkLatLng 10 0].

Definition example_launch_site : LatLng := mkLatLng (500 # 50) (200 # 50).

(** A trip whose only delivery goes by drone. *)
Definition drone_only_plan : Trip :=
  mkTrip (Some (mkDrone "D1" 10 50 true)) (Some (mkDelivery 2 12 4)) (Some [])
    0 0 None 0 0 0 0 [mkDelivery 2 12 4] "t0" None None None None.

Lemma example_stops_run :
  stopsOf (G := taxicab) (Some example_plan) []
  = [mkPoint PtHQ (Some DEFAULT_HQ) 65; mkPoint PtTruck (Some (mkLatLng 10 10)) 66;
     mkPoint PtLaunch (Some example_launch_site) 67;
     mkPoint PtDroneDelivery (Some (mkLatLng 12 4)) 68;
     mkPoint PtLanding (Some example_launch_site) 69;
     mkPoint PtTruck (Some (mkLatLng 10 0)) 70].
Proof. vm_compute. reflexivity. Qed.

Lemma insertIdxOf_nearest_midpoint_witness :
  exists i p1 p2,
    insertIdxOf (G := taxicab) (Some example_launch_site) example_order = (i + 1)%nat /\
    example_order !! i = Some p1 /\ example_order !! (i + 1)%nat = Some p2 /\
    (forall j q1 q2, example_order !! j = Some q1 -> example_order !! (j + 1)%nat = Some q2 ->
       dist (H := taxicab) example_launch_site (midpoint p1 p2)
       <= dist (H := taxicab) example_launch_site (midpoint q1 q2) /\
       ((j < i)%nat -> dist (H := taxicab) example_launch_site (midpoint p1 p2)
                       < dist (H := taxicab) example_launch_site (midpoint q1 q2))).
Proof. apply (insertIdxOf_nearest_midpoint (G := taxicab)). simpl. lia. Defined.

Lemma traversalPoints_shape_witness :
  exists k,
    insertIdxOf (G := taxicab) (Some example_launch_site) example_order = S k /\
    (S k < length example_order)%nat /\
    type <$> traversalPoints (G := taxicab) (Some example_launch_site)
               (Some (mkDelivery 2 12 4)) example_order
    = PtHQ :: replicate k PtTruck ++ [PtLaunch; PtDroneDelivery; PtLanding]
        ++ replicate (length example_order - S k) PtTruck.
Proof. apply (traversalPoints_shape (G := taxicab)). simpl. lia. Defined.

Lemma traversalPoints_labels_witness :
  label (mkPoint PtLaunch (Some example_launch_site) 67) = getLabel 2 /\
  ((2 < 26)%nat ->
   label (mkPoint PtLaunch (Some example_launch_site) 67) = (65 + N.of_nat 2)%N /\
   (65 <= label (mkPoint PtLaunch (Some example_launch_site) 67) <= 90)%N).
Proof.
  apply (traversalPoints_labels (G := taxicab) (Some example_launch_site)
           (Some (mkDelivery 2 12 4)) example_order).
  vm_compute. reflexivity.
Defined.

Lemma stopsOf_shape_witness :
  exists k, (k < length (default [] (truckDeliveries example_plan)))%nat /\
    type <$> stopsOf (G := taxicab) (Some example_plan) []
    = PtHQ :: replicate k PtTruck ++ [PtLaunch; PtDroneDelivery; PtLanding]
        ++ replicate (length (default [] (truckDeliveries example_plan)) - k) PtTruck.
Proof.
  apply (stopsOf_shape (G := taxicab) example_plan (mkDelivery 2 12 4) []).
  - reflexivity.
  - discriminate.
Defined.

Lemma stopsOf_drone_only_witness :
  stopsOf (G := taxicab) (Some drone_only_plan) []
  = [mkPoint PtTruck (Some (hqOf (Some drone_only_plan))) 65].
Proof. apply (stopsOf_drone_only (G := taxicab)). reflexivity. Defined.

Lemma getLabel_letter_witness : (65 <= getLabel 26 <= 90)%N <-> (26 < 26)%nat.
Proof. apply getLabel_letter. vm_compute. reflexivity. Defined.

Lemma hqOf_zero_witness : hqOf (Some example_plan) = DEFAULT_HQ.
Proof. apply (hqOf_zero example_plan 0 5); [reflexivity|reflexivity|left; reflexivity]. Defined.
