(* ===== verification/Metrics.v ===== *)
(** * Metrics: the times and carbon figures of the page

    [getSegmentTime], the time shown between two consecutive stops, and the
    figures the render of [PathPlanning] computes after its guard: the truck
    distances and times before and after the launch point, the drone trip
    time, the total trip time, the two carbon scenarios, the carbon
    reduction, the truck-only time and the time saved; and
    [formatTimeMinutes], which prints a duration.

    A render ends in one of three ways: the "Loading trip..." placeholder of
    the guard, a [TypeError] thrown while the figures are computed, or the
    page with its figures.  [Render] has one constructor for each.

    The prediction the figures use is the state [xgbResult], which the
    load effect [loadXgbResult] reads from [localStorage]. *)

From stdpp Require Import strings pretty.
From S2P Require Import Prelude JsNum Geodesy Fleet Sequencer Locator Composer.

(** ** Data *)

(** The stored result of the time predictor; a missing property is [None].
    [drone_drone_id] is [xgbResult.drone.drone_id], [xgb_droneId] is
    [xgbResult.droneId]. *)
Record XgbResult : Type := mkXgbResult {
  predicted_time_minutes : option Q;
  time : option Q;
  drone_id : option string;
  drone_drone_id : option string;
  xgb_droneId : option string
}.

(** The text of an item of [localStorage] as the load effect reads it: the
    empty string, the text "undefined", a text [JSON.parse] throws on, or
    a text it parses, to [null] ([None]) or to a value. *)
Inductive StoredText (A : Type) : Type :=
| TextEmpty
| TextUndefined
| TextMalformed
| TextJson (v : option A).

Arguments TextEmpty {A}.
Arguments TextUndefined {A}.
Arguments TextMalformed {A}.
Arguments TextJson {A} v.

(** The outcome of a render. *)
Inductive Render (A : Type) : Type :=
| Loading
| Throws
| Shown (a : A).
Arguments Loading {A}.
Arguments Throws {A}.
Arguments Shown {A} a.

(** The values the render computes after the guard. *)
Record Figures : Type := mkFigures {
  truckDistToLaunch : Q;
  truckTimeToLaunch : Q;
  truckDistAfter : Q;
  truckTimeAfter : Q;
  droneLeg : Q;
  droneTripTime : Q;
  totalTripTime : Q;
  truckOnlyTotalDistance : Q;
  fig_truckOnlyCarbon : Q;
  hybridTruckDistance : Q;
  fig_hybridCarbon : Q;
  fig_carbonReduction : Q;
  carbonEmission : Q;
  truckOnlyTotalTime : Q;
  timeSaved : Q
}.

Definition TRUCK_EMISSION_PER_KM : Q := 1.746.
Definition DRONE_EMISSION_PER_KM : Q := 0.002.

(** The load effect of the prediction: the value of [xgbResult] after
    it.  [result] is the item of [localStorage], [None] when there is
    none. *)
Definition loadXgbResult (result : option (StoredText XgbResult)) : option XgbResult :=
  match result with
  | None | Some TextEmpty | Some TextUndefined => None
  | Some TextMalformed => None
  | Some (TextJson parsedResult) => parsedResult
  end.

(** [xgbResult && (xgbResult.predicted_time_minutes ?? xgbResult.time)]. *)
Definition mlMinutesOf (xgbResult : option XgbResult) : option Q :=
  xgb ← xgbResult;
  match predicted_time_minutes xgb with
  | Some p => Some p
  | None => time xgb
  end.

(** Continue with the value of [o], or throw when it is an exception. *)
Definition or_throw {A B} (o : option A) (k : A -> Render B) : Render B :=
  match o with
  | Some a => k a
  | None => Throws
  end.

(** ** [formatTimeMinutes] *)

(** Hours, minutes and seconds of a number of seconds. *)
Definition hms (totalSeconds : Z) : Z * Z * Z :=
  ((totalSeconds / 3600)%Z, ((totalSeconds mod 3600) / 60)%Z, (totalSeconds mod 60)%Z).

Definition formatTimeMinutes (minutes : option Q) : string :=
  match minutes with
  | None => "N/A"
  | Some minutes =>
      let totalSeconds := Math_round (minutes * 60) in
      if (totalSeconds <? 0)%Z then "N/A"
      else
        let '(hours, mins, seconds) := hms totalSeconds in
        let result := String.EmptyString in
        let result :=
          if (0 <? hours)%Z then result +:+ pretty hours +:+ " hr " else result in
        let result :=
          if (0 <? mins)%Z || (0 <? hours)%Z
          then result +:+ pretty mins +:+ " min " else result in
        result +:+ pretty seconds +:+ " sec"
  end.

(** Minutes at 30 km/h: two per kilometre. *)
Lemma truck_minutes (x : Q) : x / 30 * 60 == 2 * x.
Proof. field. Qed.

Section Metrics.
Context {G : Geodesy}.

#[local] Abbreviation haversineDistance := (@dist4 G).

(** ** [getSegmentTime] *)

Definition is_drone_segment (typeA typeB : PointType) : bool :=
  bool_decide (typeA = PtLaunch /\ typeB = PtDroneDelivery)
  || bool_decide (typeA = PtDroneDelivery /\ typeB = PtLanding).

(** The time in minutes between two stops; [None] is [NaN]. *)
Definition getSegmentTime (xgbResult : option XgbResult) (ptA ptB : option LatLng)
    (typeA typeB : PointType) : option Q :=
  match ptA, ptB with
  | Some a, Some b =>
      let dist := haversineDistance (lat a) (lng a) (lat b) (lng b) in
      let mlMinutes := mlMinutesOf xgbResult in
      if is_drone_segment typeA typeB then
        if truthy_opt mlMinutes then mlMinutes
        else Some ((dist / 40) * 60)
      else if bool_decide (typeA = PtHQ) || bool_decide (typeB = PtHQ)
              || bool_decide (typeA = PtTruck /\ typeB = PtTruck)
              || bool_decide (typeA = PtTruck /\ typeB = PtLaunch)
              || bool_decide (typeA = PtLaunch /\ typeB = PtTruck)
      then Some ((dist / 30) * 60)
      else if bool_decide (typeA = PtLanding /\ typeB = PtTruck)
      then Some ((dist / 30) * 60)
      else Some ((dist / 30) * 60)
  | _, _ => None
  end.

(** The times under the arrows of the stop list: one per pair of
    consecutive stops. *)
Definition segmentTimes (xgbResult : option XgbResult) (pts : list TraversalPoint)
  : list (option Q) :=
  (fun ab => getSegmentTime xgbResult (pt_coords ab.1) (pt_coords ab.2) (type ab.1) (type ab.2))
  <$> zip pts (drop 1 pts).

(** ** The figures *)

(** [truckDeliveries.forEach(del => { total += dist(prevPoint, del); prevPoint = del })]:
    the state is [(total, prevPoint)]. *)
Definition walk_step (st : Q * LatLng) (del : Delivery) : Q * LatLng :=
  let dist := haversineDistance (lat st.2) (lng st.2) (latitude del) (longitude del) in
  (st.1 + dist, mkLatLng (latitude del) (longitude del)).

Definition walk (HQ : LatLng) (truckDeliveries : list Delivery) : Q * LatLng :=
  fold_left walk_step truckDeliveries (0, HQ).

(** The loop of the truck-only time over the legs of the route. *)
Definition time_step (order : list LatLng) (acc : Q) (i : nat) : Q :=
  match order !! (i - 1)%nat, order !! i with
  | Some a, Some b =>
      let dist := haversineDistance (lat a) (lng a) (lat b) (lng b) in
      acc + (dist / 30) * 60
  | _, _ => acc
  end.

Definition truckOnlyTotalTimeOf (order : list LatLng) : Q :=
  if (1 <? length order)%nat
  then fold_left (time_step order) (seq 1 (length order - 1)) 0
  else 0.

(** The drone trip time: the prediction when there is one, else the
    time of the two legs at 40 km/h. *)
Definition droneTripTimeOf (xgbResult : option XgbResult) (droneLeg : Q) : Q :=
  match xgbResult with
  | Some xgb =>
      match predicted_time_minutes xgb with
      | Some p => if truthy p then p else (2 * droneLeg / 40) * 60
      | None => (2 * droneLeg / 40) * 60
      end
  | None => (2 * droneLeg / 40) * 60
  end.

(** The figures once the two truck distances and the launch point have
    been read: the arithmetic of the render. *)
Definition computeFigures (pg : Page) (launchIdx : nat) (xgbResult : option XgbResult)
    (droneDelivery : Delivery) (truckDistToLaunch truckDistAfter : Q)
    (launchPoint : LatLng) : Figures :=
  let truckTimeToLaunch := (truckDistToLaunch / 30) * 60 in
  let truckTimeAfter := (truckDistAfter / 30) * 60 in
  let droneLeg := haversineDistance (lat launchPoint) (lng launchPoint)
                    (latitude droneDelivery) (longitude droneDelivery) in
  let droneTripTime := droneTripTimeOf xgbResult droneLeg in
  let totalTripTime := truckTimeToLaunch + Math_max droneTripTime truckTimeAfter in
  let droneDeliveryDistance := haversineDistance (lat launchPoint) (lng launchPoint)
                    (latitude droneDelivery) (longitude droneDelivery) in
  let '(total, prevPoint) := walk (pg_HQ pg) (pg_truckDeliveries pg) in
  let truckOnlyTotalDistance :=
    total + haversineDistance (lat prevPoint) (lng prevPoint)
              (latitude droneDelivery) (longitude droneDelivery) in
  let truckOnlyCarbon := truckOnlyTotalDistance * TRUCK_EMISSION_PER_KM in
  let hybridTruckDistance :=
    total + haversineDistance (lat prevPoint) (lng prevPoint)
              (lat launchPoint) (lng launchPoint) in
  let hybridTruckDistance :=
    match pg_truckDeliveries pg !! launchIdx with
    | Some next =>
        hybridTruckDistance
        + haversineDistance (lat launchPoint) (lng launchPoint)
            (latitude next) (longitude next)
    | None => hybridTruckDistance
    end in
  let hybridTruckCarbon := hybridTruckDistance * TRUCK_EMISSION_PER_KM in
  let hybridDroneCarbon := droneDeliveryDistance * DRONE_EMISSION_PER_KM in
  let hybridCarbon := hybridTruckCarbon + hybridDroneCarbon in
  let carbonReduction :=
    if Qltb 0 truckOnlyCarbon
    then ((truckOnlyCarbon - hybridCarbon) / truckOnlyCarbon) * 100 else 0 in
  let carbonEmission := truckOnlyCarbon - hybridCarbon in
  let truckOnlyTotalTime := truckOnlyTotalTimeOf (optimizedNodeOrder pg) in
  let timeSaved := truckOnlyTotalTime - totalTripTime in
  mkFigures truckDistToLaunch truckTimeToLaunch truckDistAfter truckTimeAfter
    droneLeg droneTripTime totalTripTime truckOnlyTotalDistance truckOnlyCarbon
    hybridTruckDistance hybridCarbon carbonReduction carbonEmission
    truckOnlyTotalTime timeSaved.

(** The render from its guard on: the placeholder without a trip or a
    drone delivery, else the reads that can throw, in the order of the
    code, and the figures. *)
Definition figuresOf (trip : option Trip) (truckPolyline : list LatLng)
    (xgbResult : option XgbResult) : Render Figures :=
  let pg := pageOf trip in
  let order := optimizedNodeOrder pg in
  let launch := launchOf truckPolyline order (pg_droneDelivery pg) in
  match trip, pg_droneDelivery pg with
  | Some _, Some droneDelivery =>
      let polyline := pathOf truckPolyline order in
      or_throw (truckDistanceToLaunch polyline (idx launch) (frac launch))
        (fun truckDistToLaunch =>
      or_throw (truckDistanceAfterLaunch polyline (idx launch) (frac launch))
        (fun truckDistAfter =>
      or_throw (point launch) (fun launchPoint =>
      Shown (computeFigures pg (idx launch) xgbResult droneDelivery
               truckDistToLaunch truckDistAfter launchPoint))))
  | _, _ => Loading
  end.

(** ** The outcome of a render *)

Lemma launchOf_short truckPolyline order droneDelivery :
  (length (pathOf truckPolyline order) < 2)%nat ->
  launchOf truckPolyline order droneDelivery = mkClosest None 0 0.
Proof.
  intros Hlen. unfold launchOf. destruct droneDelivery as [d|]; [|reflexivity].
  rewrite closest_scan, (proj2 (all_samples_nil _ 50)); [reflexivity|auto].
Qed.

Lemma length_page_path t truckPolyline :
  (length (pathOf truckPolyline (optimizedNodeOrder (pageOf (Some t)))) < 2)%nat <->
  default [] (truckDeliveries t) = [] /\ (length truckPolyline <= 1)%nat.
Proof.
  unfold pathOf. pose proof (length_pageOf_order t) as Hlen.
  destruct (1 <? length truckPolyline)%nat eqn:E;
    [apply Nat.ltb_lt in E | apply Nat.ltb_ge in E; rewrite Hlen];
    destruct (default [] (truckDeliveries t)); simpl;
    intuition (try discriminate; try lia).
Qed.

(** With a path of at least two points the reads succeed. *)
Lemma figuresOf_Shown t truckPolyline xgbResult d :
  pg_droneDelivery (pageOf (Some t)) = Some d ->
  (2 <= length (pathOf truckPolyline (optimizedNodeOrder (pageOf (Some t)))))%nat ->
  let pg := pageOf (Some t) in
  let launch := launchOf truckPolyline (optimizedNodeOrder pg) (Some d) in
  exists p1 p2 a b lp, point launch = Some lp /\ (0 <= frac launch <= 1) /\
    a + b - pathLength (pathOf truckPolyline (optimizedNodeOrder pg))
    == before_launch p1 p2 (frac launch) + after_launch p1 p2 (frac launch) - dist p1 p2 /\
    figuresOf (Some t) truckPolyline xgbResult
    = Shown (computeFigures pg (idx launch) xgbResult d a b lp).
Proof.
  intros Hd Hlen. cbv zeta. unfold figuresOf. rewrite Hd.
  destruct (closest_is_Some _ (coords d) 50 Hlen) as [lp Hlp]; [lia|].
  destruct (launch_distances _ _ _ _ Hlp) as (p1 & p2 & a & b & Hf & Ha & Hb & E).
  exists p1, p2, a, b, lp. unfold launchOf. cbv zeta in *.
  rewrite Ha, Hb, Hlp. simpl. auto.
Qed.

Lemma figuresOf_Throws_core t truckPolyline xgbResult :
  is_Some (pg_droneDelivery (pageOf (Some t))) ->
  (length (pathOf truckPolyline (optimizedNodeOrder (pageOf (Some t)))) < 2)%nat ->
  figuresOf (Some t) truckPolyline xgbResult = Throws.
Proof.
  intros [d Hd] Hlen. unfold figuresOf. rewrite Hd.
  rewrite (launchOf_short truckPolyline (optimizedNodeOrder (pageOf (Some t))) (Some d) Hlen).
  cbn [point idx frac]. unfold or_throw. now repeat case_match.
Qed.

(** The render shows the placeholder exactly when there is no stored
    trip or the trip has no drone delivery. *)
Theorem figuresOf_Loading_iff trip truckPolyline xgbResult :
  figuresOf trip truckPolyline xgbResult = Loading <->
  trip = None \/ pg_droneDelivery (pageOf trip) = None.
Proof.
  unfold figuresOf. destruct trip as [t|]; [|tauto].
  destruct (pg_droneDelivery (pageOf (Some t))) as [d|]; [|tauto].
  unfold or_throw. split; [|intros [|]; discriminate].
  repeat (match goal with |- context [match ?o with Some _ => _ | None => _ end] =>
            destruct o end); discriminate.
Qed.

(** For a stored trip with a drone delivery the render throws exactly
    when the trip has no truck delivery and no road polyline was fetched:
    the path is the depot alone, no launch point exists, and the reads of the
    second point of the path and of the launch point fail. *)
Theorem figuresOf_Throws_iff t truckPolyline xgbResult :
  figuresOf (Some t) truckPolyline xgbResult = Throws <->
  is_Some (pg_droneDelivery (pageOf (Some t))) /\
  default [] (truckDeliveries t) = [] /\ (length truckPolyline <= 1)%nat.
Proof.
  rewrite <- length_page_path. split.
  - intros HT. destruct (pg_droneDelivery (pageOf (Some t))) as [d|] eqn:Hd.
    + split; [eauto|].
      destruct (decide (2 <= length (pathOf truckPolyline
                  (optimizedNodeOrder (pageOf (Some t)))))%nat) as [Hlen|]; [|lia].
      destruct (figuresOf_Shown t truckPolyline xgbResult d Hd Hlen)
        as (? & ? & ? & ? & ? & _ & _ & _ & E). congruence.
    + unfold figuresOf in HT. rewrite Hd in HT. discriminate.
  - intros [Hd Hlen]. now apply figuresOf_Throws_core.
Qed.

Lemma figuresOf_Shown_inv t truckPolyline xgbResult f :
  figuresOf (Some t) truckPolyline xgbResult = Shown f ->
  let pg := pageOf (Some t) in
  let path := pathOf truckPolyline (optimizedNodeOrder pg) in
  exists d p1 p2 a b lp i frac,
    pg_droneDelivery pg = Some d /\ (0 <= frac <= 1) /\
    a + b - pathLength path == before_launch p1 p2 frac + after_launch p1 p2 frac - dist p1 p2 /\
    f = computeFigures pg i xgbResult d a b lp.
Proof.
  intros HS. cbv zeta.
  destruct (pg_droneDelivery (pageOf (Some t))) as [d|] eqn:Hd;
    [|unfold figuresOf in HS; rewrite Hd in HS; discriminate].
  destruct (decide (2 <= length (pathOf truckPolyline
              (optimizedNodeOrder (pageOf (Some t)))))%nat) as [Hlen|Hlen].
  - destruct (figuresOf_Shown t truckPolyline xgbResult d Hd Hlen)
      as (p1 & p2 & a & b & lp & _ & Hf & E & HS').
    rewrite HS' in HS. injection HS as <-. exists d, p1, p2, a, b, lp. eauto 10.
  - exfalso. apply Nat.nlt_ge in Hlen.
    assert (figuresOf (Some t) truckPolyline xgbResult = Throws) as HT; [|congruence].
    apply figuresOf_Throws_core; [eauto|lia].
Qed.

(** ** The distances of the figures as path lengths *)

Lemma walk_from tds : forall acc p0,
  (fold_left walk_step tds (acc, p0)).1 == acc + pathLength (p0 :: (coords <$> tds)) /\
  (fold_left walk_step tds (acc, p0)).2 = List.last (coords <$> tds) p0.
Proof.
  induction tds as [|del tds IH]; intros acc p0; [simpl; split; [lra|reflexivity]|].
  cbn [fold_left]. destruct (IH (walk_step (acc, p0) del).1 (walk_step (acc, p0) del).2)
    as [E1 E2]. rewrite <- surjective_pairing in E1, E2. split.
  - rewrite E1. cbn [fmap list_fmap]. rewrite pathLength_cons. unfold walk_step, dist, coords.
    simpl. lra.
  - rewrite E2. cbn [fmap list_fmap]. now rewrite last_cons_default.
Qed.

Lemma time_legs order count : forall n acc,
  (S n + count <= length order)%nat ->
  fold_left (time_step order) (seq (S n) count) acc
  == acc + (pathLength (take (S count) (drop n order)) / 30) * 60.
Proof.
  induction count as [|count IH]; intros n acc Hlen.
  - destruct (drop n order) as [|x l]; simpl; field.
  - destruct (lookup_lt_is_Some_2 order n) as [p Hp]; [lia|].
    destruct (lookup_lt_is_Some_2 order (S n)) as [q Hq]; [lia|].
    cbn [seq fold_left]. rewrite IH by lia.
    unfold time_step. rewrite Nat.sub_succ, Nat.sub_0_r, Hp, Hq.
    rewrite (drop_S _ _ _ Hp), (drop_S _ _ _ Hq). cbn [take].
    rewrite pathLength_cons. unfold dist. field.
Qed.

Lemma truckOnlyTotalTimeOf_path order :
  truckOnlyTotalTimeOf order == (pathLength order / 30) * 60.
Proof.
  unfold truckOnlyTotalTimeOf. destruct (1 <? length order)%nat eqn:E.
  - apply Nat.ltb_lt in E. rewrite (time_legs order (length order - 1) 0) by lia.
    rewrite drop_0, take_ge by lia. field.
  - apply Nat.ltb_ge in E. destruct order as [|p [|q l]]; simpl in *; [field|field|lia].
Qed.

(** Unfold the figures and name the result of the walk over the truck
    deliveries. *)
Ltac figures :=
  unfold computeFigures;
  match goal with
  | |- context [walk ?hq ?tds] =>
      let total := fresh "total" in let prev := fresh "prevPoint" in
      let E := fresh "Ewalk" in
      destruct (walk hq tds) as [total prev] eqn:E; cbn [fst snd] in *;
      pose proof (walk_from tds 0 hq) as [Etotal Eprev];
      unfold walk in E; rewrite E in Etotal, Eprev; cbn [fst snd] in Etotal, Eprev
  end; cbv zeta;
  cbn [truckDistToLaunch truckTimeToLaunch truckDistAfter truckTimeAfter droneLeg
       droneTripTime totalTripTime truckOnlyTotalDistance fig_truckOnlyCarbon
       hybridTruckDistance fig_hybridCarbon fig_carbonReduction carbonEmission
       truckOnlyTotalTime timeSaved].

(** The total trip time is the truck time to the launch point plus
    the longer of the drone trip time and the truck time after the launch,
    not their sum: it is at least each of the two and equal to one of
    them. *)
Theorem totalTripTime_dominates pg i xgbResult d a b lp :
  let f := computeFigures pg i xgbResult d a b lp in
  truckTimeToLaunch f + droneTripTime f <= totalTripTime f /\
  truckTimeToLaunch f + truckTimeAfter f <= totalTripTime f /\
  (totalTripTime f == truckTimeToLaunch f + droneTripTime f \/
   totalTripTime f == truckTimeToLaunch f + truckTimeAfter f).
Proof.
  cbv zeta. figures.
  pose proof (Math_max_cases (droneTripTimeOf xgbResult (dist4 (lat lp) (lng lp)
                (latitude d) (longitude d))) (b / 30 * 60)) as [[Hle E]|[Hle E]];
    (split; [lra|split; [lra|]]); [right|left]; lra.
Qed.

(** The truck-only distance of the carbon baseline is the length of
    the path from the depot through the truck deliveries in stored order to
    the drone delivery. *)
Theorem truckOnlyTotalDistance_path pg i xgbResult d a b lp :
  truckOnlyTotalDistance (computeFigures pg i xgbResult d a b lp)
  == pathLength (pg_HQ pg :: (coords <$> pg_truckDeliveries pg) ++ [coords d]).
Proof.
  figures. rewrite Etotal, Eprev.
  change (pg_HQ pg :: (coords <$> pg_truckDeliveries pg) ++ [coords d])
    with ((pg_HQ pg :: (coords <$> pg_truckDeliveries pg)) ++ [coords d]).
  rewrite pathLength_snoc. unfold dist, coords. simpl. lra.
Qed.

(** The hybrid truck distance of the carbon figures is the length of
    the path from the depot through all truck deliveries in stored order to
    the launch point, plus the distance from the launch point to the truck
    delivery stored at the index of the launch segment when there is one. *)
Theorem hybridTruckDistance_path pg i xgbResult d a b lp :
  hybridTruckDistance (computeFigures pg i xgbResult d a b lp)
  == pathLength (pg_HQ pg :: (coords <$> pg_truckDeliveries pg) ++ [lp])
     + match pg_truckDeliveries pg !! i with
       | Some next => dist lp (coords next)
       | None => 0
       end.
Proof.
  figures.
  change (pg_HQ pg :: (coords <$> pg_truckDeliveries pg) ++ [lp])
    with ((pg_HQ pg :: (coords <$> pg_truckDeliveries pg)) ++ [lp]).
  rewrite pathLength_snoc, <- Eprev.
  destruct (pg_truckDeliveries pg !! i); rewrite Etotal; unfold dist, coords;
    cbn [lat lng]; lra.
Qed.

(** The carbon reduction is guarded: with a positive baseline it is
    the saved share of the baseline in percent, otherwise it is 0 and nothing
    is divided by zero; the carbon saved is the difference of the two
    scenarios. *)
Theorem carbonReduction_guarded pg i xgbResult d a b lp :
  let f := computeFigures pg i xgbResult d a b lp in
  (0 < fig_truckOnlyCarbon f ->
   fig_carbonReduction f * fig_truckOnlyCarbon f
   == (fig_truckOnlyCarbon f - fig_hybridCarbon f) * 100) /\
  (fig_truckOnlyCarbon f <= 0 -> fig_carbonReduction f = 0) /\
  carbonEmission f = fig_truckOnlyCarbon f - fig_hybridCarbon f.
Proof.
  cbv zeta. figures. clear Etotal Eprev.
  set (toc := (total + _) * TRUCK_EMISSION_PER_KM). set (hc := _ + _ * DRONE_EMISSION_PER_KM).
  qcase (Qltb 0 toc) as E; repeat split; intros; try lra. field. lra.
Qed.

(** For a distance that is never negative the hybrid carbon is not
    negative and the carbon reduction is at most 100 percent. *)
Theorem carbonReduction_le_100 `{!MetricLaws G} pg i xgbResult d a b lp :
  let f := computeFigures pg i xgbResult d a b lp in
  0 <= fig_hybridCarbon f /\ fig_carbonReduction f <= 100.
Proof.
  cbv zeta. figures.
  assert (0 <= total) as Ht by (rewrite Etotal; pose proof (pathLength_nonneg
    (pg_HQ pg :: (coords <$> pg_truckDeliveries pg))); lra). clear Etotal Eprev Ewalk.
  assert (forall p q r u, 0 <= haversineDistance p q r u) as Hd by (intros; apply dist4_nonneg).
  set (toc := (total + _) * TRUCK_EMISSION_PER_KM).
  set (hc := _ * TRUCK_EMISSION_PER_KM + _ * DRONE_EMISSION_PER_KM).
  assert (0 <= hc) as Hhc.
  { subst hc. unfold TRUCK_EMISSION_PER_KM, DRONE_EMISSION_PER_KM.
    destruct (pg_truckDeliveries pg !! i) as [next|];
      [pose proof (Hd (lat lp) (lng lp) (latitude next) (longitude next))|];
      pose proof (Hd (lat prevPoint) (lng prevPoint) (lat lp) (lng lp));
      pose proof (Hd (lat lp) (lng lp) (latitude d) (longitude d)); nra. }
  split; [exact Hhc|]. qcase (Qltb 0 toc) as E; [|lra].
  assert ((toc - hc) / toc * 100 == 100 - hc / toc * 100) as -> by (field; lra).
  assert (0 <= hc / toc) by (apply Qle_shift_div_l; lra). lra.
Qed.

(** A quotient of a negative number by a positive one, in percent. *)
Lemma percent_neg x y : x < 0 -> 0 < y -> x / y * 100 < 0.
Proof.
  intros Hx Hy. assert (x / y * y == x) as E by (field; lra).
  assert (0 <= x / y -> 0 <= x / y * y) by (intros; apply Qmult_le_0_compat; lra). lra.
Qed.

(** C29: the carbon the page says is saved is the emission of the truck on
    the difference of the two truck distances less the emission of the
    drone on its leg.  With the triangle inequality it is at most what
    flying the leg from the launch point to the drone delivery instead of
    driving it saves.  It is negative, and the reduction is not positive,
    as soon as the hybrid truck distance, which goes through every truck
    delivery, then to the launch point and on to the truck delivery stored
    at the index of the launch segment, exceeds the truck-only distance. *)
Theorem carbonSaved_bound `{!MetricLaws G} `{!Triangle G} pg i xgbResult d a b lp :
  let f := computeFigures pg i xgbResult d a b lp in
  carbonEmission f ==
    TRUCK_EMISSION_PER_KM * (truckOnlyTotalDistance f - hybridTruckDistance f)
    - DRONE_EMISSION_PER_KM * droneLeg f /\
  carbonEmission f <= (TRUCK_EMISSION_PER_KM - DRONE_EMISSION_PER_KM) * droneLeg f /\
  (truckOnlyTotalDistance f < hybridTruckDistance f ->
   carbonEmission f < 0 /\ fig_carbonReduction f <= 0 /\
   (0 < truckOnlyTotalDistance f -> fig_carbonReduction f < 0)).
Proof.
  cbv zeta. figures. clear Etotal Eprev Ewalk.
  pose proof (dist_triangle prevPoint lp (coords d)) as Htri.
  pose proof (dist_nonneg lp (coords d)) as Hleg.
  assert (0 <= match pg_truckDeliveries pg !! i with
               | Some next => dist lp (coords next) | None => 0 end) as Hnext
    by (destruct (pg_truckDeliveries pg !! i); [apply dist_nonneg | lra]).
  unfold dist, coords in *. cbn [lat lng] in *.
  set (leg := dist4 (lat lp) (lng lp) (latitude d) (longitude d)) in *.
  set (toD := total + dist4 (lat prevPoint) (lng prevPoint) (latitude d) (longitude d)) in *.
  set (hyD := match pg_truckDeliveries pg !! i with Some _ => _ | None => _ end).
  assert (hyD == total + dist4 (lat prevPoint) (lng prevPoint) (lat lp) (lng lp)
                 + match pg_truckDeliveries pg !! i with
                   | Some next => dist4 (lat lp) (lng lp) (latitude next) (longitude next)
                   | None => 0 end) as EhyD
    by (subst hyD; destruct (pg_truckDeliveries pg !! i); lra).
  unfold TRUCK_EMISSION_PER_KM, DRONE_EMISSION_PER_KM in *.
  split_and!; [lra | subst toD; lra |]. intros Hlt.
  split; [lra|]. qcase (Qltb 0 (toD * 1.746)) as E; (split; [|intros; try lra]).
  - apply Qlt_le_weak, percent_neg; lra.
  - apply percent_neg; lra.
  - lra.
Qed.

(** The truck-only time is the time of the route of the truck
    deliveries at 30 km/h, 60 minutes to the hour; the drone delivery is not
    on that route. *)
Theorem truckOnlyTotalTime_route pg i xgbResult d a b lp :
  truckOnlyTotalTime (computeFigures pg i xgbResult d a b lp)
  == (pathLength (optimizedNodeOrder pg) / 30) * 60.
Proof. figures. apply truckOnlyTotalTimeOf_path. Qed.

(** C28: when no road polyline was fetched and the distance has the
    triangle inequality, the time saved that the page shows is never
    positive: the truck-only time covers the route without the drone delivery,
    and the hybrid time is at least the time of that same route. *)
Theorem timeSaved_nonpositive `{!Triangle G} t truckPolyline xgbResult f :
  (length truckPolyline <= 1)%nat ->
  figuresOf (Some t) truckPolyline xgbResult = Shown f ->
  timeSaved f <= 0.
Proof.
  intros Hshort (d & p1 & p2 & a & b & lp & i & frac & _ & Hf & E & ->)%figuresOf_Shown_inv.
  pose proof (launch_parts_triangle p1 p2 frac Hf) as Htri.
  assert (pathOf truckPolyline (optimizedNodeOrder (pageOf (Some t)))
          = optimizedNodeOrder (pageOf (Some t))) as Epath.
  { unfold pathOf. now rewrite (proj2 (Nat.ltb_ge _ _) Hshort). }
  rewrite Epath in E. figures. rewrite truckOnlyTotalTimeOf_path.
  pose proof (Math_max_r (droneTripTimeOf xgbResult (dist4 (lat lp) (lng lp)
                (latitude d) (longitude d))) (b / 30 * 60)).
  rewrite !truck_minutes in *. lra.
Qed.

(** ** Segment times *)

Lemma getSegmentTime_truck_eq xgbResult a b typeA typeB :
  is_drone_segment typeA typeB = false ->
  getSegmentTime xgbResult (Some a) (Some b) typeA typeB = Some ((dist a b / 30) * 60).
Proof. intros E. unfold getSegmentTime. rewrite E. now repeat case_match. Qed.

Lemma getSegmentTime_drone_eq xgbResult a b typeA typeB :
  is_drone_segment typeA typeB = true ->
  getSegmentTime xgbResult (Some a) (Some b) typeA typeB
  = match mlMinutesOf xgbResult with
    | Some m => if truthy m then Some m else Some ((dist a b / 40) * 60)
    | None => Some ((dist a b / 40) * 60)
    end.
Proof.
  intros E. unfold getSegmentTime. rewrite E. cbv zeta.
  destruct (mlMinutesOf xgbResult) as [m|]; simpl; [|reflexivity].
  now destruct (truthy m).
Qed.

(** Between two stops with coordinates, every segment that is not
    one of the two drone legs takes the truck time of its distance, whatever
    the types of its ends; the three truck branches of the code agree. *)
Theorem getSegmentTime_truck xgbResult a b typeA typeB :
  is_drone_segment typeA typeB = false ->
  getSegmentTime xgbResult (Some a) (Some b) typeA typeB = Some ((dist a b / 30) * 60).
Proof. apply getSegmentTime_truck_eq. Qed.

(** A drone leg takes the predicted time when the predictor stored a
    non-zero [predicted_time_minutes], or else a non-zero [time]; without
    them it takes the time of its distance at 40 km/h. *)
Theorem getSegmentTime_drone xgbResult a b typeA typeB :
  is_drone_segment typeA typeB = true ->
  getSegmentTime xgbResult (Some a) (Some b) typeA typeB
  = match mlMinutesOf xgbResult with
    | Some m => if truthy m then Some m else Some ((dist a b / 40) * 60)
    | None => Some ((dist a b / 40) * 60)
    end.
Proof. apply getSegmentTime_drone_eq. Qed.

(** The segment time is [NaN] exactly when one of the two stops has
    no coordinates. *)
Theorem getSegmentTime_None_iff xgbResult ptA ptB typeA typeB :
  getSegmentTime xgbResult ptA ptB typeA typeB = None <-> ptA = None \/ ptB = None.
Proof.
  destruct ptA as [a|], ptB as [b|]; try (split; [auto|reflexivity]).
  split; [|intros [|]; discriminate].
  destruct (is_drone_segment typeA typeB) eqn:E.
  - rewrite getSegmentTime_drone_eq by exact E. now repeat case_match.
  - rewrite getSegmentTime_truck_eq by exact E. discriminate.
Qed.

(** With a stored prediction the two drone legs of the stop list
    each show the predicted time, so together twice the drone trip time that
    enters the total trip time. *)
Theorem drone_legs_twice_trip_time xgb m lp d :
  predicted_time_minutes xgb = Some m -> truthy m = true ->
  getSegmentTime (Some xgb) (Some lp) (Some d) PtLaunch PtDroneDelivery = Some m /\
  getSegmentTime (Some xgb) (Some d) (Some lp) PtDroneDelivery PtLanding = Some m /\
  droneTripTimeOf (Some xgb) (dist lp d) = m.
Proof.
  intros Hm Ht. unfold getSegmentTime, droneTripTimeOf, mlMinutesOf. simpl.
  rewrite Hm. simpl. rewrite Ht. auto.
Qed.

(** C40: a prediction stored only under [time] is shown on the two drone
    legs but does not enter the drone trip time, which stays the time of the
    two legs at 40 km/h. *)
Theorem time_field_not_in_trip_time xgb m lp d :
  predicted_time_minutes xgb = None -> time xgb = Some m -> truthy m = true ->
  getSegmentTime (Some xgb) (Some lp) (Some d) PtLaunch PtDroneDelivery = Some m /\
  droneTripTimeOf (Some xgb) (dist lp d) = (2 * dist lp d / 40) * 60.
Proof.
  intros Hp Hm Ht. unfold getSegmentTime, droneTripTimeOf, mlMinutesOf. simpl.
  rewrite Hp, Hm. simpl. rewrite Ht. auto.
Qed.

(** An item the load effect cannot read is no prediction: nothing is
    thrown, and the drone trip time and the time of a drone leg are the
    times at 40 km/h. *)
Theorem loadXgbResult_unreadable result lp d :
  (forall xgb, result <> Some (TextJson (Some xgb))) ->
  loadXgbResult result = None /\
  droneTripTimeOf (loadXgbResult result) (dist lp d) = (2 * dist lp d / 40) * 60 /\
  getSegmentTime (loadXgbResult result) (Some lp) (Some d) PtLaunch PtDroneDelivery
  = Some (dist lp d / 40 * 60).
Proof.
  intros Hr. assert (loadXgbResult result = None) as ->; [|auto].
  destruct result as [[| | |[xgb|]]|]; try reflexivity. now destruct (Hr xgb).
Qed.

Lemma loadXgbResult_Some result xgb :
  loadXgbResult result = Some xgb <-> result = Some (TextJson (Some xgb)).
Proof.
  split; [|now intros ->]. destruct result as [[| | |[x|]]|]; simpl; congruence.
Qed.

End Metrics.

(** ** [formatTimeMinutes] *)

Lemma length_string_app (s1 s2 : string) :
  String.length (s1 +:+ s2) = (String.length s1 + String.length s2)%nat.
Proof.
  induction s1 as [|c s1 IH]; [reflexivity|].
  change (S (String.length (s1 +:+ s2)) = S (String.length s1 + String.length s2)).
  now rewrite IH.
Qed.

Lemma sec_not_NA (x y : string) : x +:+ y +:+ " sec" <> "N/A".
Proof.
  intros E. apply (f_equal String.length) in E.
  rewrite !length_string_app in E. simpl in E. lia.
Qed.

(** Hours, minutes and seconds recompose the number of seconds, and
    minutes and seconds are below 60. *)
Theorem hms_spec (totalSeconds : Z) :
  (0 <= totalSeconds)%Z ->
  let '(hours, mins, seconds) := hms totalSeconds in
  (hours * 3600 + mins * 60 + seconds = totalSeconds)%Z /\
  (0 <= hours)%Z /\ (0 <= mins < 60)%Z /\ (0 <= seconds < 60)%Z.
Proof.
  intros H. unfold hms. repeat split; Z.to_euclidean_division_equations; lia.
Qed.

(** [formatTimeMinutes] prints "N/A" exactly for a missing value and
    for a duration that rounds to a negative number of seconds. *)
Theorem formatTimeMinutes_NA_iff (minutes : option Q) :
  formatTimeMinutes minutes = "N/A" <->
  minutes = None \/ exists q, minutes = Some q /\ (Math_round (q * 60) < 0)%Z.
Proof.
  destruct minutes as [q|]; [|simpl; tauto]. unfold formatTimeMinutes.
  destruct (Math_round (q * 60) <? 0)%Z eqn:E.
  - apply Z.ltb_lt in E. split; [eauto|reflexivity].
  - apply Z.ltb_ge in E. split.
    + destruct (hms (Math_round (q * 60))) as [[h m] sec]. cbv zeta.
      intros HNA. exfalso. revert HNA. apply sec_not_NA.
    + intros [|(q' & [= <-] & Hlt)]; [discriminate|lia].
Qed.

Lemma formatTimeMinutes_examples :
  formatTimeMinutes (Some 50) = "50 min 0 sec" /\
  formatTimeMinutes (Some 90.5) = "1 hr 30 min 30 sec" /\
  formatTimeMinutes (Some (1 # 3)) = "20 sec" /\
  formatTimeMinutes (Some (-1)) = "N/A".
Proof. repeat split; vm_compute; reflexivity. Qed.

(** ** A trip evaluated, with the taxicab distance *)

Definition example_figures : Figures :=
  computeFigures (G := taxicab) (pageOf (G := taxicab) (Some example_plan)) 1 None
    (mkDelivery 2 12 4) (19141550000000 # 250000000000) (10000 # 2500)
    (mkLatLng (500 # 50) (200 # 50)).

Lemma example_figures_run :
  figuresOf (G := taxicab) (Some example_plan) [] None = Shown example_figures.
Proof. vm_compute. reflexivity. Qed.

(** The carbon reduction of a plan can be negative: on this trip the
    hybrid truck distance is longer than the truck-only distance. *)
Example carbonReduction_negative :
  truckOnlyTotalDistance example_figures < hybridTruckDistance example_figures /\
  fig_carbonReduction example_figures < 0.
Proof. split; vm_compute; reflexivity. Qed.

Lemma carbonSaved_bound_witness :
  carbonEmission example_figures < 0 /\ fig_carbonReduction example_figures < 0.
Proof.
  destruct (carbonSaved_bound (G := taxicab) (pageOf (G := taxicab) (Some example_plan)) 1 None
              (mkDelivery 2 12 4) (19141550000000 # 250000000000) (10000 # 2500)
              (mkLatLng (500 # 50) (200 # 50))) as (_ & _ & H).
  destruct H as (Hc & _ & Hr); [vm_compute; reflexivity|].
  split; [exact Hc | apply Hr; vm_compute; reflexivity].
Defined.

(** The truck-only time of a route with legs of 10 and 15 units is
    [(10 + 15) / 30 * 60 = 50] minutes, printed as 50 min 0 sec. *)
Theorem truck_only_time_example :
  truckOnlyTotalTimeOf (G := taxicab) [mkLatLng 0 0; mkLatLng 10 0; mkLatLng 10 15] == 50 /\
  formatTimeMinutes
    (Some (truckOnlyTotalTimeOf (G := taxicab) [mkLatLng 0 0; mkLatLng 10 0; mkLatLng 10 15]))
  = "50 min 0 sec".
Proof. split; vm_compute; reflexivity. Qed.

Lemma timeSaved_nonpositive_witness : timeSaved example_figures <= 0.
Proof.
  apply (timeSaved_nonpositive (G := taxicab) example_plan [] None).
  - simpl. lia.
  - vm_compute. reflexivity.
Defined.

Lemma getSegmentTime_truck_witness :
  getSegmentTime (G := taxicab) None (Some (mkLatLng 0 0)) (Some (mkLatLng 10 0))
    PtLanding PtTruck
  = Some ((dist (H := taxicab) (mkLatLng 0 0) (mkLatLng 10 0) / 30) * 60).
Proof. apply getSegmentTime_truck. reflexivity. Defined.

Definition example_xgb : XgbResult := mkXgbResult (Some 7) None None None None.
Definition example_xgb_time : XgbResult := mkXgbResult None (Some 7) None None None.

Lemma getSegmentTime_drone_witness :
  getSegmentTime (G := taxicab) (Some example_xgb) (Some (mkLatLng 0 0))
    (Some (mkLatLng 10 0)) PtLaunch PtDroneDelivery
  = match mlMinutesOf (Some example_xgb) with
    | Some m =>
        if truthy m then Some m
        else Some ((dist (H := taxicab) (mkLatLng 0 0) (mkLatLng 10 0) / 40) * 60)
    | None => Some ((dist (H := taxicab) (mkLatLng 0 0) (mkLatLng 10 0) / 40) * 60)
    end.
Proof. apply getSegmentTime_drone. reflexivity. Defined.

Lemma drone_legs_twice_trip_time_witness :
  getSegmentTime (G := taxicab) (Some example_xgb) (Some (mkLatLng 0 0))
    (Some (mkLatLng 10 0)) PtLaunch PtDroneDelivery = Some 7 /\
  getSegmentTime (G := taxicab) (Some example_xgb) (Some (mkLatLng 10 0))
    (Some (mkLatLng 0 0)) PtDroneDelivery PtLanding = Some 7 /\
  droneTripTimeOf (Some example_xgb)
    (dist (H := taxicab) (mkLatLng 0 0) (mkLatLng 10 0)) = 7.
Proof. apply drone_legs_twice_trip_time; reflexivity. Defined.

Lemma time_field_not_in_trip_time_witness :
  getSegmentTime (G := taxicab) (Some example_xgb_time) (Some (mkLatLng 0 0))
    (Some (mkLatLng 10 0)) PtLaunch PtDroneDelivery = Some 7 /\
  droneTripTimeOf (Some example_xgb_time)
    (dist (H := taxicab) (mkLatLng 0 0) (mkLatLng 10 0))
  = (2 * dist (H := taxicab) (mkLatLng 0 0) (mkLatLng 10 0) / 40) * 60.
Proof. apply time_field_not_in_trip_time; reflexivity. Defined.

Lemma hms_spec_witness :
  let '(hours, mins, seconds) := hms 5430 in
  (hours * 3600 + mins * 60 + seconds = 5430)%Z /\
  (0 <= hours)%Z /\ (0 <= mins < 60)%Z /\ (0 <= seconds < 60)%Z.
Proof. apply (hms_spec 5430). lia. Defined.

Lemma loadXgbResult_unreadable_witness :
  loadXgbResult (Some TextMalformed) = None /\
  droneTripTimeOf (loadXgbResult (Some TextMalformed))
    (dist (H := taxicab) (mkLatLng 0 0) (mkLatLng 3 4))
  = (2 * dist (H := taxicab) (mkLatLng 0 0) (mkLatLng 3 4) / 40) * 60 /\
  getSegmentTime (G := taxicab) (loadXgbResult (Some TextMalformed))
    (Some (mkLatLng 0 0)) (Some (mkLatLng 3 4)) PtLaunch PtDroneDelivery
  = Some (dist (H := taxicab) (mkLatLng 0 0) (mkLatLng 3 4) / 40 * 60).
Proof. apply (loadXgbResult_unreadable (G := taxicab)). discriminate. Defined.
