(* ===== verification/Wind.v ===== *)
(** * Wind: the wind speed on the drone leg

    The wind effect of [PathPlanning.jsx]: when the page has a launch point
    and a drone delivery it asks the weather service for the wind at the
    middle of the drone leg, shows "Loading..." while the request is out,
    then the speed or an error.  The request is asynchronous: its start and
    its end are two steps, and a second request can start before the first
    has ended, since nothing cancels a request.  The effect runs again
    when its dependency, the launch point and the delivery, has changed
    ([windDeps], [same_deps]).

    The response of the service is a parameter of the end step: the request
    failed, or it returned [data] with or without a [wind.speed].  The
    effect is an instance of [Requests.Fetch], which gives its machine and
    the theorem that the line stops showing "Loading...". *)

From stdpp Require Import strings relations.
From S2P Require Import Prelude JsNum Geodesy Fleet Requests.

(** ** Data *)

(** The three state variables of the effect and the key [windSpeed] of
    [localStorage]. *)
Record WindState : Type := mkWindState {
  windSpeed : option Q;
  windLoading : bool;
  windError : option string;
  storedWind : option Q
}.

(** What [await fetch(url)] and [await res.json()] gave: an exception, or
    the value of [data.wind.speed] ([None] when [data.wind] or the speed is
    missing). *)
Inductive WindResponse : Type :=
| WindFailed
| WindData (speed : option Q).

(** What the wind line of the sidebar shows. *)
Record WindLine : Type := mkWindLine {
  wl_loading : bool;
  wl_error : option string;
  wl_speed : option Q
}.

(** ** The effect *)

Definition wind_init (stored : option Q) : WindState :=
  mkWindState None false None stored.

(** The point of the request, the middle of the drone leg; [None] when the
    guard [launchPoint && droneDelivery] fails and nothing is asked. *)
Definition windQuery (launchPoint : option LatLng) (droneDelivery : option Delivery)
  : option LatLng :=
  lp ← launchPoint;
  d ← droneDelivery;
  Some (mkLatLng ((lat lp + latitude d) / 2) ((lng lp + longitude d) / 2)).

(** The dependency of the effect,
    [launchPoint && droneDelivery && `${launchPoint[0]},...`]: the text of
    the launch point and of the delivery, or a value that is no text,
    here [None], when one of the two is missing. *)
Definition windDeps (launchPoint : option LatLng) (droneDelivery : option Delivery)
  : option (LatLng * LatLng) :=
  lp ← launchPoint;
  d ← droneDelivery;
  Some (lp, mkLatLng (latitude d) (longitude d)).

(** Two values of the dependency between which the effect does not run
    again. *)
Definition same_deps (x y : option (LatLng * LatLng)) : bool :=
  match x, y with
  | Some (p, d), Some (p', d') => same_point p p' && same_point d d'
  | None, None => true
  | _, _ => false
  end.

(** [setWindLoading(true); setWindError(null); setWindSpeed(null)]. *)
Definition fetchWind_start (w : WindState) : WindState :=
  mkWindState None true None (storedWind w).

(** The rest of [fetchWind], from the response on: the [try] body, the
    [catch] and the [finally]. *)
Definition fetchWind_end (r : WindResponse) (w : WindState) : WindState :=
  match r with
  | WindData speed =>
      let wind := if truthy_opt speed then speed else None in
      mkWindState wind false (windError w)
        (match wind with Some s => Some s | None => storedWind w end)
  | WindFailed =>
      mkWindState (windSpeed w) false (Some "Failed to fetch wind speed") (storedWind w)
  end.

(** The line under the table of locations. *)
Definition windLine (w : WindState) : WindLine :=
  mkWindLine (windLoading w) (windError w)
    (match windSpeed w with
     | Some s =>
         if negb (windLoading w) && negb (bool_decide (is_Some (windError w)))
         then Some s else None
     | None => None
     end).

(** ** Requests in flight *)

(** The state of the effect with the number of requests that have started
    and not ended. *)
Definition Flight : Type := WindState * nat.

#[export] Instance wind_fetch : Fetch WindState WindResponse := {|
  fetch_start := fetchWind_start;
  fetch_end := fetchWind_end;
  fetch_loading := windLoading;
  fetch_error w := is_Some (windError w)
|}.

(** A request starts when the effect has a point to ask about. *)
Definition wind_step (query : option LatLng) : relation Flight :=
  flight_step (is_Some query).

Definition wind_reachable (stored : option Q) : Flight -> Prop :=
  flights (wind_init stored).

(** The rules of the machine, for the wind effect. *)
Lemma same_deps_refl x : same_deps x x = true.
Proof. destruct x as [[p d]|]; [|reflexivity]. simpl. now rewrite !same_point_refl. Qed.

(** The effect has a point to ask about exactly when its dependency is a
    text. *)
Lemma windDeps_is_Some launchPoint droneDelivery :
  is_Some (windDeps launchPoint droneDelivery)
  <-> is_Some (windQuery launchPoint droneDelivery).
Proof. destruct launchPoint, droneDelivery; simpl; split; intros [? [=]]; eauto. Qed.

Lemma wind_start query w n :
  is_Some query -> wind_step query (w, n) (fetchWind_start w, S n).
Proof. apply (flight_start (F := wind_fetch)). Qed.

Lemma wind_end query r w n : wind_step query (w, S n) (fetchWind_end r w, n).
Proof. apply (flight_end (F := wind_fetch)). Qed.

Lemma wind_reachable_init stored : wind_reachable stored (wind_init stored, 0%nat).
Proof. apply flights_init. Qed.

Lemma wind_reachable_step stored query s s' :
  wind_reachable stored s -> wind_step query s s' -> wind_reachable stored s'.
Proof. apply flights_step. Qed.

Lemma wind_reachable_start stored w n :
  wind_reachable stored (w, n) -> wind_reachable stored (fetchWind_start w, S n).
Proof. intros Hw. now apply (wind_reachable_step _ (Some (mkLatLng 0 0)) _ _ Hw), wind_start. Qed.

Lemma wind_reachable_end stored r w n :
  wind_reachable stored (w, S n) -> wind_reachable stored (fetchWind_end r w, n).
Proof. intros Hw. apply (wind_reachable_step _ None _ _ Hw), wind_end. Qed.

(** ** The invariant *)

#[export] Instance wind_fetch_laws : FetchLaws wind_fetch.
Proof.
  split; [reflexivity | intros s [e He]; discriminate | now intros [|speed] s].
Qed.

#[export] Instance WindResponse_inhabited : Inhabited WindResponse := populate WindFailed.

(** A speed held by the state or written to the store is not zero. *)
Record wind_inv (stored : option Q) (s : Flight) : Prop := mkWindInv {
  inv_speed : forall v, windSpeed s.1 = Some v -> ~ v == 0;
  inv_stored : storedWind s.1 = stored \/ exists v, storedWind s.1 = Some v /\ ~ v == 0
}.

Lemma truthy_opt_Some (x : option Q) v :
  (if truthy_opt x then x else None) = Some v -> x = Some v /\ ~ v == 0.
Proof.
  destruct x as [q|]; simpl; [|discriminate].
  destruct (truthy q) eqn:E; [|discriminate].
  intros [= <-]. split; [reflexivity | now apply truthy_true].
Qed.

Lemma wind_inv_init stored : wind_inv stored (wind_init stored, 0%nat).
Proof. split; simpl; [discriminate | auto]. Qed.

Lemma wind_inv_step stored enabled s s' :
  wind_inv stored s -> flight_step enabled s s' -> wind_inv stored s'.
Proof.
  intros [Hs Hst] Hstep. destruct Hstep as [w n _|r w n]; simpl in *.
  - split; simpl; [discriminate | exact Hst].
  - destruct r as [|speed]; split; simpl; try discriminate; auto.
    + intros v Hv%truthy_opt_Some. tauto.
    + destruct (if truthy_opt speed then speed else None) as [v|] eqn:E; [|exact Hst].
      apply truthy_opt_Some in E. right. exists v. tauto.
Qed.

Lemma wind_reachable_inv stored s : wind_reachable stored s -> wind_inv stored s.
Proof. induction 1; eauto using wind_inv_init, wind_inv_step. Qed.

(** While the line shows "Loading..." a request is out and no error is
    set. *)
Lemma wind_reachable_loading stored s :
  wind_reachable stored s -> windLoading s.1 = true ->
  windError s.1 = None /\ (0 < s.2)%nat.
Proof.
  intros Hs%flights_inv Hl; [|reflexivity]. destruct (Hs Hl) as [He Hn].
  split; [now apply eq_None_not_Some | exact Hn].
Qed.

(** Case analysis on the fields of a line. *)
Ltac wind_cases :=
  repeat split; intros; simplify_eq; eauto;
  try match goal with H : is_Some None |- _ => destruct H; discriminate end;
  try match goal with H : ~ is_Some (Some _) |- _ => destruct H; eauto end.

(** C34: the three texts of the line exclude each other in every state the
    effect can reach, whatever the order in which requests start and end;
    a speed on the line is not zero. *)
Theorem windLine_exclusive stored s :
  wind_reachable stored s ->
  let l := windLine s.1 in
  (wl_loading l = true -> wl_error l = None /\ wl_speed l = None) /\
  (is_Some (wl_error l) -> wl_loading l = false /\ wl_speed l = None) /\
  (forall v, wl_speed l = Some v ->
     wl_loading l = false /\ wl_error l = None /\ ~ v == 0).
Proof.
  intros Hr. pose proof (wind_reachable_loading _ _ Hr) as Hl.
  apply wind_reachable_inv in Hr as [Hs _]. unfold windLine.
  destruct s as [[speed loading err stored'] n].
  cbn [fst snd windSpeed windLoading windError wl_loading wl_error wl_speed] in *.
  destruct loading; cbn [negb andb].
  - destruct (Hl eq_refl) as [-> _]. destruct speed; wind_cases.
  - destruct speed as [v|], err as [e|]; try case_bool_decide; wind_cases.
Qed.

(** The line stops showing "Loading...": once the page asks no more,
    the answers that are left are finitely many, they can arrive whatever
    they are, the oldest first, and after the last of them the line does
    not show "Loading...". *)
Theorem wind_loading_ends stored s :
  wind_reachable stored s ->
  sn (wind_step None) s /\
  (forall rs, length rs = s.2 ->
     rtc (wind_step None) s (foldl (fun w r => fetchWind_end r w) s.1 rs, 0%nat)) /\
  (forall s', rtc (wind_step None) s s' -> nf (wind_step None) s' ->
     wl_loading (windLine s'.1) = false).
Proof.
  intros Hs. unfold windLine. simpl.
  exact (flights_settle (F := wind_fetch) _ (wind_init stored) s is_Some_None eq_refl Hs).
Qed.

(** A measured speed of zero is read as a missing speed: the line shows
    nothing and the store keeps its old value. *)
Theorem fetchWind_end_calm w :
  fetchWind_end (WindData (Some 0)) (fetchWind_start w)
  = mkWindState None false None (storedWind w).
Proof. reflexivity. Qed.

(** Two requests that overlap, the first failing and the second
    succeeding: the state holds the speed and the line shows the error. *)
Example wind_overlap :
  let w := fetchWind_end (WindData (Some 8))
             (fetchWind_end WindFailed (fetchWind_start (fetchWind_start (wind_init None)))) in
  wind_reachable None (w, 0%nat) /\ windSpeed w = Some 8 /\
  windLine w = mkWindLine false (Some "Failed to fetch wind speed") None.
Proof.
  cbv zeta. split; [|split; reflexivity].
  eapply (wind_reachable_step _ (Some (mkLatLng 0 0))); [|apply wind_end].
  eapply (wind_reachable_step _ (Some (mkLatLng 0 0))); [|apply wind_end].
  eapply (wind_reachable_step _ (Some (mkLatLng 0 0))); [|apply wind_start; eauto].
  eapply (wind_reachable_step _ (Some (mkLatLng 0 0))); [|apply wind_start; eauto].
  apply wind_reachable_init.
Qed.

(** ** A run *)

Definition example_wind : Flight :=
  (fetchWind_end (WindData (Some 4)) (fetchWind_start (wind_init None)), 0%nat).

Lemma example_wind_reachable : wind_reachable None example_wind.
Proof.
  eapply (wind_reachable_step _ (Some (mkLatLng 0 0))); [|apply wind_end].
  eapply (wind_reachable_step _ (Some (mkLatLng 0 0))); [|apply wind_start; eauto].
  apply wind_reachable_init.
Qed.

Lemma windLine_exclusive_witness :
  let l := windLine example_wind.1 in
  (wl_loading l = true -> wl_error l = None /\ wl_speed l = None) /\
  (is_Some (wl_error l) -> wl_loading l = false /\ wl_speed l = None) /\
  (forall v, wl_speed l = Some v ->
     wl_loading l = false /\ wl_error l = None /\ ~ v == 0).
Proof. exact (windLine_exclusive None example_wind example_wind_reachable). Defined.

Lemma wind_loading_ends_witness :
  sn (wind_step None) example_wind /\
  (forall rs, length rs = example_wind.2 ->
     rtc (wind_step None) example_wind
       (foldl (fun w r => fetchWind_end r w) example_wind.1 rs, 0%nat)) /\
  (forall s', rtc (wind_step None) example_wind s' -> nf (wind_step None) s' ->
     wl_loading (windLine s'.1) = false).
Proof. exact (wind_loading_ends None example_wind example_wind_reachable). Defined.
