(* ===== verification/Routing.v ===== *)
(** * Routing: the road route of the truck

    The route effect of [PathPlanning.jsx]: when the order of the truck has
    at least two stops and the Mapbox token is set, [fetchRoute] asks the
    directions service for the road through the stops, shows the polyline
    of the first route of the answer, or an error and no polyline.  The
    page then draws the straight lines of the order ([Composer.pathOf]).

    The request is asynchronous and nothing cancels it: the part of
    [fetchRoute] before its [await] and the part after it are the two
    operations of an instance of [Requests.Fetch].  The answer of the
    service is a parameter: the request failed, or it gave [data] with or
    without [routes], each route with or without the coordinates of its
    geometry.  The token is a constant of the build, the field of [Env]. *)

From stdpp Require Import strings relations.
From S2P Require Import Prelude JsNum Geodesy Requests.

(** ** Data *)

(** [import.meta.env]: the variables of the build. *)
Class Env : Type := { MAPBOX_TOKEN : option string }.

(** The three state variables the effect writes. *)
Record RouteState : Type := mkRouteState {
  truckPolyline : list LatLng;
  loadingRoute : bool;
  routeError : option string
}.

(** A waypoint of the URL and a position of GeoJSON: longitude first. *)
Definition LngLat : Type := Q * Q.

(** The URL of the request: its waypoints and its token. *)
Record DirectionsRequest : Type := mkRequest {
  rq_waypoints : list LngLat;
  rq_token : string
}.

(** What [await axios.get(url)] gave: an exception, or [res.data] with its
    [routes] ([None] when the property is missing), each route with the
    coordinates of its geometry ([None] when they cannot be read). *)
Inductive RouteResponse : Type :=
| RouteFailed
| RouteData (routes : option (list (option (list LngLat)))).

(** [useState([])], [useState(false)], [useState(null)]. *)
Definition idle : RouteState := mkRouteState [] false None.

(** ** [fetchRoute] *)

(** The waypoints [lng,lat] of the stops, joined with [;] in the URL. *)
Definition coordsStr (optimizedNodeOrder : list LatLng) : list LngLat :=
  (fun p => (lng p, lat p)) <$> optimizedNodeOrder.

(** [geometry.map(([lng, lat]) => [lat, lng])]. *)
Definition polylineOf (geometry : list LngLat) : list LatLng :=
  (fun c => mkLatLng c.2 c.1) <$> geometry.

(** The [try] body after the [await]: the polyline of the first route, or
    [None] when it throws. *)
Definition geometryOf (r : RouteResponse) : option (list LatLng) :=
  match r with
  | RouteData (Some (Some geometry :: _)) => Some (polylineOf geometry)
  | _ => None
  end.

(** [setLoadingRoute(true); setRouteError(null)]. *)
Definition fetchRoute_start (s : RouteState) : RouteState :=
  mkRouteState (truckPolyline s) true None.

(** The [catch], then [setLoadingRoute(false)]. *)
Definition fetchRoute_catch (s : RouteState) : RouteState :=
  mkRouteState [] false
    (Some "Failed to fetch truck route. Showing straight lines instead.").

(** [fetchRoute] from the answer on. *)
Definition fetchRoute_end (r : RouteResponse) (s : RouteState) : RouteState :=
  match geometryOf r with
  | Some polyline => mkRouteState polyline false (routeError s)
  | None => fetchRoute_catch s
  end.

Section Routing.
Context {env : Env}.

(** The request [fetchRoute] sends; [None] when it throws "Mapbox token
    missing" instead. *)
Definition requestOf (optimizedNodeOrder : list LatLng) : option DirectionsRequest :=
  token ← nonempty MAPBOX_TOKEN;
  Some (mkRequest (coordsStr optimizedNodeOrder) token).

(** A call of [fetchRoute] up to its [await]: the new state and the
    request that is out.  Without a token the call runs through its
    [catch] and ends at once. *)
Definition fetchRoute_call (optimizedNodeOrder : list LatLng) (s : RouteState)
  : RouteState * option DirectionsRequest :=
  match requestOf optimizedNodeOrder with
  | Some rq => (fetchRoute_start s, Some rq)
  | None => (fetchRoute_catch (fetchRoute_start s), None)
  end.

(** [optimizedNodeOrder.length > 1 && MAPBOX_TOKEN]. *)
Definition routeGuard (optimizedNodeOrder : list LatLng) : bool :=
  (1 <? length optimizedNodeOrder)%nat && bool_decide (is_Some (nonempty MAPBOX_TOKEN)).

(** The body of the effect. *)
Definition routeEffect (optimizedNodeOrder : list LatLng) (s : RouteState)
  : RouteState * option DirectionsRequest :=
  if routeGuard optimizedNodeOrder then fetchRoute_call optimizedNodeOrder s else (s, None).

End Routing.

(** ** The machine of the effect *)

#[export] Instance route_fetch : Fetch RouteState RouteResponse := {|
  fetch_start := fetchRoute_start;
  fetch_end := fetchRoute_end;
  fetch_loading := loadingRoute;
  fetch_error s := is_Some (routeError s)
|}.

#[export] Instance RouteResponse_inhabited : Inhabited RouteResponse :=
  populate RouteFailed.

(** The state of the effect with the number of requests that are out. *)
Definition Routes : Type := Pending RouteState.

Definition route_step {env : Env} (optimizedNodeOrder : list LatLng) : relation Routes :=
  flight_step (routeGuard optimizedNodeOrder = true).

Definition route_reachable : Routes -> Prop := flights idle.

(** The effect when a request starts only after the one before has
    ended. *)
Definition sequential {env : Env} (optimizedNodeOrder : list LatLng) : relation Routes :=
  fun x y => flight_step (routeGuard optimizedNodeOrder = true /\ x.2 = 0%nat) x y.

Lemma route_reachable_start s n :
  route_reachable (s, n) -> route_reachable (fetchRoute_start s, S n).
Proof.
  intros Hs. eapply flights_step; [exact Hs|].
  now apply (flight_start (F := route_fetch) True).
Qed.

Lemma route_reachable_end r s n :
  route_reachable (s, S n) -> route_reachable (fetchRoute_end r s, n).
Proof.
  intros Hs. eapply flights_step; [exact Hs|].
  apply (flight_end (F := route_fetch) True).
Qed.

(** ** The conversions *)

Lemma polylineOf_coordsStr order : polylineOf (coordsStr order) = order.
Proof.
  unfold polylineOf, coordsStr. rewrite <- list_fmap_compose.
  rewrite <- (list_fmap_id order) at 2. apply list_fmap_ext. now intros _ [la lo] _.
Qed.

Lemma coordsStr_polylineOf geometry : coordsStr (polylineOf geometry) = geometry.
Proof.
  unfold polylineOf, coordsStr. rewrite <- list_fmap_compose.
  rewrite <- (list_fmap_id geometry) at 2. apply list_fmap_ext. now intros _ [lo la] _.
Qed.

(** C36: the waypoints of the request and the positions of the answer are
    read in the same order, longitude first: a service that answers with
    the waypoints it was sent gives the stops of the order as polyline, one
    position for each stop, and a polyline sent back as waypoints is the
    geometry it came from. *)
Theorem route_coordinates_roundtrip order geometry :
  geometryOf (RouteData (Some [Some (coordsStr order)])) = Some order /\
  length (coordsStr order) = length order /\
  coordsStr (polylineOf geometry) = geometry.
Proof.
  split_and!; [simpl; f_equal; apply polylineOf_coordsStr | apply length_fmap
              | apply coordsStr_polylineOf].
Qed.

(** ** The outcomes of a request *)

Lemma geometryOf_Some r polyline :
  geometryOf r = Some polyline <->
  exists geometry rest, r = RouteData (Some (Some geometry :: rest)) /\
    polyline = polylineOf geometry.
Proof.
  split; [|now intros (g & rest & -> & ->)].
  destruct r as [|[[|[g|] rest]|]]; simpl; try discriminate. intros [= <-]. eauto.
Qed.

(** What the end of a request leaves: the polyline of the first route
    and the error as it was, or no polyline and the message. *)
Lemma fetchRoute_end_cases r s :
  (exists geometry rest, r = RouteData (Some (Some geometry :: rest)) /\
     fetchRoute_end r s = mkRouteState (polylineOf geometry) false (routeError s)) \/
  (geometryOf r = None /\ fetchRoute_end r s = fetchRoute_catch s).
Proof.
  unfold fetchRoute_end. destruct (geometryOf r) as [p|] eqn:Er; [left|right; auto].
  apply geometryOf_Some in Er as (g & rest & -> & ->). eauto.
Qed.

#[export] Instance route_fetch_laws : FetchLaws route_fetch.
Proof.
  split; [reflexivity | intros s [e He]; discriminate|].
  intros r s. simpl. unfold fetchRoute_end. now destruct (geometryOf r).
Qed.

Section RoutingFacts.
Context {env : Env}.

(** The effect never reaches the check of the token inside [fetchRoute]:
    its guard has already made it. *)
Lemma routeEffect_guard order s :
  routeEffect order s
  = if routeGuard order then (fetchRoute_start s, requestOf order) else (s, None).
Proof.
  unfold routeEffect, routeGuard, fetchRoute_call, requestOf.
  destruct (1 <? length order)%nat; [|reflexivity]. simpl.
  case_bool_decide as Ht; [|reflexivity]. now destruct Ht as [tok ->].
Qed.

(** What a run of the effect does. *)
Lemma routeEffect_cases order s :
  (routeGuard order = true /\ exists q, routeEffect order s = (fetchRoute_start s, Some q)) \/
  (routeGuard order = false /\ routeEffect order s = (s, None)).
Proof.
  rewrite routeEffect_guard. destruct (routeGuard order) eqn:Hg; [left|now right].
  split; [reflexivity|]. unfold routeGuard in Hg.
  apply andb_true_iff in Hg as [_ [tok Htok]%bool_decide_eq_true].
  unfold requestOf. rewrite Htok. eauto.
Qed.

Lemma routeGuard_true order :
  routeGuard order = true <->
  (1 < length order)%nat /\ is_Some (nonempty MAPBOX_TOKEN).
Proof.
  unfold routeGuard. rewrite andb_true_iff, Nat.ltb_lt, bool_decide_eq_true. tauto.
Qed.

End RoutingFacts.

(** ** The states of the effect *)

(** The message of the [catch] is the only error. *)
Definition route_inv (s : Routes) : Prop :=
  forall e, routeError s.1 = Some e ->
    e = "Failed to fetch truck route. Showing straight lines instead."%string.

Lemma route_inv_step enabled s s' : route_inv s -> flight_step enabled s s' -> route_inv s'.
Proof.
  intros Hs Hstep. destruct Hstep as [s0 n _|r s0 n]; unfold route_inv in *; simpl in *;
    [discriminate|].
  destruct (fetchRoute_end_cases r s0) as [(g & rest & _ & ->)|[_ ->]]; simpl; [exact Hs|].
  now intros e [= <-].
Qed.

Lemma route_reachable_inv s : route_reachable s -> route_inv s.
Proof. induction 1; [discriminate | eauto using route_inv_step]. Qed.

(** While the route is loading a request is out and no error is set. *)
Lemma route_reachable_loading s :
  route_reachable s -> loadingRoute s.1 = true ->
  routeError s.1 = None /\ (0 < s.2)%nat.
Proof.
  intros Hs%flights_inv Hl; [|reflexivity]. destruct (Hs Hl) as [He Hn].
  split; [now apply eq_None_not_Some | exact Hn].
Qed.

(** Of requests that do not overlap at most one is out, with the flag set
    and no error, and an error is shown over no polyline. *)
Record sequential_inv (s : Routes) : Prop := mkSequentialInv {
  seq_pending : (s.2 <= 1)%nat;
  seq_out : s.2 = 1%nat -> loadingRoute s.1 = true /\ routeError s.1 = None;
  seq_error : is_Some (routeError s.1) -> truckPolyline s.1 = []
}.

Lemma sequential_inv_step {env : Env} order s s' :
  sequential_inv s -> sequential order s s' -> sequential_inv s'.
Proof.
  intros [Hn Hout Herr] Hstep. unfold sequential in Hstep.
  inversion Hstep as [s0 n [_ Hz]|r s0 n]; subst; simpl in *.
  - subst n. split; simpl; [lia | auto | now intros [e He]].
  - assert (n = 0%nat) as -> by lia. destruct (Hout eq_refl) as [_ Hnone].
    split; simpl; [lia | discriminate |].
    destruct (fetchRoute_end_cases r s0) as [(g & rest & _ & ->)|[_ ->]]; simpl; [|done].
    rewrite Hnone. now intros [e He].
Qed.

Lemma sequential_inv_rtc {env : Env} order s :
  rtc (sequential order) (idle, 0%nat) s -> sequential_inv s.
Proof.
  revert s. apply rtc_ind_r; [|eauto using sequential_inv_step].
  split; simpl; [lia | discriminate | now intros [e He]].
Qed.

Lemma sequential_reachable {env : Env} order s :
  rtc (sequential order) (idle, 0%nat) s -> route_reachable s.
Proof.
  intros Hrun. apply (flights_rtc idle True (idle, 0%nat)); [constructor|].
  eapply rtc_subrel; [|exact Hrun]. intros x y. now apply flight_step_impl.
Qed.

(** C22: the message that straight lines are shown is true of requests
    that do not overlap: whenever the page shows it, no road polyline is
    held and the route is not loading. *)
Theorem route_error_straight_lines {env : Env} order s :
  rtc (sequential order) (idle, 0%nat) s ->
  is_Some (routeError s.1) -> truckPolyline s.1 = [] /\ loadingRoute s.1 = false.
Proof.
  intros Hrun He. pose proof (sequential_inv_rtc _ _ Hrun) as [Hn Hout Herr].
  split; [auto|]. destruct (loadingRoute s.1) eqn:El; [|reflexivity].
  destruct (route_reachable_loading s (sequential_reachable _ _ Hrun) El) as [Hnone _].
  rewrite Hnone in He. now destruct He.
Qed.

(** Every request for the route ends: once the guard of the effect fails
    the answers left are finitely many, they can arrive whatever they
    are, and after the last of them the route is not loading. *)
Theorem route_loading_ends {env : Env} order s :
  routeGuard order = false -> route_reachable s ->
  sn (route_step order) s /\
  (forall rs, length rs = s.2 ->
     rtc (route_step order) s (foldl (fun s r => fetchRoute_end r s) s.1 rs, 0%nat)) /\
  (forall s', rtc (route_step order) s s' -> nf (route_step order) s' ->
     loadingRoute s'.1 = false).
Proof.
  intros Hg Hs.
  apply (flights_settle (F := route_fetch) _ idle s); [congruence | reflexivity | exact Hs].
Qed.

(** ** Runs *)

(** A token of a build, for the runs. *)
Definition example_env : Env := {| MAPBOX_TOKEN := Some "pk.token" |}.

(** Two requests that overlap, the first failing and the second
    succeeding: the state holds the road polyline and the message that
    straight lines are shown. *)
Example route_overlap :
  let road := [(77.5946, 12.9716); (78, 13)] in
  let s := fetchRoute_end (RouteData (Some [Some road]))
             (fetchRoute_end RouteFailed (fetchRoute_start (fetchRoute_start idle))) in
  route_reachable (s, 0%nat) /\
  truckPolyline s = [mkLatLng 12.9716 77.5946; mkLatLng 13 78] /\
  routeError s = Some "Failed to fetch truck route. Showing straight lines instead.".
Proof.
  cbv zeta. split; [|split; reflexivity].
  do 2 apply route_reachable_end. do 2 apply route_reachable_start. constructor.
Qed.

Definition example_order : list LatLng := [mkLatLng 12.9716 77.5946; mkLatLng 13 78].

(** One request that fails. *)
Definition example_failed : Routes :=
  (fetchRoute_end RouteFailed (fetchRoute_start idle), 0%nat).

Lemma example_failed_sequential :
  rtc (sequential (env := example_env) example_order) (idle, 0%nat) example_failed.
Proof.
  eapply rtc_l; [apply (flight_start (F := route_fetch)); split; reflexivity|].
  eapply rtc_l; [apply (flight_end (F := route_fetch) _ RouteFailed)|]. reflexivity.
Qed.

Lemma route_error_straight_lines_witness :
  truckPolyline example_failed.1 = [] /\ loadingRoute example_failed.1 = false.
Proof.
  apply (route_error_straight_lines (env := example_env) example_order example_failed).
  - exact example_failed_sequential.
  - eexists. reflexivity.
Defined.
