(* ===== verification/View.v ===== *)
(** * View: what the plan page draws

    After its figures are computed the render of [PathPlanning.jsx] returns
    the page.  The sidebar has the two headline figures and the total time,
    the panel of the time prediction, the list of stops with the time under
    each arrow, the table of locations and the wind line; the map has one
    marker for every distinct position of a stop, the polyline of the truck,
    the polyline of the drone and the two time annotations on it.

    The file models the data each element is drawn from, in the order of
    the JSX; styles other than the colour of a stop, the tile layers and
    the controls of the map are left out.  A number printed with [toFixed]
    is the number its string denotes, as in [JsNum]; the joined string of
    the letters of a marker is the list of the steps it stands for. *)

From stdpp Require Import strings sorting.
From S2P Require Import Prelude JsNum Geodesy Fleet Sequencer Locator Composer Metrics Wind.

(** ** Data *)

(** The cell under a stop of the list: nothing after the last stop, an
    empty cell for a time that is [NaN], else the printed time and whether
    it is marked as a prediction. *)
Inductive TimeCell : Type :=
| NoArrow
| Blank
| TimeText (text : string) (isMLPrediction : bool).

(** A stop of the list "Traversal Order". *)
Record StepRow : Type := mkStepRow {
  step_label : N;
  step_colour : string;
  step_message : string;
  step_time : TimeCell
}.

(** A row of the table "Locations"; [loc_coords] is [None] for "N/A". *)
Record LocationRow : Type := mkLocationRow {
  loc_label : N;
  loc_type : PointType;
  loc_colour : string;
  loc_coords : option LatLng
}.

(** The panel "Drone Delivery Prediction"; [ml_time] is [None] for "N/A". *)
Record MlPanel : Type := mkMlPanel {
  ml_location : LatLng;
  ml_droneId : string;
  ml_time : option Q
}.

(** A marker of the map: its key, its position, the colour of its icon,
    the steps at its position, and the popup (label, type, the coordinates
    with five decimals, the drone of a drone delivery). *)
Record MarkerView : Type := mkMarker {
  m_key : nat;
  m_position : LatLng;
  m_colour : string;
  m_steps : list nat;
  m_label : N;
  m_type : PointType;
  m_popup : Q * Q;
  m_droneId : option string
}.

(** A time annotation on the polyline of the drone. *)
Record Annotation : Type := mkAnnotation {
  an_position : LatLng;
  an_minutes : Q
}.

Record View : Type := mkView {
  v_carbonReduction : Q;
  v_carbonEmission : Q;
  v_totalTime : string;
  v_totalTimeColour : string;
  v_mlPanel : option MlPanel;
  v_noMlPrediction : bool;
  v_steps : list StepRow;
  v_locations : list LocationRow;
  v_wind : WindLine;
  v_routeError : option string;
  v_center : option LatLng;
  v_markers : list MarkerView;
  v_truckLine : option (list LatLng);
  v_droneLine : option (list LatLng);
  v_annotations : list Annotation
}.

(** ** Colours and letters *)

(** The colour chain [pt.type === "HQ" ? ... : "#1976d2"]. *)
Definition colourOf (t : PointType) : string :=
  match t with
  | PtHQ => "#1976d2"
  | PtTruck => "#388e3c"
  | PtLaunch => "#ffa000"
  | PtDroneDelivery => "#d32f2f"
  | PtLanding => "#7b1fa2"
  end.

(** [sameCoordIndices.map(i => String.fromCharCode(65 + i))], the letters
    the marker joins with a comma. *)
Definition stepLetters (m : MarkerView) : list N :=
  (fun i => fromCharCode (65 + N.of_nat i)) <$> m_steps m.

(** ** The sidebar *)

(** [xgbResult && xgbResult.predicted_time_minutes]. *)
Definition hasPrediction (xgbResult : option XgbResult) : bool :=
  match xgbResult with
  | Some xgb => truthy_opt (predicted_time_minutes xgb)
  | None => false
  end.

(** [xgbResult && xgbResult.time ? "#d32f2f" : "#1976d2"]. *)
Definition totalTimeColour (xgbResult : option XgbResult) : string :=
  match xgbResult with
  | Some xgb => if truthy_opt (time xgb) then "#d32f2f" else "#1976d2"
  | None => "#1976d2"
  end.

(** The panel, shown for [mlPredictedDelivery && xgbResult]. *)
Definition mlPanelOf (mlPredictedDelivery : option Delivery)
    (xgbResult : option XgbResult) : option MlPanel :=
  d ← mlPredictedDelivery;
  xgb ← xgbResult;
  Some (mkMlPanel (mkLatLng (latitude d) (longitude d))
          (match nonempty (drone_drone_id xgb) with
           | Some s => s
           | None => default "N/A" (nonempty (xgb_droneId xgb))
           end)
          (if truthy_opt (predicted_time_minutes xgb)
           then toFixed 2 <$> predicted_time_minutes xgb
           else if truthy_opt (time xgb) then toFixed 2 <$> time xgb else None)).

Section View.
Context {G : Geodesy}.

(** The cell under stop [idx]. *)
Definition timeCell (xgbResult : option XgbResult) (pts : list TraversalPoint)
    (idx : nat) : TimeCell :=
  if (idx <? length pts - 1)%nat then
    match pts !! idx, pts !! (idx + 1)%nat with
    | Some a, Some b =>
        match getSegmentTime xgbResult (pt_coords a) (pt_coords b) (type a) (type b) with
        | Some t =>
            TimeText (formatTimeMinutes (Some t))
              (is_drone_segment (type a) (type b) && hasPrediction xgbResult)
        | None => Blank
        end
    | _, _ => NoArrow
    end
  else NoArrow.

(** [traversalPoints.map((pt, idx) => ...)] of the list of stops. *)
Definition stepRows (xgbResult : option XgbResult) (pts : list TraversalPoint)
  : list StepRow :=
  imap (fun idx pt =>
          mkStepRow (label pt) (colourOf (type pt))
            (getTypeDisplayMessage (typeName (type pt))) (timeCell xgbResult pts idx))
    pts.

(** The table of locations.  Every [coords] is an array of two elements,
    so the filter of the code keeps every stop. *)
Definition locationRows (pts : list TraversalPoint) : list LocationRow :=
  (fun pt => mkLocationRow (label pt) (type pt) (colourOf (type pt)) (pt_coords pt)) <$> pts.

(** ** The markers *)

(** [p.coords[0] === pt.coords[0] && p.coords[1] === pt.coords[1]]: the
    same numbers, or [null] on both sides. *)
Definition sameCoords (a b : option LatLng) : bool :=
  match a, b with
  | Some p, Some q => Qeq_bool (lat p) (lat q) && Qeq_bool (lng p) (lng q)
  | None, None => true
  | _, _ => false
  end.

(** The indices of the stops at the position of [pt]. *)
Definition sameCoordIndices (pts : list TraversalPoint) (pt : TraversalPoint) : list nat :=
  omap id (imap (fun i p => if sameCoords (pt_coords p) (pt_coords pt) then Some i else None)
             pts).

(** The callback of [traversalPoints.map] for the markers: [Some None] is
    [return null], [None] the [TypeError] of [pt.coords[0].toFixed(5)] on a
    missing coordinate. *)
Definition markerOf (trip : Trip) (pts : list TraversalPoint)
    (idx : nat) (pt : TraversalPoint) : option (option MarkerView) :=
  let same := sameCoordIndices pts pt in
  if decide (same !! 0%nat = Some idx) then
    c ← pt_coords pt;
    Some (Some (mkMarker idx c (colourOf (type pt)) same (label pt) (type pt)
                  (toFixed 5 (lat c), toFixed 5 (lng c))
                  (if decide (type pt = PtDroneDelivery)
                   then droneId <$> Fleet.drone trip else None)))
  else Some None.

Definition markersOf (trip : Trip) (pts : list TraversalPoint) : option (list MarkerView) :=
  omap id <$> mapM id (imap (markerOf trip pts) pts).

(** ** The polylines and the annotations *)

(** [polyline.length > 1 && <Polyline positions={polyline} ... />]. *)
Definition truckLineOf (polyline : list LatLng) : option (list LatLng) :=
  if (1 <? length polyline)%nat then Some polyline else None.

(** The polyline launch, delivery, landing; the landing point is the
    launch point. *)
Definition droneLineOf (launchPoint : option LatLng) (droneDelivery : Delivery)
  : option (list LatLng) :=
  lp ← launchPoint;
  Some [lp; mkLatLng (latitude droneDelivery) (longitude droneDelivery); lp].

(** The two annotations, drawn when there is a launch point and a
    prediction: one at the middle of each leg, each with half the
    predicted time and no decimals. *)
Definition annotationsOf (launchPoint : option LatLng) (droneDelivery : Delivery)
    (xgbResult : option XgbResult) : list Annotation :=
  match launchPoint, xgbResult with
  | Some lp, Some xgb =>
      match predicted_time_minutes xgb with
      | Some p =>
          if truthy p then
            let landingPoint := lp in
            [mkAnnotation
               (mkLatLng ((lat lp + latitude droneDelivery) / 2)
                  ((lng lp + longitude droneDelivery) / 2))
               (toFixed 0 (p / 2));
             mkAnnotation
               (mkLatLng ((latitude droneDelivery + lat landingPoint) / 2)
                  ((longitude droneDelivery + lng landingPoint) / 2))
               (toFixed 0 (p / 2))]
          else []
      | None => []
      end
  | _, _ => []
  end.

(** ** The page *)

(** The render: the placeholder and the exceptions of the figures, then
    the elements of the page in the order of the JSX. *)
Definition viewOf (trip : option Trip) (truckPolyline : list LatLng)
    (xgbResult : option XgbResult) (wind : WindState) (routeError : option string)
  : Render View :=
  let pg := pageOf trip in
  let order := optimizedNodeOrder pg in
  let launch := launchOf truckPolyline order (pg_droneDelivery pg) in
  let pts := traversalPoints (point launch) (pg_droneDelivery pg) order in
  match figuresOf trip truckPolyline xgbResult, trip, pg_droneDelivery pg with
  | Shown f, Some t, Some droneDelivery =>
      or_throw (markersOf t pts) (fun markers =>
        Shown
          (mkView (toFixed 1 (fig_carbonReduction f)) (toFixed 2 (carbonEmission f))
             (formatTimeMinutes (Some (totalTripTime f))) (totalTimeColour xgbResult)
             (mlPanelOf (mlPredictedDelivery t) xgbResult)
             (negb (bool_decide (is_Some (mlPredictedDelivery t))))
             (stepRows xgbResult pts) (locationRows pts) (windLine wind)
             (nonempty routeError)
             (mjoin (head (pt_coords <$> pts))) markers
             (truckLineOf (pathOf truckPolyline order))
             (droneLineOf (point launch) droneDelivery)
             (annotationsOf (point launch) droneDelivery xgbResult)))
  | Throws, _, _ => Throws
  | _, _, _ => Loading
  end.

(** The dependency of the wind effect of the page. *)
Definition windDepsOf (trip : option Trip) (truckPolyline : list LatLng)
  : option (LatLng * LatLng) :=
  let pg := pageOf trip in
  let launch := launchOf truckPolyline (optimizedNodeOrder pg) (pg_droneDelivery pg) in
  windDeps (point launch) (pg_droneDelivery pg).

(** The point the wind effect of the page asks about. *)
Definition windQueryOf (trip : option Trip) (truckPolyline : list LatLng) : option LatLng :=
  let pg := pageOf trip in
  let launch := launchOf truckPolyline (optimizedNodeOrder pg) (pg_droneDelivery pg) in
  windQuery (point launch) (pg_droneDelivery pg).

End View.

(** ** Indices of the elements that satisfy a test *)

(** The head of an increasing list is its least element. *)
Lemma sorted_first (l : list nat) i :
  StronglySorted lt l -> l !! 0%nat = Some i <-> i ∈ l /\ forall j, j ∈ l -> (i <= j)%nat.
Proof.
  destruct l as [|h tl]; simpl.
  - intros _. split; [discriminate | now intros [H%elem_of_nil _]].
  - intros [Hall _]%StronglySorted_cons. rewrite list.Forall_forall in Hall. split.
    + intros [= ->]. split; [left|].
      intros j [->|Hj%Hall]%elem_of_cons; lia.
    + intros [[->|Hi%Hall]%elem_of_cons Hmin]; [reflexivity|].
      specialize (Hmin h ltac:(left)). lia.
Qed.

Section Indices.
Context {A : Type} (P : A -> bool).

#[local] Abbreviation indices l :=
  (omap id (imap (fun (i : nat) (a : A) => if P a then Some i else None) l)).

Lemma elem_of_indices (l : list A) i :
  i ∈ indices l <-> exists a, l !! i = Some a /\ P a = true.
Proof.
  rewrite list_elem_of_omap. setoid_rewrite elem_of_lookup_imap. split.
  - intros (x & (j & a & -> & Hj) & Hx). destruct (P a) eqn:E; simplify_eq/=. eauto.
  - intros (a & Hi & E). exists (Some i). split; [|reflexivity].
    exists i, a. now rewrite E.
Qed.

Lemma indices_snoc (l : list A) a :
  indices (l ++ [a]) = indices l ++ (if P a then [length l] else []).
Proof.
  rewrite imap_app, omap_app. f_equal. simpl. rewrite Nat.add_0_r.
  now destruct (P a).
Qed.

Lemma indices_sorted (l : list A) : StronglySorted lt (indices l).
Proof.
  induction l as [|a l IH] using rev_ind; [constructor|].
  rewrite indices_snoc. apply StronglySorted_app_2; [|exact IH|].
  - intros i j [b [Hi%lookup_lt_Some _]]%elem_of_indices Hj.
    destruct (P a); [apply list_elem_of_singleton in Hj as ->; exact Hi|].
    now apply elem_of_nil in Hj.
  - destruct (P a); repeat constructor.
Qed.

(** The first index is the least one whose element satisfies the test. *)
Lemma indices_first (l : list A) i :
  indices l !! 0%nat = Some i <->
  (exists a, l !! i = Some a /\ P a = true) /\
  (forall j b, (j < i)%nat -> l !! j = Some b -> P b = false).
Proof.
  rewrite (sorted_first _ _ (indices_sorted l)), elem_of_indices.
  apply and_iff_compat_l. split.
  - intros Hmin j b Hj Hb. apply not_true_is_false. intros Hp.
    assert (j ∈ indices l) as Hin%Hmin by (apply elem_of_indices; eauto). lia.
  - intros Hmin j (b & Hb & Hp)%elem_of_indices.
    destruct (decide (i <= j)%nat) as [|Hlt]; [assumption|].
    rewrite (Hmin j b) in Hp by (assumption || lia). discriminate.
Qed.

End Indices.

(** The test through which two lists of indices agree. *)
Lemma indices_ext {A} (P Q : A -> bool) (l : list A) :
  (forall a, P a = Q a) ->
  omap id (imap (fun (i : nat) a => if P a then Some i else None) l)
  = omap id (imap (fun (i : nat) a => if Q a then Some i else None) l).
Proof. intros H. f_equal. apply imap_ext. intros i a _. now rewrite H. Qed.

(** ** Stops at the same position *)

Lemma sameCoords_equiv a b : sameCoords a b = true <-> a ≡ b.
Proof.
  destruct a as [p|], b as [q|]; simpl.
  - rewrite andb_true_iff, !Qeq_bool_iff. split; [intros H; constructor; exact H|].
    now intros H%(inj Some).
  - split; [discriminate | inversion 1].
  - split; [discriminate | inversion 1].
  - split; [constructor | reflexivity].
Qed.

#[export] Instance sameCoords_proper : Proper ((≡) ==> (≡) ==> (=)) sameCoords.
Proof.
  intros a a' Ha b b' Hb. apply eq_true_iff_eq. rewrite !sameCoords_equiv.
  now rewrite Ha, Hb.
Qed.

Lemma sameCoords_refl a : sameCoords a a = true.
Proof. now apply sameCoords_equiv. Qed.

Section Markers.
Context (trip : Trip) (pts : list TraversalPoint).

Lemma elem_of_sameCoordIndices pt i :
  i ∈ sameCoordIndices pts pt <->
  exists p, pts !! i = Some p /\ pt_coords p ≡ pt_coords pt.
Proof.
  unfold sameCoordIndices.
  rewrite (elem_of_indices (fun p => sameCoords (pt_coords p) (pt_coords pt))).
  now setoid_rewrite sameCoords_equiv.
Qed.

(** Stops at the same position have the same list of indices. *)
Lemma sameCoordIndices_ext pt pt' :
  pt_coords pt ≡ pt_coords pt' -> sameCoordIndices pts pt = sameCoordIndices pts pt'.
Proof. intros H. apply indices_ext. intros p. now rewrite H. Qed.

Lemma sameCoordIndices_self i pt : pts !! i = Some pt -> i ∈ sameCoordIndices pts pt.
Proof. intros H. apply elem_of_sameCoordIndices. eauto. Qed.

(** The first index of the list is the first stop at the position. *)
Lemma sameCoordIndices_first pt i :
  sameCoordIndices pts pt !! 0%nat = Some i <->
  (exists p, pts !! i = Some p /\ pt_coords p ≡ pt_coords pt) /\
  (forall j q, (j < i)%nat -> pts !! j = Some q -> ~ pt_coords q ≡ pt_coords pt).
Proof.
  unfold sameCoordIndices.
  rewrite (indices_first (fun p => sameCoords (pt_coords p) (pt_coords pt))).
  setoid_rewrite sameCoords_equiv. apply and_iff_compat_l.
  split; intros H j q Hj Hq; specialize (H j q Hj Hq).
  - rewrite <- sameCoords_equiv, H. discriminate.
  - apply not_true_is_false. now rewrite sameCoords_equiv.
Qed.

(** Every position has a first stop. *)
Lemma sameCoordIndices_head i pt :
  pts !! i = Some pt ->
  exists r pr, sameCoordIndices pts pt !! 0%nat = Some r /\ pts !! r = Some pr /\
    pt_coords pr ≡ pt_coords pt.
Proof.
  intros Hi%sameCoordIndices_self.
  destruct (sameCoordIndices pts pt) as [|r tl] eqn:E; [now apply elem_of_nil in Hi|].
  assert (r ∈ sameCoordIndices pts pt) as (pr & Hr & Hc)%elem_of_sameCoordIndices
    by (rewrite E; left).
  eauto.
Qed.

(** What a drawn marker holds. *)
Lemma markerOf_Some idx pt m :
  markerOf trip pts idx pt = Some (Some m) ->
  sameCoordIndices pts pt !! 0%nat = Some idx /\ m_key m = idx /\
  m_steps m = sameCoordIndices pts pt /\ pt_coords pt = Some (m_position m) /\
  m_type m = type pt /\ m_label m = label pt /\ m_colour m = colourOf (type pt).
Proof.
  unfold markerOf. cbv zeta. case_decide as Hh; [|discriminate].
  destruct (pt_coords pt) as [c|]; [|discriminate]. now intros [= <-].
Qed.

(** A marker is drawn for the first stop of a position, unless its
    coordinates are missing. *)
Lemma markerOf_first idx pt c :
  sameCoordIndices pts pt !! 0%nat = Some idx -> pt_coords pt = Some c ->
  exists m, markerOf trip pts idx pt = Some (Some m).
Proof. intros Hh Hc. unfold markerOf. cbv zeta. rewrite decide_True, Hc by exact Hh. eauto. Qed.

Lemma markersOf_cells ms :
  markersOf trip pts = Some ms ->
  exists os, imap (markerOf trip pts) pts = Some <$> os /\ ms = omap id os.
Proof.
  unfold markersOf. intros (os & Hos & ->)%fmap_Some. exists os. split; [|reflexivity].
  apply mapM_Some in Hos. apply list_eq. intros i. rewrite list_lookup_fmap.
  destruct (imap (markerOf trip pts) pts !! i) as [c|] eqn:Ec.
  - destruct (Forall2_lookup_l _ _ _ _ _ Hos Ec) as (o & -> & Ho). simpl in Ho. now subst c.
  - apply lookup_ge_None in Ec. rewrite (Forall2_length Hos) in Ec.
    now rewrite (proj2 (lookup_ge_None _ _) Ec).
Qed.

(** The markers of the map are the markers of the callback. *)
Lemma elem_of_markersOf ms m :
  markersOf trip pts = Some ms ->
  m ∈ ms <-> exists idx pt, pts !! idx = Some pt /\ markerOf trip pts idx pt = Some (Some m).
Proof.
  intros (os & Hos & ->)%markersOf_cells. rewrite list_elem_of_omap. split.
  - intros (o & [i Hi]%list_elem_of_lookup & Ho). simpl in Ho. subst o.
    assert (imap (markerOf trip pts) pts !! i = Some (Some (Some m))) as Hc
      by now rewrite Hos, list_lookup_fmap, Hi.
    apply list_lookup_imap_Some in Hc as (pt & Hpt & Hm). eauto.
  - intros (idx & pt & Hpt & Hm). exists (Some m). split; [|reflexivity].
    apply list_elem_of_lookup. exists idx.
    assert (imap (markerOf trip pts) pts !! idx = Some (Some (Some m))) as Hc
      by (rewrite list_lookup_imap, Hpt; simpl; now rewrite Hm).
    rewrite Hos, list_lookup_fmap in Hc. destruct (os !! idx); now simplify_eq/=.
Qed.

(** No callback threw. *)
Lemma markersOf_no_throw ms idx pt :
  markersOf trip pts = Some ms -> pts !! idx = Some pt ->
  is_Some (markerOf trip pts idx pt).
Proof.
  intros (os & Hos & _)%markersOf_cells Hpt.
  assert (imap (markerOf trip pts) pts !! idx = Some (markerOf trip pts idx pt)) as Hc
    by now rewrite list_lookup_imap, Hpt.
  rewrite Hos, list_lookup_fmap in Hc. destruct (os !! idx); simplify_eq/=. eauto.
Qed.

End Markers.

(** ** The markers and the letters of the stops *)

Section MarkerFacts.
Context {G : Geodesy}.

(** C32: every stop is on exactly one marker: the marker of the first stop
    at its position carries its index, and no other marker does. *)
Theorem markers_partition trip pts ms i :
  markersOf trip pts = Some ms -> (i < length pts)%nat ->
  exists m, m ∈ ms /\ i ∈ m_steps m /\
    forall m', m' ∈ ms -> i ∈ m_steps m' -> m' = m.
Proof.
  intros Hms [pt Hi]%lookup_lt_is_Some_2.
  destruct (sameCoordIndices_head pts i pt Hi) as (r & pr & Hh & Hr & Hc).
  rewrite (sameCoordIndices_ext pts pt pr) in Hh by now symmetry.
  destruct (markersOf_no_throw trip pts ms r pr Hms Hr) as [o Ho].
  assert (exists m, o = Some m) as [m ->].
  { unfold markerOf in Ho. cbv zeta in Ho. rewrite decide_True in Ho by exact Hh.
    destruct (pt_coords pr); simplify_eq/=. eauto. }
  pose proof (markerOf_Some _ _ _ _ _ Ho) as (_ & _ & Hsteps & _).
  exists m. split_and!.
  - apply (elem_of_markersOf trip pts ms m Hms). eauto.
  - rewrite Hsteps, <- (sameCoordIndices_ext pts pt pr) by now symmetry.
    now apply sameCoordIndices_self.
  - intros m' (idx' & pt' & Hpt' & Hm')%(elem_of_markersOf trip pts ms m' Hms) Hin.
    pose proof (markerOf_Some _ _ _ _ _ Hm') as (Hh' & _ & Hsteps' & _).
    rewrite Hsteps' in Hin. apply elem_of_sameCoordIndices in Hin as (p & Hp & Hcp).
    rewrite Hi in Hp. injection Hp as <-.
    rewrite <- (sameCoordIndices_ext pts pr pt'), Hh in Hh' by now rewrite Hc.
    injection Hh' as <-. rewrite Hr in Hpt'. injection Hpt' as <-.
    rewrite Ho in Hm'. now injection Hm'.
Qed.

(** The steps of a marker are stops of the list, in increasing order, and
    the first of them is the stop the marker is drawn for. *)
Lemma marker_steps trip pts ms m :
  markersOf trip pts = Some ms -> m ∈ ms ->
  StronglySorted lt (m_steps m) /\ m_steps m !! 0%nat = Some (m_key m) /\
  Forall (fun i => (i < length pts)%nat) (m_steps m).
Proof.
  intros Hms (idx & pt & Hpt & Hm)%(elem_of_markersOf trip pts ms m Hms).
  apply markerOf_Some in Hm as (Hh & <- & -> & _). split_and!; [|exact Hh|].
  - apply indices_sorted.
  - apply list.Forall_forall. intros i (p & Hp%lookup_lt_Some & _)%elem_of_sameCoordIndices.
    exact Hp.
Qed.

(** A marker stands for the first stop at its position. *)
Lemma marker_first trip pts ms m j pj :
  markersOf trip pts = Some ms -> m ∈ ms ->
  pts !! j = Some pj -> pt_coords pj ≡ Some (m_position m) -> (m_key m <= j)%nat.
Proof.
  intros Hms (idx & pt & Hpt & Hm)%(elem_of_markersOf trip pts ms m Hms) Hj Hc.
  apply markerOf_Some in Hm as (Hh & <- & _ & Hpos & _).
  apply sameCoordIndices_first in Hh as [_ Hmin].
  destruct (decide (m_key m <= j)%nat) as [|Hlt]; [assumption|].
  destruct (Hmin j pj ltac:(lia) Hj). now rewrite Hpos.
Qed.

(** C33: the landing site never has a marker of its own: it is at the
    position of the launch site, which comes two stops before it, so the
    two always share a marker, and no marker has the colour of a landing
    site. *)
Theorem landing_shares_marker trip lp d order ms :
  markersOf trip (traversalPoints (Some lp) d order) = Some ms ->
  Forall (fun m => m_type m <> PtLanding /\ m_colour m <> colourOf PtLanding) ms /\
  let k := insertIdxOf (Some lp) order in
  forall m, m ∈ ms -> k ∈ m_steps m <-> (k + 2)%nat ∈ m_steps m.
Proof.
  intros Hms. set (pts := traversalPoints (Some lp) d order) in *.
  destruct (traversalPoints_drone_leg lp d order) as (Hk & _ & Hk2 & Htypes). fold pts in Hk, Hk2, Htypes.
  split.
  - apply list.Forall_forall. intros m Hm.
    pose proof Hm as (idx & pt & Hpt & Hmo)%(elem_of_markersOf trip pts ms m Hms).
    apply markerOf_Some in Hmo as (_ & Hkey & _ & Hpos & Hty & _ & Hcol).
    assert (type pt <> PtLanding) as Hne.
    { intros Hl. destruct (Htypes idx pt Hpt) as (_ & _ & Hidx).
      rewrite (Hidx Hl) in Hpt, Hkey. rewrite Hk2 in Hpt. injection Hpt as <-.
      simpl in Hpos. injection Hpos as Hpos.
      pose proof (marker_first trip pts ms m _ _ Hms Hm Hk) as Hle.
      simpl in Hle. rewrite <- Hpos in Hle. specialize (Hle ltac:(reflexivity)). lia. }
    rewrite Hty, Hcol. split; [exact Hne|]. destruct (type pt); simpl; congruence.
  - cbv zeta. intros m (idx & pt & Hpt & Hmo)%(elem_of_markersOf trip pts ms m Hms).
    apply markerOf_Some in Hmo as (_ & _ & -> & _).
    rewrite !elem_of_sameCoordIndices. fold pts. rewrite Hk, Hk2.
    split; intros (p & [= <-] & Hc); eexists; (split; [reflexivity | exact Hc]).
Qed.

(** The markers are drawn whenever every stop has its coordinates. *)
Lemma markersOf_is_Some trip pts :
  Forall (fun pt => is_Some (pt_coords pt)) pts -> is_Some (markersOf trip pts).
Proof.
  intros Hall. unfold markersOf. apply fmap_is_Some, mapM_is_Some, Forall_lookup.
  intros i c (pt & Hpt & ->)%list_lookup_imap_Some.
  destruct (Forall_lookup_1 _ _ _ _ Hall Hpt) as [p Hp].
  unfold markerOf. cbv zeta. case_decide; simpl; [rewrite Hp|]; simpl; eauto.
Qed.

End MarkerFacts.

(** ** The outcome of the render *)

Section ViewFacts.
Context {G : Geodesy}.

(** Figures are shown only for a trip with a drone delivery and a launch
    point. *)
Lemma figuresOf_Shown_launch trip truckPolyline xgbResult f :
  figuresOf trip truckPolyline xgbResult = Shown f ->
  exists t d lp, trip = Some t /\ pg_droneDelivery (pageOf trip) = Some d /\
    point (launchOf truckPolyline (optimizedNodeOrder (pageOf trip)) (Some d)) = Some lp.
Proof.
  unfold figuresOf. destruct trip as [t|]; [|discriminate].
  destruct (pg_droneDelivery (pageOf (Some t))) as [d|]; [|discriminate].
  unfold or_throw. repeat case_match; try discriminate. eauto 10.
Qed.

(** The page of a trip whose figures are computed. *)
Lemma viewOf_Shown trip truckPolyline xgbResult wind routeError f :
  figuresOf trip truckPolyline xgbResult = Shown f ->
  let order := optimizedNodeOrder (pageOf trip) in
  exists t d lp ms,
    trip = Some t /\ pg_droneDelivery (pageOf trip) = Some d /\
    point (launchOf truckPolyline order (Some d)) = Some lp /\
    markersOf t (traversalPoints (Some lp) (Some d) order) = Some ms /\
    viewOf trip truckPolyline xgbResult wind routeError
    = Shown
        (mkView (toFixed 1 (fig_carbonReduction f)) (toFixed 2 (carbonEmission f))
           (formatTimeMinutes (Some (totalTripTime f))) (totalTimeColour xgbResult)
           (mlPanelOf (mlPredictedDelivery t) xgbResult)
           (negb (bool_decide (is_Some (mlPredictedDelivery t))))
           (stepRows xgbResult (traversalPoints (Some lp) (Some d) order))
           (locationRows (traversalPoints (Some lp) (Some d) order)) (windLine wind)
           (nonempty routeError)
           (mjoin (head (pt_coords <$> traversalPoints (Some lp) (Some d) order))) ms
           (truckLineOf (pathOf truckPolyline order))
           (droneLineOf (Some lp) d) (annotationsOf (Some lp) d xgbResult)).
Proof.
  intros E. cbv zeta.
  destruct (figuresOf_Shown_launch _ _ _ _ E) as (t & d & lp & -> & Hd & Hlp).
  destruct (markersOf_is_Some t _ (traversalPoints_coords lp d
              (optimizedNodeOrder (pageOf (Some t))))) as [ms Hms].
  exists t, d, lp, ms. unfold viewOf. now rewrite E, Hd, Hlp, Hms.
Qed.

Lemma viewOf_Throws trip truckPolyline xgbResult wind routeError :
  figuresOf trip truckPolyline xgbResult = Throws ->
  viewOf trip truckPolyline xgbResult wind routeError = Throws.
Proof. intros E. unfold viewOf. now rewrite E. Qed.

(** The wind is asked for whenever the page is drawn, at the middle of the
    drone leg. *)
Lemma windQueryOf_Shown trip truckPolyline xgbResult f :
  figuresOf trip truckPolyline xgbResult = Shown f ->
  exists d lp, pg_droneDelivery (pageOf trip) = Some d /\
    windQueryOf trip truckPolyline = Some (midpoint lp (coords d)).
Proof.
  intros (t & d & lp & -> & Hd & Hlp)%figuresOf_Shown_launch.
  exists d, lp. unfold windQueryOf. cbv zeta. now rewrite Hd, Hlp.
Qed.

(** The page is drawn whenever its figures are computed: the markers
    never throw, since every stop of a plan with a launch point has its
    coordinates.  The page has one row and one location for every stop,
    and its headline shows the figures rounded. *)
Theorem viewOf_outcome trip truckPolyline xgbResult wind routeError :
  match figuresOf trip truckPolyline xgbResult with
  | Loading => viewOf trip truckPolyline xgbResult wind routeError = Loading
  | Throws => viewOf trip truckPolyline xgbResult wind routeError = Throws
  | Shown f =>
      exists v, viewOf trip truckPolyline xgbResult wind routeError = Shown v /\
        v_carbonReduction v = toFixed 1 (fig_carbonReduction f) /\
        v_carbonEmission v = toFixed 2 (carbonEmission f) /\
        v_totalTime v = formatTimeMinutes (Some (totalTripTime f)) /\
        length (v_steps v) = length (stopsOf trip truckPolyline) /\
        length (v_locations v) = length (stopsOf trip truckPolyline) /\
        is_Some (v_droneLine v)
  end.
Proof.
  destruct (figuresOf trip truckPolyline xgbResult) as [| |f] eqn:E;
    [unfold viewOf; rewrite E; now repeat case_match | unfold viewOf; now rewrite E |].
  destruct (viewOf_Shown _ _ _ wind routeError _ E)
    as (t & d & lp & ms & -> & Hd & Hlp & _ & ->).
  eexists. split; [reflexivity|]. simpl.
  unfold stepRows, locationRows, stopsOf. rewrite length_imap, length_fmap, Hd, Hlp.
  eauto 10.
Qed.

(** ** The list of stops *)

(** When every stop has its coordinates the list shows a time under
    every stop but the last, and no cell is left empty: the branch for a
    time that is [NaN] is never taken on a page that is drawn. *)
Theorem stepRows_times xgbResult pts idx row :
  Forall (fun pt => is_Some (pt_coords pt)) pts ->
  stepRows xgbResult pts !! idx = Some row ->
  step_time row <> Blank /\
  (step_time row = NoArrow <-> idx = (length pts - 1)%nat).
Proof.
  intros Hall (pt & Hpt & ->)%list_lookup_imap_Some. simpl. unfold timeCell.
  pose proof (lookup_lt_Some _ _ _ Hpt) as Hlt. rewrite Hpt.
  destruct (idx <? length pts - 1)%nat eqn:E;
    [apply Nat.ltb_lt in E | apply Nat.ltb_ge in E; split; [discriminate | split; [lia | reflexivity]]].
  destruct (lookup_lt_is_Some_2 pts (idx + 1)) as [b Hb]; [lia|]. rewrite Hb.
  destruct (Forall_lookup_1 _ _ _ _ Hall Hpt) as [ca Hca].
  destruct (Forall_lookup_1 _ _ _ _ Hall Hb) as [cb Hcb].
  rewrite Hca, Hcb. unfold getSegmentTime, truthy_opt.
  repeat (case_match; simplify_eq/=); (split; [discriminate | split; [discriminate | intros; lia]]).
Qed.

(** The mark of a prediction and the time it marks read different
    fields: a result with [time] and without [predicted_time_minutes] puts
    its time under both drone legs without the mark, and colours the total
    time as a prediction although the total does not use it. *)
Theorem prediction_mark_needs_predicted_time p lp d :
  ~ p == 0 ->
  let xgb := Some (mkXgbResult None (Some p) None None None) in
  let pts := [mkPoint PtLaunch (Some lp) 66; mkPoint PtDroneDelivery (Some d) 67;
              mkPoint PtLanding (Some lp) 68] in
  timeCell xgb pts 0 = TimeText (formatTimeMinutes (Some p)) false /\
  timeCell xgb pts 1 = TimeText (formatTimeMinutes (Some p)) false /\
  totalTimeColour xgb = "#d32f2f" /\ hasPrediction xgb = false /\
  forall droneLeg, droneTripTimeOf xgb droneLeg = (2 * droneLeg / 40) * 60.
Proof.
  intros Hp%truthy_true. cbv zeta. unfold timeCell, getSegmentTime, totalTimeColour. simpl.
  now rewrite Hp.
Qed.

(** ** The annotations *)

(** With a launch point and a prediction the map has two annotations;
    they are at the same position, the middle of the drone leg, and both
    show half of the predicted time without decimals, while each drone leg
    of the list of stops shows the whole prediction. *)
Theorem annotations_coincide lp droneDelivery xgb p :
  predicted_time_minutes xgb = Some p -> ~ p == 0 ->
  exists a b, annotationsOf (Some lp) droneDelivery (Some xgb) = [a; b] /\
    an_position a ≡ an_position b /\
    an_position a ≡ midpoint lp (coords droneDelivery) /\
    an_minutes a = toFixed 0 (p / 2) /\ an_minutes b = toFixed 0 (p / 2) /\
    getSegmentTime (Some xgb) (Some lp) (Some (coords droneDelivery))
      PtLaunch PtDroneDelivery = Some p /\
    getSegmentTime (Some xgb) (Some (coords droneDelivery)) (Some lp)
      PtDroneDelivery PtLanding = Some p.
Proof.
  intros Hp Hnz%truthy_true. unfold annotationsOf, getSegmentTime, mlMinutesOf. simpl.
  rewrite Hp. simpl. rewrite Hnz. eexists _, _. split; [reflexivity|]. simpl.
  split_and!; try reflexivity; split; simpl; field.
Qed.

(** Without a prediction, or without a launch point, nothing is
    annotated. *)
Lemma annotationsOf_nil launchPoint droneDelivery xgbResult :
  launchPoint = None \/ hasPrediction xgbResult = false ->
  annotationsOf launchPoint droneDelivery xgbResult = [].
Proof.
  unfold annotationsOf, hasPrediction, truthy_opt.
  intros [->|H]; [reflexivity|]. now repeat case_match.
Qed.

End ViewFacts.

(** ** A page drawn, with the taxicab distance *)

Definition example_stops : list TraversalPoint :=
  traversalPoints (G := taxicab) (Some example_launch_site) (Some (mkDelivery 2 12 4))
    example_order.

Definition example_markers : list MarkerView :=
  default [] (markersOf example_plan example_stops).

Lemma example_markers_run : markersOf example_plan example_stops = Some example_markers.
Proof. vm_compute. reflexivity. Qed.

(** The launch site and the landing site, stops 2 and 4, share a marker. *)
Lemma example_marker_steps :
  (fun m => (m_type m, m_steps m)) <$> example_markers
  = [(PtHQ, [0]); (PtTruck, [1]); (PtLaunch, [2; 4]); (PtDroneDelivery, [3]);
     (PtTruck, [5])]%nat.
Proof. vm_compute. reflexivity. Qed.

Lemma example_view_steps :
  match viewOf (G := taxicab) (Some example_plan) [] (Some example_xgb) (wind_init None)
          None with
  | Shown v =>
      step_time <$> v_steps v
      = [TimeText "2 hr 21 min 8 sec" false; TimeText "12 min 0 sec" false;
         TimeText "7 min 0 sec" true; TimeText "7 min 0 sec" true;
         TimeText "8 min 0 sec" false; NoArrow]
      /\ an_minutes <$> v_annotations v = [4; 4]
  | _ => False
  end.
Proof. vm_compute. split; reflexivity. Qed.

Lemma markers_partition_witness :
  exists m, m ∈ example_markers /\ 4%nat ∈ m_steps m /\
    forall m', m' ∈ example_markers -> 4%nat ∈ m_steps m' -> m' = m.
Proof.
  apply (markers_partition example_plan example_stops example_markers 4
           example_markers_run).
  vm_compute. lia.
Defined.

Lemma landing_shares_marker_witness :
  Forall (fun m => m_type m <> PtLanding /\ m_colour m <> colourOf PtLanding) example_markers /\
  let k := insertIdxOf (G := taxicab) (Some example_launch_site) example_order in
  forall m, m ∈ example_markers -> k ∈ m_steps m <-> (k + 2)%nat ∈ m_steps m.
Proof.
  exact (landing_shares_marker (G := taxicab) example_plan example_launch_site
           (Some (mkDelivery 2 12 4)) example_order example_markers example_markers_run).
Defined.

Lemma stepRows_times_witness :
  step_time (mkStepRow 70 "#388e3c" "Truck Delivery" NoArrow) <> Blank /\
  (step_time (mkStepRow 70 "#388e3c" "Truck Delivery" NoArrow) = NoArrow <->
   5%nat = (length example_stops - 1)%nat).
Proof.
  apply (stepRows_times (G := taxicab) (Some example_xgb) example_stops 5).
  - apply (traversalPoints_coords (G := taxicab)).
  - vm_compute. reflexivity.
Defined.

Lemma annotations_coincide_witness :
  exists a b,
    annotationsOf (Some example_launch_site) (mkDelivery 2 12 4) (Some example_xgb) = [a; b] /\
    an_position a ≡ an_position b /\
    an_position a ≡ midpoint example_launch_site (coords (mkDelivery 2 12 4)) /\
    an_minutes a = toFixed 0 (7 / 2) /\ an_minutes b = toFixed 0 (7 / 2) /\
    getSegmentTime (G := taxicab) (Some example_xgb) (Some example_launch_site)
      (Some (coords (mkDelivery 2 12 4))) PtLaunch PtDroneDelivery = Some 7 /\
    getSegmentTime (G := taxicab) (Some example_xgb) (Some (coords (mkDelivery 2 12 4)))
      (Some example_launch_site) PtDroneDelivery PtLanding = Some 7.
Proof.
  apply (annotations_coincide (G := taxicab) example_launch_site (mkDelivery 2 12 4)
           example_xgb 7); [reflexivity | now vm_compute].
Defined.

Lemma prediction_mark_needs_predicted_time_witness :
  let xgb := Some (mkXgbResult None (Some 7) None None None) in
  let pts := [mkPoint PtLaunch (Some example_launch_site) 66;
              mkPoint PtDroneDelivery (Some (mkLatLng 12 4)) 67;
              mkPoint PtLanding (Some example_launch_site) 68] in
  timeCell (G := taxicab) xgb pts 0 = TimeText (formatTimeMinutes (Some 7)) false /\
  timeCell (G := taxicab) xgb pts 1 = TimeText (formatTimeMinutes (Some 7)) false /\
  totalTimeColour xgb = "#d32f2f" /\ hasPrediction xgb = false /\
  forall droneLeg, droneTripTimeOf xgb droneLeg = (2 * droneLeg / 40) * 60.
Proof.
  apply (prediction_mark_needs_predicted_time (G := taxicab) 7 example_launch_site
           (mkLatLng 12 4)).
  now vm_compute.
Defined.
