(* ===== verification/MapView.v ===== *)
(** * MapView: the map of the plan page

    The part of [PathPlanning.jsx] that hands the page to Leaflet: the
    helper [FitBounds], which fits the map to the stops, [letterIcon] and
    the five icons declared with it, the icon of a marker, and the frame
    of the map with its zoom, its centre, its two base layers and its
    controls.

    [L.latLngBounds] is Leaflet's: the least rectangle of latitudes and
    longitudes that holds the points.  A letter is its UTF-16 code unit, as
    in [Composer]. *)

From stdpp Require Import strings.
From S2P Require Import Prelude JsNum Geodesy Fleet Sequencer Locator Composer Metrics Routing View.

(** ** Data *)

(** [L.divIcon({ html, iconSize })]: the background and the letters of the
    [html], and the size. *)
Record Icon : Type := mkIcon {
  ic_background : string;
  ic_letters : list N;
  ic_size : nat * nat
}.

(** A rectangle of Leaflet. *)
Record Bounds : Type := mkBounds {
  south : Q;
  west : Q;
  north : Q;
  east : Q
}.

(** [map.fitBounds(bounds, { padding })]. *)
Record FitCall : Type := mkFit {
  fit_bounds : Bounds;
  fit_padding : nat * nat
}.

(** A base layer of the layers control; [tl_token] is the [access_token]
    of its URL, when it has one. *)
Record BaseLayer : Type := mkBaseLayer {
  tl_name : string;
  tl_checked : bool;
  tl_token : option string
}.

Inductive Corner : Type := TopRight | BottomLeft.

Inductive Control : Type := LayersControl | ZoomControl | ScaleControl.

(** [<MapContainer>] with its children other than the markers and the
    polylines. *)
Record MapFrame : Type := mkMapFrame {
  mf_zoom : nat;
  mf_center : option LatLng;
  mf_scrollWheelZoom : bool;
  mf_zoomControl : bool;
  mf_layers : list BaseLayer;
  mf_controls : list (Control * Corner);
  mf_fit : option FitCall
}.

(** ** Icons *)

(** [letterIcon(letter, color = "#1976d2")]; [color] is [None] in a call
    that leaves it out. *)
Definition letterIcon (letter : N) (color : option string) : Icon :=
  mkIcon (default "#1976d2" color) [letter] (32, 32)%nat.

Definition droneIcon : Icon := letterIcon 68 (Some "#d32f2f").
Definition truckIcon : Icon := letterIcon 84 (Some "#388e3c").
Definition hqIcon : Icon := letterIcon 65 (Some "#1976d2").
Definition launchIcon : Icon := letterIcon 76 (Some "#ffa000").
Definition landingIcon : Icon := letterIcon 80 (Some "#7b1fa2").

(** The icon a marker of the map is given. *)
Definition markerIcon (m : MarkerView) : Icon :=
  mkIcon (m_colour m) (stepLetters m) (38, 38)%nat.

(** The icon declared for the stops of a type. *)
Definition declaredIcon (t : PointType) : Icon :=
  match t with
  | PtHQ => hqIcon
  | PtTruck => truckIcon
  | PtLaunch => launchIcon
  | PtDroneDelivery => droneIcon
  | PtLanding => landingIcon
  end.

(** ** [FitBounds] *)

(** [bounds.extend(p)]. *)
Definition extend (b : Bounds) (p : LatLng) : Bounds :=
  mkBounds (Qmin (south b) (lat p)) (Qmin (west b) (lng p))
    (Qmax (north b) (lat p)) (Qmax (east b) (lng p)).

(** [L.latLngBounds(points)]; the bounds of no point are not valid. *)
Definition latLngBounds (points : list LatLng) : option Bounds :=
  match points with
  | [] => None
  | p :: rest => Some (foldl extend (mkBounds (lat p) (lng p) (lat p) (lng p)) rest)
  end.

(** The effect of [FitBounds]: the call of [map.fitBounds], if any. *)
Definition FitBounds (points : list LatLng) : option FitCall :=
  if (0 <? length points)%nat
  then bounds ← latLngBounds points; Some (mkFit bounds (60, 60)%nat)
  else None.

(** ** The frame *)

Section MapView.
Context {env : Env}.

(** The two layers of [<LayersControl>]; a token that is not set is
    printed as the text undefined. *)
Definition baseLayers : list BaseLayer :=
  [mkBaseLayer "OpenStreetMap" true None;
   mkBaseLayer "Mapbox Streets" false (Some (default "undefined" MAPBOX_TOKEN))].

Definition mapFrameOf (allPoints : list LatLng) : MapFrame :=
  mkMapFrame 11 (head allPoints) true false baseLayers
    [(LayersControl, TopRight); (ZoomControl, TopRight); (ScaleControl, BottomLeft)]
    (FitBounds allPoints).

End MapView.

(** ** The bounds hold the points *)

(** [p] is inside [b], the sides included. *)
Definition inside (b : Bounds) (p : LatLng) : Prop :=
  south b <= lat p <= north b /\ west b <= lng p <= east b.

(** [b'] holds the rectangle [b]. *)
Definition covers (b' b : Bounds) : Prop :=
  south b' <= south b /\ west b' <= west b /\ north b <= north b' /\ east b <= east b'.

#[export] Instance covers_preorder : PreOrder covers.
Proof.
  split; [intros b; unfold covers; split_and!; apply Qle_refl|].
  intros a b c (?&?&?&?) (?&?&?&?). unfold covers. split_and!; lra.
Qed.

Lemma inside_covers b' b p : covers b' b -> inside b p -> inside b' p.
Proof. unfold covers, inside. lra. Qed.

Lemma extend_covers b p : covers (extend b p) b /\ inside (extend b p) p.
Proof.
  unfold covers, inside, extend. simpl.
  pose proof (Q.le_min_l (south b) (lat p)). pose proof (Q.le_min_r (south b) (lat p)).
  pose proof (Q.le_min_l (west b) (lng p)). pose proof (Q.le_min_r (west b) (lng p)).
  pose proof (Q.le_max_l (north b) (lat p)). pose proof (Q.le_max_r (north b) (lat p)).
  pose proof (Q.le_max_l (east b) (lng p)). pose proof (Q.le_max_r (east b) (lng p)).
  split_and!; assumption.
Qed.

Lemma foldl_extend_covers rest : forall b,
  covers (foldl extend b rest) b /\ Forall (inside (foldl extend b rest)) rest.
Proof.
  induction rest as [|p rest IH]; intros b; [split; [reflexivity | constructor]|].
  simpl. destruct (IH (extend b p)) as [Hc Hin]. destruct (extend_covers b p) as [Hb Hp].
  split; [now transitivity (extend b p)|]. constructor; [|exact Hin].
  eapply inside_covers; eauto.
Qed.

(** A side of the bounds of a list of points is a coordinate of one of
    them. *)
Definition touches (b : Bounds) (points : list LatLng) : Prop :=
  Exists (fun p => lat p == south b) points /\ Exists (fun p => lng p == west b) points /\
  Exists (fun p => lat p == north b) points /\ Exists (fun p => lng p == east b) points.

Lemma Qmin_pick x y : Qmin x y == x \/ Qmin x y == y.
Proof. destruct (Q.min_spec x y) as [[_ E]|[_ E]]; auto. Qed.

Lemma Qmax_pick x y : Qmax x y == x \/ Qmax x y == y.
Proof. destruct (Q.max_spec x y) as [[_ E]|[_ E]]; auto. Qed.

(** A side that is the old side or the coordinate of the new point. *)
Lemma side_snoc (f : LatLng -> Q) (m side : Q) points p :
  m == side \/ m == f p ->
  Exists (fun q => f q == side) points -> Exists (fun q => f q == m) (points ++ [p]).
Proof.
  intros [E|E] H; apply Exists_app; [left|right].
  - eapply Exists_impl; [|exact H]. intros q Hq. simpl in Hq. now rewrite Hq, E.
  - constructor. now rewrite E.
Qed.

Lemma extend_touches b points p :
  touches b points -> touches (extend b p) (points ++ [p]).
Proof.
  intros (Hs & Hw & Hn & He). unfold touches, extend. simpl.
  split_and!; eapply side_snoc; eauto using Qmin_pick, Qmax_pick.
Qed.

Lemma foldl_extend_touches rest p :
  touches (foldl extend (mkBounds (lat p) (lng p) (lat p) (lng p)) rest) (p :: rest).
Proof.
  induction rest as [|q rest IH] using rev_ind.
  - unfold touches. simpl. split_and!; constructor; reflexivity.
  - rewrite foldl_app. simpl. now apply (extend_touches _ (p :: rest)).
Qed.

(** The bounds [FitBounds] fits the map to are the least rectangle
    that holds the points: every point is inside, and each side is the
    coordinate of a point.  The map is fitted exactly when there is a
    point. *)
Theorem FitBounds_spec points :
  match FitBounds points with
  | Some call =>
      Forall (inside (fit_bounds call)) points /\ touches (fit_bounds call) points /\
      fit_padding call = (60, 60)%nat
  | None => points = []
  end.
Proof.
  destruct points as [|p rest]; [reflexivity|]. simpl.
  destruct (foldl_extend_covers rest (mkBounds (lat p) (lng p) (lat p) (lng p))) as [Hc Hin].
  split_and!; [constructor; [|exact Hin] | apply foldl_extend_touches | reflexivity].
  eapply inside_covers; [exact Hc|]. unfold inside. simpl. lra.
Qed.

(** ** The map of a page that is drawn *)

Section Page.
Context {G : Geodesy} {env : Env}.

(** The points of the stops, when every stop has its coordinates. *)
Definition pointsOf (trip : option Trip) (truckPolyline : list LatLng)
  : option (list LatLng) :=
  mapM id (pt_coords <$> stopsOf trip truckPolyline).

(** The first stop of a plan with a launch point and a truck delivery is
    the depot. *)
Lemma first_stop t lp d :
  let order := optimizedNodeOrder (pageOf (Some t)) in
  (2 <= length order)%nat ->
  pt_coords <$> traversalPoints (Some lp) d order !! 0%nat = Some (Some (hqOf (Some t))).
Proof.
  intros order Hlen. rewrite traversalPoints_lookup, unlabelled_lookup.
  destruct (insertIdxOf_Some lp order Hlen) as (i & -> & _).
  rewrite decide_True by lia. subst order.
  now rewrite pageOf_order, nearestNeighborRoute_cons.
Qed.

(** C37: the map of a page whose figures are computed, for a plan with a
    truck delivery.  Every stop has its coordinates; the map is centred on
    the depot; [FitBounds] calls [map.fitBounds] with a padding of 60
    pixels and the least rectangle that holds the stops: every stop is
    inside it and each of its sides goes through a stop. *)
Theorem plan_map_fitted t truckPolyline xgbResult f :
  figuresOf (Some t) truckPolyline xgbResult = Shown f ->
  default [] (truckDeliveries t) <> [] ->
  exists points call,
    pointsOf (Some t) truckPolyline = Some points /\
    length points = length (stopsOf (Some t) truckPolyline) /\
    mf_center (mapFrameOf points) = Some (hqOf (Some t)) /\
    mf_fit (mapFrameOf points) = Some call /\
    Forall (inside (fit_bounds call)) points /\ touches (fit_bounds call) points /\
    fit_padding call = (60, 60)%nat.
Proof.
  intros (t' & d & lp & [= <-] & Hd & Hlp)%figuresOf_Shown_launch Htruck.
  unfold pointsOf, stopsOf. cbv zeta. rewrite Hd, Hlp.
  set (order := optimizedNodeOrder (pageOf (Some t))).
  assert (2 <= length order)%nat as Hlen.
  { subst order. rewrite length_pageOf_order. destruct (default [] (truckDeliveries t));
      [done | simpl; lia]. }
  destruct (mapM_is_Some_2 id (pt_coords <$> traversalPoints (Some lp) (Some d) order))
    as [points Hpts]; [apply Forall_fmap, traversalPoints_coords|].
  pose proof (length_mapM _ _ _ Hpts) as Hlen'. rewrite length_fmap in Hlen'.
  pose proof (proj1 (mapM_Some _ _ _) Hpts) as Hall.
  pose proof (first_stop t lp (Some d) Hlen) as Hfirst. fold order in Hfirst.
  rewrite <- list_lookup_fmap in Hfirst.
  destruct (Forall2_lookup_l _ _ _ _ _ Hall Hfirst) as (p & Hp & [= <-]).
  pose proof (FitBounds_spec points) as Hfit.
  destruct (FitBounds points) as [call|] eqn:Ef; [|now subst points].
  exists points, call. rewrite Hpts. unfold mapFrameOf. cbn [mf_center mf_fit].
  rewrite Ef, head_lookup, Hp. destruct Hfit as (? & ? & ?). split_and!; auto.
Qed.

End Page.

(** ** The icons *)

(** The icon of a marker is none of the five icons declared beside
    [letterIcon]: those are never drawn.  The colour of a marker is the
    background of the icon declared for the type of its stop. *)
Theorem declared_icons_unused (m : MarkerView) :
  (markerIcon m ∉ [droneIcon; truckIcon; hqIcon; launchIcon; landingIcon]) /\
  colourOf (m_type m) = ic_background (declaredIcon (m_type m)).
Proof.
  split; [|now destruct (m_type m)].
  rewrite !elem_of_cons, elem_of_nil. unfold markerIcon.
  intros [H|[H|[H|[H|[H|[]]]]]]; inversion H.
Qed.

(** ** A map *)

Definition example_points : list LatLng :=
  [mkLatLng 12.9716 77.5946; mkLatLng 13.9716 77.5946; mkLatLng 12.9716 78.5946].

Lemma example_fit :
  FitBounds example_points
  = Some (mkFit (mkBounds 12.9716 77.5946 13.9716 78.5946) (60, 60)%nat) /\
  FitBounds [] = None /\
  mf_center (mapFrameOf (env := example_env) example_points) = Some (mkLatLng 12.9716 77.5946).
Proof. split_and!; vm_compute; reflexivity. Qed.

Lemma plan_map_fitted_witness :
  exists points call,
    pointsOf (G := taxicab) (Some example_plan) [] = Some points /\
    length points = length (stopsOf (G := taxicab) (Some example_plan) []) /\
    mf_center (mapFrameOf (env := example_env) points) = Some (hqOf (Some example_plan)) /\
    mf_fit (mapFrameOf (env := example_env) points) = Some call /\
    Forall (inside (fit_bounds call)) points /\ touches (fit_bounds call) points /\
    fit_padding call = (60, 60)%nat.
Proof.
  apply (plan_map_fitted (G := taxicab) (env := example_env) _ _ _ _ example_figures_run).
  vm_compute. discriminate.
Defined.
