(* ===== verification/Workflow.v ===== *)
(** * Workflow: the state of the application and its transitions

    The state the two pages share is the browser's [localStorage]
    ([latestTrip], [editTrip], [allTrips], [dronesList], [xgbResult]); each
    page adds its React state.  [App] holds both, and every handler and
    effect of the pages is a function on it: the prefill effect, [setNum],
    [setField] and [submit] of [NewTrip.jsx]; the load effects, the route
    fetch and the wind fetch, each with the number of its requests that
    are out, "Execute Delivery", whose handler waits for its request
    ([executeClick], [executeResult]), and "Edit Delivery" of
    [PathPlanning.jsx].
    [step] is the transition relation of the application: one rule per
    event, enabled on the page that shows its control.  [wf] is the
    invariant of its runs; the theorems on what the pages do in a run are
    in [Pages].

    [NewTrip] measures in miles with [getDistance] and [PathPlanning] in
    kilometres with [haversineDistance]: the file takes two distances.  A
    field of the form is [None] when it is the empty string, which [Number]
    turns into 0; the number of deliveries is any number the input gives,
    and the rows follow it as [Array.from] makes them.  The fleet of the
    form comes from the context [useDrones], which is not in the sources:
    it is a parameter of a run.  So is the item [xgbResult] of the store,
    which the pages read and never write: a run starts with any text
    there, or none ([init]).  The request of "Execute Delivery" either
    succeeds or throws; its outcome is a parameter of the event.  Mounting a page
    starts its effects anew: the answers of the requests of a page that
    was left are dropped.  The first render of the plan page, which has no
    trip yet, and the effects that follow it at once are one step,
    [mountPathPlanning]: the load effect sets the trip and the route
    effect sends its request for the placeholder order of that render
    ([mountRoutes]).  After a later render an effect runs when a
    dependency of it has changed since its last run: the state keeps what
    the two fetch effects ran with ([Deps]), and [RouteStart] and
    [WindStart] are those runs.  Requests carry no identity; they are
    counted.  A render that throws removes the page: no event of the plan
    page is enabled after it ([drawn]), and the answers to its requests go
    nowhere. *)

From stdpp Require Import strings.
From S2P Require Import Prelude JsNum Geodesy Fleet Optimizer Sequencer Locator.
From S2P Require Import Composer Metrics Requests Wind View Routing.

(** ** Data *)

Inductive Route : Type := NewTripPage | PathPlanningPage | TripResultsPage.

(** [localStorage]. *)
Record Store : Type := mkStore {
  latestTrip : option Trip;
  editTrip : option Trip;
  allTrips : list Trip;
  dronesList : list Drone;
  xgbResult : option (StoredText XgbResult)
}.

(** A row of the form: [{ weight, latitude, longitude }]. *)
Record FormRow : Type := mkRow {
  f_weight : option Q;
  f_latitude : option Q;
  f_longitude : option Q
}.

Inductive Field : Type := FWeight | FLatitude | FLongitude.

(** What the two effects of the plan page ran with last: the text of
    [JSON.stringify(optimizedNodeOrder)], as the array it prints, and the
    dependency of the wind effect. *)
Record Deps : Type := mkDeps {
  routeRan : list LatLng;
  windRan : option (LatLng * LatLng)
}.

(** A page whose effects have not run. *)
Definition noDeps : Deps := mkDeps [] None.

(** What the handler of "Execute Delivery" holds while its request is
    out: the trip, the figures and the prediction of the render that was
    clicked. *)
Record Post : Type := mkPost {
  post_trip : Trip;
  post_figures : Figures;
  post_xgb : option XgbResult
}.

Record App : Type := mkApp {
  route : Route;
  store : Store;
  drones : list Drone;
  num : Q;
  del : list FormRow;
  trip : option Trip;
  alerts : list string;
  routing :> RouteState;
  pending : nat;
  winds : Flight;
  deps : Deps;
  posts : list Post
}.

(** The wind effect of a page that is mounted: its state is new, the
    speed in [localStorage] stays. *)
Definition remount (w : Flight) : Flight := (wind_init (storedWind w.1), 0%nat).

(** [{ weight: '', latitude: '', longitude: '' }]. *)
Definition blankRow : FormRow := mkRow None None None.

(** [Number(v)] of a field. *)
Definition Number (v : option Q) : Q := default 0 v.

(** [v || '']. *)
Definition or_empty (v : Q) : option Q := if truthy v then Some v else None.

(** A delivery as [optimizeTrip] reads a row: [submit] converts the weight,
    and the arithmetic of [getDistance] converts the latitude and the
    longitude, which stay strings in the object. *)
Definition toDelivery (d : FormRow) : Delivery :=
  mkDelivery (Number (f_weight d)) (Number (f_latitude d)) (Number (f_longitude d)).

(** A row as the prefill effect builds it from a stored delivery.  The
    weight is a number there, so [d.weight || ''] empties a weight of 0;
    the latitude and the longitude are the texts [required] has let
    through, which [||] keeps, the text of 0 too. *)
Definition toRow (d : Delivery) : FormRow :=
  mkRow (or_empty (weight d)) (Some (latitude d)) (Some (longitude d)).

(** The state [xgbResult] of the plan page: what its load effect reads
    from the store, which no handler of the two pages writes. *)
Definition xgbOf (a : App) : option XgbResult := loadXgbResult (xgbResult (store a)).

Definition set_store (a : App) (s : Store) : App :=
  mkApp (route a) s (drones a) (num a) (del a) (trip a) (alerts a)
    (routing a) (pending a) (winds a) (deps a) (posts a).

Definition alert (msg : string) (a : App) : App :=
  mkApp (route a) (store a) (drones a) (num a) (del a) (trip a) (alerts a ++ [msg])
    (routing a) (pending a) (winds a) (deps a) (posts a).

(** ** [NewTrip] *)

(** The deliveries the prefill effect reads from a trip. *)
Definition editDeliveries (t : Trip) : list Delivery :=
  match droneDelivery t with Some d => [d] | None => [] end
  ++ default [] (truckDeliveries t).

(** Mounting [NewTrip]: the initial state of the form, then the prefill
    effect. *)
Definition mountNewTrip (a : App) : App :=
  match editTrip (store a) with
  | Some t =>
      let deliveries := editDeliveries t in
      mkApp NewTripPage (store a) (drones a) (ofNat (length deliveries))
        (toRow <$> deliveries)
        None (alerts a) idle 0 (remount (winds a)) noDeps (posts a)
  | None =>
      mkApp NewTripPage (store a) (drones a) 1 [blankRow] None (alerts a) idle 0
        (remount (winds a)) noDeps (posts a)
  end.

(** The [onChange] of the number of deliveries: [setNum(v)], then
    [setDel] of the rows [Array.from] builds, the old ones first; when
    [Array.from] throws the handler ends there and the rows stay. *)
Definition setNum (v : Q) (a : App) : App :=
  mkApp (route a) (store a) (drones a) v
    (default (del a) (Array_from v (fun i => default blankRow (del a !! i))))
    (trip a) (alerts a) (routing a) (pending a) (winds a) (deps a) (posts a).

Definition set_field (f : Field) (v : option Q) (d : FormRow) : FormRow :=
  match f with
  | FWeight => mkRow v (f_latitude d) (f_longitude d)
  | FLatitude => mkRow (f_weight d) v (f_longitude d)
  | FLongitude => mkRow (f_weight d) (f_latitude d) v
  end.

(** [setField(idx, f, v)]: the field is written in the row [idx] of a
    copy of the rows.  At an index with no row [updated[idx][f] = v] throws
    before [setDel] and the rows stay; the inputs of the form call it for
    the rows they are drawn from only. *)
Definition setField (idx : nat) (f : Field) (v : option Q) (a : App) : App :=
  mkApp (route a) (store a) (drones a) (num a)
    (alter (set_field f v) idx (del a)) (trip a) (alerts a) (routing a) (pending a) (winds a)
    (deps a) (posts a).

(** What the browser accepts in an input of [type="number"] with
    [min="m"] and no [step]: a value that is not below [m] and a whole
    number of steps of 1 away from it. *)
Definition number_valid (m v : Q) : bool := Qle_bool m v && whole (v - m).

(** The constraints the inputs of the form declare: every field of a row
    is [required] and the weight is a number with [min="0"]. *)
Definition valid_row (d : FormRow) : bool :=
  match f_weight d, f_latitude d, f_longitude d with
  | Some w, Some _, Some _ => number_valid 0 w
  | _, _, _ => false
  end.

(** The form passes the validation of the browser, which then fires
    [onSubmit]: the number of deliveries is a number with [min="1"]. *)
Definition valid_form (a : App) : bool :=
  number_valid 1 (num a) && forallb valid_row (del a).

(** ** [PathPlanning] *)

(** The state of the route effect and the number of its requests that
    are out. *)
Definition routes (a : App) : Routes := (routing a, pending a).

Definition set_routes (a : App) (s : Routes) : App :=
  mkApp (route a) (store a) (drones a) (num a) (del a) (trip a) (alerts a) s.1 s.2
    (winds a) (deps a) (posts a).

Definition set_winds (a : App) (w : Flight) : App :=
  mkApp (route a) (store a) (drones a) (num a) (del a) (trip a) (alerts a)
    (routing a) (pending a) w (deps a) (posts a).

Definition set_deps (a : App) (d : Deps) : App :=
  mkApp (route a) (store a) (drones a) (num a) (del a) (trip a) (alerts a)
    (routing a) (pending a) (winds a) d (posts a).

Definition set_posts (a : App) (l : list Post) : App :=
  mkApp (route a) (store a) (drones a) (num a) (del a) (trip a) (alerts a)
    (routing a) (pending a) (winds a) (deps a) l.

(** The wind fetch ends with the response [r] of the service. *)
Definition windResult (r : WindResponse) (a : App) : App :=
  set_winds a (fetchWind_end r (winds a).1, Nat.pred (winds a).2).

(** The route fetch ends with the answer [r] of the service. *)
Definition routeResult (r : RouteResponse) (a : App) : App :=
  set_routes a (fetchRoute_end r a, Nat.pred (pending a)).

(** The two distances of the application: [Gmi] measures for the form
    page, [Gkm] for the plan page. *)
Class Units : Type := { Gmi : Geodesy; Gkm : Geodesy }.

Section Workflow.
Context {U : Units} {env : Env}.

(** The order of the first render of [PathPlanning], which has no trip. *)
Definition placeholderOrder : list LatLng := optimizedNodeOrder (pageOf (G := Gkm) None).

(** The route effect after the first render: it runs with the order of
    that render, before the trip the load effect sets is rendered. *)
Definition mountRoutes : Routes :=
  let r := routeEffect placeholderOrder idle in
  (r.1, if r.2 is Some _ then 1%nat else 0%nat).

(** Mounting [PathPlanning]: the initial state, the load effect, which
    reads [latestTrip] or goes back to the form, and the two fetch effects
    of the first render: the route effect with the order of that render,
    the wind effect with no launch point. *)
Definition mountPathPlanning (a : App) : App :=
  match latestTrip (store a) with
  | Some t =>
      mkApp PathPlanningPage (store a) (drones a) (num a) (del a) (Some t) (alerts a)
        mountRoutes.1 mountRoutes.2 (remount (winds a)) (mkDeps placeholderOrder None)
        (posts a)
  | None => mountNewTrip a
  end.

(** The order the route effect reads. *)
Definition orderOf (a : App) : list LatLng := optimizedNodeOrder (pageOf (G := Gkm) (trip a)).

(** The route effect runs after a render: it calls [fetchRoute] under its
    guard. *)
Definition routeStart (a : App) : App :=
  let r := routeEffect (orderOf a) a in
  set_deps (set_routes a (r.1, if r.2 is Some _ then S (pending a) else pending a))
    (mkDeps (orderOf a) (windRan (deps a))).

(** The wind effect runs after a render: [fetchWind] starts its request
    when it has a point to ask about. *)
Definition windStart (a : App) : App :=
  let w := if windQueryOf (G := Gkm) (trip a) (truckPolyline a) is Some _
           then (fetchWind_start (winds a).1, S (winds a).2) else winds a in
  set_deps (set_winds a w)
    (mkDeps (routeRan (deps a)) (windDepsOf (G := Gkm) (trip a) (truckPolyline a))).

(** An effect runs after a render when a dependency of it is not what it
    was at its last run. *)
Definition routeChanged (a : App) : bool :=
  negb (same_points (orderOf a) (routeRan (deps a))).

Definition windChanged (a : App) : bool :=
  negb (same_deps (windDepsOf (G := Gkm) (trip a) (truckPolyline a)) (windRan (deps a))).

(** [submit]. *)
Definition submit (now : string) (a : App) : App :=
  let deliveries := toDelivery <$> del a in
  match optimizeTrip (G := Gmi) (drones a) now deliveries with
  | Some t =>
      mountPathPlanning
        (set_store a (mkStore (Some t) None (allTrips (store a)) (dronesList (store a))
                        (xgbResult (store a))))
  | None => alert "No feasible drone delivery found. All deliveries assigned to truck." a
  end.

(** What the page shows. *)
Definition shown (a : App) : Render Figures :=
  figuresOf (G := Gkm) (trip a) (truckPolyline a) (xgbOf a).

(** The page drawn. *)
Definition shownView (a : App) : Render View :=
  viewOf (G := Gkm) (trip a) (truckPolyline a) (xgbOf a) (winds a).1
    (routeError a).

(** The first of the two places of the suggested drone id that is there
    and not empty. *)
Definition mlDroneIdOf (x : option XgbResult) : option string :=
  xgb ← x;
  match drone_id xgb with
  | Some s => if decide (s = String.EmptyString) then drone_drone_id xgb else Some s
  | None => drone_drone_id xgb
  end.

(** The trip "Execute Delivery" saves: its drone unavailable, the figures
    of the page added. *)
Definition executedTrip (x : option XgbResult) (f : Figures) (t : Trip) : Trip :=
  mkTrip
    ((fun d => mkDrone (droneId d) (payload d) (currentBattery d) false) <$> Fleet.drone t)
    (droneDelivery t) (truckDeliveries t) (droneDist t) (truckDist t)
    (Some (fig_carbonReduction f)) (totalTime t) (hybridCarbon t) (truckOnlyCarbon t)
    (truckOnlyTime t) (deliveries t) (createdAt t) (hqLat t) (hqLng t)
    (mlPredictedDelivery t)
    (Some (mkTripStats (fig_carbonReduction f) (carbonEmission f) (totalTripTime f)
             (truckOnlyTotalTime f) (timeSaved f) (mlDroneIdOf x))).

(** [dronesList.map(d => d.droneId === trip.drone.droneId ? { ...d, available: false } : d)]. *)
Definition markUnavailable (dr : option Drone) (l : list Drone) : list Drone :=
  match dr with
  | Some dr =>
      (fun d => if decide (droneId d = droneId dr)
                then mkDrone (droneId d) (payload d) (currentBattery d) false else d) <$> l
  | None => l
  end.

(** "Execute Delivery" is clicked: the handler sends its request and
    waits. *)
Definition executeClick (a : App) : App :=
  match shown a, trip a with
  | Shown f, Some t => set_posts a (posts a ++ [mkPost t f (xgbOf a)])
  | _, _ => a
  end.

(** The rest of the handler, when its request has ended: with what the
    click saw, on the store and the page as they are then. *)
Definition posted (p : Post) (postOk : bool) (a : App) : App :=
  if postOk then
    let s := store a in
    mkApp TripResultsPage
      (mkStore None (editTrip s)
         (allTrips s ++ [executedTrip (post_xgb p) (post_figures p) (post_trip p)])
         (markUnavailable (Fleet.drone (post_trip p)) (dronesList s)) (xgbResult s))
      (drones a) (num a) (del a) (trip a) (alerts a) (routing a) (pending a) (winds a)
      (deps a) (posts a)
  else alert "Error: Failed to execute trip." a.

(** The request of the click [k] of those that wait ends. *)
Definition executeResult (k : nat) (postOk : bool) (a : App) : App :=
  match posts a !! k with
  | Some p => posted p postOk (set_posts a (delete k (posts a)))
  | None => a
  end.

(** A click whose request ends before anything else happens. *)
Definition execute (postOk : bool) (a : App) : App :=
  executeResult (length (posts a)) postOk (executeClick a).

(** "Edit Delivery". *)
Definition edit (a : App) : App :=
  match shown a, trip a with
  | Shown _, Some t =>
      let s := store a in
      mountNewTrip
        (set_store a (mkStore (latestTrip s) (Some t) (allTrips s) (dronesList s)
                        (xgbResult s)))
  | _, _ => a
  end.

(** ** The transition relation *)

(** The plan page is there: it is mounted and its render has not
    thrown. *)
Definition drawn (a : App) : Prop := route a = PathPlanningPage /\ shown a <> Throws.

Inductive Event : Type :=
| SetNum (v : Q)
| SetField (idx : nat) (f : Field) (v : option Q)
| Submit (now : string)
| RouteStart
| RouteResult (r : RouteResponse)
| WindStart
| WindResult (r : WindResponse)
| Execute
| ExecuteResult (k : nat) (postOk : bool)
| Edit
| Open (page : Route).

(** One rule for every event.  The events [RouteStart] and [WindStart]
    are the runs of the two fetch effects after a render, which React
    makes when a dependency of the effect has changed.  A request for the
    road route or for the wind is not cancelled: its answer arrives while
    the page is mounted, in any order with the other events and with the
    answers of the other requests that are out.  The handler of "Execute
    Delivery" waits for its request too, and its rest runs when the
    request ends, on whatever page is shown then.  A render that throws
    leaves no page: the tree is removed, and nothing of the plan page
    happens after it. *)
Inductive step : App -> Event -> App -> Prop :=
| step_setNum a v :
    route a = NewTripPage -> step a (SetNum v) (setNum v a)
| step_setField a idx f v :
    route a = NewTripPage -> step a (SetField idx f v) (setField idx f v a)
| step_submit a now :
    route a = NewTripPage -> valid_form a = true ->
    step a (Submit now) (submit now a)
| step_routeStart a :
    drawn a -> routeChanged a = true ->
    step a RouteStart (routeStart a)
| step_routeResult a r :
    drawn a -> (0 < pending a)%nat ->
    step a (RouteResult r) (routeResult r a)
| step_windStart a :
    drawn a -> windChanged a = true ->
    step a WindStart (windStart a)
| step_windResult a r :
    drawn a -> (0 < (winds a).2)%nat ->
    step a (WindResult r) (windResult r a)
| step_execute a :
    drawn a -> step a Execute (executeClick a)
| step_executeResult a k postOk :
    (k < length (posts a))%nat -> step a (ExecuteResult k postOk) (executeResult k postOk a)
| step_edit a :
    drawn a -> step a Edit (edit a)
| step_open_newtrip a :
    step a (Open NewTripPage) (mountNewTrip a)
| step_open_pathplanning a :
    step a (Open PathPlanningPage) (mountPathPlanning a).

(** The application started on the form with a fleet and a store that is
    empty but for the item [xgbResult]: the two pages read that item and
    never write it, so a run starts with whatever text [x] the predictor
    has left there, or with none. *)
Definition init (fleet : list Drone) (x : option (StoredText XgbResult)) : App :=
  mkApp NewTripPage (mkStore None None [] fleet x) fleet 1 [blankRow] None [] idle 0
    (wind_init None, 0%nat) noDeps [].

Inductive reachable (fleet : list Drone) : App -> Prop :=
| reachable_init x : reachable fleet (init fleet x)
| reachable_step a e a' : reachable fleet a -> step a e a' -> reachable fleet a'.

(** ** The invariant of the application *)

(** A plan of the optimizer for its own list of deliveries. *)
Definition is_plan (fleet : list Drone) (t : Trip) : Prop :=
  exists now, optimizeTrip (G := Gmi) fleet now (deliveries t) = Some t.

Record wf (fleet : list Drone) (a : App) : Prop := mkWf {
  wf_drones : drones a = fleet;
  wf_num : num a < MAX_ARRAY_LENGTH -> length (del a) = toLength (num a);
  wf_latest : forall t, latestTrip (store a) = Some t -> is_plan fleet t;
  wf_edit : forall t, editTrip (store a) = Some t -> is_plan fleet t;
  wf_trip : forall t, trip a = Some t -> is_plan fleet t;
  wf_page : route a = PathPlanningPage ->
            is_Some (trip a) /\ trip a = latestTrip (store a);
  wf_polyline : truckPolyline a <> [] ->
                (1 < length (optimizedNodeOrder (pageOf (G := Gkm) (trip a))))%nat;
  wf_routes : route_reachable (routes a);
  wf_winds : exists stored, wind_reachable stored (winds a);
  wf_asked : route a = PathPlanningPage -> (0 < (winds a).2)%nat ->
             forall t, trip a = Some t -> default [] (truckDeliveries t) <> []
}.

Lemma is_plan_optimizeTrip fleet now deliveries t :
  optimizeTrip (G := Gmi) fleet now deliveries = Some t -> is_plan fleet t.
Proof.
  intros E. exists now. pose proof E as (i & d & dr & rest & _ & _ & -> & _)%optimizeTrip_Some.
  exact E.
Qed.

(** Prove the fields of the invariant from the fields in the context. *)
Ltac wf_fields :=
  split;
  cbn [route store drones num del trip truckPolyline alerts
       latestTrip editTrip allTrips dronesList xgbResult set_store alert init
       setNum setField routeResult set_routes routing pending routes idle
       fetchRoute_start fetchRoute_catch fst snd winds set_winds windResult remount
       set_deps deps set_posts posts];
  try match goal with E : trip ?a = Some ?t |- _ => rewrite <- ?E end;
  rewrite ?length_fmap, ?length_seq, ?length_alter, ?toLength_ofNat;
  try solve [ auto | discriminate | congruence | intros; congruence | lia
            | apply flights_init | eexists; apply wind_reachable_init
            | intros ? [= <-]; auto | intros; split; eauto; congruence ].

Lemma number_valid_spec m v :
  number_valid m v = true <-> m <= v /\ exists z, v == m + inject_Z z.
Proof.
  unfold number_valid. rewrite andb_true_iff, Qle_bool_iff, whole_spec.
  split; intros [H [z Hz]]; (split; [exact H|]); exists z; lra.
Qed.

(** From 0 and from 1 the steps of 1 are the whole numbers. *)
Lemma number_valid_whole (m : Z) v :
  number_valid (inject_Z m) v = true <-> inject_Z m <= v /\ whole v = true.
Proof.
  rewrite number_valid_spec, whole_spec.
  split; intros [H [z Hz]]; (split; [exact H|]).
  - exists (m + z)%Z. rewrite inject_Z_plus. exact Hz.
  - exists (z - m)%Z. unfold Zminus. rewrite inject_Z_plus, inject_Z_opp. lra.
Qed.

Lemma mountRoutes_cases :
  mountRoutes = (idle, 0%nat) \/ mountRoutes = (fetchRoute_start idle, 1%nat).
Proof.
  unfold mountRoutes. rewrite routeEffect_guard. destruct (routeGuard _) eqn:Hg; [|now left].
  apply routeGuard_true in Hg as [_ [tok Htok]]. unfold requestOf. rewrite Htok. now right.
Qed.

Lemma mountRoutes_reachable : route_reachable mountRoutes.
Proof.
  destruct mountRoutes_cases as [->| ->]; [constructor|].
  apply route_reachable_start. constructor.
Qed.

Lemma mountRoutes_polyline : truckPolyline mountRoutes.1 = [].
Proof. now destruct mountRoutes_cases as [->| ->]. Qed.

(** A plan has a drone delivery. *)
Lemma plan_droneDelivery fleet t :
  is_plan fleet t -> is_Some (pg_droneDelivery (pageOf (G := Gkm) (Some t))).
Proof.
  intros [now (i & d & dr & rest & _ & _ & Heq & _)%optimizeTrip_Some].
  rewrite Heq. simpl. eauto.
Qed.

(** Whether the render of a plan throws is decided by the plan alone: it
    throws when the plan has no truck delivery, whatever has been fetched. *)
Lemma plan_Throws_iff fleet a t :
  wf fleet a -> trip a = Some t ->
  shown a = Throws <-> default [] (truckDeliveries t) = [].
Proof.
  intros H E. unfold shown. rewrite E. rewrite figuresOf_Throws_iff. split; [tauto|].
  intros Hnil. split_and!; [apply (plan_droneDelivery fleet), (wf_trip _ _ H _ E) | exact Hnil|].
  destruct (truckPolyline a) as [|p l] eqn:Ep; [simpl; lia|].
  assert (truckPolyline a <> []) as Hne by (rewrite Ep; discriminate).
  pose proof (wf_polyline _ _ H Hne) as Hlen.
  rewrite E, length_pageOf_order, Hnil in Hlen. simpl in Hlen. lia.
Qed.

(** The route of a page that is there has at least two points. *)
Lemma drawn_order fleet a :
  wf fleet a -> drawn a ->
  (1 < length (optimizedNodeOrder (pageOf (G := Gkm) (trip a))))%nat.
Proof.
  intros H [Hp Hs]. destruct (wf_page _ _ H Hp) as [[t E] _].
  rewrite E, length_pageOf_order.
  destruct (default [] (truckDeliveries t)) eqn:Hnil; [|simpl; lia].
  destruct Hs. now apply (plan_Throws_iff fleet a t).
Qed.

Lemma drawn_trucks fleet a t :
  wf fleet a -> drawn a -> trip a = Some t -> default [] (truckDeliveries t) <> [].
Proof. intros H [_ Hs] E Hnil. apply Hs. now apply (plan_Throws_iff fleet a t). Qed.

(** Whether the page is there is decided by the plan alone. *)
Lemma drawn_iff fleet a :
  wf fleet a ->
  drawn a <-> route a = PathPlanningPage /\
              exists t, trip a = Some t /\ default [] (truckDeliveries t) <> [].
Proof.
  intros H. split.
  - intros Hd. split; [apply Hd|]. destruct (wf_page _ _ H (proj1 Hd)) as [[t E] _].
    exists t. split; [exact E | now apply (drawn_trucks fleet a)].
  - intros [Hp (t & E & Hne)]. split; [exact Hp|].
    now rewrite (plan_Throws_iff fleet a t H E).
Qed.

(** An event that keeps the page and its plan keeps the page there. *)
Lemma drawn_keeps fleet a a' :
  wf fleet a -> wf fleet a' -> route a' = route a -> trip a' = trip a ->
  drawn a -> drawn a'.
Proof.
  intros H H' Hr Ht. rewrite (drawn_iff fleet a H), (drawn_iff fleet a' H'), Hr, Ht. tauto.
Qed.

Lemma wf_init fleet x : wf fleet (init fleet x).
Proof. wf_fields. Qed.

Lemma wf_mountNewTrip fleet a : wf fleet a -> wf fleet (mountNewTrip a).
Proof.
  intros H. unfold mountNewTrip.
  destruct (editTrip (store a)) eqn:E; destruct H; wf_fields.
Qed.

Lemma wf_mountPathPlanning fleet a : wf fleet a -> wf fleet (mountPathPlanning a).
Proof.
  intros H. unfold mountPathPlanning.
  destruct (latestTrip (store a)) as [t|] eqn:E; [|now apply wf_mountNewTrip].
  pose proof mountRoutes_reachable as Hm. pose proof mountRoutes_polyline as Hpl.
  destruct mountRoutes as [s n]. cbn [fst] in Hpl.
  destruct H as [Hd Hn Hl He Ht Hp Hpoly Hroutes Hwinds Hasked].
  wf_fields.
Qed.

Lemma wf_submit fleet now a : wf fleet a -> wf fleet (submit now a).
Proof.
  intros H. unfold submit.
  destruct (optimizeTrip _ _ _) as [t|] eqn:E;
    destruct H as [Hd Hn Hl He Ht Hp Hpoly Hroutes Hwinds Hasked]; [|wf_fields].
  rewrite Hd in E. apply is_plan_optimizeTrip in E.
  pose proof mountRoutes_reachable as Hm. pose proof mountRoutes_polyline as Hpl.
  unfold mountPathPlanning. cbn [latestTrip store set_store].
  destruct mountRoutes as [s n]. cbn [fst] in Hpl. wf_fields.
Qed.

Lemma wf_executeClick fleet a : wf fleet a -> wf fleet (executeClick a).
Proof.
  intros H. unfold executeClick.
  destruct (shown a) as [| |f]; try exact H. destruct (trip a) as [t|] eqn:E; [|exact H].
  destruct H; wf_fields.
Qed.

Lemma wf_executeResult fleet k postOk a : wf fleet a -> wf fleet (executeResult k postOk a).
Proof.
  intros H. unfold executeResult, posted. destruct (posts a !! k) as [p|]; [|exact H].
  destruct postOk; destruct H; wf_fields.
Qed.

Lemma wf_edit_handler fleet a : wf fleet a -> wf fleet (edit a).
Proof.
  intros H. unfold edit.
  destruct (shown a) as [| |f]; try exact H. destruct (trip a) as [t|] eqn:E; [|exact H].
  destruct H as [Hd Hn Hl He Ht Hp Hpoly Hroutes Hwinds Hasked].
  unfold mountNewTrip. simpl. wf_fields.
Qed.

Lemma wf_routeStart fleet a : wf fleet a -> wf fleet (routeStart a).
Proof.
  intros H. unfold routeStart.
  destruct (routeEffect_cases (orderOf a) a) as [[_ (q & ->)]|[_ ->]]; destruct H; wf_fields.
  now apply route_reachable_start.
Qed.

Lemma wf_routeResult fleet r a :
  drawn a -> (0 < pending a)%nat -> wf fleet a -> wf fleet (routeResult r a).
Proof.
  intros Hdrawn Hp H. pose proof (drawn_order fleet a H Hdrawn) as Hlen. unfold routeResult.
  assert (route_reachable (fetchRoute_end r a, Nat.pred (pending a))) as Hr.
  { pose proof (wf_routes _ _ H) as Hr. unfold routes in Hr.
    destruct (pending a) as [|n]; [lia | now apply route_reachable_end]. }
  destruct (fetchRoute_end_cases r a) as [(g & rest & _ & E)|[_ E]]; rewrite E in *;
    destruct H; wf_fields.
Qed.

Lemma wf_windStart fleet a : drawn a -> wf fleet a -> wf fleet (windStart a).
Proof.
  intros Hdrawn H. pose proof (fun t => drawn_trucks fleet a t H Hdrawn) as Htr.
  unfold windStart. destruct (windQueryOf _ _); [|destruct H; wf_fields].
  destruct H as [? ? ? ? ? ? ? ? [stored Hw] ?]. wf_fields; try (intros _ _; exact Htr).
  exists stored. destruct (winds a) as [w n]. now apply wind_reachable_start.
Qed.

Lemma wf_windResult fleet r a :
  drawn a -> (0 < (winds a).2)%nat -> wf fleet a -> wf fleet (windResult r a).
Proof.
  intros Hdrawn Hp H. pose proof (fun t => drawn_trucks fleet a t H Hdrawn) as Htr.
  destruct H as [? ? ? ? ? ? ? ? [stored Hw] ?]. wf_fields; try (intros _ _; exact Htr).
  exists stored. destruct (winds a) as [w [|n]]; [simpl in Hp; lia|].
  now apply wind_reachable_end.
Qed.

Lemma wf_setNum fleet v a : wf fleet a -> wf fleet (setNum v a).
Proof.
  intros H. destruct H. wf_fields. intros Hv.
  destruct (Array_from v _) as [l|] eqn:E; [now apply length_Array_from in E|].
  apply Array_from_None in E. lra.
Qed.

Lemma wf_step fleet a e a' : wf fleet a -> step a e a' -> wf fleet a'.
Proof.
  intros H Hs. destruct Hs;
    auto using wf_setNum, wf_submit, wf_executeClick, wf_executeResult, wf_edit_handler,
      wf_mountNewTrip,
      wf_mountPathPlanning, wf_routeStart, wf_routeResult, wf_windStart, wf_windResult.
  all: destruct H; wf_fields.
Qed.

(** The invariant along a run, in the form the lemmas below use. *)
Lemma wf_reachable fleet a : reachable fleet a -> wf fleet a.
Proof. induction 1; eauto using wf_init, wf_step. Qed.

(** C14: every state the application reaches from its start keeps the
    invariant: the fleet is unchanged, every trip in [latestTrip], in
    [editTrip] and on the plan page is a plan the optimizer returned for its
    own deliveries, the plan page always has the stored latest trip loaded,
    a road polyline is present only for a route of at least two points, a
    request for the wind is out only for a plan with a truck delivery, and
    the states of the two fetch effects with their requests that are out
    are states of the machines of [Routing] and [Wind]. *)
Theorem reachable_wf fleet a : reachable fleet a -> wf fleet a.
Proof. induction 1; eauto using wf_init, wf_step. Qed.

End Workflow.

(** ** The application run, with the taxicab distance on both pages *)

Definition taxicab_units : Units := {| Gmi := taxicab; Gkm := taxicab |}.

#[local] Existing Instance example_env.
#[local] Existing Instance taxicab_units.

Definition example_fleet : list Drone := [mkDrone "D1" 10 50 true].

(** Two deliveries typed into the form. *)
Definition fill (a : App) : App :=
  setField 1 FLongitude (Some 78.5946)
    (setField 1 FLatitude (Some 12.9716)
       (setField 1 FWeight (Some 3)
          (setField 0 FLongitude (Some 77.5946)
             (setField 0 FLatitude (Some 13.9716)
                (setField 0 FWeight (Some 5) (setNum 2 a)))))).

Definition example_form : App := fill (init example_fleet None).

Definition example_app : App :=
  submit (U := taxicab_units) "t0" example_form.

(** The same form and plan in a browser in which the predictor has
    stored a time of 7 minutes. *)
Definition example_stored : option (StoredText XgbResult) :=
  Some (TextJson (Some (mkXgbResult (Some 7) None None None None))).

Definition predicted_app : App :=
  submit (U := taxicab_units) "t0" (fill (init example_fleet example_stored)).

(** One delivery typed into the form. *)
Definition single_delivery_app : App :=
  submit (U := taxicab_units) "t0"
    (setField 0 FLongitude (Some 77.5946)
       (setField 0 FLatitude (Some 13.9716)
          (setField 0 FWeight (Some 5) (init example_fleet None)))).

(** A run given by the term of its last state, one handler a step. *)
Ltac drawn_now := split; [reflexivity | vm_compute; discriminate].

Ltac run_step :=
  lazymatch goal with
  | |- reachable _ (submit _ _) =>
      eapply reachable_step; [|apply step_submit; vm_compute; reflexivity]
  | |- reachable _ (routeResult _ _) =>
      eapply reachable_step; [|apply step_routeResult; [drawn_now | vm_compute; lia]]
  | |- reachable _ (routeStart _) =>
      eapply reachable_step; [|apply step_routeStart; [drawn_now | vm_compute; reflexivity]]
  | |- reachable _ (windResult _ _) =>
      eapply reachable_step; [|apply step_windResult; [drawn_now | vm_compute; lia]]
  | |- reachable _ (windStart _) =>
      eapply reachable_step; [|apply step_windStart; [drawn_now | vm_compute; eauto]]
  | |- reachable _ (executeClick _) =>
      eapply reachable_step; [|apply step_execute; drawn_now]
  | |- reachable _ (executeResult _ _ _) =>
      eapply reachable_step; [|apply step_executeResult; vm_compute; lia]
  | |- reachable _ (edit _) =>
      eapply reachable_step; [|apply step_edit; drawn_now]
  | |- reachable _ (setField _ _ _ _) =>
      eapply reachable_step; [|apply step_setField; reflexivity]
  | |- reachable _ (setNum _ _) =>
      eapply reachable_step; [|apply step_setNum; reflexivity]
  end.

Ltac run_steps := repeat run_step; apply reachable_init.

Lemma example_reachable :
  reachable (U := taxicab_units) example_fleet example_app.
Proof. unfold example_app, example_form, fill. run_steps. Qed.

Lemma predicted_reachable :
  reachable (U := taxicab_units) example_fleet predicted_app.
Proof. unfold predicted_app, fill. run_steps. Qed.

Lemma single_delivery_reachable :
  reachable (U := taxicab_units) example_fleet single_delivery_app.
Proof. unfold single_delivery_app. run_steps. Qed.

Lemma reachable_wf_witness :
  wf (U := taxicab_units) example_fleet example_app.
Proof. apply reachable_wf, example_reachable. Defined.
