(* ===== verification/Pages.v ===== *)
(** * Pages: what the two pages do in a run of the application

    The theorems on the runs of [Workflow.step]: what the plan page shows
    in a reachable state, what [submit], "Execute Delivery" and "Edit
    Delivery" do to the store and the page, and how the two fetch effects
    of the plan page behave among the other events: each step is a step
    of their machines, their requests that are out are bounded ([sent]),
    the runs of the effects after a render come to rest ([effect_run],
    [flushEffects]), and the answers end the loading.  The runs at the
    end use the taxicab distance on both pages; among them are the
    interleavings that go wrong: an answer for the placeholder route, two
    clicks on "Execute Delivery", and "Edit Delivery" while a click
    waits. *)

From stdpp Require Import strings relations.
From S2P Require Import Prelude JsNum Geodesy Fleet Optimizer Sequencer Locator.
From S2P Require Import Composer Metrics Requests Wind View Routing Workflow.

Section Pages.
Context {U : Units} {env : Env}.

(** ** The plan page in a reachable state *)

(** The plan on the page: the object the optimizer built for a delivery
    [i] of its deliveries. *)
Lemma page_plan fleet a :
  reachable fleet a -> route a = PathPlanningPage ->
  exists t now i d dr, trip a = Some t /\ deliveries t !! i = Some d /\
    availableDrones fleet d <> [] /\
    t = tripOf (G := Gmi) now (deliveries t) i d dr.
Proof.
  intros [Hd Hn Hl He Ht Hp Hpoly _ _ _]%wf_reachable Hr.
  destruct (Hp Hr) as [[t E] _]. destruct (Ht t E) as [now Hplan].
  pose proof Hplan as (i & d & dr & rest & Hi & Hav & Heq & _)%optimizeTrip_Some.
  exists t, now, i, d, dr. rewrite Hav. repeat split; auto.
Qed.

Lemma truckDeliveries_tripOf now deliveries i d dr :
  default [] (truckDeliveries (tripOf (G := Gmi) now deliveries i d dr)) = delete i deliveries.
Proof. simpl. apply filter_index_ne. Qed.

Lemma delete_nil_iff {A} (l : list A) i :
  (i < length l)%nat -> delete i l = [] <-> length l = 1%nat.
Proof.
  intros Hi. pose proof (length_delete l i (lookup_lt_is_Some_2 l i Hi)) as H.
  split; [intros E; rewrite E in H; simpl in H; lia|].
  intros E. apply nil_length_inv. lia.
Qed.

(** The render of the plan page in a reachable state: the plan is one the
    optimizer built, it has no predicted delivery, its truck deliveries
    are its deliveries without the drone delivery, and its figures are
    computed unless it has a single delivery. *)
Lemma page_render fleet a :
  reachable fleet a -> route a = PathPlanningPage ->
  exists t, trip a = Some t /\ mlPredictedDelivery t = None /\
    S (length (default [] (truckDeliveries t))) = length (deliveries t) /\
    ((shown a = Throws /\ length (deliveries t) = 1%nat) \/
     (exists f, shown a = Shown f) /\ (2 <= length (deliveries t))%nat).
Proof.
  intros Hreach Hr.
  destruct (page_plan fleet a Hreach Hr) as (t & now & i & d & dr & E & Hi & _ & Heq).
  pose proof (wf_reachable _ _ Hreach) as [_ _ _ _ _ _ Hpoly _ _ _]. rewrite E in Hpoly.
  pose proof (lookup_lt_Some _ _ _ Hi) as Hlt.
  assert (default [] (truckDeliveries t) = delete i (deliveries t)) as Htd
    by (rewrite Heq at 1; apply truckDeliveries_tripOf).
  assert (S (length (default [] (truckDeliveries t))) = length (deliveries t)) as Hlen
    by (rewrite Htd, length_delete by eauto; lia).
  exists t. split_and!; [exact E | now rewrite Heq | exact Hlen |].
  unfold shown. rewrite E.
  destruct (figuresOf (Some t) (truckPolyline a) (xgbOf a)) as [| |f] eqn:Ef.
  - apply figuresOf_Loading_iff in Ef as [|Ef]; [discriminate|].
    rewrite Heq in Ef. discriminate.
  - left. split; [reflexivity|]. apply figuresOf_Throws_iff in Ef as (_ & Hnil & _).
    rewrite Hnil in Hlen. simpl in Hlen. lia.
  - right. split; [eauto|]. destruct (decide (2 <= length (deliveries t))%nat); [assumption|].
    assert (figuresOf (G := Gkm) (Some t) (truckPolyline a) (xgbOf a) = Throws)
      as HT; [|congruence].
    assert (default [] (truckDeliveries t) = []) as Hnil by (apply nil_length_inv; lia).
    apply figuresOf_Throws_iff. split_and!; [rewrite Heq; simpl; eauto | exact Hnil |].
    destruct (truckPolyline a) as [|p l]; [simpl; lia|].
    specialize (Hpoly ltac:(discriminate)).
    rewrite length_pageOf_order, Hnil in Hpoly. simpl in Hpoly. lia.
Qed.

(** C13: on the plan page, in every state the application can reach, the
    stored plan is loaded and the placeholder is never shown; the render
    throws exactly when the form had a single delivery, which then goes by
    drone and leaves the truck route with the depot alone. *)
Theorem plan_page_outcome fleet a :
  reachable fleet a -> route a = PathPlanningPage ->
  exists t, trip a = Some t /\ shown a <> Loading /\
    (shown a = Throws <-> length (deliveries t) = 1%nat).
Proof.
  intros Hreach Hr.
  destruct (page_render fleet a Hreach Hr) as (t & E & _ & _ & [[-> Hl]|[[f ->] Hl]]);
    exists t; (split_and!; [exact E | discriminate | split; intros; (lia || discriminate || auto)]).
Qed.

(** The wind is asked for exactly on the pages that are drawn. *)
Lemma page_wind_query fleet a :
  reachable fleet a -> route a = PathPlanningPage ->
  match shown a with
  | Loading => False
  | Throws => windQueryOf (G := Gkm) (trip a) (truckPolyline a) = None
  | Shown _ => is_Some (windQueryOf (G := Gkm) (trip a) (truckPolyline a))
  end.
Proof.
  intros Hreach Hr.
  destruct (page_render fleet a Hreach Hr) as (t & E & Hml & Hlen & [[HT Hl]|[[f Hf] Hl]]);
    unfold shown in *.
  - rewrite HT, E. unfold windQueryOf. cbv zeta. rewrite launchOf_short; [reflexivity|].
    apply length_page_path. rewrite E in HT.
    apply figuresOf_Throws_iff in HT as (_ & Hnil & Hp). auto.
  - rewrite Hf. destruct (windQueryOf_Shown _ _ _ _ Hf) as (d' & lp' & _ & ->). eauto.
Qed.

(** C16: what a reachable plan page draws.  The page is never the
    placeholder; it throws for a plan of one delivery, and then no wind is
    asked for.  Otherwise the plan has at least two deliveries, the list of
    stops and the table of locations have one row for every delivery, the
    depot and the launch and landing sites, the wind is asked for, the
    prediction panel is absent and the page says that no prediction was
    used, whatever the stored result of the predictor is. *)
Theorem plan_page_view fleet a :
  reachable fleet a -> route a = PathPlanningPage ->
  exists t, trip a = Some t /\
    match shownView a with
    | Loading => False
    | Throws =>
        length (deliveries t) = 1%nat /\
        windQueryOf (G := Gkm) (trip a) (truckPolyline a) = None
    | Shown v =>
        (2 <= length (deliveries t))%nat /\
        v_mlPanel v = None /\ v_noMlPrediction v = true /\
        length (v_steps v) = (length (deliveries t) + 3)%nat /\
        length (v_locations v) = (length (deliveries t) + 3)%nat /\
        v_wind v = windLine (winds a).1 /\
        is_Some (windQueryOf (G := Gkm) (trip a) (truckPolyline a))
    end.
Proof.
  intros Hreach Hr. pose proof (page_wind_query fleet a Hreach Hr) as Hq.
  destruct (page_render fleet a Hreach Hr) as (t & E & Hml & Hlen & [[HT Hl]|[[f Hf] Hl]]);
    exists t; (split; [exact E|]); unfold shownView, shown in *.
  - rewrite HT in Hq. now rewrite (viewOf_Throws _ _ _ (winds a).1 _ HT).
  - rewrite Hf in Hq.
    destruct (viewOf_Shown _ _ _ (winds a).1 (routeError a) _ Hf)
      as (t' & d & lp & ms & Et & _ & _ & _ & ->).
    rewrite E in Et. injection Et as <-. rewrite E in Hq |- *.
    cbn [v_mlPanel v_noMlPrediction v_steps v_locations v_wind].
    unfold stepRows, locationRows.
    rewrite length_imap, length_fmap, length_traversalPoints, length_pageOf_order, Hml.
    split_and!; eauto; lia.
Qed.

Lemma submit_Some now a t :
  optimizeTrip (G := Gmi) (drones a) now (toDelivery <$> del a) = Some t ->
  submit now a = mkApp PathPlanningPage
                   (mkStore (Some t) None (allTrips (store a)) (dronesList (store a))
                      (xgbResult (store a)))
                   (drones a) (num a) (del a) (Some t) (alerts a)
                   mountRoutes.1 mountRoutes.2 (remount (winds a))
                   (mkDeps placeholderOrder None) (posts a).
Proof. intros E. unfold submit. now rewrite E. Qed.

(** A [Submit] step runs [submit] on a form that passes the validation. *)
Lemma submit_step a now a' :
  step a (Submit now) a' -> a' = submit now a /\ valid_form a = true.
Proof. inversion 1; subst; auto. Qed.

Lemma deliveries_optimizeTrip fleet now deliveries t :
  optimizeTrip (G := Gmi) fleet now deliveries = Some t -> Fleet.deliveries t = deliveries.
Proof. now intros (i & d & dr & rest & _ & _ & -> & _)%optimizeTrip_Some. Qed.

(** ** [submit] of a form the browser accepts *)

(** A weight the browser accepts: a whole number that is not negative. *)
Definition whole_weight (d : Delivery) : Prop := 0 <= weight d /\ whole (weight d) = true.

Lemma valid_row_weight d : valid_row d = true -> whole_weight (toDelivery d).
Proof.
  unfold valid_row, toDelivery. destruct d as [[w|] [la|] [lo|]]; simpl; try discriminate.
  now intros H%(number_valid_whole 0).
Qed.

Lemma valid_form_weights a :
  valid_form a = true -> Forall whole_weight (toDelivery <$> del a).
Proof.
  intros [_ H]%andb_true_iff. rewrite forallb_forall in H.
  apply Forall_fmap, Forall_forall. intros d Hd. now apply valid_row_weight, H.
Qed.

(** The rows of a form the browser accepts are as many as its number of
    deliveries says, and at least one, when that number is the length of
    an array. *)
Lemma valid_form_rows fleet a :
  reachable fleet a -> valid_form a = true -> num a < MAX_ARRAY_LENGTH ->
  num a == ofNat (length (del a)) /\ del a <> [].
Proof.
  intros Ha%wf_reachable [[H1 Hw]%(number_valid_whole 1) _]%andb_true_iff Hn.
  rewrite (wf_num _ _ Ha Hn). change (inject_Z 1) with 1 in H1. split.
  - apply ofNat_toLength; [lra | exact Hw].
  - intros E%(f_equal length). rewrite (wf_num _ _ Ha Hn) in E.
    pose proof (toLength_pos _ H1). simpl in E. lia.
Qed.

Lemma submit_None now a :
  optimizeTrip (G := Gmi) (drones a) now (toDelivery <$> del a) = None ->
  submit now a
  = alert "No feasible drone delivery found. All deliveries assigned to truck." a.
Proof. intros E. unfold submit. now rewrite E. Qed.

(** C15: a [Submit] the browser lets through reads weights that are whole
    numbers and not negative, and as many deliveries as the number of
    deliveries says, at least one, unless that number is too large to be
    the length of an array.  When no delivery has an eligible drone
    the only effect is the alert: no plan is stored and the form stays.
    Otherwise the plan of the optimizer for the rows of the form is stored
    as [latestTrip], [editTrip] is cleared, and the plan page is mounted
    with that plan. *)
Theorem submit_outcome fleet a now a' :
  reachable fleet a -> step a (Submit now) a' ->
  let deliveries := toDelivery <$> del a in
  (num a < MAX_ARRAY_LENGTH -> num a == ofNat (length deliveries) /\ deliveries <> []) /\
  Forall whole_weight deliveries /\
  match optimizeTrip (G := Gmi) fleet now deliveries with
  | None =>
      Forall (fun d => availableDrones fleet d = []) deliveries /\
      a' = alert "No feasible drone delivery found. All deliveries assigned to truck." a
  | Some t =>
      Fleet.deliveries t = deliveries /\ route a' = PathPlanningPage /\
      trip a' = Some t /\ latestTrip (store a') = Some t /\ editTrip (store a') = None
  end.
Proof.
  intros Ha [-> Hv]%submit_step. cbv zeta.
  pose proof (valid_form_weights a Hv) as Hw.
  pose proof (wf_drones _ _ (wf_reachable _ _ Ha)) as Hd.
  split; [|split; [exact Hw|]].
  - intros Hn. destruct (valid_form_rows fleet a Ha Hv Hn) as [Hlen Hne].
    rewrite length_fmap. split; [exact Hlen|]. now intros ?%fmap_nil_inv.
  - pose proof (optimizeTrip_inv (G := Gmi) fleet now (toDelivery <$> del a)) as Hinv.
    destruct (optimizeTrip _ _ _) as [t|] eqn:E; rewrite <- Hd in E.
    + rewrite (submit_Some _ _ _ E). rewrite Hd in E.
      now rewrite (deliveries_optimizeTrip _ _ _ _ E).
    + split; [exact Hinv | now apply submit_None].
Qed.

(** ** "Execute Delivery" *)

Lemma markUnavailable_lookup dr l k d :
  l !! k = Some d ->
  exists d', markUnavailable dr l !! k = Some d' /\
    droneId d' = droneId d /\ payload d' = payload d /\
    currentBattery d' = currentBattery d /\
    available d' = match dr with
                   | Some dr => if decide (droneId d = droneId dr) then false else available d
                   | None => available d
                   end.
Proof.
  intros Hk. destruct dr as [dr|]; simpl; [|eauto 10].
  rewrite list_lookup_fmap, Hk. simpl. eexists. split; [reflexivity|].
  destruct (decide (droneId d = droneId dr)); auto.
Qed.

(** The handlers of two clicks on a page share the trip object, to which
    the rest of a handler writes before it saves it: the trip the second
    one saves is the one it would save had the first not written. *)
Lemma executedTrip_again x f f' t :
  executedTrip x f' (executedTrip x f t) = executedTrip x f' t.
Proof. unfold executedTrip. cbn. f_equal. now destruct (Fleet.drone t). Qed.

(** A click on a page that is drawn keeps what the render showed and
    waits for its request. *)
Lemma executeClick_Shown a f t :
  shown a = Shown f -> trip a = Some t ->
  executeClick a = set_posts a (posts a ++ [mkPost t f (xgbOf a)]).
Proof. intros Hs Ht. unfold executeClick. now rewrite Hs, Ht. Qed.

(** A click whose request ends at once is the rest of the handler on the
    page that was clicked. *)
Lemma execute_Shown a f t postOk :
  shown a = Shown f -> trip a = Some t ->
  execute postOk a = posted (mkPost t f (xgbOf a)) postOk (set_posts a (posts a)).
Proof.
  intros Hs Ht. unfold execute, executeResult. rewrite (executeClick_Shown a f t Hs Ht).
  cbn [posts set_posts]. rewrite lookup_app_r, Nat.sub_diag by lia. cbn [lookup list_lookup].
  f_equal. unfold set_posts. cbn. f_equal.
  rewrite delete_middle. apply app_nil_r.
Qed.

(** C31: "Execute Delivery".  When the request of a click that waits
    succeeds, the trip of the click with the figures of the click is
    appended to [allTrips], [latestTrip] is removed, the drone of that
    plan is marked unavailable in [dronesList], every other drone and
    every other property of a drone stay as they were, and the results
    page is opened, whatever page is shown then; with a failed request
    the store and the page are unchanged.  In both cases the click no
    longer waits. *)
Theorem execute_effects a k p :
  posts a !! k = Some p ->
  let s := store a in
  let a' := executeResult k true a in
  let s' := store a' in
  route a' = TripResultsPage /\
  latestTrip s' = None /\ editTrip s' = editTrip s /\
  allTrips s' = allTrips s ++ [executedTrip (post_xgb p) (post_figures p) (post_trip p)] /\
  length (dronesList s') = length (dronesList s) /\
  (forall i d, dronesList s !! i = Some d ->
     exists d', dronesList s' !! i = Some d' /\
       droneId d' = droneId d /\ payload d' = payload d /\
       currentBattery d' = currentBattery d /\
       available d' = match Fleet.drone (post_trip p) with
                      | Some dr => if decide (droneId d = droneId dr) then false
                                   else available d
                      | None => available d
                      end) /\
  posts a' = delete k (posts a) /\
  store (executeResult k false a) = s /\ route (executeResult k false a) = route a /\
  posts (executeResult k false a) = delete k (posts a).
Proof.
  intros Hk. unfold executeResult. rewrite Hk. cbv zeta. simpl.
  repeat split; try (destruct (Fleet.drone (post_trip p)); simpl; now rewrite ?length_fmap).
  intros i d Hi. now apply markUnavailable_lookup.
Qed.

(** ** "Edit Delivery" and a second submit *)

(** A delivery that the form shows and reads back unchanged: its weight
    is not the 0 that the prefill effect empties. *)
Definition plain (d : Delivery) : Prop := toDelivery (toRow d) = d.

(** A prefilled row passes the validation only when the form reads the
    delivery back as it was. *)
Lemma valid_row_plain d : valid_row (toRow d) = true -> plain d.
Proof.
  destruct d as [w la lo]. unfold plain, valid_row, toDelivery, toRow, or_empty, Number.
  cbn [weight latitude longitude f_weight f_latitude f_longitude].
  now destruct (truthy w).
Qed.

(** A delivery of weight 0, which the form accepts, is prefilled with an
    empty weight, which it refuses; a coordinate 0 is prefilled as it
    is. *)
Example zero_weight_prefill la lo :
  number_valid 0 0 = true /\
  valid_row (toRow (mkDelivery 0 la lo)) = false /\
  valid_row (toRow (mkDelivery 1 0 0)) = true.
Proof. split_and!; reflexivity. Qed.

Lemma valid_form_plain l : forallb valid_row (toRow <$> l) = true -> Forall plain l.
Proof.
  induction l as [|d l IH]; [constructor|].
  cbn [fmap list_fmap forallb]. intros [Hd Hl]%andb_true_iff.
  constructor; [now apply valid_row_plain | now apply IH].
Qed.

Lemma plain_fmap l : Forall plain l -> toDelivery <$> (toRow <$> l) = l.
Proof.
  induction 1 as [|d l Hd _ IH]; [reflexivity|].
  cbn [fmap list_fmap] in *. now rewrite Hd, IH.
Qed.

Lemma edit_Shown a t f :
  shown a = Shown f -> trip a = Some t ->
  edit a = mkApp NewTripPage
             (mkStore (latestTrip (store a)) (Some t) (allTrips (store a))
                (dronesList (store a)) (xgbResult (store a)))
             (drones a) (ofNat (length (editDeliveries t))) (toRow <$> editDeliveries t)
             None (alerts a) idle 0
        (remount (winds a)) noDeps (posts a).
Proof. intros Hs Ht. unfold edit. now rewrite Hs, Ht. Qed.

(** The candidate that flies the first delivery of the edited form is the
    edited plan. *)
Lemma rawHybridCarbon_edit now deliveries i d dr :
  deliveries !! i = Some d ->
  toFixed 2 (rawHybridCarbon (G := Gmi) (d :: delete i deliveries) 0 d)
  = hybridCarbon (tripOf (G := Gmi) now deliveries i d dr).
Proof.
  intros Hi. rewrite hybridCarbon_tripOf. unfold rawHybridCarbon.
  now rewrite !filter_index_ne.
Qed.

(** C30: when the browser accepts the form that "Edit Delivery" prefilled
    and it is submitted unchanged, the result is a plan for the same
    deliveries, the drone delivery now first, whose stored hybrid carbon is
    not above that of the edited plan; [editTrip] is cleared and the plan
    page is shown again. *)
Theorem edit_resubmit_no_worse fleet a t f now' a' :
  reachable fleet a -> route a = PathPlanningPage ->
  trip a = Some t -> shown a = Shown f ->
  step (edit a) (Submit now') a' ->
  exists t', latestTrip (store a') = Some t' /\ editTrip (store a') = None /\
    route a' = PathPlanningPage /\ trip a' = Some t' /\
    deliveries t' ≡ₚ deliveries t /\ hybridCarbon t' <= hybridCarbon t.
Proof.
  intros Hreach Hr Ht Hs Hstep.
  destruct (page_plan fleet a Hreach Hr) as (t0 & now & i & d & dr & E & Hi & Hav & Heq).
  rewrite Ht in E. injection E as <-.
  pose proof (wf_reachable _ _ Hreach) as [Hd _ _ _ _ _ _ _ _ _].
  assert (editDeliveries t = d :: delete i (deliveries t)) as Hed.
  { unfold editDeliveries. rewrite Heq at 1 2. now rewrite truckDeliveries_tripOf. }
  destruct (optimizeTrip_le_candidate (G := Gmi) fleet now' (d :: delete i (deliveries t))
              0 d eq_refl Hav) as (t' & Hopt & Hle).
  apply submit_step in Hstep as [-> [_ Hvalid]%andb_true_iff].
  rewrite (edit_Shown a t f Hs Ht), Hed in Hvalid |- *. cbn [del] in Hvalid.
  rewrite (submit_Some now' _ t').
  2:{ cbn [drones del]. now rewrite Hd, plain_fmap by now apply valid_form_plain. }
  exists t'. cbn [store latestTrip editTrip route trip]. repeat split.
  - rewrite (deliveries_optimizeTrip _ _ _ _ Hopt). symmetry. now apply delete_Permutation.
  - rewrite (rawHybridCarbon_edit now _ i d dr Hi), <- Heq in Hle. exact Hle.
Qed.

(** ** The effects in a step *)

(** What an event may do to the state of an effect [s]: leave it, start it
    anew in one of the states [fresh] of a mount, or take the step [R] of
    its machine. *)
Inductive EffectStep {S} (fresh : list S) (R : relation S) (s s' : S) : Prop :=
| effect_same : s' = s -> EffectStep fresh R s s'
| effect_fresh : s' ∈ fresh -> EffectStep fresh R s s'
| effect_step : R s s' -> EffectStep fresh R s s'.

(** The states of the route effect after a mount: that of [NewTrip],
    which has no such effect, and that of [PathPlanning] after the effect
    of its first render. *)
Definition mounted : list Routes := [(idle, 0%nat); mountRoutes].

(** Split a goal on the effects of a step and close the parts in which
    an effect stays or starts anew; steps of a machine are left. *)
Ltac effects :=
  split_and!;
  try first [ reflexivity | exact I | apply effect_same; reflexivity
            | apply effect_fresh; unfold mounted, routes; cbn [routing pending];
              rewrite <- ?surjective_pairing; solve [repeat constructor]
            | apply effect_step ].

Lemma routeStart_routes a :
  routes (routeStart a)
  = if routeGuard (orderOf a) then (fetchRoute_start a, S (pending a)) else routes a.
Proof.
  unfold routeStart.
  now destruct (routeEffect_cases (orderOf a) a) as [[-> (q & ->)]|[-> ->]].
Qed.

Lemma windStart_winds a :
  winds (windStart a)
  = if windQueryOf (G := Gkm) (trip a) (truckPolyline a) is Some _
    then (fetchWind_start (winds a).1, S (winds a).2) else winds a.
Proof. reflexivity. Qed.

Lemma routeResult_step a r :
  (0 < pending a)%nat -> route_step (orderOf a) (routes a) (routes (routeResult r a)).
Proof.
  unfold routes, routeResult. simpl. destruct (pending a) as [|n]; [lia|]. intros _.
  apply (flight_end (F := route_fetch)).
Qed.

Lemma windResult_step a r q :
  (0 < (winds a).2)%nat -> wind_step q (winds a) (winds (windResult r a)).
Proof.
  unfold windResult. simpl. destruct (winds a) as [w [|n]]; simpl; [lia|]. intros _.
  apply wind_end.
Qed.

(** C19: the application runs the two fetch effects as their machines:
    in every step the state of the route effect with its requests that are
    out stays as it is, starts anew with a mount, or takes a step of
    [Routing.route_step] under the guard of the effect, and the state of
    the wind effect does the same with [Wind.wind_step]; a route event
    leaves the wind alone and a wind event the route; an answer is a step
    of its machine, a run of an effect is one or leaves the state when
    its guard fails; and opening the plan page with a stored plan runs the
    route effect of its first render. *)
Theorem step_effects a e a' :
  step a e a' ->
  EffectStep mounted (route_step (orderOf a)) (routes a) (routes a') /\
  EffectStep [remount (winds a)]
    (wind_step (windQueryOf (G := Gkm) (trip a) (truckPolyline a))) (winds a) (winds a') /\
  match e with
  | RouteStart =>
      routes a' = (if routeGuard (orderOf a) then (fetchRoute_start a, S (pending a))
                   else routes a) /\
      winds a' = winds a
  | RouteResult _ =>
      route_step (orderOf a) (routes a) (routes a') /\ winds a' = winds a
  | WindStart =>
      winds a' = (if windQueryOf (G := Gkm) (trip a) (truckPolyline a) is Some _
                  then (fetchWind_start (winds a).1, S (winds a).2) else winds a) /\
      routes a' = routes a
  | WindResult _ =>
      wind_step (windQueryOf (G := Gkm) (trip a) (truckPolyline a)) (winds a) (winds a') /\
      routes a' = routes a
  | Open NewTripPage => routes a' = (idle, 0%nat) /\ winds a' = remount (winds a)
  | Open PathPlanningPage =>
      routes a' = (if latestTrip (store a) is Some _ then mountRoutes else (idle, 0%nat)) /\
      winds a' = remount (winds a)
  | Open TripResultsPage => False
  | SetNum _ | SetField _ _ _ | Execute | ExecuteResult _ _ =>
      routes a' = routes a /\ winds a' = winds a
  | Submit _ | Edit => True
  end.
Proof.
  destruct 1 as [a v Hp|a i f v Hp|a now Hp Hv|a Hp Hg|a r Hp Hn|a Hp Hq|a r Hp Hn
                |a Hp|a k ok Hk|a Hp|a|a].
  - effects.
  - effects.
  - unfold submit, mountPathPlanning. destruct (optimizeTrip _ _ _); effects.
  - rewrite routeStart_routes. destruct (routeGuard (orderOf a)) eqn:Hgd; effects.
    now apply (flight_start (F := route_fetch)).
  - effects; now apply routeResult_step.
  - rewrite windStart_winds. destruct (winds a) as [w n] eqn:Ew.
    destruct (windQueryOf _ _) eqn:Eq; effects. now apply wind_start.
  - effects; now apply windResult_step.
  - unfold executeClick. destruct (shown a); [| |destruct (trip a)]; effects.
  - unfold executeResult, posted. destruct (posts a !! k); [destruct ok|]; effects.
  - unfold edit. destruct (shown a); [| |destruct (trip a)]; effects.
  - unfold mountNewTrip. destruct (editTrip (store a)); effects.
  - unfold mountPathPlanning, mountNewTrip.
    destruct (latestTrip (store a)); [|destruct (editTrip (store a))]; effects.
Qed.

(** ** The route fetch in a reachable state *)

(** The page after the answers [rs] of the service, the oldest first. *)
Definition answered (rs : list RouteResponse) (a : App) : App :=
  foldl (fun a r => routeResult r a) a rs.

(** An answer leaves the page there. *)
Lemma routeResult_reachable fleet a r :
  reachable fleet a -> drawn a -> (0 < pending a)%nat ->
  reachable fleet (routeResult r a) /\ drawn (routeResult r a).
Proof.
  intros Ha Hd Hn.
  assert (reachable fleet (routeResult r a)) as Hr
    by (eapply reachable_step; [exact Ha | now apply step_routeResult]).
  split; [exact Hr|]. apply wf_reachable in Ha, Hr. now apply (drawn_keeps fleet a).
Qed.

Lemma windResult_reachable fleet a r :
  reachable fleet a -> drawn a -> (0 < (winds a).2)%nat ->
  reachable fleet (windResult r a) /\ drawn (windResult r a).
Proof.
  intros Ha Hd Hn.
  assert (reachable fleet (windResult r a)) as Hr
    by (eapply reachable_step; [exact Ha | now apply step_windResult]).
  split; [exact Hr|]. apply wf_reachable in Ha, Hr. now apply (drawn_keeps fleet a).
Qed.

Lemma answered_reachable fleet rs : forall a,
  reachable fleet a -> drawn a -> length rs = pending a ->
  reachable fleet (answered rs a) /\ pending (answered rs a) = 0%nat.
Proof.
  induction rs as [|r rs IH]; intros a Ha Hp Hlen; [now split|].
  simpl in Hlen. destruct (routeResult_reachable fleet a r Ha Hp) as [Hr Hd]; [lia|].
  apply (IH (routeResult r a) Hr Hd). simpl. lia.
Qed.

(** While the route is loading a request is out and no error is shown. *)
Lemma loading_pending fleet a :
  reachable fleet a -> loadingRoute a = true ->
  routeError a = None /\ (0 < pending a)%nat.
Proof. intros Ha%wf_reachable. apply (route_reachable_loading _ (wf_routes _ _ Ha)). Qed.

(** C20: the plan page stops loading the route: in every state of a run
    in which the page is there, while the route is loading a request is
    out, its answer can arrive, and when the answers of all the requests
    that are out have arrived, whatever they are, the route is not
    loading. *)
Theorem route_answers_settle fleet a rs :
  reachable fleet a -> drawn a ->
  (loadingRoute a = true -> forall r, step a (RouteResult r) (routeResult r a)) /\
  (length rs = pending a ->
   reachable fleet (answered rs a) /\ pending (answered rs a) = 0%nat /\
   loadingRoute (answered rs a) = false).
Proof.
  intros Ha Hp. split.
  - intros Hl r. apply step_routeResult; [exact Hp|]. now apply (loading_pending fleet).
  - intros Hlen. destruct (answered_reachable fleet rs a Ha Hp Hlen) as [Hr Hz].
    split_and!; [exact Hr | exact Hz |].
    destruct (loadingRoute (answered rs a)) eqn:El; [|reflexivity].
    destruct (loading_pending fleet _ Hr El). lia.
Qed.

(** ** The wind fetch in a reachable state *)

(** The page after the responses [rs] of the weather service, the oldest
    first. *)
Definition wind_answered (rs : list WindResponse) (a : App) : App :=
  foldl (fun a r => windResult r a) a rs.

Lemma wind_answered_reachable fleet rs : forall a,
  reachable fleet a -> drawn a -> length rs = (winds a).2 ->
  reachable fleet (wind_answered rs a) /\ (winds (wind_answered rs a)).2 = 0%nat.
Proof.
  induction rs as [|r rs IH]; intros a Ha Hp Hlen; [now split|].
  simpl in Hlen. destruct (windResult_reachable fleet a r Ha Hp) as [Hr Hd]; [lia|].
  apply (IH (windResult r a) Hr Hd). simpl. lia.
Qed.

(** A request for the wind is out only on a page that is there. *)
Lemma wind_out_drawn fleet a :
  reachable fleet a -> route a = PathPlanningPage -> (0 < (winds a).2)%nat -> drawn a.
Proof.
  intros Ha%wf_reachable Hp Hn. apply (drawn_iff fleet a Ha). split; [exact Hp|].
  destruct (wf_page _ _ Ha Hp) as [[t E] _]. exists t. split; [exact E|].
  now apply (wf_asked _ _ Ha Hp Hn).
Qed.

Lemma wind_answered_settled fleet rs a :
  reachable fleet a -> route a = PathPlanningPage -> length rs = (winds a).2 ->
  reachable fleet (wind_answered rs a) /\ (winds (wind_answered rs a)).2 = 0%nat.
Proof.
  intros Ha Hp Hlen. destruct (decide ((winds a).2 = 0%nat)) as [Hz|Hnz].
  - rewrite Hz in Hlen. apply nil_length_inv in Hlen as ->. now split.
  - apply wind_answered_reachable; [exact Ha | | exact Hlen].
    apply (wind_out_drawn fleet); [exact Ha | exact Hp | lia].
Qed.

(** While the line shows "Loading..." a request for the wind is out. *)
Lemma wind_loading_pending fleet a :
  reachable fleet a -> windLoading (winds a).1 = true -> (0 < (winds a).2)%nat.
Proof.
  intros [stored Hw]%wf_reachable%wf_winds Hl.
  now destruct (wind_reachable_loading _ _ Hw Hl).
Qed.

(** C21: the wind effect on the plan page of a run.  The effect has a
    point to ask about exactly when the page is drawn, and it runs exactly
    when the page is drawn and the launch point is not the one of its
    last run; while the wind line shows "Loading..." a request is out and
    its answer can arrive; and when the answers of all the requests that
    are out have arrived, whatever they are, the line does not show
    "Loading...". *)
Theorem plan_page_wind fleet a rs :
  reachable fleet a -> route a = PathPlanningPage ->
  (is_Some (windQueryOf (G := Gkm) (trip a) (truckPolyline a)) <->
   exists f, shown a = Shown f) /\
  ((exists a', step a WindStart a') <->
   (exists f, shown a = Shown f) /\ windChanged a = true) /\
  (wl_loading (windLine (winds a).1) = true ->
   forall r, step a (WindResult r) (windResult r a)) /\
  (length rs = (winds a).2 ->
   reachable fleet (wind_answered rs a) /\
   wl_loading (windLine (winds (wind_answered rs a)).1) = false).
Proof.
  intros Ha Hp. pose proof (page_wind_query fleet a Ha Hp) as Hq.
  assert (is_Some (windQueryOf (G := Gkm) (trip a) (truckPolyline a)) <->
          exists f, shown a = Shown f) as Hiff.
  { destruct (shown a) as [| |f]; [done | rewrite Hq | ]; split; eauto.
    - now intros []%is_Some_None.
    - now intros [f [=]]. }
  split_and!; [exact Hiff | | |].
  - split.
    + intros [a' Hs]. inversion Hs as [| | | | |? [_ Hd] Hc| | | | | |]; subst.
      split; [|exact Hc]. destruct (shown a) as [| |f]; [done..|eauto].
    + intros [[f Hf] Hc]. eexists. apply step_windStart; [|exact Hc].
      split; [exact Hp | now rewrite Hf].
  - intros Hl r. pose proof (wind_loading_pending fleet _ Ha Hl) as Hn.
    apply step_windResult; [now apply (wind_out_drawn fleet) | exact Hn].
  - intros Hlen. destruct (wind_answered_settled fleet rs a Ha Hp Hlen) as [Hr Hz].
    split; [exact Hr|]. simpl.
    destruct (windLoading (winds (wind_answered rs a)).1) eqn:El; [|reflexivity].
    pose proof (wind_loading_pending fleet _ Hr El). lia.
Qed.

(** ** The requests a page sends *)

(** The requests that are out and the runs of the two effects that are
    still to come: a page sends at most two requests for the route, that
    of its mount and that for the route of its plan, and one request for
    the wind for its plan and for every answer on the route. *)
Record sent (a : App) : Prop := mkSent {
  sent_route : (pending a + Nat.b2n (routeChanged a) <= 2)%nat;
  sent_all : ((winds a).2 + Nat.b2n (windChanged a)
              + (pending a + Nat.b2n (routeChanged a)) <= 3)%nat
}.

Lemma b2n_le b : (Nat.b2n b <= 1)%nat.
Proof. destruct b; simpl; lia. Qed.

Lemma sent_fresh a : (pending a <= 1)%nat -> (winds a).2 = 0%nat -> sent a.
Proof.
  intros Hp Hw. pose proof (b2n_le (routeChanged a)). pose proof (b2n_le (windChanged a)).
  split; lia.
Qed.

Lemma sent_mount a t : latestTrip (store a) = Some t -> sent (mountPathPlanning a).
Proof.
  intros E. unfold mountPathPlanning. rewrite E. apply sent_fresh; [|reflexivity].
  cbn [pending]. destruct mountRoutes_cases as [->| ->]; simpl; lia.
Qed.

(** A run of the route effect keeps its dependency: the effect does not
    run again for the same order. *)
Lemma routeChanged_routeStart a : routeChanged (routeStart a) = false.
Proof. unfold routeChanged. cbn. now rewrite same_points_refl. Qed.

Lemma windChanged_windStart a : windChanged (windStart a) = false.
Proof. unfold windChanged. cbn. now rewrite same_deps_refl. Qed.

Lemma windChanged_routeStart a : windChanged (routeStart a) = windChanged a.
Proof.
  unfold windChanged, routeStart.
  now destruct (routeEffect_cases (orderOf a) a) as [[_ (q & ->)]|[_ ->]].
Qed.

Lemma pending_routeStart a : (pending (routeStart a) <= S (pending a))%nat.
Proof.
  change (pending (routeStart a)) with (routes (routeStart a)).2.
  rewrite routeStart_routes. destruct (routeGuard _); simpl; lia.
Qed.

Lemma winds_windStart a : ((winds (windStart a)).2 <= S (winds a).2)%nat.
Proof. rewrite windStart_winds. destruct (windQueryOf _ _); simpl; lia. Qed.

Lemma sent_routeStart a : routeChanged a = true -> sent a -> sent (routeStart a).
Proof.
  intros Hc [H1 H2]. rewrite Hc in H1, H2. pose proof (pending_routeStart a).
  split; rewrite routeChanged_routeStart, ?windChanged_routeStart;
    change (winds (routeStart a)) with (winds a); simpl in *; lia.
Qed.

Lemma sent_windStart a : windChanged a = true -> sent a -> sent (windStart a).
Proof.
  intros Hc [H1 H2]. rewrite Hc in H2. pose proof (winds_windStart a).
  split; rewrite ?windChanged_windStart;
    change (routeChanged (windStart a)) with (routeChanged a);
    change (pending (windStart a)) with (pending a); simpl in *; lia.
Qed.

Lemma sent_routeResult r a : (0 < pending a)%nat -> sent a -> sent (routeResult r a).
Proof.
  intros Hp [H1 H2]. pose proof (b2n_le (windChanged (routeResult r a))).
  pose proof (b2n_le (windChanged a)).
  split; change (routeChanged (routeResult r a)) with (routeChanged a);
    change (pending (routeResult r a)) with (Nat.pred (pending a));
    change (winds (routeResult r a)) with (winds a); lia.
Qed.

Lemma sent_windResult r a : (0 < (winds a).2)%nat -> sent a -> sent (windResult r a).
Proof.
  intros Hp [H1 H2].
  split; change (routeChanged (windResult r a)) with (routeChanged a);
    change (windChanged (windResult r a)) with (windChanged a);
    change (pending (windResult r a)) with (pending a);
    change (winds (windResult r a)).2 with (Nat.pred (winds a).2); lia.
Qed.

(** The form page has no such requests: a step that ends on the plan
    page started there or was a mount. *)
Lemma sent_step a e a' :
  step a e a' -> (route a = PathPlanningPage -> sent a) ->
  route a' = PathPlanningPage -> sent a'.
Proof.
  destruct 1 as [a v Hp|a i f v Hp|a now Hp Hv|a [Hp _] Hc|a r [Hp _] Hn|a [Hp _] Hc
                |a r [Hp _] Hn|a [Hp _]|a k ok Hk|a [Hp _]|a|a]; intros Hs Hr;
    try (cbn in Hr; congruence);
    auto using sent_routeStart, sent_routeResult, sent_windStart, sent_windResult.
  - unfold submit in *. destruct (optimizeTrip _ _ _); [|cbn in Hr; congruence].
    now eapply sent_mount.
  - unfold executeClick in *. destruct (shown a); [auto..|]. destruct (trip a); [|auto].
    apply Hs in Hp as [H1 H2]. now split.
  - unfold executeResult, posted in *. destruct (posts a !! k); [|auto].
    destruct ok; [discriminate|]. apply Hs in Hr as [H1 H2]. now split.
  - unfold edit, mountNewTrip in *. destruct (shown a); [auto..|]. destruct (trip a); [|auto].
    discriminate.
  - unfold mountNewTrip in Hr. destruct (editTrip (store a)); discriminate.
  - unfold mountPathPlanning, mountNewTrip in *.
    destruct (latestTrip (store a)) eqn:E; [|destruct (editTrip (store a)); discriminate].
    pose proof (sent_mount a _ E) as H. unfold mountPathPlanning in H. now rewrite E in H.
Qed.

Lemma sent_reachable fleet a :
  reachable fleet a -> route a = PathPlanningPage -> sent a.
Proof.
  induction 1 as [|a e a' _ IH Hs]; [discriminate|]. now apply (sent_step a e a').
Qed.

(** C23: the requests of a plan page are bounded: in every state of a
    run at most two requests for the route are out, that of the mount for
    the placeholder order and that for the route of the plan, and at most
    three requests for the wind and for the route together with the runs
    of the two effects that are still to come; after a run of the route
    effect it does not run again. *)
Theorem requests_bounded fleet a :
  reachable fleet a -> route a = PathPlanningPage ->
  (pending a <= 2)%nat /\ ((winds a).2 + pending a <= 3)%nat /\
  (routeChanged a = true -> (pending a <= 1)%nat) /\
  (forall a', step a RouteStart a' -> forall a'', ~ step a' RouteStart a'').
Proof.
  intros Ha Hp. destruct (sent_reachable fleet a Ha Hp) as [H1 H2].
  split_and!; [lia | lia | intros Hc; rewrite Hc in H1; simpl in H1; lia |].
  intros a' Hs a'' Hs'. inversion Hs; subst.
  inversion Hs' as [| | |? _ Hc| | | | | | | |]; subst.
  now rewrite routeChanged_routeStart in Hc.
Qed.

(** ** The runs of the effects after a render *)

(** A run of one of the two fetch effects. *)
Definition effect_run (a a' : App) : Prop :=
  step a RouteStart a' \/ step a WindStart a'.

(** The page after the effects of a render: the route effect, then the
    wind effect, each when a dependency of it changed. *)
Definition flushEffects (a : App) : App :=
  let a1 := if routeChanged a then routeStart a else a in
  if windChanged a1 then windStart a1 else a1.

(** The runs of the effects that are still to come. *)
Definition owed (a : App) : nat := (Nat.b2n (routeChanged a) + Nat.b2n (windChanged a))%nat.

Lemma effect_run_owed a a' : effect_run a a' -> (owed a' < owed a)%nat.
Proof.
  intros [H|H]; inversion H as [| | |? _ Hc| |? _ Hc| | | | | |]; subst; unfold owed.
  - rewrite routeChanged_routeStart, windChanged_routeStart, Hc. simpl. lia.
  - rewrite windChanged_windStart, Hc.
    change (routeChanged (windStart a)) with (routeChanged a). simpl. lia.
Qed.

(** A run of an effect keeps the page and what it draws from. *)
Lemma effect_run_keeps fleet a a' :
  reachable fleet a -> drawn a -> effect_run a a' ->
  reachable fleet a' /\ drawn a' /\ trip a' = trip a /\ truckPolyline a' = truckPolyline a.
Proof.
  intros Ha Hd Hs.
  assert (reachable fleet a') as Ha' by (destruct Hs; eapply reachable_step; eauto).
  assert (route a' = route a /\ trip a' = trip a /\ truckPolyline a' = truckPolyline a)
    as (Hr & Ht & Hp).
  { destruct Hs as [H|H]; inversion H; subst; [|now split_and!].
    unfold routeStart.
    now destruct (routeEffect_cases (orderOf a) a) as [[_ (q & ->)]|[_ ->]]. }
  split_and!; [exact Ha' | | exact Ht | exact Hp].
  apply wf_reachable in Ha, Ha'. now apply (drawn_keeps fleet a).
Qed.

Lemma effect_runs_keep fleet a a' :
  reachable fleet a -> drawn a -> rtc effect_run a a' ->
  reachable fleet a' /\ drawn a' /\ trip a' = trip a /\ truckPolyline a' = truckPolyline a.
Proof.
  intros Ha Hd Hs. induction Hs as [a|a a1 a' H1 _ IH]; [now split_and!|].
  destruct (effect_run_keeps fleet a a1 Ha Hd H1) as (Ha1 & Hd1 & Ht & Hp).
  destruct (IH Ha1 Hd1) as (? & ? & -> & ->). now split_and!.
Qed.

(** On a page that is there the effects run in the order of the code. *)
Lemma flushEffects_run fleet a :
  reachable fleet a -> drawn a -> rtc effect_run a (flushEffects a).
Proof.
  intros Ha Hd. unfold flushEffects.
  assert (exists a1, a1 = (if routeChanged a then routeStart a else a) /\
                     rtc effect_run a a1) as (a1 & <- & H1).
  { eexists. split; [reflexivity|]. destruct (routeChanged a) eqn:Hc; [|reflexivity].
    apply rtc_once. left. now apply step_routeStart. }
  destruct (effect_runs_keep fleet a a1 Ha Hd H1) as (_ & Hd1 & _).
  destruct (windChanged a1) eqn:Hc; [|exact H1].
  eapply rtc_r; [exact H1|]. right. now apply step_windStart.
Qed.

Lemma flushEffects_done a :
  routeChanged (flushEffects a) = false /\ windChanged (flushEffects a) = false.
Proof.
  unfold flushEffects.
  assert (routeChanged (if routeChanged a then routeStart a else a) = false) as H1
    by (destruct (routeChanged a) eqn:Hc; [apply routeChanged_routeStart | exact Hc]).
  destruct (windChanged _) eqn:Hc; [|now split].
  split; [exact H1 | apply windChanged_windStart].
Qed.

(** C24: the effects of a render come to rest.  On a plan page of a run
    that is there, every sequence of runs of the two fetch effects ends:
    none of them changes a dependency of the other or its own.  The runs
    in the order of the code lead to a page on which no effect has to
    run, and so does every other order, with the same plan and the same
    polyline on the page. *)
Theorem effects_settle fleet a :
  reachable fleet a -> drawn a ->
  sn effect_run a /\
  rtc effect_run a (flushEffects a) /\
  routeChanged (flushEffects a) = false /\ windChanged (flushEffects a) = false /\
  forall a', rtc effect_run a a' ->
    reachable fleet a' /\ trip a' = trip a /\ truckPolyline a' = truckPolyline a /\
    (nf effect_run a' -> routeChanged a' = false /\ windChanged a' = false).
Proof.
  intros Ha Hd. destruct (flushEffects_done a) as [Hr Hw].
  split_and!; [|now apply (flushEffects_run fleet)|exact Hr|exact Hw|].
  - apply (sn_measure effect_run owed). intros x y. apply effect_run_owed.
  - intros a' Hs. destruct (effect_runs_keep fleet a a' Ha Hd Hs) as (Ha' & Hd' & Ht & Hp).
    split_and!; [exact Ha' | exact Ht | exact Hp |]. intros Hnf.
    split; apply not_true_is_false; intros Hc; apply Hnf; eexists.
    + left. now apply step_routeStart.
    + right. now apply step_windStart.
Qed.

End Pages.

(** ** Runs of the application *)

#[local] Existing Instance example_env.
#[local] Existing Instance taxicab_units.

(** The figures a render shows, or [d] when it shows none. *)
Definition figures_or (d : Figures) (r : Render Figures) : Figures :=
  match r with Shown f => f | _ => d end.

Definition example_shown : Figures :=
  figures_or (mkFigures 0 0 0 0 0 0 0 0 0 0 0 0 0 0 0) (shown (U := taxicab_units) example_app).

Definition example_plan_trip : Trip :=
  tripOf (G := taxicab) "t0"
    [mkDelivery 5 13.9716 77.5946; mkDelivery 3 12.9716 78.5946] 0
    (mkDelivery 5 13.9716 77.5946) (mkDrone "D1" 10 50 true).

Lemma example_app_trip : trip example_app = Some example_plan_trip.
Proof. vm_compute. reflexivity. Qed.

Lemma example_app_shown : shown (U := taxicab_units) example_app = Shown example_shown.
Proof. vm_compute. reflexivity. Qed.

(** The plan page of a form with one delivery throws. *)
Lemma single_delivery_throws :
  route single_delivery_app = PathPlanningPage /\
  shown (U := taxicab_units) single_delivery_app = Throws.
Proof. split; vm_compute; reflexivity. Qed.

Lemma plan_page_outcome_witness :
  exists t, trip example_app = Some t /\ shown (U := taxicab_units) example_app <> Loading /\
    (shown (U := taxicab_units) example_app = Throws <-> length (deliveries t) = 1%nat).
Proof.
  apply (plan_page_outcome (U := taxicab_units) example_fleet example_app example_reachable).
  vm_compute. reflexivity.
Defined.

(** The page of the example with a click that waits. *)
Definition clicked_app : App := executeClick example_app.

Lemma execute_effects_witness :
  let a := clicked_app in
  let p := mkPost example_plan_trip example_shown (xgbOf example_app) in
  let s := store a in
  let a' := executeResult 0 true a in
  let s' := store a' in
  route a' = TripResultsPage /\
  latestTrip s' = None /\ editTrip s' = editTrip s /\
  allTrips s' = allTrips s ++ [executedTrip (post_xgb p) (post_figures p) (post_trip p)] /\
  length (dronesList s') = length (dronesList s) /\
  (forall i d, dronesList s !! i = Some d ->
     exists d', dronesList s' !! i = Some d' /\
       droneId d' = droneId d /\ payload d' = payload d /\
       currentBattery d' = currentBattery d /\
       available d' = match Fleet.drone (post_trip p) with
                      | Some dr => if decide (droneId d = droneId dr) then false
                                   else available d
                      | None => available d
                      end) /\
  posts a' = delete 0%nat (posts a) /\
  store (executeResult 0 false a) = s /\ route (executeResult 0 false a) = route a /\
  posts (executeResult 0 false a) = delete 0%nat (posts a).
Proof.
  apply (execute_effects clicked_app 0
           (mkPost example_plan_trip example_shown (xgbOf example_app))).
  vm_compute. reflexivity.
Defined.

(** Two clicks on "Execute Delivery" before the first request ends: the
    trip is stored twice. *)
Example execute_twice :
  let a := executeResult 0 true (executeResult 0 true (executeClick clicked_app)) in
  reachable example_fleet a /\
  length (allTrips (store a)) = 2%nat /\
  allTrips (store a) !! 0%nat = allTrips (store a) !! 1%nat.
Proof.
  cbv zeta. split; [unfold clicked_app, example_app, example_form, fill; run_steps|].
  split; vm_compute; reflexivity.
Qed.

(** "Execute Delivery", then "Edit Delivery" before the request ends: the
    rest of the handler runs on the form, removes [latestTrip], keeps
    [editTrip] and leaves the form for the results page. *)
Example execute_then_edit :
  let a := edit clicked_app in
  let a' := executeResult 0 true a in
  reachable example_fleet a' /\
  route a = NewTripPage /\ route a' = TripResultsPage /\
  latestTrip (store a') = None /\ editTrip (store a') = Some example_plan_trip /\
  length (allTrips (store a')) = 1%nat.
Proof.
  cbv zeta. split; [unfold clicked_app, example_app, example_form, fill; run_steps|].
  split_and!; vm_compute; reflexivity.
Qed.

Lemma example_resubmit :
  step (U := taxicab_units) (edit (U := taxicab_units) example_app) (Submit "t1")
    (submit (U := taxicab_units) "t1" (edit (U := taxicab_units) example_app)).
Proof. apply step_submit; vm_compute; reflexivity. Qed.

Lemma edit_resubmit_no_worse_witness :
  let a' := submit (U := taxicab_units) "t1" (edit (U := taxicab_units) example_app) in
  exists t', latestTrip (store a') = Some t' /\ editTrip (store a') = None /\
    route a' = PathPlanningPage /\ trip a' = Some t' /\
    deliveries t' ≡ₚ deliveries example_plan_trip /\
    hybridCarbon t' <= hybridCarbon example_plan_trip.
Proof.
  apply (edit_resubmit_no_worse (U := taxicab_units) example_fleet example_app
           example_plan_trip example_shown "t1").
  - exact example_reachable.
  - vm_compute. reflexivity.
  - exact example_app_trip.
  - exact example_app_shown.
  - exact example_resubmit.
Defined.

Lemma example_submit :
  step (U := taxicab_units) example_form (Submit "t0") example_app.
Proof. apply step_submit; vm_compute; reflexivity. Qed.

Lemma example_form_reachable :
  reachable (U := taxicab_units) example_fleet example_form.
Proof. unfold example_form, fill. run_steps. Qed.

Lemma submit_outcome_witness :
  let deliveries := toDelivery <$> del example_form in
  (num example_form < MAX_ARRAY_LENGTH ->
   num example_form == ofNat (length deliveries) /\ deliveries <> []) /\
  Forall whole_weight deliveries /\
  match optimizeTrip (G := taxicab) example_fleet "t0" deliveries with
  | None =>
      Forall (fun d => availableDrones example_fleet d = []) deliveries /\
      example_app
      = alert "No feasible drone delivery found. All deliveries assigned to truck."
          example_form
  | Some t =>
      Fleet.deliveries t = deliveries /\ route example_app = PathPlanningPage /\
      trip example_app = Some t /\ latestTrip (store example_app) = Some t /\
      editTrip (store example_app) = None
  end.
Proof.
  exact (submit_outcome (U := taxicab_units) example_fleet example_form "t0"
           example_app example_form_reachable example_submit).
Defined.

(** The number of deliveries emptied and then set to 2{^32}: [Array.from]
    throws, the form keeps no row, the browser accepts it, and [submit]
    answers that no drone delivery is feasible. *)
Example submit_no_rows :
  let a := setNum MAX_ARRAY_LENGTH (setNum 0 (init example_fleet None)) in
  reachable (U := taxicab_units) example_fleet a /\
  del (setNum 0 (init example_fleet None)) = [] /\ del a = [] /\ valid_form a = true /\
  step (U := taxicab_units) a (Submit "t0")
    (alert "No feasible drone delivery found. All deliveries assigned to truck." a).
Proof.
  cbv zeta. split_and!; try (vm_compute; reflexivity); [run_steps|].
  match goal with |- step ?a _ ?a' =>
    change a' with (submit (U := taxicab_units) "t0" a) end.
  apply step_submit; vm_compute; reflexivity.
Qed.

(** The plan page in a browser with a stored prediction of 7 minutes:
    the load effect reads it, the drone trip takes the predicted time and
    the drone legs are annotated, and the panel of the prediction stays
    absent. *)
Example predicted_page :
  xgbOf predicted_app = Some (mkXgbResult (Some 7) None None None None) /\
  droneTripTime (figures_or example_shown (shown (U := taxicab_units) predicted_app)) == 7 /\
  ~ droneTripTime example_shown == 7.
Proof. split_and!; vm_compute; [reflexivity | reflexivity | discriminate]. Qed.

Lemma plan_page_view_witness :
  exists t, trip predicted_app = Some t /\
    match shownView (U := taxicab_units) predicted_app with
    | Loading => False
    | Throws =>
        length (deliveries t) = 1%nat /\
        windQueryOf (G := taxicab) (trip predicted_app) (truckPolyline predicted_app) = None
    | Shown v =>
        (2 <= length (deliveries t))%nat /\
        v_mlPanel v = None /\ v_noMlPrediction v = true /\
        length (v_steps v) = (length (deliveries t) + 3)%nat /\
        length (v_locations v) = (length (deliveries t) + 3)%nat /\
        v_wind v = windLine (winds predicted_app).1 /\
        is_Some (windQueryOf (G := taxicab) (trip predicted_app) (truckPolyline predicted_app))
    end.
Proof.
  apply (plan_page_view (U := taxicab_units) example_fleet predicted_app
           predicted_reachable).
  vm_compute. reflexivity.
Defined.

(** ** The route fetch *)

(** The mount of the plan page has sent the request for the placeholder
    route, the depot twice. *)
Example example_mount :
  mountRoutes (U := taxicab_units) = (fetchRoute_start idle, 1%nat) /\
  routes example_app = mountRoutes (U := taxicab_units) /\
  requestOf (placeholderOrder (U := taxicab_units))
  = Some (mkRequest (coordsStr [DEFAULT_HQ; DEFAULT_HQ]) "pk.token").
Proof. repeat split. Qed.

(** The answer to that request arrives after the plan is loaded and the
    request for its route is sent: the launch point is then looked for on
    that polyline and is the depot, whatever the deliveries are. *)
Definition stale_route_app : App :=
  routeResult (RouteData (Some [Some (coordsStr [DEFAULT_HQ; DEFAULT_HQ])]))
    (routeStart example_app).

Example stale_route :
  reachable (U := taxicab_units) example_fleet stale_route_app /\
  truckPolyline stale_route_app = [DEFAULT_HQ; DEFAULT_HQ] /\
  let pg := pageOf (G := taxicab) (trip stale_route_app) in
  let launch := launchOf (G := taxicab) (truckPolyline stale_route_app)
                  (optimizedNodeOrder pg) (pg_droneDelivery pg) in
  exists lp, point launch = Some lp /\ lp ≡ DEFAULT_HQ /\ idx launch = 0%nat.
Proof.
  split; [unfold stale_route_app, example_app, example_form, fill; run_steps|].
  split; [reflexivity|]. cbv zeta. eexists. split; [vm_compute; reflexivity|].
  split; [split; vm_compute; reflexivity | vm_compute; reflexivity].
Qed.

(** The two requests of a page, that of its mount failing and that for
    the route of the plan succeeding: the page draws the road polyline under the message that
    straight lines are shown. *)
Example route_error_with_polyline :
  let road := [DEFAULT_HQ; mkLatLng 13 78; mkLatLng 12.9716 78.5946] in
  let a := routeResult (RouteData (Some [Some (coordsStr road)]))
             (routeResult RouteFailed (routeStart example_app)) in
  reachable (U := taxicab_units) example_fleet a /\
  match shownView (U := taxicab_units) a with
  | Shown v =>
      v_truckLine v = Some road /\
      v_routeError v
      = Some "Failed to fetch truck route. Showing straight lines instead."
  | _ => False
  end.
Proof.
  cbv zeta. split; [|vm_compute; split; reflexivity].
  unfold example_app, example_form, fill. run_steps.
Qed.

(** The plan page with two requests for the route out: that of its mount
    and that for the route of the plan. *)
Definition two_requests_app : App := routeStart example_app.

Lemma two_requests_reachable :
  reachable (U := taxicab_units) example_fleet two_requests_app.
Proof. unfold two_requests_app, example_app, example_form, fill. run_steps. Qed.

Lemma route_answers_settle_witness :
  let rs := [RouteFailed; RouteData None] in
  (loadingRoute two_requests_app = true ->
   forall r, step (U := taxicab_units) two_requests_app (RouteResult r)
               (routeResult r two_requests_app)) /\
  (length rs = pending two_requests_app ->
   reachable (U := taxicab_units) example_fleet (answered rs two_requests_app) /\
   pending (answered rs two_requests_app) = 0%nat /\
   loadingRoute (answered rs two_requests_app) = false).
Proof.
  apply (route_answers_settle (U := taxicab_units) example_fleet).
  - exact two_requests_reachable.
  - drawn_now.
Defined.

Lemma requests_bounded_witness :
  let a := two_requests_app in
  (pending a <= 2)%nat /\ ((winds a).2 + pending a <= 3)%nat /\
  (routeChanged (U := taxicab_units) a = true -> (pending a <= 1)%nat) /\
  (forall a', step (U := taxicab_units) a RouteStart a' ->
     forall a'', ~ step (U := taxicab_units) a' RouteStart a'').
Proof.
  apply (requests_bounded (U := taxicab_units) example_fleet).
  - exact two_requests_reachable.
  - reflexivity.
Defined.

(** The bounds are reached: the request of the mount, the request for the
    route of the plan and the request for the wind are out together.  An
    answer with a road polyline then moves the launch point, and the wind
    effect runs again, for that point. *)
Example requests_bound_reached :
  let a := windStart (routeStart example_app) in
  let road := [DEFAULT_HQ; mkLatLng 13.5 77.6; mkLatLng 12.9716 78.5946] in
  let a' := routeResult (RouteData (Some [Some (coordsStr road)])) a in
  reachable example_fleet a' /\
  pending a = 2%nat /\ (winds a).2 = 1%nat /\
  routeChanged a = false /\ windChanged a = false /\ windChanged a' = true /\
  (winds (windStart a')).2 = 2%nat.
Proof.
  cbv zeta. split; [unfold example_app, example_form, fill; run_steps|].
  split_and!; vm_compute; reflexivity.
Qed.

Lemma effects_settle_witness :
  let a := example_app in
  sn (effect_run (U := taxicab_units)) a /\
  rtc (effect_run (U := taxicab_units)) a (flushEffects a) /\
  routeChanged (flushEffects a) = false /\ windChanged (flushEffects a) = false /\
  forall a', rtc (effect_run (U := taxicab_units)) a a' ->
    reachable example_fleet a' /\ trip a' = trip a /\ truckPolyline a' = truckPolyline a /\
    (nf (effect_run (U := taxicab_units)) a' ->
     routeChanged a' = false /\ windChanged a' = false).
Proof.
  apply (effects_settle (U := taxicab_units) example_fleet).
  - exact example_reachable.
  - drawn_now.
Defined.

(** The effects of the plan page of the example: both run, and two
    requests for the route and one for the wind are out. *)
Example example_flushEffects :
  flushEffects example_app = windStart (routeStart example_app) /\
  pending (flushEffects example_app) = 2%nat /\
  (winds (flushEffects example_app)).2 = 1%nat.
Proof. split_and!; vm_compute; reflexivity. Qed.

(** The plan page with a request for the wind out. *)
Definition wind_asked_app : App := windStart example_app.

Lemma wind_asked_reachable :
  reachable (U := taxicab_units) example_fleet wind_asked_app.
Proof. unfold wind_asked_app, example_app, example_form, fill. run_steps. Qed.

Lemma plan_page_wind_witness :
  let a := wind_asked_app in
  let rs := [WindData (Some 4)] in
  (is_Some (windQueryOf (G := taxicab) (trip a) (truckPolyline a)) <->
   exists f, shown (U := taxicab_units) a = Shown f) /\
  ((exists a', step (U := taxicab_units) a WindStart a') <->
   (exists f, shown (U := taxicab_units) a = Shown f) /\
   windChanged (U := taxicab_units) a = true) /\
  (wl_loading (windLine (winds a).1) = true ->
   forall r, step (U := taxicab_units) a (WindResult r) (windResult r a)) /\
  (length rs = (winds a).2 ->
   reachable (U := taxicab_units) example_fleet (wind_answered rs a) /\
   wl_loading (windLine (winds (wind_answered rs a)).1) = false).
Proof.
  apply (plan_page_wind (U := taxicab_units) example_fleet).
  - exact wind_asked_reachable.
  - reflexivity.
Defined.

(** The page asks for the wind, the service answers 4 m/s: the line shows
    the speed and the store holds it for the next pages. *)
Example wind_shown :
  let a := windResult (WindData (Some 4)) wind_asked_app in
  match shownView (U := taxicab_units) a with
  | Shown v => v_wind v = mkWindLine false None (Some 4)
  | _ => False
  end /\
  winds (mountNewTrip a) = (wind_init (Some 4), 0%nat).
Proof. split; vm_compute; reflexivity. Qed.

Lemma step_effects_witness :
  let a := example_app in
  let a' := routeStart example_app in
  EffectStep (mounted (U := taxicab_units))
    (route_step (orderOf (U := taxicab_units) a)) (routes a) (routes a') /\
  EffectStep [remount (winds a)]
    (wind_step (windQueryOf (G := taxicab) (trip a) (truckPolyline a))) (winds a) (winds a') /\
  routes a' = (if routeGuard (orderOf (U := taxicab_units) a)
               then (fetchRoute_start a, S (pending a)) else routes a) /\
  winds a' = winds a.
Proof.
  apply (step_effects (U := taxicab_units) example_app RouteStart).
  apply step_routeStart; [drawn_now | vm_compute; reflexivity].
Defined.
