(* ===== verification/FormView.v ===== *)
(** * FormView: the form that [NewTrip] draws

    The JSX [NewTrip.jsx] returns: the input of the number of deliveries,
    the table with three inputs for every row of [del], and the button.
    An input is its attributes, its value and the event its [onChange]
    fires for a typed value; the validation the browser runs before it
    fires [onSubmit] is read off the attributes [type], [required] and
    [min]: a number input without [step] takes whole steps from its
    [min].

    The file connects the form to [Workflow]: the guard [valid_form] of the
    [Submit] step is that validation ([valid_form_inputs]), and the events
    of [Workflow.step] on the form are those its inputs fire. *)

From stdpp Require Import strings.
From S2P Require Import Prelude JsNum Geodesy Fleet Routing Workflow Pages.

(** ** Data *)

Inductive InputType : Type := TypeNumber | TypeText.

(** An [<input>].  A value is [None] for the empty string; [in_onChange]
    is the event of a typed value. *)
Record Input : Type := mkInput {
  in_type : InputType;
  in_min : option Q;
  in_placeholder : string;
  in_required : bool;
  in_value : option Q;
  in_onChange : option Q -> Event
}.

(** ** The inputs *)

(** The input "Number of Deliveries"; its [onChange] reads
    [Number(e.target.value)]. *)
Definition numInput (num : Q) : Input :=
  mkInput TypeNumber (Some 1) "Enter number of deliveries" true
    (Some num) (fun v => SetNum (Number v)).

(** The three inputs of row [i]. *)
Definition rowInputs (i : nat) (delivery : FormRow) : list Input :=
  [mkInput TypeNumber (Some 0) "Weight" true (f_weight delivery)
     (fun v => SetField i FWeight v);
   mkInput TypeText None "Latitude" true (f_latitude delivery)
     (fun v => SetField i FLatitude v);
   mkInput TypeText None "Longitude" true (f_longitude delivery)
     (fun v => SetField i FLongitude v)].

(** The inputs of the form, in the order of the page. *)
Definition formInputs (a : App) : list Input :=
  numInput (num a) :: mjoin (imap rowInputs (del a)).

(** ** The validation of the browser *)

(** The steps of a number input start at its [min], at 0 when it has
    none. *)
Definition number_ok (min : option Q) (v : Q) : bool :=
  match min with
  | Some m => number_valid m v
  | None => whole v
  end.

(** An input passes when it is not empty if [required] and, a number
    input, when its value is one of its steps. *)
Definition input_valid (i : Input) : bool :=
  match in_value i with
  | None => negb (in_required i)
  | Some v =>
      match in_type i with
      | TypeNumber => number_ok (in_min i) v
      | TypeText => true
      end
  end.

(** [onSubmit] fires when every input passes. *)
Definition form_valid (a : App) : bool := forallb input_valid (formInputs a).

(** ** The guard of [Submit] is the validation *)

Lemma forallb_mjoin {A} (P : A -> bool) (ls : list (list A)) :
  forallb P (mjoin ls) = forallb (forallb P) ls.
Proof.
  induction ls as [|l ls IH]; [reflexivity|].
  change (mjoin (l :: ls)) with (l ++ mjoin ls). rewrite forallb_app, IH. reflexivity.
Qed.

Lemma forallb_imap_const {A B} (P : B -> bool) (Q : A -> bool) (f : nat -> A -> B) l :
  (forall i a, P (f i a) = Q a) -> forallb P (imap f l) = forallb Q l.
Proof.
  intros Hf. revert f Hf. induction l as [|a l IH]; intros f Hf; [reflexivity|].
  simpl. rewrite Hf. f_equal. apply IH. intros i b. apply Hf.
Qed.

Lemma rowInputs_valid i d : forallb input_valid (rowInputs i d) = valid_row d.
Proof.
  destruct d as [[w|] [la|] [lo|]]; cbn; rewrite ?andb_true_r, ?andb_false_r; reflexivity.
Qed.

(** The guard of the [Submit] step is the validation of the form the
    page draws: [valid_form] holds exactly when every input of the form
    passes its [required] and, the number inputs, their [min] and their
    steps of 1. *)
Lemma valid_form_inputs a : valid_form a = form_valid a.
Proof.
  unfold valid_form, form_valid, formInputs.
  change (forallb input_valid (numInput (num a) :: ?l))
    with (number_valid 1 (num a) && forallb input_valid l).
  rewrite forallb_mjoin. f_equal. symmetry.
  apply forallb_imap_const, rowInputs_valid.
Qed.

(** The form has one input and three for every row. *)
Lemma length_formInputs a : length (formInputs a) = (1 + 3 * length (del a))%nat.
Proof.
  unfold formInputs. simpl. f_equal.
  assert (forall (f : nat -> FormRow -> list Input) l,
            (forall i d, length (f i d) = 3%nat) ->
            length (mjoin (imap f l)) = (3 * length l)%nat) as H; [|now apply H].
  intros f l. revert f. induction l as [|d l IH]; intros f Hf; [reflexivity|].
  simpl. rewrite length_app, Hf, IH by (intros; apply Hf). lia.
Qed.

(** ** A form *)

#[local] Existing Instance example_env.
#[local] Existing Instance taxicab_units.

Lemma example_form_inputs :
  in_value <$> formInputs example_form
  = [Some 2; Some 5; Some 13.9716; Some 77.5946; Some 3; Some 12.9716; Some 78.5946] /\
  form_valid example_form = true /\
  form_valid (init example_fleet None) = false.
Proof. split_and!; vm_compute; reflexivity. Qed.

(** A payload of 2.5 kg: the browser does not submit the form, because
    the weight is a number input that has no [step]. *)
Example fractional_weight_refused :
  let a := setField 0 FWeight (Some 2.5) example_form in
  form_valid a = false /\
  forall now a', ~ step (U := taxicab_units) a (Submit now) a'.
Proof.
  cbv zeta. split; [vm_compute; reflexivity|].
  intros now a' [_ Hv]%submit_step. vm_compute in Hv. discriminate.
Qed.

